(* ===== verification/_CoqProject ===== *)
-Q . S2P
Prelude.v
BuddyTree.v
Buddy.v
KMonad.v
CString.v
Structs.v
World.v
Toy.v
Scheduler.v
SchedulerSpec.v
SchedulerThms.v
Queue.v
LockSystem.v
KMutex.v
KMutexThms.v
PageStack.v
Mutex.v
MutexThms.v
Malloc.v
MallocThms.v
Pipes.v
PipesThms.v
Semaphores.v
SemaphoresThms.v
Sleep.v
SleepThms.v
Video.v
VideoThms.v
Terminal.v
TerminalThms.v
Ports.v
Keyboard.v
Mouse.v
KeyboardThms.v
MouseThms.v
Machine.v
System.v
SystemThms.v
Loader.v
Stdio.v
Console.v
CondVar.v
User.v
UserStdio.v
UserStdioThms.v
Shell.v
ShellHeap.v
ShellThms.v
Programs.v
ProdCons.v
Dummy.v
DummyThms.v
Philosophers.v
UserMachine.v
Bmfs.v
BmfsDirectory.v
BmfsCommands.v
BmfsThms.v
BmfsImage.v
ImageChain.v
