(* ===== verification/Prelude.v ===== *)
(** * gatOS: a verification library for the kernel and its programs

    gatOS is a small x86_64 kernel in C with user programs that call it through [int 80h].
    This library is a shallow embedding of the kernel, of the programs in [Userland/] and
    of the tools that pack and write the image, with the theorems that make the parts correct.  File
    and function names below are those under [src/Kernel/] unless another directory is
    given.

    ** How the code is modelled

    - Integers are [Z]; the conversions [int8], [int32], [uint32], [uint64] of this file
      stand where the C code converts.  Pointers are addresses.
    - An array of known size is a list; [aget] and [aset] report an access outside of it
      as [None].  Undefined behaviour (a wild pointer, a struct that is not there) is
      [None] everywhere, so a theorem that an operation returns [Some] also says that it
      touches nothing it should not.
    - Linked structures (processes, threads, slots, queue nodes, pipes, heap blocks) live
      in typed stores, maps from addresses to records; bytes live in [mem], a total map.
      The addresses of the user, from 0x800000 on, are one virtual space: mapping the
      shell at its physical address is recorded in [md_entry] and not followed by [mem].
    - Calls run with interrupts off (the gates are interrupt gates), so kernel code is
      atomic but for [_yield]; [KMonad] is the monad of resumptions for code that yields.
      A computation has a value, faults, or stops at a yield with what is left to do.
    - What the kernel prints with [ncPrint] is a list of outputs of the world.
    - A program of the user is a computation over the class [Sys]: calls into the kernel
      and memory.  Its theorems hold for the environment [Env], whose heap never hands out
      a byte twice (the programs rarely free what they allocate) and whose trace records
      what the program writes and calls; every other call may answer anything.  There is
      always more of that heap in [Env_sys]; it ends in [Env_within], and the theorems on
      the shell say how much of it is enough.  The fourth
      register of a call that passes three arguments is taken to be 0.
    - Processes that share memory ([ProdCons], [Philosophers]) are transition systems with
      a step per C statement; their semaphores are counters, which the kernel's refine
      ([semaphore_refines_counter]), their mutex is what [MutexThms] shows of it.
    - Loops that are not structural take fuel.  Each theorem says how much is enough: the
      length of the ring for [schedule], the number of blocks for the heaps, the height of
      the tree for the page allocator, the length of the text for string routines, the
      bytes the controller holds for the mouse, 200 for the texts of a program, the
      length of what is typed for its input, and for the image one more than its size in
      chunks of 50 KiB.  Running out is [None] and no theorem
      assumes that it does not happen.

    ** The parts, from the bottom up

    - [Prelude]: integers, arrays, bounded loops ([scan_for], [for_range]), tactics.
    - [BuddyTree], [Buddy]: [buddyAllocator.c].  The state is the array of the tree; live
      blocks never overlap, a request fails exactly when no suitable node is free,
      release undoes a request.
    - [KMonad]: the monad; [Field], a part of a larger state.
    - [CString]: memory, [lib.c] and the string routines of [stdio.c].
    - [Stdio]: the conversions and formats of [stdio.c] and [naiveConsole.c], over a
      stream of characters: numbers read back, formats print what they say.  [Console]:
      the screen functions of [naiveConsole.c].
    - [Structs]: the structs of [include/structs.h].
    - [World]: the interfaces [PageAllocator] (what clients rely on in the allocator;
      [Buddy] is an instance) and [World] (what the drivers and the synchronisation rely
      on in the processes; [SchedulerSpec] makes the scheduler an instance, [Toy] is a small
      one for examples), with the classes of their laws.
    - [Scheduler], [SchedulerSpec], [SchedulerThms]: [process.c], [threads.c],
      [scheduler.c].  The circular list refines a round-robin queue; processes are
      created and removed keeping ring, table and ownership of pages; the turn reaches
      every ready process within a round.
    - [LockSystem]: blocking locks as an interface, and what it gives to any number of
      processes in any interleaving; a call that is undefined, as [lockMutex] is with 20
      processes in its queue, is a step after which anything may happen.  [Mutex], [MutexThms] (the table of [Mutex] records
      of [mutex.c]) and [KMutex], [KMutexThms] (its mutexes with a queue) meet it;
      [Semaphores], [SemaphoresThms] are [semaphores.c], with a transition system of
      their own, in which the processes that find the queue of 20 full are counted.
    - [PageStack]: [memoryAllocator.c], and [CondVar]: [condVariable.c], both over the
      mutexes of [KMutex]; nothing in the kernel calls them.
    - [Queue]: [queue.c], over pages of the allocator.
    - [Malloc], [MallocThms]: [malloc.c], the heap of the kernel and those of processes.
    - [Pipes], [PipesThms]: [IPC.c].
    - [Sleep], [SleepThms]: the sleep table and the interrupt table of [interrupts.c].
    - [Video], [VideoThms], [Terminal], [TerminalThms]: [video.c], [terminal.c].
    - [Ports], [Keyboard], [KeyboardThms], [Mouse], [MouseThms]: the drivers [rtc.c],
      [keyboard.c], [mouse.c] over any device behind the I/O ports ([Ports]): the theorems
      hold for every device.
    - [Machine], [System], [SystemThms]: all components side by side; [systemCalls.c], the
      interrupt handlers, [main] of [kernel.c]: the kernel starts, and each system call
      runs its function.
    - [Loader]: [Toolchain/ModulePacker/main.c], [moduleLoader.c] and the first step of
      [kernel.c]: what is packed is what is loaded.
    - [Bmfs]: [Bootloader/BMFS/bmfs.c], the tool that writes the disk image and keeps files
      on it, over the files of the host: [create], [write], [read], [delete] and [initialize]
      as in the code, [list] is [list_files]; what the host decides (files that cannot be
      written, writes that fail) is the class [Host], [qsort] is a parameter that does what
      the C standard says ([sorts]; the insertion sort of [BmfsDirectory] does).
      [BmfsDirectory]: records and free areas; [BmfsCommands], [BmfsThms]: each command
      through [main]; [BmfsImage]: the image that [Image/Makefile] builds.
    - [ImageChain]: the build, from the packer through [bmfs] and Pure64 (a parameter) to the
      modules in memory.
    - [User]: [Sys] and [Env].  [UserStdio], [UserStdioThms]: [stdio.c] of the programs,
      of which [Userland/SHELL/] has the original and the others copies.
    - [Shell], [ShellHeap], [ShellThms]: [Userland/SHELL/shell.c], what it takes of its
      heap and what it does.  [Programs]: the editor, the
      fortunes, the sample module and the [_start] of each program.
    - [Dummy], [DummyThms]: what one process of [Userland/dummy/dummy.c] does.
      [ProdCons], [Philosophers]: what its processes do together.
    - [UserMachine]: the [Machine] as the environment of a program, between whose calls the
      handlers of keyboard and timer run: what a program prints is on the screen, what is
      typed is what it reads.

    ** What the theorems show

    Safety for any number of processes: mutual exclusion, semaphores that grant no more
    than they have, blocks that never overlap, nothing outside of the screen and the
    ring, producers and consumers that keep each item once and in order, philosophers of
    whom no two neighbours eat.  Liveness: no lost wake-up or signal, bounded waiting in the ring, sleepers
    woken on time.  Refinement of an abstract object: the scheduler (a round-robin list),
    the allocator (disjoint blocks), pipes and terminal (queues), the keyboard (the text
    typed is the text read), the semaphores
    (counters), the start of the kernel.  Programs: what a session of the
    shell and of the editor prints and calls, line by line.  Round trips: allocation and
    release, copy and paste, packing and loading, the whole build, numerals, files written to the image and
    read back.  The image: [create] takes the lowest free blocks and keeps files apart, the
    boot sector, Pure64 and the kernel are where the machine reads them.  Each property with hypotheses
    has a witness, an instance at concrete values in which they hold.  Where the code does
    not do what it means to, a lemma shows the behaviour it has (pipes that deadlock on
    their first use, heap blocks merged while in use, a ring that loses its content).

    ** Not modelled

    - Assembly other than the few routines the C code relies on (port access, the atomic
      exchange of a lock, [updateCR3], [finishStartup]): entry stubs, the saving of
      registers.  A context switch is the change of the stack pointers it is given.
    - The boot loader Pure64 ([Bootloader/Pure64/], third-party assembly); headers that
      only declare.
    - Of the host of [Bmfs]: reads that fail, and a failed write that stored a part of its
      bytes; the percentage that [initialize] prints is kept as its two numbers.
    - Memory translation, beyond the entry that [mapModulesLogical] writes. *)

From stdpp Require Export base list gmap numbers strings option.

#[export] Set Default Goal Selector "!".

Declare Scope c_scope.
Delimit Scope c_scope with c.
#[global] Open Scope Z_scope.
#[global] Open Scope c_scope.

(** ** Machine integers

    A C integer is a [Z]; the conversions below are the ones gcc performs on
    x86_64 ([char] is signed, [int] has 32 bits, [long] and pointers 64). *)

Definition wrap_s (w z : Z) : Z := (z + 2 ^ (w - 1)) mod 2 ^ w - 2 ^ (w - 1).
Definition wrap_u (w z : Z) : Z := z mod 2 ^ w.

Abbreviation int8 := (wrap_s 8).
Abbreviation int32 := (wrap_s 32).
Abbreviation uint8 := (wrap_u 8).
Abbreviation uint16 := (wrap_u 16).
Abbreviation uint32 := (wrap_u 32).
Abbreviation uint64 := (wrap_u 64).

Definition INT_MAX : Z := 2147483647.
Definition INT_MIN : Z := -2147483648.

Lemma wrap_s_range w z : 0 < w → - 2 ^ (w - 1) ≤ wrap_s w z < 2 ^ (w - 1).
Proof.
  intros Hw. unfold wrap_s.
  pose proof (Z.mod_pos_bound (z + 2 ^ (w - 1)) (2 ^ w) ltac:(lia)).
  assert (2 ^ w = 2 * 2 ^ (w - 1)) by (rewrite <-Z.pow_succ_r by lia; f_equal; lia).
  lia.
Qed.

Lemma wrap_s_id w z : 0 < w → - 2 ^ (w - 1) ≤ z < 2 ^ (w - 1) → wrap_s w z = z.
Proof.
  intros Hw Hz. unfold wrap_s.
  assert (2 ^ w = 2 * 2 ^ (w - 1)) by (rewrite <-Z.pow_succ_r by lia; f_equal; lia).
  rewrite Z.mod_small by lia. lia.
Qed.

Lemma wrap_u_range w z : 0 ≤ w → 0 ≤ wrap_u w z < 2 ^ w.
Proof. intros Hw. unfold wrap_u. apply Z.mod_pos_bound. lia. Qed.

Lemma wrap_u_id w z : 0 ≤ z < 2 ^ w → wrap_u w z = z.
Proof. intros Hz. unfold wrap_u. apply Z.mod_small. lia. Qed.

Lemma int32_id z : INT_MIN ≤ z ≤ INT_MAX → int32 z = z.
Proof. unfold INT_MIN, INT_MAX. intros ?. apply wrap_s_id; lia. Qed.

(** The C value of a condition. *)
Definition c_bool (b : bool) : Z := if b then 1 else 0.

(** ** Pointers *)

(** A pointer is its address; [NULL] is the macro of [Kernel/include/types.h]. *)
Definition NULL : Z := 0.

(** ** Arrays

    A C array of known size is a list; an access outside of it is undefined
    behaviour, which every model in this development reports as [None]. *)

Section arrays.
Context {A : Type}.
Implicit Types (l : list A) (x : A) (i j : Z).

Definition aget l i : option A :=
    if 0 <=? i then l !! Z.to_nat i else None.

Definition aset l i x : option (list A) :=
    if (0 <=? i) && (i <? Z.of_nat (length l)) then Some (<[Z.to_nat i := x]> l) else None.

  (** The value an in-range [aset] writes. *)
Definition aput l i x : list A := <[Z.to_nat i := x]> l.

Lemma aset_inv l i x l' :
    aset l i x = Some l' → 0 ≤ i < Z.of_nat (length l) ∧ l' = aput l i x.
Proof. unfold aset. case_match eqn:E; naive_solver lia. Qed.

Lemma aset_some l i x :
    0 ≤ i < Z.of_nat (length l) → aset l i x = Some (aput l i x).
Proof.
    intros Hi. unfold aset.
    rewrite (proj2 (Z.leb_le _ _)), (proj2 (Z.ltb_lt _ _)) by lia. done.
  Qed.

Lemma length_aput l i x : length (aput l i x) = length l.
Proof. apply length_insert. Qed.

Lemma aget_some l i : 0 ≤ i < Z.of_nat (length l) → ∃ x, aget l i = Some x.
Proof.
    intros Hi. unfold aget. rewrite (proj2 (Z.leb_le _ _)) by lia.
    apply lookup_lt_is_Some_2. lia.
  Qed.

Lemma aget_inv l i x : aget l i = Some x → 0 ≤ i < Z.of_nat (length l).
Proof.
    unfold aget. case_match eqn:E; [|done].
    intros H%lookup_lt_Some. lia.
  Qed.

Lemma aget_aput_eq l i x : 0 ≤ i < Z.of_nat (length l) → aget (aput l i x) i = Some x.
Proof.
    intros Hi. unfold aget, aput. rewrite (proj2 (Z.leb_le _ _)) by lia.
    apply list_lookup_insert_eq. lia.
  Qed.

Lemma aget_aput_ne l i j x : 0 ≤ i → i ≠ j → aget (aput l i x) j = aget l j.
Proof.
    intros Hi Hne. unfold aget, aput. case_match eqn:E; [|done].
    apply list_lookup_insert_ne. lia.
  Qed.

Lemma aget_nat l i : 0 ≤ i → aget l i = l !! Z.to_nat i.
Proof. intros. unfold aget. by rewrite (proj2 (Z.leb_le _ _)) by lia. Qed.

Lemma aget_of_nat l (n : nat) : aget l (Z.of_nat n) = l !! n.
Proof. rewrite aget_nat by lia. by rewrite Nat2Z.id. Qed.

Lemma aput_id l i x : aget l i = Some x → aput l i x = l.
Proof.
    intros H. pose proof (aget_inv _ _ _ H). rewrite aget_nat in H by lia.
    by apply list_insert_id.
  Qed.

Lemma aget_replicate n x i : 0 ≤ i < Z.of_nat n → aget (replicate n x) i = Some x.
Proof. intros. rewrite aget_nat by lia. apply lookup_replicate_2. lia. Qed.
End arrays.

(** Arrays that agree on every index are equal. *)
Lemma arr_ext {A} (l1 l2 : list A) :
  length l1 = length l2 →
  (∀ i, 0 ≤ i < Z.of_nat (length l1) → aget l1 i = aget l2 i) → l1 = l2.
Proof.
  intros Hlen H. apply list_eq. intros i.
  destruct (decide (i < length l1)%nat) as [Hi|Hi].
  - specialize (H (Z.of_nat i)). rewrite !aget_of_nat in H. apply H. lia.
  - rewrite !lookup_ge_None_2 by lia. done.
Qed.

Create Rewrite HintDb c_arr.
#[export] Hint Rewrite @length_aput @length_replicate @length_insert @length_app : c_arr.

(** Case analysis on the booleans of a C condition, with the arithmetic fact. *)
Ltac c_cases :=
  repeat match goal with
  | H : context [if ?b then _ else _] |- _ => destruct b eqn:?
  | |- context [if ?b then _ else _] => destruct b eqn:?
  end.

(** Decides the comparisons of a goal that the arithmetic hypotheses determine. *)
Ltac c_tests :=
  repeat match goal with
  | |- context [?a <? ?b] =>
      first [rewrite (proj2 (Z.ltb_lt a b)) by lia | rewrite (proj2 (Z.ltb_ge a b)) by lia]
  | |- context [?a <=? ?b] =>
      first [rewrite (proj2 (Z.leb_le a b)) by lia | rewrite (proj2 (Z.leb_gt a b)) by lia]
  | |- context [?a =? ?b] =>
      first [rewrite (proj2 (Z.eqb_eq a b)) by lia | rewrite (proj2 (Z.eqb_neq a b)) by lia]
  end; cbn [andb orb negb].

(** Inverts the binds of a computation known to succeed. *)
Ltac c_inv H :=
  repeat first
    [ rewrite bind_Some in H; destruct H as (? & ? & H)
    | case_match; simplify_eq/= ].

(** Closes length and range side conditions. *)
Ltac c_len := autorewrite with c_arr in *; lia.

(** ** Loops *)

(** [for (j = i; j < i + n; j++) if (test(j)) return j;]: the index found, if any. *)
Fixpoint scan_for (n : nat) (i : Z) (test : Z → option bool) : option (option Z) :=
  match n with
  | O => Some None
  | S n' => b ← test i; if (b : bool) then Some (Some i) else scan_for n' (i + 1) test
  end.

(** [for (j = i; j < i + n; j++) body(j);] over a state. *)
Fixpoint for_range {S : Type} (n : nat) (i : Z) (body : Z → S → option S) (s : S) : option S :=
  match n with
  | O => Some s
  | Datatypes.S n' => s' ← body i s; for_range n' (i + 1) body s'
  end.

Arguments scan_for : simpl nomatch.
Arguments for_range : simpl nomatch.

Lemma scan_for_total (n : nat) i test (f : Z → bool) :
  (∀ j, i ≤ j < i + Z.of_nat n → test j = Some (f j)) →
  ∃ r, scan_for n i test = Some r ∧
    match r with
    | Some k => i ≤ k < i + Z.of_nat n ∧ f k = true ∧ ∀ j, i ≤ j < k → f j = false
    | None => ∀ j, i ≤ j < i + Z.of_nat n → f j = false
    end.
Proof.
  revert i. induction n as [|n IH]; intros i Ht; simpl.
  { exists None. split; [done|]. lia. }
  rewrite Ht by lia. simpl. destruct (f i) eqn:Hfi.
  { exists (Some i). split; [done|]. split; [lia|]. split; [done|]. lia. }
  destruct (IH (i + 1)) as (r & -> & Hr). { intros j Hj. apply Ht. lia. }
  exists r. split; [done|]. destruct r as [k|].
  - destruct Hr as (? & ? & Hr). split; [lia|]. split; [done|].
    intros j Hj. destruct (decide (j = i)) as [->|]; [done|]. apply Hr. lia.
  - intros j Hj. destruct (decide (j = i)) as [->|]; [done|]. apply Hr. lia.
Qed.

(** Reasoning about a [for] loop with an invariant over the loop counter. *)
Lemma for_range_ind {S} (I : Z → S → Prop) (n : nat) i body (s : S) :
  I i s →
  (∀ j s, i ≤ j < i + Z.of_nat n → I j s → ∃ s', body j s = Some s' ∧ I (j + 1) s') →
  ∃ s', for_range n i body s = Some s' ∧ I (i + Z.of_nat n) s'.
Proof.
  revert i s. induction n as [|n IH]; intros i s Hi Hbody; simpl.
  { exists s. split; [done|]. by replace (i + Z.of_nat 0) with i by lia. }
  destruct (Hbody i s) as (s1 & -> & H1); [lia|done|]. simpl.
  destruct (IH (i + 1) s1 H1) as (s2 & Hs2 & HI).
  { intros j s' Hj. apply Hbody. lia. }
  exists s2. split; [done|].
  by replace (i + Z.of_nat (Datatypes.S n)) with (i + 1 + Z.of_nat n) by lia.
Qed.

(** The loop that clears an array. *)
Lemma for_fill_from {A} (x : A) (n i : nat) (l : list A) :
  (i + n ≤ length l)%nat →
  for_range n (Z.of_nat i) (λ j t, aset t j x) l =
    Some (take i l ++ replicate n x ++ drop (i + n) l).
Proof.
  revert i l. induction n as [|n IH]; intros i l Hl; cbn [for_range].
  { simpl. by rewrite Nat.add_0_r, take_drop. }
  rewrite aset_some by lia. cbn [mbind option_bind].
  replace (Z.of_nat i + 1) with (Z.of_nat (Datatypes.S i)) by lia.
  unfold aput. rewrite Nat2Z.id. rewrite IH by (rewrite length_insert; lia). f_equal.
  rewrite (take_S_r _ _ x) by (apply list_lookup_insert_eq; lia).
  rewrite take_insert_ge by lia. rewrite drop_insert_lt by lia.
  rewrite <-app_assoc. simpl. by rewrite Nat.add_succ_r.
Qed.

Lemma for_fill {A} (x : A) (n : nat) (l : list A) :
  (n ≤ length l)%nat →
  for_range n 0 (λ j t, aset t j x) l = Some (replicate n x ++ drop n l).
Proof. intros Hl. apply (for_fill_from x n 0 l). lia. Qed.

Lemma filter_all {A} (P : A → Prop) `{∀ x, Decision (P x)} (l : list A) :
  (∀ x, x ∈ l → P x) → filter P l = l.
Proof.
  induction l as [|x l IH]; intros Hl; [done|].
  rewrite filter_cons_True by (apply Hl; by left). f_equal. apply IH. intros y Hy.
  apply Hl. by right.
Qed.

Lemma filter_none {A} (P : A → Prop) `{∀ x, Decision (P x)} (l : list A) :
  (∀ x, x ∈ l → ¬ P x) → filter P l = [].
Proof.
  induction l as [|x l IH]; intros Hl; [done|].
  rewrite filter_cons_False by (apply Hl; by left). apply IH. intros y Hy.
  apply Hl. by right.
Qed.

(** ** Counting the elements of a list that have something *)

Abbreviation total f ts := (Z.of_nat (sum_list_with f ts)).

Lemma sum_insert {A} (f : A → nat) ts k t t' :
  ts !! k = Some t → (sum_list_with f (<[k := t']> ts) + f t = sum_list_with f ts + f t')%nat.
Proof.
  revert k. induction ts as [|a ts IH]; intros [|k] Hk; simpl in Hk; try done.
  - injection Hk as ->. simpl. lia.
  - simpl. pose proof (IH k Hk). lia.
Qed.

Lemma sum_ge {A} (f : A → nat) ts k t : ts !! k = Some t → (f t ≤ sum_list_with f ts)%nat.
Proof.
  revert k. induction ts as [|a ts IH]; intros [|k] Hk; simpl in Hk; try done; [injection Hk as ->; simpl; lia|].
  simpl. pose proof (IH k Hk). lia.
Qed.

(** Somebody else inside. *)
Lemma sum_two {A} (f : A → nat) ts j k t u : ts !! k = Some t → ts !! j = Some u → j ≠ k → (f t + f u ≤ sum_list_with f ts)%nat.
Proof.
  revert j k. induction ts as [|a ts IH]; intros [|j] [|k] Hk Hj Hne; simpl in *; try done.
  - injection Hj as ->. pose proof (sum_ge f ts k t Hk). lia.
  - injection Hk as ->. pose proof (sum_ge f ts j u Hj). lia.
  - pose proof (IH j k Hk Hj ltac:(lia)). lia.
Qed.

Lemma sum_app {A} (f : A → nat) ts us : sum_list_with f (ts ++ us) = (sum_list_with f ts + sum_list_with f us)%nat.
Proof. induction ts; simpl; lia. Qed.

(** What counts does not change. *)
Lemma sum_insert_total {A} (f : A → nat) ts k t t' :
  ts !! k = Some t → total f (<[k := t']> ts) = total f ts + Z.of_nat (f t') - Z.of_nat (f t).
Proof. intros Hk. pose proof (sum_insert f ts k t t' Hk). lia. Qed.

(** A count is positive if somebody counts. *)
Lemma sum_pos {A} (f : A → nat) ts : (0 < sum_list_with f ts)%nat → ∃ k t, ts !! k = Some t ∧ (0 < f t)%nat.
Proof.
  induction ts as [|a ts IH]; simpl; [lia|]. intros Hs. destruct (decide (0 < f a)%nat) as [Ha|Ha]; [by exists 0%nat, a|].
  destruct (IH ltac:(lia)) as (k & t & Hk & Ht). by exists (S k), t.
Qed.

(** ** Semaphores, abstractly

    What a semaphore promises: a counter; a [wait] returns only when it is positive and takes one.
    [SemaphoresThms] shows that the kernel's are such counters, [ProdCons] builds on them. *)

Inductive sem_event := E_wait | E_signal.

Definition counter (v : Z) (e : sem_event) : option Z :=
  match e with E_wait => if 0 <? v then Some (v - 1) else None | E_signal => Some (v + 1) end.

Definition counter_run (v : Z) (tr : list sem_event) : option Z := foldl (λ o e, o ≫= λ v, counter v e) (Some v) tr.

Lemma counter_run_app v tr1 tr2 : counter_run v (tr1 ++ tr2) = counter_run v tr1 ≫= λ v, counter_run v tr2.
Proof.
  unfold counter_run. rewrite foldl_app. destruct (foldl _ (Some v) tr1); [done|]. simpl. by induction tr2.
Qed.
