(* ===== verification/BuddyTree.v ===== *)
(** * Binary-tree indices and dyadic blocks

    Arithmetic of the tree that [Buddy.v] stores in an array: the nodes are
    numbered from 1, the children of [n] are [2 n] and [2 n + 1], and the node [n]
    of depth [d] stands for the dyadic interval [[n 2^(h-d), (n+1) 2^(h-d))]. *)

From S2P Require Import Prelude.

(** [anc a n]: [a] is [n] or one of its ancestors. *)
Definition anc (a n : Z) : Prop := ∃ k, 0 ≤ k ∧ a = n / 2 ^ k.

Lemma anc_refl n : anc n n.
Proof. exists 0. split; [lia|]. by rewrite Z.pow_0_r, Z.div_1_r. Qed.

Lemma anc_trans a b c : anc a b → anc b c → anc a c.
Proof.
  intros (k & Hk & ->) (j & Hj & ->). exists (j + k). split; [lia|].
  rewrite Z.pow_add_r, Z.div_div by lia. done.
Qed.

Lemma anc_child_l n : anc n (2 * n).
Proof. exists 1. split; [lia|]. rewrite Z.pow_1_r. by rewrite Z.mul_comm, Z.div_mul. Qed.

Lemma anc_child_r n : anc n (2 * n + 1).
Proof. exists 1. split; [lia|]. rewrite Z.pow_1_r. apply Z.div_unique with 1; lia. Qed.

Lemma anc_le a n : 1 ≤ n → anc a n → a ≤ n.
Proof.
  intros Hn (k & Hk & ->). apply Z.div_le_upper_bound; [lia|].
  assert (1 ≤ 2 ^ k) by lia. nia.
Qed.

Lemma anc_lt a n : 1 ≤ a → anc a n → a ≠ n → a < n.
Proof.
  intros Ha H Hne. assert (1 ≤ n).
  { destruct H as (k & Hk & ->). destruct (Z.le_gt_cases 1 n); [done|].
    assert (n / 2 ^ k < 1) by (apply Z.div_lt_upper_bound; lia). lia. }
  assert (a ≤ n) by (by apply anc_le). lia.
Qed.

(** An ancestor of [n] is [n] or an ancestor of its parent. *)
Lemma anc_up a n : anc a n → a = n ∨ anc a (n / 2).
Proof.
  intros (k & Hk & ->). destruct (decide (k = 0)) as [->|].
  { left. by rewrite Z.pow_0_r, Z.div_1_r. }
  right. exists (k - 1). split; [lia|].
  rewrite Z.div_div by lia. rewrite <-Z.pow_succ_r by lia. do 2 f_equal. lia.
Qed.

Lemma anc_parent n : anc (n / 2) n.
Proof. exists 1. split; [lia|]. done. Qed.

(** A node below [n] is [n] itself or lies below one of its children. *)
Lemma anc_down n m : anc n m → n = m ∨ anc (2 * n) m ∨ anc (2 * n + 1) m.
Proof.
  intros (k & Hk & ->). destruct (decide (k = 0)) as [->|].
  { left. by rewrite Z.pow_0_r, Z.div_1_r. }
  right.
  assert (Hc : m / 2 ^ k = m / 2 ^ (k - 1) / 2).
  { replace k with (Z.succ (k - 1)) at 1 by lia.
    rewrite Z.pow_succ_r, Z.mul_comm, Z.div_div by lia. done. }
  rewrite Hc. set (c := m / 2 ^ (k - 1)).
  assert (anc c m) by (exists (k - 1); split; [lia|done]).
  pose proof (Z.div_mod c 2 ltac:(lia)). pose proof (Z.mod_pos_bound c 2 ltac:(lia)).
  destruct (decide (c mod 2 = 0)); [left|right];
    match goal with |- anc ?x _ => replace x with c by lia end; done.
Qed.

Lemma anc_linear a b n : anc a n → anc b n → anc a b ∨ anc b a.
Proof.
  intros (k & Hk & ->) (j & Hj & ->). destruct (Z.le_ge_cases k j).
  - right. exists (j - k). split; [lia|].
    rewrite Z.div_div by lia. rewrite <-Z.pow_add_r by lia. do 2 f_equal. lia.
  - left. exists (k - j). split; [lia|].
    rewrite Z.div_div by lia. rewrite <-Z.pow_add_r by lia. do 2 f_equal. lia.
Qed.

(** ** Depth *)

Abbreviation depth := Z.log2.

Lemma depth_bounds n : 1 ≤ n → 2 ^ depth n ≤ n < 2 * 2 ^ depth n.
Proof.
  intros. pose proof (Z.log2_spec n ltac:(lia)) as H1. pose proof (Z.log2_nonneg n).
  rewrite Z.pow_succ_r in H1 by lia. lia.
Qed.

Lemma depth_unique n d : 0 ≤ d → 2 ^ d ≤ n < 2 * 2 ^ d → depth n = d.
Proof. intros. apply Z.log2_unique; [lia|]. rewrite Z.pow_succ_r; lia. Qed.

Lemma depth_child_l n : 1 ≤ n → depth (2 * n) = depth n + 1.
Proof. intros. rewrite Z.log2_double by lia. lia. Qed.

Lemma depth_child_r n : 1 ≤ n → depth (2 * n + 1) = depth n + 1.
Proof. intros. rewrite Z.log2_succ_double by lia. lia. Qed.

Lemma depth_anc n k : 0 ≤ k → 1 ≤ n → 1 ≤ n / 2 ^ k → depth (n / 2 ^ k) = depth n - k.
Proof.
  intros Hk Hn Hd.
  assert (Hle : k ≤ depth n).
  { destruct (Z.le_gt_cases k (depth n)) as [|Hlt]; [done|].
    pose proof (depth_bounds n Hn).
    assert (2 ^ (depth n + 1) ≤ 2 ^ k) by (apply Z.pow_le_mono_r; lia).
    rewrite Z.pow_add_r, Z.pow_1_r in * by (try lia; apply Z.log2_nonneg).
    rewrite Z.div_small in Hd; lia. }
  pose proof (depth_bounds n Hn) as [Hlo Hhi].
  assert (Hp : 2 ^ depth n = 2 ^ (depth n - k) * 2 ^ k).
  { rewrite <-Z.pow_add_r by lia. f_equal. lia. }
  apply depth_unique; [lia|]. rewrite Hp in *. split.
  - apply Z.div_le_lower_bound; lia.
  - apply Z.div_lt_upper_bound; [lia|]. lia.
Qed.

Lemma anc_same_depth a n : 1 ≤ a → 1 ≤ n → depth a = depth n → anc a n → a = n.
Proof.
  intros Ha Hn Hd (k & Hk & Hak). subst a. rewrite depth_anc in Hd by lia.
  replace k with 0 by lia. by rewrite Z.pow_0_r, Z.div_1_r.
Qed.

Lemma anc_depth_le a n : 1 ≤ a → 1 ≤ n → anc a n → depth a ≤ depth n.
Proof. intros Ha Hn (k & Hk & ->). rewrite depth_anc; lia. Qed.

Lemma anc_strict_depth a n : 1 ≤ a → 1 ≤ n → anc a n → a ≠ n → depth a < depth n.
Proof.
  intros Ha Hn H Hne. pose proof (anc_depth_le a n Ha Hn H).
  destruct (decide (depth a = depth n)); [|lia].
  exfalso. apply Hne. by apply anc_same_depth.
Qed.

(** Being an ancestor is decidable. *)
Lemma anc_dec a n : 1 ≤ a → 1 ≤ n → Decision (anc a n).
Proof.
  intros Ha Hn.
  destruct (decide (depth a ≤ depth n ∧ a = n / 2 ^ (depth n - depth a))) as [[Hd He]|Hno].
  - left. exists (depth n - depth a). split; [lia|done].
  - right. intros (k & Hk & ->). apply Hno. rewrite depth_anc by lia.
    split; [lia|]. do 2 f_equal. lia.
Defined.

(** The root is an ancestor of every node. *)
Lemma anc_root n : 1 ≤ n → anc 1 n.
Proof.
  intros Hn. exists (depth n). pose proof (Z.log2_nonneg n). split; [done|].
  pose proof (depth_bounds n Hn). apply Z.div_unique with (n - 2 ^ depth n); lia.
Qed.

(** The two children of a node have no common descendant. *)
Lemma anc_siblings n m : 1 ≤ n → 1 ≤ m → anc (2 * n) m → anc (2 * n + 1) m → False.
Proof.
  intros Hn Hm H1 H2. destruct (anc_linear _ _ _ H1 H2) as [H|H].
  - apply anc_same_depth in H; [lia|lia|lia|].
    rewrite depth_child_l, depth_child_r; lia.
  - apply anc_same_depth in H; [lia|lia|lia|].
    rewrite depth_child_l, depth_child_r; lia.
Qed.

Lemma anc_child_not_up n c : 1 ≤ n → (c = 2 * n ∨ c = 2 * n + 1) → ¬ anc c n.
Proof. intros Hn Hc H. apply anc_le in H; lia. Qed.

(** ** Dyadic intervals *)

Section intervals.
Context (h : Z).

Definition lo (n : Z) : Z := n * 2 ^ (h - depth n).
Definition hi (n : Z) : Z := (n + 1) * 2 ^ (h - depth n).

Lemma anc_interval a n :
    1 ≤ a → 1 ≤ n → depth n ≤ h → anc a n → lo a ≤ lo n ∧ hi n ≤ hi a.
Proof.
    intros Ha Hn Hh (k & Hk & ->). unfold lo, hi.
    rewrite depth_anc by lia.
    replace (h - (depth n - k)) with (k + (h - depth n)) by lia.
    rewrite Z.pow_add_r by lia.
    pose proof (Z.div_mod n (2 ^ k) ltac:(lia)).
    pose proof (Z.mod_pos_bound n (2 ^ k) ltac:(lia)). nia.
  Qed.

Lemma interval_disjoint a n :
    1 ≤ a → 1 ≤ n → depth a ≤ h → depth n ≤ h → ¬ anc a n → ¬ anc n a →
    hi a ≤ lo n ∨ hi n ≤ lo a.
Proof.
    assert (Hwlog : ∀ a n, 1 ≤ a → 1 ≤ n → depth a ≤ depth n → depth n ≤ h → ¬ anc a n →
      hi a ≤ lo n ∨ hi n ≤ lo a).
    { clear. intros a n Ha Hn Hd Hh Hanc.
      set (k := depth n - depth a). set (m := n / 2 ^ k).
      pose proof (Z.log2_nonneg a).
      pose proof (depth_bounds n Hn).
      assert (Hm : 1 ≤ m).
      { apply Z.div_le_lower_bound; [lia|]. rewrite Z.mul_1_r.
        etransitivity; [|apply H0]. apply Z.pow_le_mono_r; lia. }
      assert (Hdm : depth m = depth a) by (unfold m; rewrite depth_anc; lia).
      assert (Hmn : anc m n) by (exists k; split; [lia|done]).
      destruct (anc_interval m n Hm Hn Hh Hmn).
      assert (m ≠ a) by (intros ->; done).
      unfold lo, hi in *. rewrite Hdm in *.
      assert (0 < 2 ^ (h - depth a)) by lia.
      destruct (Z.lt_total m a) as [|[|]]; [right|done|left]; nia. }
    intros Ha Hn Hda Hdn Hna Han. destruct (Z.le_ge_cases (depth a) (depth n)).
    - by apply Hwlog.
    - destruct (Hwlog n a) as [|]; auto; lia.
  Qed.
End intervals.
