(* ===== verification/Buddy.v ===== *)
(** * The buddy page allocator ([Kernel/buddyAllocator.c])

    The allocator hands out blocks of [2^k] pages of the 4 MB region that starts
    at 0x1000000.  Its book-keeping is a complete binary tree stored in an array,
    the node [i] (counted from 1) at the index [i - 1]. *)

From S2P Require Import Prelude.
From S2P Require Import BuddyTree.

(** ** Constants of [Kernel/include/buddyAllocator.h] *)

Definition PAGE_SIZE : Z := 1024 * 4.
Definition MEMORY : Z := PAGE_SIZE * 1024.
Definition NUMBER_OF_PAGES : Z := MEMORY / PAGE_SIZE.
Definition HEAPSIZE : Z := NUMBER_OF_PAGES * 2 - 1.

Definition NUMBER_OF_PAGES_TO_ALLOC (size : Z) : Z :=
  if negb (Z.rem size PAGE_SIZE =? 0)
  then Z.quot size PAGE_SIZE + 1 else Z.quot size PAGE_SIZE.

Definition PARENT (i : Z) : Z := Z.shiftr i 1.
Definition LCHILD (i : Z) : Z := Z.shiftl i 1.
Definition RCHILD (i : Z) : Z := Z.shiftl i 1 + 1.
Definition SIBLING (i : Z) : Z := if negb (Z.rem i 2 =? 0) then i - 1 else i + 1.

Definition BUDDY_FULL : Z := 2.
Definition EMPTY : Z := 0.
Definition PARTIALLY_FULL : Z := 1.

(** The globals [buddyArray] and [baseMemory]. *)
Record typeBuddyArray := mkBuddy {
  occupied : list Z;
  base : list Z;
  heapLevel : Z;
  baseMemory : Z;
}.

Definition set_occupied (b : typeBuddyArray) (i v : Z) : option typeBuddyArray :=
  o ← aset (occupied b) i v;
  Some (mkBuddy o (base b) (heapLevel b) (baseMemory b)).

Definition set_base (b : typeBuddyArray) (i v : Z) : option typeBuddyArray :=
  o ← aset (base b) i v;
  Some (mkBuddy (occupied b) o (heapLevel b) (baseMemory b)).

(** The zero-initialised static storage of the two globals. *)
Definition buddy_bss : typeBuddyArray :=
  mkBuddy (replicate (Z.to_nat HEAPSIZE) 0) (replicate (Z.to_nat HEAPSIZE) 0) 0 0.

(** ** Operations *)

Definition getBaseMemoryWithIndex (baseMem i maxElementsInLevel elementNumber : Z) : Z :=
  let memoryPortion := Z.quot MEMORY maxElementsInLevel in
  memoryPortion * elementNumber + baseMem.

(** The loop of [createHeap], [n] the iterations left. *)
Fixpoint createHeap_loop (n : nat) (i level currentElementsInLevel maxElementsInLevel : Z)
    (b : typeBuddyArray) : option (Z * typeBuddyArray) :=
  match n with
  | O => Some (level, b)
  | S n' =>
      let '(cur, max, lvl) :=
        if maxElementsInLevel =? currentElementsInLevel
        then (0, maxElementsInLevel * 2, level + 1)
        else (currentElementsInLevel, maxElementsInLevel, level) in
      b1 ← set_occupied b i EMPTY;
      b2 ← set_base b1 i (getBaseMemoryWithIndex (baseMemory b) (i + 1) max cur);
      createHeap_loop n' (i + 1) lvl (cur + 1) max b2
  end.

Definition createHeap (b : typeBuddyArray) : option typeBuddyArray :=
  let b0 := mkBuddy (occupied b) (base b) (heapLevel b) 0x1000000 in
  '(level, b1) ← createHeap_loop (Z.to_nat HEAPSIZE) 0 1 0 1 b0;
  Some (mkBuddy (occupied b1) (base b1) level (baseMemory b1)).

Fixpoint getNextPageRecursive (fuel : nat) (b : typeBuddyArray) (index currentLevel level : Z)
    : option (Z * typeBuddyArray) :=
  match fuel with
  | O => None
  | S fuel' =>
      o ← aget (occupied b) (index - 1);
      if o =? BUDDY_FULL then Some (NULL, b)
      else if currentLevel =? level then
        if o =? PARTIALLY_FULL then Some (NULL, b)
        else
          b1 ← set_occupied b (index - 1) BUDDY_FULL;
          p ← aget (base b1) (index - 1);
          Some (p, b1)
      else
        '(lchild, b1) ← getNextPageRecursive fuel' b (LCHILD index) (currentLevel + 1) level;
        if lchild =? NULL then
          '(rchild, b2) ← getNextPageRecursive fuel' b1 (RCHILD index) (currentLevel + 1) level;
          if rchild =? NULL then Some (NULL, b2)
          else
            r ← aget (occupied b2) (RCHILD index - 1);
            b3 ← (if r =? BUDDY_FULL then set_occupied b2 (index - 1) BUDDY_FULL else Some b2);
            Some (rchild, b3)
        else
          b2 ← set_occupied b1 (index - 1) PARTIALLY_FULL;
          Some (lchild, b2)
  end.

(** The loop of [getLevel]: how often [rta] is halved (rounding up) until it is 1. *)
Fixpoint getLevel_loop (fuel : nat) (i rta : Z) : option Z :=
  match fuel with
  | O => None
  | S fuel' =>
      if negb (rta =? 1) then
        let rta' := if negb (Z.rem rta 2 =? 0) then Z.quot rta 2 + 1 else Z.quot rta 2 in
        getLevel_loop fuel' (i + 1) rta'
      else Some i
  end.

Definition getLevel (b : typeBuddyArray) (pages : Z) : option Z :=
  i ← getLevel_loop 32 0 (int32 pages);
  Some (heapLevel b - i).

Definition allocPage (b : typeBuddyArray) (pages : Z) : option (Z * typeBuddyArray) :=
  if (pages =? 0) || (NUMBER_OF_PAGES <? pages) then Some (NULL, b)
  else
    level ← getLevel b pages;
    if heapLevel b <? level then Some (NULL, b)
    else getNextPageRecursive (Z.to_nat (heapLevel b)) b 1 1 level.

Definition isValid (page : Z) : Z := 1.

Fixpoint freeUpRecursive (fuel : nat) (b : typeBuddyArray) (index : Z) : option typeBuddyArray :=
  match fuel with
  | O => None
  | S fuel' =>
      if index =? 1 then Some b
      else
        p ← aget (occupied b) (PARENT index - 1);
        s ← aget (occupied b) (SIBLING index - 1);
        b1 ←
          (if (p =? BUDDY_FULL) && (s =? EMPTY)
           then set_occupied b (PARENT index - 1) EMPTY
           else if (p =? BUDDY_FULL) && (s =? BUDDY_FULL)
           then set_occupied b (PARENT index - 1) PARTIALLY_FULL
           else if (p =? PARTIALLY_FULL) && (s =? EMPTY)
           then set_occupied b (PARENT index - 1) EMPTY
           else Some b);
        freeUpRecursive fuel' b1 (PARENT index)
  end.

Definition deallocPage (b : typeBuddyArray) (page : Z) : option (Z * typeBuddyArray) :=
  if negb (isValid page =? 0) then
    let index := int32 (Z.quot (page - baseMemory b) PAGE_SIZE) in
    b1 ← set_occupied b (index + Z.quot HEAPSIZE 2) EMPTY;
    b2 ← freeUpRecursive 32 b1 (index + Z.quot HEAPSIZE 2 + 1);
    Some (0, b2)
  else Some (-1, b).

(** ** Well-formedness *)

(** The state of the node [n]. *)
Definition occ (b : typeBuddyArray) (n : Z) : option Z := aget (occupied b) (n - 1).

(** The block of the node [n]: its first address and its size in bytes. *)
Definition node_addr (n : Z) : Z := 0x1000000 + (n - 2 ^ depth n) * (MEMORY / 2 ^ depth n).
Definition node_size (n : Z) : Z := MEMORY / 2 ^ depth n.

Record buddy_wf (b : typeBuddyArray) : Prop := {
  wf_occ_len : length (occupied b) = Z.to_nat HEAPSIZE;
  wf_base_len : length (base b) = Z.to_nat HEAPSIZE;
  wf_level : heapLevel b = 11;
  wf_mem : baseMemory b = 0x1000000;
  wf_vals : ∀ n o, occ b n = Some o → 0 ≤ o ≤ 2;
  wf_base : ∀ n, 1 ≤ n ≤ HEAPSIZE → aget (base b) (n - 1) = Some (node_addr n);
}.

(** Nothing below an EMPTY node is in use. *)
Definition empty_closed (b : typeBuddyArray) : Prop :=
  ∀ n, 1 ≤ n < NUMBER_OF_PAGES → occ b n = Some EMPTY →
    occ b (2 * n) = Some EMPTY ∧ occ b (2 * n + 1) = Some EMPTY.

(** The allocator's invariant, [live] being the nodes handed out and not yet
    given back: they do not overlap, and a node is EMPTY exactly when no live
    node lies in its subtree. *)
Record buddy_inv (b : typeBuddyArray) (live : list Z) : Prop := {
  inv_wf : buddy_wf b;
  inv_nodup : NoDup live;
  inv_full : ∀ n, n ∈ live → 1 ≤ n ≤ HEAPSIZE ∧ occ b n = Some BUDDY_FULL;
  inv_empty : ∀ x, 1 ≤ x ≤ HEAPSIZE →
    (occ b x = Some EMPTY ↔ ¬ (∃ m, m ∈ live ∧ anc x m));
  inv_sep : ∀ n m, n ∈ live → m ∈ live → n ≠ m → ¬ anc n m;
}.

(** [n] is a free block of the depth asked for, below [index]. *)
Definition avail (b : typeBuddyArray) (index d n : Z) : Prop :=
  1 ≤ n ∧ anc index n ∧ depth n = d ∧ occ b n = Some EMPTY ∧
  ∀ a, 1 ≤ a → anc index a → anc a n → a ≠ n → occ b a ≠ Some BUDDY_FULL.

(** What a successful search below [index] does to the tree. *)
Definition taken (b b' : typeBuddyArray) (index n : Z) : Prop :=
  buddy_wf b' ∧ occ b' n = Some BUDDY_FULL ∧
  (∀ a, 1 ≤ a → anc index a → anc a n → occ b' a ≠ Some EMPTY) ∧
  (∀ x, 1 ≤ x ≤ HEAPSIZE → ¬ (anc index x ∧ anc x n) → occ b' x = occ b x).

(** ** Lemmas *)

Lemma HEAPSIZE_eq : HEAPSIZE = 2047.
Proof. reflexivity. Qed.

Lemma depth_heap n : 1 ≤ n → depth n ≤ 10 → n ≤ HEAPSIZE.
Proof.
  intros Hn Hd. pose proof (depth_bounds n Hn).
  assert (2 ^ depth n ≤ 2 ^ 10) by (apply Z.pow_le_mono_r; lia).
  rewrite HEAPSIZE_eq. lia.
Qed.

Lemma heap_depth n : 1 ≤ n ≤ HEAPSIZE → depth n ≤ 10.
Proof.
  rewrite HEAPSIZE_eq. intros [Hn Hh]. change 10 with (depth 2047).
  apply Z.log2_le_mono. lia.
Qed.

Lemma wf_occ_some b n : buddy_wf b → 1 ≤ n ≤ HEAPSIZE → ∃ o, occ b n = Some o.
Proof.
  intros Hwf Hn. apply aget_some. rewrite (wf_occ_len _ Hwf). rewrite HEAPSIZE_eq in *. lia.
Qed.

Lemma set_occupied_spec b n v :
  buddy_wf b → 1 ≤ n ≤ HEAPSIZE → 0 ≤ v ≤ 2 →
  ∃ b', set_occupied b (n - 1) v = Some b' ∧ buddy_wf b' ∧ occ b' n = Some v ∧
    (∀ x, x ≠ n → occ b' x = occ b x).
Proof.
  intros Hwf Hn Hv. pose proof (wf_occ_len _ Hwf) as Hlen. rewrite HEAPSIZE_eq in *.
  unfold set_occupied. rewrite aset_some by lia. simpl. eexists. split; [done|].
  set (b' := mkBuddy _ _ _ _).
  assert (Heq : occ b' n = Some v) by (apply aget_aput_eq; lia).
  assert (Hne : ∀ x, x ≠ n → occ b' x = occ b x) by (intros; apply aget_aput_ne; lia).
  split; [|done]. destruct Hwf. constructor; simpl; [by rewrite length_aput|done..| |done].
  intros x o. destruct (decide (x = n)) as [->|]; [|by rewrite Hne by done; eauto].
  rewrite Heq. intros [= <-]. lia.
Qed.

Lemma wf_node_nonnull n : 1 ≤ n ≤ HEAPSIZE → node_addr n ≠ NULL.
Proof.
  intros Hn. pose proof (heap_depth n Hn). pose proof (depth_bounds n ltac:(lia)).
  unfold node_addr, NULL, MEMORY, PAGE_SIZE.
  assert (0 ≤ 1024 * 4 * 1024 / 2 ^ depth n) by (apply Z.div_pos; lia). nia.
Qed.

(** Below an EMPTY node everything is EMPTY, so a block of any depth is there. *)
Lemma empty_avail b index d :
  buddy_wf b → empty_closed b → 1 ≤ index → depth index ≤ d ≤ 10 →
  occ b index = Some EMPTY → ∃ n, avail b index d n.
Proof.
  intros Hwf Hcl Hi [Hd Hd'] Ho.
  remember (Z.to_nat (d - depth index)) as k eqn:Hk.
  revert index Hi Hd Ho Hk. induction k as [|k IH]; intros index Hi Hd Ho Hk.
  { exists index. repeat split; [done|apply anc_refl|lia|done|].
    intros a Ha H1 H2 Hne. exfalso. apply Hne.
    apply anc_same_depth; [done|done| |done].
    pose proof (anc_depth_le _ _ Hi Ha H1). pose proof (anc_depth_le _ _ Ha Hi H2). lia. }
  assert (Hin : index < NUMBER_OF_PAGES).
  { pose proof (depth_bounds index Hi).
    assert (2 * 2 ^ depth index ≤ 2 ^ 10).
    { rewrite <-Z.pow_succ_r by apply Z.log2_nonneg. apply Z.pow_le_mono_r; lia. }
    change NUMBER_OF_PAGES with 1024. lia. }
  destruct (Hcl index ltac:(lia) Ho) as [Hl _].
  destruct (IH (2 * index)) as (n & Hn1 & Ha & Hdn & Hon & Hp).
  { lia. } { rewrite depth_child_l by lia. lia. } { done. } { rewrite depth_child_l; lia. }
  exists n. split; [done|]. split; [by eapply anc_trans; [apply anc_child_l|]|].
  split; [done|]. split; [done|].
  intros a Ha1 Hia Han Hne. apply anc_down in Hia as [<-|[Hia|Hia]].
  - rewrite Ho. done.
  - by apply Hp.
  - exfalso. apply (anc_siblings index n); [lia|lia|done|]. by eapply anc_trans.
Qed.

Lemma avail_up b i c d n :
  1 ≤ i → c = 2 * i ∨ c = 2 * i + 1 → occ b i ≠ Some BUDDY_FULL →
  avail b c d n → avail b i d n.
Proof.
  intros Hi Hc Hocc (Hn & Ha & Hd & Ho & Hp). split; [done|].
  assert (anc i c) by (destruct Hc as [->| ->]; auto using anc_child_l, anc_child_r).
  split; [by eapply anc_trans|]. split; [done|]. split; [done|].
  intros a Ha1 Hia Han Hne. destruct (anc_linear _ _ _ Han Ha) as [Hac|Hca]; [|by apply Hp].
  destruct (decide (a = c)) as [->|Hnc]; [by apply Hp; [|apply anc_refl|..]|].
  destruct (anc_up _ _ Hac) as [->|Hai]; [done|].
  replace (c / 2) with i in Hai.
  - assert (a ≤ i) by (by apply anc_le). assert (i ≤ a) by (by apply anc_le).
    by replace a with i by lia.
  - destruct Hc as [->| ->]; [apply Z.div_unique with 0|apply Z.div_unique with 1]; lia.
Qed.

Lemma avail_down b i d n :
  1 ≤ i → depth i < d → avail b i d n →
  avail b (2 * i) d n ∨ avail b (2 * i + 1) d n.
Proof.
  intros Hi Hd (Hn & Ha & Hdn & Ho & Hp).
  destruct (anc_down _ _ Ha) as [->|[H|H]]; [lia|left|right];
    (split; [done|]; split; [done|]; split; [done|]; split; [done|];
     intros a Ha1 Hca; apply Hp; [done|]; eapply anc_trans; [|done];
     auto using anc_child_l, anc_child_r).
Qed.

(** The search of a child becomes the search of its parent [i] once [i] is
    marked (or was marked already). *)
Lemma taken_up b b1 b2 i c n :
  1 ≤ i → c = 2 * i ∨ c = 2 * i + 1 → 1 ≤ n → anc c n →
  taken b b1 c n → buddy_wf b2 → occ b2 i ≠ Some EMPTY →
  (∀ x, x ≠ i → occ b2 x = occ b1 x) → taken b b2 i n.
Proof.
  intros Hi Hc Hn Hcn (Hwf1 & Hfull & Hpath & Hrest) Hwf2 Hne Hsame.
  assert (Hic : anc i c) by (destruct Hc as [->| ->]; auto using anc_child_l, anc_child_r).
  assert (c ≤ n) by (by apply anc_le).
  split; [done|]. split; [|split].
  - rewrite Hsame by lia. done.
  - intros a Ha1 Hia Han. destruct (decide (a = i)) as [->|Hai]; [done|].
    rewrite Hsame by done. apply Hpath; [done| |done].
    destruct (anc_down _ _ Hia) as [->|Hch]; [done|].
    destruct Hc as [->| ->], Hch as [Hch|Hch]; try done; exfalso;
      apply (anc_siblings i n); try lia; try done; by eapply anc_trans.
  - intros x Hx Hnot. assert (x ≠ i).
    { intros ->. apply Hnot. split; [apply anc_refl|by eapply anc_trans]. }
    rewrite Hsame by done. apply Hrest; [done|]. intros [H1 H2]. apply Hnot.
    split; [by eapply anc_trans|done].
Qed.

(** The outcome of a search below [index] for a block of depth [d]. *)
Definition search_ok (b : typeBuddyArray) (index d : Z) (r : option (Z * typeBuddyArray)) : Prop :=
  (r = Some (NULL, b) ∧ ∀ n, ¬ avail b index d n) ∨
  (∃ n b', r = Some (node_addr n, b') ∧ avail b index d n ∧ taken b b' index n).

Lemma avail_heap b i d n : avail b i d n → d ≤ 10 → 1 ≤ n ≤ HEAPSIZE.
Proof. intros (Hn & _ & Hd & _) Hd10. split; [done|]. apply depth_heap; lia. Qed.

Lemma search_full b index d r :
  1 ≤ index → occ b index = Some BUDDY_FULL → r = Some (NULL, b) → search_ok b index d r.
Proof.
  intros Hi Ho ->. left. split; [done|]. intros n (Hn & Ha & Hdn & Hon & Hp).
  destruct (decide (index = n)) as [->|]; [by rewrite Ho in Hon|].
  by eapply (Hp index); [done|apply anc_refl|..].
Qed.

Lemma search_target b index o :
  buddy_wf b → 1 ≤ index ≤ HEAPSIZE → occ b index = Some o → o ≠ BUDDY_FULL →
  search_ok b index (depth index)
    (if o =? PARTIALLY_FULL then Some (NULL, b)
     else b1 ← set_occupied b (index - 1) BUDDY_FULL;
          p ← aget (base b1) (index - 1); Some (p, b1)).
Proof.
  intros Hwf Hin Ho Hof. destruct (Z.eqb_spec o PARTIALLY_FULL) as [->|Hop].
  - left. split; [done|]. intros n (Hn & Ha & Hdn & Hon & _).
    rewrite <-(anc_same_depth index n) in Hon by (done || lia). by rewrite Ho in Hon.
  - right. exists index.
    destruct (set_occupied_spec b index BUDDY_FULL Hwf Hin) as (b1 & -> & Hwf1 & H1 & H2).
    { unfold BUDDY_FULL. lia. }
    exists b1. simpl. rewrite (wf_base _ Hwf1) by done. simpl. split; [done|].
    assert (Hself : ∀ a, 1 ≤ a → anc index a → anc a index → a = index).
    { intros a Ha Hia%anc_le Hai%anc_le; lia. }
    split.
    + pose proof (wf_vals _ Hwf _ _ Ho). unfold BUDDY_FULL, PARTIALLY_FULL in *.
      split; [lia|]. split; [apply anc_refl|]. split; [done|].
      split; [by rewrite Ho; f_equal; unfold EMPTY; lia|].
      intros a Ha Hia Hai Hne. by destruct Hne; apply Hself.
    + split; [done|]. split; [done|]. split.
      * intros a Ha Hia Hai. by rewrite (Hself a), H1.
      * intros x Hx Hnot. apply H2. intros ->. apply Hnot. split; apply anc_refl.
Qed.

Lemma search_left b index d n b1 :
  1 ≤ index → index < NUMBER_OF_PAGES → occ b index ≠ Some BUDDY_FULL →
  avail b (2 * index) d n → taken b b1 (2 * index) n →
  search_ok b index d
    (b2 ← set_occupied b1 (index - 1) PARTIALLY_FULL; Some (node_addr n, b2)).
Proof.
  intros Hi Hlt Hnf Hav Htk. right. exists n.
  assert (Hin : 1 ≤ index ≤ HEAPSIZE) by (rewrite HEAPSIZE_eq; change NUMBER_OF_PAGES with 1024 in *; lia).
  destruct (set_occupied_spec b1 index PARTIALLY_FULL (proj1 Htk) Hin) as (b2 & -> & Hwf2 & H1 & H2).
  { unfold PARTIALLY_FULL. lia. }
  exists b2. split; [done|]. split; [by eapply (avail_up _ _ (2 * index)); eauto|].
  destruct Hav as (Hn & Ha & _). eapply (taken_up b b1 _ _ (2 * index)); eauto. by rewrite H1.
Qed.

Lemma search_right b index d n b1 :
  1 ≤ index → index < NUMBER_OF_PAGES → occ b index ≠ Some BUDDY_FULL → occ b index ≠ Some EMPTY →
  avail b (2 * index + 1) d n → taken b b1 (2 * index + 1) n →
  search_ok b index d
    (r ← aget (occupied b1) (2 * index + 1 - 1);
     b3 ← (if r =? BUDDY_FULL then set_occupied b1 (index - 1) BUDDY_FULL else Some b1);
     Some (node_addr n, b3)).
Proof.
  intros Hi Hlt Hnf Hne Hav Htk. right. exists n.
  assert (Hch : 1 ≤ 2 * index + 1 ≤ HEAPSIZE)
    by (rewrite HEAPSIZE_eq; change NUMBER_OF_PAGES with 1024 in *; lia).
  destruct (wf_occ_some b1 (2 * index + 1) (proj1 Htk) Hch) as [r Hr].
  unfold occ in Hr. rewrite Hr. simpl.
  assert (Hsame : occ b1 index = occ b index).
  { destruct Htk as (_ & _ & _ & Hrest). apply Hrest; [lia|]. intros [H%anc_le _]; lia. }
  destruct Hav as (Hn & Ha & Hav).
  destruct (r =? BUDDY_FULL).
  - destruct (set_occupied_spec b1 index BUDDY_FULL (proj1 Htk)) as (b2 & -> & Hwf2 & H1 & H2);
      [lia|unfold BUDDY_FULL; lia|].
    exists b2. split; [done|]. split; [by eapply (avail_up _ _ (2 * index + 1)); eauto; split|].
    eapply (taken_up b b1 _ _ (2 * index + 1)); eauto. by rewrite H1.
  - exists b1. split; [done|]. split; [by eapply (avail_up _ _ (2 * index + 1)); eauto; split|].
    eapply (taken_up b b1 _ _ (2 * index + 1)); eauto; [apply Htk|]. by rewrite Hsame.
Qed.

Lemma LCHILD_eq i : LCHILD i = 2 * i.
Proof. unfold LCHILD. rewrite Z.shiftl_mul_pow2; lia. Qed.

Lemma RCHILD_eq i : RCHILD i = 2 * i + 1.
Proof. unfold RCHILD. rewrite Z.shiftl_mul_pow2; lia. Qed.

Lemma inner_lt index d : 1 ≤ index → depth index < d ≤ 10 → index < NUMBER_OF_PAGES.
Proof.
  intros Hi Hd. pose proof (depth_bounds index Hi). change NUMBER_OF_PAGES with (2 * 2 ^ 9).
  assert (2 ^ depth index ≤ 2 ^ 9) by (apply Z.pow_le_mono_r; lia). lia.
Qed.

Lemma getNextPage_spec fuel b index cl level :
  buddy_wf b → empty_closed b → 1 ≤ index → depth index = cl - 1 →
  cl ≤ level ≤ 11 → level - cl < Z.of_nat fuel →
  search_ok b index (level - 1) (getNextPageRecursive fuel b index cl level).
Proof.
  intros Hwf Hcl. revert index cl. induction fuel as [|fuel IH]; [lia|].
  intros index cl Hi Hd Hl Hf.
  assert (Hin : 1 ≤ index ≤ HEAPSIZE) by (split; [done|apply depth_heap; lia]).
  destruct (wf_occ_some b index Hwf Hin) as [o Ho]. pose proof Ho as Ho'.
  unfold occ in Ho'. simpl. rewrite Ho'. simpl.
  destruct (Z.eqb_spec o BUDDY_FULL) as [->|Hof]; [by apply search_full|].
  assert (Hnf : occ b index ≠ Some BUDDY_FULL) by (rewrite Ho; naive_solver).
  destruct (Z.eqb_spec cl level) as [->|Hcll].
  { rewrite <-Hd. by apply search_target. }
  assert (Hlt : index < NUMBER_OF_PAGES) by (eapply (inner_lt _ (level - 1)); lia).
  rewrite LCHILD_eq, RCHILD_eq.
  destruct (IH (2 * index) (cl + 1)) as [[-> Hno]|(n & b1 & -> & Hav & Htk)];
    [lia|rewrite depth_child_l; lia|lia|lia|..]; simpl.
  2: { rewrite (proj2 (Z.eqb_neq _ _)); [by apply search_left|].
       apply wf_node_nonnull. eapply avail_heap; [done|lia]. }
  destruct (IH (2 * index + 1) (cl + 1)) as [[-> Hno']|(n & b1 & -> & Hav & Htk)];
    [lia|rewrite depth_child_r; lia|lia|lia|..]; simpl.
  { left. split; [done|]. intros n Hav%avail_down; [|done|lia].
    destruct Hav; [by eapply Hno|by eapply Hno']. }
  rewrite (proj2 (Z.eqb_neq _ _)).
  - apply search_right; try done. intros Hemp.
    destruct (empty_avail b (2 * index) (level - 1)) as [m Hm]; [done|done|lia| | |].
    + rewrite depth_child_l; lia.
    + apply Hcl; [lia|done].
    + by eapply Hno.
  - apply wf_node_nonnull. eapply avail_heap; [done|lia].
Qed.

Lemma inv_closed b live : buddy_inv b live → empty_closed b.
Proof.
  intros Hinv n Hn Ho. change NUMBER_OF_PAGES with 1024 in *.
  apply (inv_empty _ _ Hinv) in Ho; [|rewrite HEAPSIZE_eq; lia].
  split; apply (inv_empty _ _ Hinv); rewrite ?HEAPSIZE_eq; try lia;
    intros (m & Hm & Hanc); apply Ho; exists m; (split; [done|]);
    (eapply anc_trans; [|done]); auto using anc_child_l, anc_child_r.
Qed.

(** Handing out an available node keeps the invariant. *)
Lemma taken_inv b b' live d n :
  buddy_inv b live → avail b 1 d n → d ≤ 10 → taken b b' 1 n →
  n ∉ live ∧ buddy_inv b' (n :: live).
Proof.
  intros Hinv Hav Hd Htk. pose proof (avail_heap _ _ _ _ Hav Hd) as Hn.
  destruct Hav as (_ & H1n & Hdn & Hon & Hp). destruct Htk as (Hwf' & Hfull & Hpath & Hrest).
  pose proof anc_root as H1.
  assert (Hlive : ∀ m, m ∈ live → ¬ anc n m ∧ ¬ anc m n).
  { intros m Hm. pose proof (inv_full _ _ Hinv _ Hm) as [Hmr Hmf]. split.
    - intros Hnm. apply (inv_empty _ _ Hinv) in Hon; [|done]. by apply Hon; exists m.
    - intros Hmn. destruct (decide (m = n)) as [->|Hne]; [by rewrite Hon in Hmf|].
      apply (Hp m); [lia|apply H1; lia|done..]. }
  assert (Hnin : n ∉ live). { intros Hin. destruct (Hlive n Hin) as [[] _]. apply anc_refl. }
  split; [done|]. constructor.
  - done.
  - by constructor; [|apply Hinv].
  - intros m [->|Hm]%elem_of_cons; [done|]. pose proof (inv_full _ _ Hinv _ Hm) as [Hmr Hmf].
    split; [done|]. rewrite Hrest; [done..|]. intros [_ Hmn]. by apply (Hlive m).
  - intros x Hx. destruct (decide (occ b' x = Some EMPTY)) as [He|He].
    + split; [|done]. intros _ (m & Hm & Hxm).
      destruct (decide (m = n)) as [->|Hne].
      { by apply (Hpath x); [lia|apply H1; lia|..]. }
      assert (Hm' : m ∈ live) by set_solver.
      rewrite Hrest in He; [|done|].
      * apply (inv_empty _ _ Hinv) in He; [|done]. by apply He; exists m.
      * intros [Hx1 Hxn]. by apply (Hpath x); [lia|..].
    + split; [done|]. intros Hno. exfalso. rewrite Hrest in He; [|done|].
      * apply He, (inv_empty _ _ Hinv); [done|]. intros (m & Hm & Hxm).
        apply Hno. exists m. split; [set_solver|done].
      * intros [_ Hxn]. apply Hno. exists n. split; [set_solver|done].
  - intros x y [->|Hx]%elem_of_cons [->|Hy]%elem_of_cons Hne; [done|..].
    + by apply Hlive.
    + by apply Hlive.
    + by apply (inv_sep _ _ Hinv).
Qed.

(** ** Levels *)

Lemma log2_up_half r : 1 < r → Z.log2_up ((r + 1) / 2) = Z.log2_up r - 1.
Proof.
  intros Hr. pose proof (Z.log2_up_spec r Hr) as [Hlo Hhi].
  set (k := Z.log2_up r) in *. assert (Hk : 0 < k) by (apply Z.log2_up_pos; lia).
  destruct (decide (k = 1)) as [Hk1|].
  { rewrite Hk1 in *. assert (r = 2) as -> by lia. reflexivity. }
  assert (H1 : 2 ^ k = 2 * 2 ^ (k - 1)) by (rewrite <-Z.pow_succ_r by lia; f_equal; lia).
  assert (H2 : 2 ^ Z.pred k = 2 * 2 ^ Z.pred (k - 1))
    by (rewrite <-Z.pow_succ_r by lia; f_equal; lia).
  apply Z.log2_up_unique; [lia|]. split.
  - apply Z.lt_le_trans with (2 ^ Z.pred (k - 1) + 1); [lia|].
    apply Z.div_le_lower_bound; lia.
  - apply Z.lt_succ_r, Z.div_lt_upper_bound; lia.
Qed.

Lemma getLevel_loop_spec fuel i r :
  1 ≤ r → Z.log2_up r < Z.of_nat fuel →
  getLevel_loop fuel i r = Some (i + Z.log2_up r).
Proof.
  revert i r. induction fuel as [|fuel IH]; intros i r Hr Hf.
  { pose proof (Z.log2_up_nonneg r). lia. }
  simpl. destruct (Z.eqb_spec r 1) as [->|Hne]; simpl.
  { rewrite Z.log2_up_1. f_equal. lia. }
  assert (Hhalf : (if negb (Z.rem r 2 =? 0) then Z.quot r 2 + 1 else Z.quot r 2) = (r + 1) / 2).
  { rewrite Z.rem_mod_nonneg, Z.quot_div_nonneg by lia.
    pose proof (Z.div_mod r 2 ltac:(lia)). pose proof (Z.mod_pos_bound r 2 ltac:(lia)).
    destruct (Z.eqb_spec (r mod 2) 0); simpl.
    - apply Z.div_unique with 1; lia.
    - apply Z.div_unique with 0; lia. }
  assert (1 ≤ (r + 1) / 2) by (apply Z.div_le_lower_bound; lia).
  rewrite Hhalf, IH; rewrite ?log2_up_half; try lia. f_equal. lia.
Qed.

(** ** The fresh heap *)

(** The arrays after [i] iterations of [createHeap]. *)
Record heap_built (b : typeBuddyArray) (i : Z) : Prop := {
  hb_occ_len : length (occupied b) = Z.to_nat HEAPSIZE;
  hb_base_len : length (base b) = Z.to_nat HEAPSIZE;
  hb_mem : baseMemory b = 0x1000000;
  hb_nodes : ∀ x, 1 ≤ x ≤ i →
    occ b x = Some EMPTY ∧ aget (base b) (x - 1) = Some (node_addr x);
}.

Lemma heap_built_step b i p :
  heap_built b i → 0 ≤ i < HEAPSIZE → p = node_addr (i + 1) →
  ∃ b1 b2, set_occupied b i EMPTY = Some b1 ∧ set_base b1 i p = Some b2 ∧
    heap_built b2 (i + 1).
Proof.
  intros [Ho Hb Hm Hn] Hi ->. rewrite HEAPSIZE_eq in *.
  unfold set_occupied, set_base. rewrite aset_some by lia. simpl.
  eexists _. eexists. split; [done|]. simpl. rewrite aset_some by lia. simpl. split; [done|].
  constructor; simpl; rewrite ?length_aput, ?HEAPSIZE_eq; [done..|].
  intros x Hx. unfold occ. simpl. destruct (decide (x = i + 1)) as [->|].
  - replace (i + 1 - 1) with i by lia. by rewrite !aget_aput_eq by lia.
  - rewrite !aget_aput_ne by lia. apply Hn. lia.
Qed.

Lemma createHeap_loop_spec n i level cur max b :
  heap_built b i → i + Z.of_nat n = HEAPSIZE → 0 ≤ i → 1 ≤ level →
  max = 2 ^ (level - 1) → i + 1 = max + cur → (i = 0 ∧ cur = 0 ∨ 1 ≤ cur ≤ max) →
  ∃ b', createHeap_loop n i level cur max b = Some (11, b') ∧ heap_built b' HEAPSIZE.
Proof.
  revert i level cur max b. induction n as [|n IH]; intros i level cur max b Hb Hn Hi Hl Hmax Hic Hcur.
  { simpl. rewrite Nat2Z.inj_0, Z.add_0_r in Hn. rewrite Hn in *. exists b. split; [|done].
    rewrite HEAPSIZE_eq in *. repeat f_equal.
    pose proof (depth_unique 2047 (level - 1)) as Hd. change (depth 2047) with 10 in Hd. lia. }
  simpl. pose proof (hb_mem _ _ Hb) as Hmem.
  destruct (if max =? cur then (0, max * 2, level + 1) else (cur, max, level))
    as [[cur' max'] level'] eqn:E.
  assert (HE : 1 ≤ level' ∧ max' = 2 ^ (level' - 1) ∧ i + 1 = max' + cur' ∧ 0 ≤ cur' < max').
  { destruct (Z.eqb_spec max cur); injection E as <- <- <-.
    - replace (2 ^ (level + 1 - 1)) with (2 * 2 ^ (level - 1));
        [lia|rewrite <-Z.pow_succ_r by lia; f_equal; lia].
    - lia. }
  clear E. destruct HE as (Hl' & -> & Hic' & Hc').
  assert (Hd : depth (i + 1) = level' - 1) by (apply depth_unique; lia).
  destruct (heap_built_step b i (getBaseMemoryWithIndex (baseMemory b) (i + 1) (2 ^ (level' - 1)) cur'))
    as (b1 & b2 & -> & Hb2 & Hbuilt); [done|lia| |].
  { unfold getBaseMemoryWithIndex, node_addr. rewrite Hd, Hmem.
    rewrite Z.quot_div_nonneg by (unfold MEMORY, PAGE_SIZE; lia).
    replace (i + 1 - 2 ^ (level' - 1)) with cur' by lia. lia. }
  simpl. rewrite Hb2. simpl. apply IH; try done; lia.
Qed.

Lemma createHeap_inv b :
  length (occupied b) = Z.to_nat HEAPSIZE → length (base b) = Z.to_nat HEAPSIZE →
  ∃ b', createHeap b = Some b' ∧ buddy_inv b' [].
Proof.
  intros Ho Hb. unfold createHeap.
  destruct (createHeap_loop_spec (Z.to_nat HEAPSIZE) 0 1 0 1
    (mkBuddy (occupied b) (base b) (heapLevel b) 0x1000000)) as (b' & -> & [H1 H2 H3 H4]);
    [by constructor; simpl; [..|lia]|done|lia..|].
  simpl. eexists. split; [done|]. set (b2 := mkBuddy _ _ _ _).
  assert (Hall : ∀ x, 1 ≤ x ≤ HEAPSIZE → occ b2 x = Some EMPTY) by (intros; by apply H4).
  constructor; simpl; [| constructor | by intros ? ?%elem_of_nil | |by intros ? ? ?%elem_of_nil].
  - constructor; simpl; [done..|done| |intros; by apply H4].
    intros n o Hno. pose proof (aget_inv _ _ _ Hno) as Hr. simpl in Hr. rewrite H1, HEAPSIZE_eq in Hr.
    rewrite Hall in Hno by (rewrite HEAPSIZE_eq; lia). injection Hno as <-. unfold EMPTY. lia.
  - intros x Hx. rewrite Hall by done. split; [|done]. by intros _ (m & ?%elem_of_nil & _).
Qed.

#[global] Opaque createHeap.

(** ** Allocation *)

Lemma MEMORY_split d : 0 ≤ d ≤ 10 → MEMORY / 2 ^ d = PAGE_SIZE * 2 ^ (10 - d).
Proof.
  intros Hd. change MEMORY with (PAGE_SIZE * 2 ^ 10).
  replace (2 ^ 10) with (2 ^ (10 - d) * 2 ^ d) by (rewrite <-Z.pow_add_r by lia; f_equal; lia).
  rewrite Z.mul_assoc, Z.div_mul by lia. done.
Qed.

Lemma log2_up_bounds r : 1 ≤ r → r ≤ 2 ^ Z.log2_up r < 2 * r.
Proof.
  intros Hr. destruct (decide (r = 1)) as [->|]; [done|].
  pose proof (Z.log2_up_spec r ltac:(lia)) as [Hlo Hhi]. split; [done|].
  pose proof (Z.log2_up_pos r ltac:(lia)).
  replace (2 ^ Z.log2_up r) with (2 * 2 ^ Z.pred (Z.log2_up r)); [lia|].
  rewrite <-Z.pow_succ_r by lia. f_equal. lia.
Qed.

Lemma log2_up_pages pages : 1 ≤ pages ≤ NUMBER_OF_PAGES → 0 ≤ Z.log2_up pages ≤ 10.
Proof.
  intros Hp. split; [apply Z.log2_up_nonneg|]. change 10 with (Z.log2_up 1024).
  apply Z.log2_up_le_mono. change NUMBER_OF_PAGES with 1024 in *. lia.
Qed.

Lemma getLevel_spec b pages :
  heapLevel b = 11 → 1 ≤ pages ≤ NUMBER_OF_PAGES →
  getLevel b pages = Some (11 - Z.log2_up pages).
Proof.
  intros Hl Hp. pose proof (log2_up_pages _ Hp). change NUMBER_OF_PAGES with 1024 in *.
  unfold getLevel. rewrite int32_id by (unfold INT_MIN, INT_MAX; lia).
  rewrite getLevel_loop_spec by lia. simpl. by rewrite Hl.
Qed.

Lemma allocPage_search b live pages :
  buddy_inv b live → 1 ≤ pages ≤ NUMBER_OF_PAGES →
  search_ok b 1 (10 - Z.log2_up pages) (allocPage b pages).
Proof.
  intros Hinv Hp. pose proof (log2_up_pages _ Hp). pose proof (inv_wf _ _ Hinv) as Hwf.
  unfold allocPage. rewrite (proj2 (Z.eqb_neq _ _)), (proj2 (Z.ltb_ge _ _)) by lia. simpl.
  rewrite getLevel_spec by (done || apply Hwf). simpl. rewrite (wf_level _ Hwf).
  rewrite (proj2 (Z.ltb_ge _ _)) by lia.
  replace (10 - Z.log2_up pages) with (11 - Z.log2_up pages - 1) by lia.
  apply getNextPage_spec; try done; try lia. by eapply inv_closed.
Qed.

Lemma allocPage_inv b live pages :
  buddy_inv b live → 0 ≤ pages →
  ∃ p b', allocPage b pages = Some (p, b') ∧
    ((p = NULL ∧ b' = b ∧ ∀ n, 1 ≤ pages ≤ NUMBER_OF_PAGES →
        ¬ avail b 1 (10 - Z.log2_up pages) n) ∨
     (∃ n, p = node_addr n ∧ 1 ≤ n ≤ HEAPSIZE ∧ n ∉ live ∧ buddy_inv b' (n :: live) ∧
        pages * PAGE_SIZE ≤ node_size n < 2 * (pages * PAGE_SIZE))).
Proof.
  intros Hinv Hp. destruct (decide (1 ≤ pages ≤ NUMBER_OF_PAGES)) as [Hr|Hr].
  - pose proof (log2_up_pages _ Hr). pose proof (log2_up_bounds pages ltac:(lia)).
    destruct (allocPage_search _ _ _ Hinv Hr) as [[-> Hno]|(n & b' & -> & Hav & Htk)].
    + exists NULL, b. split; [done|]. left. split; [done|]. split; [done|]. intros n _. apply Hno.
    + exists (node_addr n), b'. split; [done|]. right. exists n.
      destruct (taken_inv _ _ _ _ _ Hinv Hav ltac:(lia) Htk) as [Hnin Hinv'].
      split; [done|]. split; [by eapply avail_heap; [done|lia]|]. split; [done|]. split; [done|].
      destruct Hav as (_ & _ & Hd & _). unfold node_size. rewrite Hd, MEMORY_split by lia.
      replace (10 - (10 - Z.log2_up pages)) with (Z.log2_up pages) by lia.
      unfold PAGE_SIZE. lia.
  - exists NULL, b. unfold allocPage. replace ((pages =? 0) || (NUMBER_OF_PAGES <? pages)) with true.
    + split; [done|]. left. naive_solver.
    + symmetry. destruct (Z.eqb_spec pages 0); [done|]. simpl. apply Z.ltb_lt. lia.
Qed.

(** ** Blocks in memory *)

Lemma node_interval n :
  1 ≤ n ≤ HEAPSIZE →
  node_addr n = 0x1000000 + (lo 10 n - 2 ^ 10) * PAGE_SIZE ∧
  node_addr n + node_size n = 0x1000000 + (hi 10 n - 2 ^ 10) * PAGE_SIZE.
Proof.
  intros Hn. pose proof (heap_depth _ Hn). pose proof (Z.log2_nonneg n).
  unfold node_addr, node_size, lo, hi. rewrite MEMORY_split by lia.
  assert (Hp : 2 ^ 10 = 2 ^ depth n * 2 ^ (10 - depth n)).
  { rewrite <-Z.pow_add_r by lia. f_equal. lia. }
  rewrite Hp. split; ring.
Qed.

Lemma node_disjoint n m :
  1 ≤ n ≤ HEAPSIZE → 1 ≤ m ≤ HEAPSIZE → ¬ anc n m → ¬ anc m n →
  node_addr n + node_size n ≤ node_addr m ∨ node_addr m + node_size m ≤ node_addr n.
Proof.
  intros Hn Hm Hnm Hmn. destruct (node_interval n Hn) as [-> ->].
  destruct (node_interval m Hm) as [-> ->].
  destruct (interval_disjoint 10 n m); try lia; try done; auto using heap_depth;
    unfold PAGE_SIZE; lia.
Qed.

Lemma node_in_region n :
  1 ≤ n ≤ HEAPSIZE →
  0x1000000 ≤ node_addr n ∧ node_addr n + node_size n ≤ 0x1000000 + MEMORY ∧
  node_addr n mod PAGE_SIZE = 0.
Proof.
  intros Hn. destruct (node_interval n Hn) as [-> ->].
  pose proof (heap_depth _ Hn). pose proof (Z.log2_nonneg n).
  pose proof (depth_bounds n ltac:(lia)).
  assert (Hp : 2 ^ 10 = 2 ^ depth n * 2 ^ (10 - depth n)).
  { rewrite <-Z.pow_add_r by lia. f_equal. lia. }
  unfold lo, hi. change MEMORY with (2 ^ 10 * PAGE_SIZE). unfold PAGE_SIZE.
  rewrite Hp. split; [nia|]. split; [nia|].
  change 0x1000000 with (4096 * (1024 * 4)). rewrite <-Z.mul_add_distr_r.
  by apply Z.mod_mul.
Qed.

(** ** Freeing *)

(** Giving back [n] is sound when, wherever another live node shares an ancestor
    [i] of [n], the sibling of [i] is in use too: [freeUpRecursive] looks at the
    sibling only. *)
Definition free_safe (live : list Z) (n : Z) : Prop :=
  ∀ i, 1 < i → anc i n → (∃ m, m ∈ live ∧ m ≠ n ∧ anc i m) →
    ∃ m, m ∈ live ∧ anc (SIBLING i) m.

(** The tree after [freeUpRecursive] has settled the path from [n] up to [i]. *)
Record settled (b0 b : typeBuddyArray) (live : list Z) (n i : Z) : Prop := {
  st_wf : buddy_wf b;
  st_off : ∀ x, 1 ≤ x ≤ HEAPSIZE → ¬ (anc x n ∧ anc i x) → occ b x = occ b0 x;
  st_on : ∀ x, 1 ≤ x → anc x n → anc i x →
    (occ b x = Some EMPTY ↔ ¬ (∃ m, m ∈ live ∧ m ≠ n ∧ anc x m));
}.

Lemma PARENT_eq i : PARENT i = i / 2.
Proof. unfold PARENT. by rewrite Z.shiftr_div_pow2. Qed.

Lemma SIBLING_cases i :
  1 < i → (i = 2 * PARENT i ∧ SIBLING i = 2 * PARENT i + 1) ∨
          (i = 2 * PARENT i + 1 ∧ SIBLING i = 2 * PARENT i).
Proof.
  intros Hi. rewrite PARENT_eq. unfold SIBLING. rewrite Z.rem_mod_nonneg by lia.
  pose proof (Z.div_mod i 2 ltac:(lia)). pose proof (Z.mod_pos_bound i 2 ltac:(lia)).
  destruct (Z.eqb_spec (i mod 2) 0); simpl; lia.
Qed.

(** The node numbers of the parent and of the sibling are in the tree. *)
Lemma up_ranges i :
  1 < i ≤ HEAPSIZE →
  1 ≤ PARENT i < i ∧ 1 ≤ SIBLING i ≤ HEAPSIZE ∧ anc (PARENT i) i ∧
  anc (PARENT i) (SIBLING i) ∧ depth i = depth (PARENT i) + 1.
Proof.
  intros [Hi Hh]. pose proof (SIBLING_cases i Hi) as HS. rewrite HEAPSIZE_eq in *.
  set (p := PARENT i) in *. set (s := SIBLING i) in *. clearbody p s.
  destruct HS as [[-> ->]|[-> ->]];
    rewrite ?depth_child_l, ?depth_child_r by lia;
    repeat split; auto using anc_child_l, anc_child_r; lia.
Qed.

Lemma sibling_apart i m : 1 < i → 1 ≤ m → anc i m → anc (SIBLING i) m → False.
Proof.
  intros Hi Hm H1 H2.
  destruct (SIBLING_cases i Hi) as [[Hi' Hs]|[Hi' Hs]];
    rewrite Hs in H2; rewrite Hi' in H1; apply (anc_siblings (PARENT i) m); lia || done.
Qed.

(** One iteration of [freeUpRecursive]. *)
Definition freeUp_value (p s : Z) : Z :=
  if (p =? BUDDY_FULL) && (s =? EMPTY) then EMPTY
  else if (p =? BUDDY_FULL) && (s =? BUDDY_FULL) then PARTIALLY_FULL
  else if (p =? PARTIALLY_FULL) && (s =? EMPTY) then EMPTY else p.

Lemma freeUp_step fuel b i p s :
  buddy_wf b → 1 < i ≤ HEAPSIZE →
  occ b (PARENT i) = Some p → occ b (SIBLING i) = Some s →
  ∃ b', freeUpRecursive (S fuel) b i = freeUpRecursive fuel b' (PARENT i) ∧ buddy_wf b' ∧
    occ b' (PARENT i) = Some (freeUp_value p s) ∧
    ∀ x, x ≠ PARENT i → occ b' x = occ b x.
Proof.
  intros Hwf Hi Hp Hs. destruct (up_ranges i Hi) as (HP & HS & _).
  simpl. rewrite (proj2 (Z.eqb_neq i 1)) by lia.
  unfold occ in Hp, Hs. rewrite Hp, Hs. simpl. unfold freeUp_value.
  assert (Hset : ∀ v, 0 ≤ v ≤ 2 → ∃ b', set_occupied b (PARENT i - 1) v = Some b' ∧ buddy_wf b' ∧
    occ b' (PARENT i) = Some v ∧ ∀ x, x ≠ PARENT i → occ b' x = occ b x).
  { intros v Hv. apply set_occupied_spec; [done|lia|done]. }
  repeat case_match;
    try (destruct (Hset EMPTY) as (b' & -> & ?); [by unfold EMPTY|]; by exists b');
    try (destruct (Hset PARTIALLY_FULL) as (b' & -> & ?); [by unfold PARTIALLY_FULL|]; by exists b').
  exists b. by split.
Qed.

#[global] Arguments freeUpRecursive : simpl never.

(** From a leaf of a live block up to the block itself. *)
Lemma freeUp_below fuel k b n i :
  buddy_wf b → 1 ≤ n → i ≤ HEAPSIZE → anc n i → i ≠ n → depth i - depth n = Z.of_nat k →
  occ b n = Some BUDDY_FULL →
  (∀ x, 1 ≤ x ≤ HEAPSIZE → anc n x → x ≠ n → occ b x = Some EMPTY) →
  ∃ b', freeUpRecursive (k + fuel) b i = freeUpRecursive fuel b' n ∧ buddy_wf b' ∧
    occ b' n = Some EMPTY ∧ ∀ x, x ≠ n → occ b' x = occ b x.
Proof.
  revert b i. induction k as [|k IH]; intros b i Hwf Hn Hi Hanc Hne Hk Hfull Hbelow.
  { assert (n < i) by (by apply anc_lt).
    destruct Hne. symmetry. apply anc_same_depth; lia || done. }
  assert (Hi1 : n < i) by (by apply anc_lt).
  destruct (up_ranges i ltac:(lia)) as (HP & HS & Hpi & Hps & Hd).
  assert (HnP : anc n (PARENT i)) by (destruct (anc_up _ _ Hanc); [done|by rewrite PARENT_eq]).
  assert (Hs : occ b (SIBLING i) = Some EMPTY).
  { apply Hbelow; [lia|by eapply anc_trans|]. intros Heq. rewrite <-Heq in HnP.
    apply (anc_le _ (PARENT i)) in HnP; [|lia]. destruct (SIBLING_cases i ltac:(lia)); lia. }
  destruct (decide (PARENT i = n)) as [Heq|HPn].
  - destruct (freeUp_step (k + fuel) b i BUDDY_FULL EMPTY) as (b' & Hstep & Hwf' & H1 & H2);
      [done|lia|by rewrite Heq|done|].
    rewrite Heq in *. assert (k = 0)%nat as -> by lia.
    by exists b'.
  - destruct (freeUp_step (k + fuel) b i EMPTY EMPTY) as (b' & Hstep & Hwf' & H1 & H2);
      [done|lia|by apply Hbelow; [lia|..]|done|].
    assert (Hsame : ∀ x, occ b' x = occ b x).
    { intros x. destruct (decide (x = PARENT i)) as [->|]; [|by apply H2].
      rewrite H1. symmetry. by apply Hbelow; [lia|..]. }
    simpl Nat.add. rewrite Hstep.
    destruct (IH b' (PARENT i)) as (b2 & Hb2 & Hwf2 & H3 & H4); try done; try lia.
    + by rewrite Hsame.
    + intros x. rewrite Hsame. apply Hbelow.
    + exists b2. split_and!; try done. intros x Hx. by rewrite H4, Hsame.
Qed.

Lemma freeUp_value_empty p s :
  1 ≤ p ≤ 2 → (freeUp_value p s = EMPTY ↔ s = EMPTY).
Proof.
  intros Hp. unfold freeUp_value, BUDDY_FULL, PARTIALLY_FULL, EMPTY.
  repeat match goal with |- context [?a =? ?b] => destruct (Z.eqb_spec a b) end;
    simpl; lia.
Qed.

Lemma settled_step fuel b0 b live n i :
  buddy_inv b0 live → n ∈ live → free_safe live n → 1 < i → anc i n → settled b0 b live n i →
  ∃ b', freeUpRecursive (S fuel) b i = freeUpRecursive fuel b' (PARENT i) ∧
    settled b0 b' live n (PARENT i).
Proof.
  intros Hinv Hlive Hsafe Hi Hin [Hwf Hoff Hon].
  destruct (inv_full _ _ Hinv _ Hlive) as [Hn Hnf].
  assert (Hih : 1 < i ≤ HEAPSIZE) by (split; [done|apply anc_le in Hin; lia]).
  destruct (up_ranges i Hih) as (HP & HS & HPi & HPS & _).
  assert (HPn : anc (PARENT i) n) by (by apply (anc_trans _ i)).
  destruct (wf_occ_some b0 (PARENT i) (inv_wf _ _ Hinv)) as [p Hp]; [lia|].
  destruct (wf_occ_some b0 (SIBLING i) (inv_wf _ _ Hinv)) as [s Hs]; [lia|].
  assert (HPne : PARENT i ≠ n) by (apply anc_le in Hin; lia).
  assert (Hp12 : 1 ≤ p ≤ 2).
  { pose proof (wf_vals _ (inv_wf _ _ Hinv) _ _ Hp). destruct (decide (p = EMPTY)) as [->|].
    - apply (inv_empty _ _ Hinv) in Hp; [|lia]. destruct Hp. by exists n.
    - unfold EMPTY in *. lia. }
  destruct (freeUp_step fuel b i p s) as (b' & Hstep & Hwf' & H1 & H2); [done|done| | |].
  { rewrite Hoff; [done|lia|]. intros [_ H%anc_le]; lia. }
  { rewrite Hoff; [done|lia|]. intros [H _]. by apply (sibling_apart i n); [|lia|..]. }
  exists b'. split; [done|]. constructor; [done| |].
  - intros x Hx Hnot. rewrite H2, Hoff; [done|done| |].
    + intros [H3 H4]. apply Hnot. split; [done|by apply (anc_trans _ i)].
    + intros ->. apply Hnot. split; [done|apply anc_refl].
  - intros x Hx Hxn HPx. destruct (decide (x = PARENT i)) as [->|HxP].
    + rewrite H1, (inj_iff Some), (freeUp_value_empty p s Hp12).
      transitivity (occ b0 (SIBLING i) = Some EMPTY); [by rewrite Hs, (inj_iff Some)|].
      rewrite (inv_empty _ _ Hinv) by done. split; intros Hno (m & Hm & Hm').
      * destruct Hm' as [Hmn HPm]. apply Hno.
        destruct (anc_down _ _ HPm) as [<-|Hch]; [by destruct (inv_sep _ _ Hinv (PARENT i) n)|].
        assert (Hor : anc i m ∨ anc (SIBLING i) m)
          by (destruct (SIBLING_cases i Hi) as [[Hi' HS']|[Hi' HS']];
              [rewrite <-HS', <-Hi' in Hch|rewrite <-Hi', <-HS' in Hch]; tauto).
        destruct Hor; [|by exists m]. apply Hsafe; [done..|by exists m].
      * apply Hno. exists m. split; [done|]. split; [|by apply (anc_trans _ (SIBLING i))].
        intros ->. by apply (sibling_apart i n); [|lia|..].
    + rewrite H2 by done. apply Hon; [done..|].
      destruct (anc_linear _ _ _ Hin Hxn) as [|Hxi]; [done|].
      destruct (anc_up _ _ Hxi) as [->|HxP']; [apply anc_refl|].
      rewrite <-PARENT_eq in HxP'. apply anc_le in HxP'; [|lia]. apply anc_le in HPx; [|lia]. lia.
Qed.

Lemma settled_loop fuel b0 b live n i :
  buddy_inv b0 live → n ∈ live → free_safe live n → 1 ≤ i → anc i n → settled b0 b live n i →
  depth i < Z.of_nat fuel →
  ∃ b', freeUpRecursive fuel b i = Some b' ∧ settled b0 b' live n 1.
Proof.
  intros Hinv Hlive Hsafe. revert b i. induction fuel as [|fuel IH]; intros b i Hi Hin Hst Hf.
  { pose proof (Z.log2_nonneg i). lia. }
  destruct (decide (i = 1)) as [->|Hne]; [by exists b|].
  destruct (settled_step fuel b0 b live n i) as (b' & -> & Hst'); try done; [lia|].
  destruct (inv_full _ _ Hinv _ Hlive) as [Hn _].
  destruct (up_ranges i) as (HP & _ & HPi & _ & Hd); [split; [lia|apply anc_le in Hin; lia]|].
  apply IH; [lia|by apply (anc_trans _ i)|done|lia].
Qed.

Lemma settled_inv b0 b live n :
  buddy_inv b0 live → n ∈ live → settled b0 b live n 1 →
  buddy_inv b (filter (λ m, m ≠ n) live).
Proof.
  intros Hinv Hlive [Hwf Hoff Hon].
  pose proof anc_root as H1.
  constructor; [done|by apply list.NoDup_filter, Hinv| | |].
  - intros m [Hmn Hm]%list_elem_of_filter. destruct (inv_full _ _ Hinv _ Hm) as [Hr Hf].
    split; [done|]. rewrite Hoff; [done..|]. intros [Hanc _]. by apply (inv_sep _ _ Hinv m n).
  - intros x Hx.
    assert (Hex : (∃ m, m ∈ filter (λ m, m ≠ n) live ∧ anc x m) ↔
                  (∃ m, m ∈ live ∧ m ≠ n ∧ anc x m)) by (setoid_rewrite list_elem_of_filter; naive_solver).
    destruct (inv_full _ _ Hinv _ Hlive) as [Hn _].
    assert (Hx1 : 1 ≤ x) by lia. assert (Hn1 : 1 ≤ n) by lia. pose proof (anc_dec x n Hx1 Hn1).
    rewrite Hex. destruct (decide (anc x n)) as [Hxn|Hxn]; [apply Hon; auto using anc_root with lia|].
    rewrite Hoff by naive_solver. rewrite (inv_empty _ _ Hinv) by done.
    split; intros Hno (m & Hm & Hm'); apply Hno; exists m; [by destruct Hm'|].
    split; [done|]. split; [by intros ->|done].
  - intros x y [_ Hx]%list_elem_of_filter [_ Hy]%list_elem_of_filter. by apply (inv_sep _ _ Hinv).
Qed.

(** Below a live block everything is EMPTY. *)
Lemma live_below b live n x :
  buddy_inv b live → n ∈ live → 1 ≤ x ≤ HEAPSIZE → anc n x → x ≠ n → occ b x = Some EMPTY.
Proof.
  intros Hinv Hn Hx Hnx Hne. apply (inv_empty _ _ Hinv); [done|]. intros (m & Hm & Hxm).
  destruct (decide (m = n)) as [->|Hmn].
  - apply Hne. destruct (inv_full _ _ Hinv _ Hn). apply anc_le in Hnx, Hxm; lia.
  - apply (inv_sep _ _ Hinv n m); try done. by apply (anc_trans _ x).
Qed.

(** The leaf that stands for the first page of the block of [n]. *)
Lemma node_leaf n :
  1 ≤ n ≤ HEAPSIZE →
  let l := n * 2 ^ (10 - depth n) in
  int32 (Z.quot (node_addr n - 0x1000000) PAGE_SIZE) = l - 1024 ∧
  1 ≤ l ≤ HEAPSIZE ∧ anc n l ∧ depth l = 10 ∧ (l = n → depth n = 10).
Proof.
  intros Hn l. pose proof (heap_depth _ Hn). pose proof (Z.log2_nonneg n).
  pose proof (depth_bounds n ltac:(lia)).
  assert (Hp : 2 ^ depth n * 2 ^ (10 - depth n) = 1024).
  { rewrite <-Z.pow_add_r by lia. change 1024 with (2 ^ 10). f_equal. lia. }
  assert (Hl : 1024 ≤ l < 2048) by (unfold l; nia).
  assert (Hdl : depth l = 10) by (apply depth_unique; lia).
  rewrite HEAPSIZE_eq. split_and!; [|lia|lia| |done|].
  - unfold node_addr. rewrite MEMORY_split by lia.
    replace (_ - 0x1000000) with ((n - 2 ^ depth n) * 2 ^ (10 - depth n) * PAGE_SIZE) by lia.
    rewrite Z.quot_mul by done. rewrite Z.mul_sub_distr_r, Hp.
    apply int32_id. unfold l, INT_MIN, INT_MAX in *. lia.
  - exists (10 - depth n). split; [lia|]. unfold l. by rewrite Z.div_mul by lia.
  - intros Hln. by rewrite <-Hln.
Qed.

Lemma deallocPage_start b live n :
  buddy_inv b live → n ∈ live →
  ∃ c fuel, depth n < Z.of_nat fuel ∧ settled b c live n n ∧
    deallocPage b (node_addr n) = (b2 ← freeUpRecursive fuel c n; Some (0, b2)).
Proof.
  intros Hinv Hlive. destruct (inv_full _ _ Hinv _ Hlive) as [Hn Hnf].
  pose proof (inv_wf _ _ Hinv) as Hwf. pose proof (heap_depth _ Hn). pose proof (Z.log2_nonneg n).
  assert (Hst : ∀ c, buddy_wf c → occ c n = Some EMPTY → (∀ x, x ≠ n → occ c x = occ b x) →
    settled b c live n n).
  { intros c Hc H1 H2. constructor; [done| |].
    - intros x Hx Hnot. apply H2. intros ->. apply Hnot. split; apply anc_refl.
    - intros x Hx Hxn Hnx. assert (x = n) as -> by (apply anc_le in Hxn, Hnx; lia).
      rewrite H1. split; [|done]. intros _ (m & Hm & Hmn & Hanc).
      by apply (inv_sep _ _ Hinv n m). }
  destruct (node_leaf n Hn) as (Hidx & Hl & Hnl & Hdl & Hlast).
  set (l := n * 2 ^ (10 - depth n)) in *.
  unfold deallocPage. change (negb (isValid (node_addr n) =? 0)) with true. cbv iota zeta.
  rewrite (wf_mem _ Hwf), Hidx.
  replace (l - 1024 + Z.quot HEAPSIZE 2) with (l - 1) by (change (Z.quot HEAPSIZE 2) with 1023; lia).
  replace (l - 1 + 1) with l by lia.
  destruct (set_occupied_spec b l EMPTY Hwf Hl) as (b1 & -> & Hwf1 & H1 & H2); [done|]. simpl.
  destruct (decide (l = n)) as [Heq|Hne].
  - exists b1, 32%nat. rewrite Heq in *. split_and!; [lia| |done]. by apply Hst.
  - assert (Hsame : ∀ x, occ b1 x = occ b x).
    { intros x. destruct (decide (x = l)) as [->|]; [|by apply H2].
      rewrite H1. symmetry. by apply (live_below b live n). }
    destruct (freeUp_below (32 - Z.to_nat (10 - depth n)) (Z.to_nat (10 - depth n)) b1 n l)
      as (c & Hc & Hwfc & H3 & H4); try done; try lia.
    + by rewrite Hsame.
    + intros x Hx. rewrite Hsame. by apply (live_below b live n).
    + exists c, (32 - Z.to_nat (10 - depth n))%nat.
      replace (Z.to_nat (10 - depth n) + _)%nat with 32%nat in Hc by lia.
      rewrite Hc. split_and!; [lia| |done]. apply Hst; [done..|].
      intros x Hx. by rewrite H4, Hsame.
Qed.

Lemma deallocPage_inv b live n :
  buddy_inv b live → n ∈ live → free_safe live n →
  ∃ b', deallocPage b (node_addr n) = Some (0, b') ∧ buddy_inv b' (filter (λ m, m ≠ n) live).
Proof.
  intros Hinv Hlive Hsafe. destruct (deallocPage_start _ _ _ Hinv Hlive) as (c & fuel & Hf & Hst & ->).
  destruct (inv_full _ _ Hinv _ Hlive) as [Hn _].
  destruct (settled_loop fuel b c live n n) as (b' & -> & Hst'); try done; [lia|apply anc_refl|].
  exists b'. split; [done|]. by eapply settled_inv.
Qed.

(** ** Runs *)

(** The states the allocator reaches from boot by calls of [allocPage], with the
    blocks (pointer and requested pages) handed out. *)
Inductive alloc_run : typeBuddyArray → list (Z * Z) → Prop :=
| run_boot b : createHeap buddy_bss = Some b → alloc_run b []
| run_alloc b l pages p b' :
    alloc_run b l → 0 ≤ pages < 2 ^ 64 → allocPage b pages = Some (p, b') → p ≠ NULL →
    alloc_run b' ((p, pages) :: l)
| run_fail b l pages b' :
    alloc_run b l → 0 ≤ pages < 2 ^ 64 → allocPage b pages = Some (NULL, b') →
    alloc_run b' l.

(** The block a caller was given is the block of the node [n]. *)
Definition block_of (n : Z) (blk : Z * Z) : Prop :=
  blk.1 = node_addr n ∧ blk.2 * PAGE_SIZE ≤ node_size n.

Lemma buddy_bss_inv : ∃ b, createHeap buddy_bss = Some b ∧ buddy_inv b [].
Proof. apply createHeap_inv; apply length_replicate. Qed.

Lemma alloc_run_inv b l :
  alloc_run b l → ∃ live, buddy_inv b live ∧ Forall2 block_of live l.
Proof.
  induction 1 as [b Hb|b l pages p b' _ (live & Hinv & Hl) Hp Ha Hnn|b l pages b' _ (live & Hinv & Hl) Hp Ha].
  - destruct buddy_bss_inv as (b' & Hb' & Hinv). rewrite Hb in Hb'. injection Hb' as <-.
    exists []. split; [exact Hinv|constructor].
  - destruct (allocPage_inv b live pages Hinv) as (p' & b2 & Ha' & [(-> & _)|(n & -> & _ & _ & Hi & Hs)]);
      [lia|simplify_eq..].
    exists (n :: live). split; [done|]. constructor; [|done]. split; [done|]. simpl. lia.
  - destruct (allocPage_inv b live pages Hinv) as (p' & b2 & Ha' & [(-> & -> & _)|(n & -> & Hn & _)]);
      [lia|simplify_eq..].
    + by exists live.
    + exfalso. apply (wf_node_nonnull n Hn). congruence.
Qed.

(** ** Properties *)

(** C7: every [allocPage] on a well-formed heap terminates without touching memory
    outside of the two arrays.  It returns NULL, the heap unchanged, exactly when no
    node of the right depth is free below non-full ancestors (or the request is out of
    range); otherwise it returns the block of a node that overlaps no live block,
    is at least as large as the request and less than twice as large, and the
    invariant holds again with that node live. *)
Theorem allocPage_correct (b : typeBuddyArray) (live : list Z) (pages : Z) :
  buddy_inv b live → 0 ≤ pages < 2 ^ 64 →
  ∃ p b', allocPage b pages = Some (p, b') ∧
    ((p = NULL ∧ b' = b ∧ ∀ n, 1 ≤ pages ≤ NUMBER_OF_PAGES →
        ¬ avail b 1 (10 - Z.log2_up pages) n) ∨
     (∃ n, p = node_addr n ∧ n ∉ live ∧ buddy_inv b' (n :: live) ∧
        pages * PAGE_SIZE ≤ node_size n < 2 * (pages * PAGE_SIZE) ∧
        ∀ m, m ∈ live → node_addr n + node_size n ≤ node_addr m ∨
                        node_addr m + node_size m ≤ node_addr n)).
Proof.
  intros Hinv Hp. destruct (allocPage_inv b live pages Hinv ltac:(lia))
    as (p & b' & Ha & [Hnull|(n & Hpn & Hn & Hnin & Hinv' & Hs)]).
  { exists p, b'. auto. }
  exists p, b'. split; [done|]. right. exists n. split_and!; try done; try lia.
  intros m Hm. destruct (inv_full _ _ Hinv m Hm) as [Hmr _].
  assert (n ≠ m) by (by intros ->).
  apply node_disjoint; [done|done|..]; apply (inv_sep _ _ Hinv'); set_solver.
Qed.

Lemma allocPage_correct_witness :
  ∃ b p b', createHeap buddy_bss = Some b ∧ allocPage b 3 = Some (p, b') ∧
    ((p = NULL ∧ b' = b ∧ ∀ n, 1 ≤ 3 ≤ NUMBER_OF_PAGES → ¬ avail b 1 (10 - Z.log2_up 3) n) ∨
     (∃ n, p = node_addr n ∧ n ∉ [] ∧ buddy_inv b' [n] ∧
        3 * PAGE_SIZE ≤ node_size n < 2 * (3 * PAGE_SIZE) ∧
        ∀ m, m ∈ [] → node_addr n + node_size n ≤ node_addr m ∨
                      node_addr m + node_size m ≤ node_addr n)).
Proof.
  destruct buddy_bss_inv as (b & Hb & Hinv).
  destruct (allocPage_correct b [] 3 Hinv ltac:(lia)) as (p & b' & H).
  exists b, p, b'. split; [exact Hb|exact H].
Defined.

(** C6: from boot on, whatever sequence of page requests is made, the blocks handed
    out lie page-aligned in the 4 MB region and never overlap. *)
Theorem alloc_run_disjoint (b : typeBuddyArray) (l : list (Z * Z)) :
  alloc_run b l →
  (∀ p n, (p, n) ∈ l → 0x1000000 ≤ p ∧ p + n * PAGE_SIZE ≤ 0x1000000 + MEMORY ∧
                       p mod PAGE_SIZE = 0) ∧
  (∀ i j p n q m, l !! i = Some (p, n) → l !! j = Some (q, m) → i ≠ j →
     p + n * PAGE_SIZE ≤ q ∨ q + m * PAGE_SIZE ≤ p).
Proof.
  intros (live & Hinv & Hl)%alloc_run_inv.
  assert (Hblk : ∀ i p n, l !! i = Some (p, n) → ∃ x, live !! i = Some x ∧ 1 ≤ x ≤ HEAPSIZE ∧
    p = node_addr x ∧ p + n * PAGE_SIZE ≤ node_addr x + node_size x).
  { intros i p n Hi. destruct (Forall2_lookup_r _ _ _ _ _ Hl Hi) as (x & Hx & Hpx & Hnx).
    simpl in *. exists x. subst p. split_and!; try done; try lia;
      apply (inv_full _ _ Hinv), list_elem_of_lookup; eauto. }
  split.
  - intros p n [i Hi]%list_elem_of_lookup. destruct (Hblk _ _ _ Hi) as (x & _ & Hx & -> & Hle).
    destruct (node_in_region x Hx) as (? & ? & ?). split_and!; done || lia.
  - intros i j p n q m Hi Hj Hij.
    destruct (Hblk _ _ _ Hi) as (x & Hxi & Hx & -> & Hlex).
    destruct (Hblk _ _ _ Hj) as (y & Hyj & Hy & -> & Hley).
    assert (Hxy : x ≠ y) by (intros ->; apply Hij; by eapply NoDup_lookup; [apply Hinv|..]).
    assert (Hxl : x ∈ live) by (apply list_elem_of_lookup; eauto).
    assert (Hyl : y ∈ live) by (apply list_elem_of_lookup; eauto).
    destruct (node_disjoint x y Hx Hy); [by apply (inv_sep _ _ Hinv)..|lia|lia].
Qed.


(** The heap at boot, and the state and pointer a request leaves. *)
Definition heap0 : typeBuddyArray :=
  mkBuddy (replicate (Z.to_nat HEAPSIZE) EMPTY)
    (map (λ k, node_addr (Z.of_nat k + 1)) (seq 0 (Z.to_nat HEAPSIZE))) 11 0x1000000.
Definition after_alloc (b : typeBuddyArray) (pages : Z) : typeBuddyArray :=
  from_option snd b (allocPage b pages).
Definition alloc_ptr (b : typeBuddyArray) (pages : Z) : Z :=
  from_option fst NULL (allocPage b pages).
Definition after_free (b : typeBuddyArray) (p : Z) : typeBuddyArray :=
  from_option snd b (deallocPage b p).

(** Two heaps without a live block hold the same book-keeping. *)
Lemma buddy_inv_nil_unique b b' : buddy_inv b [] → buddy_inv b' [] → b = b'.
Proof.
  intros [[Ho Hb Hl Hm Hv Hn] _ _ He _] [[Ho' Hb' Hl' Hm' Hv' Hn'] _ _ He' _].
  destruct b as [o1 b1 l1 m1], b' as [o2 b2 l2 m2]; simpl in *. subst l1 l2 m1 m2.
  rewrite HEAPSIZE_eq in *. f_equal.
  - apply arr_ext; [congruence|]. intros i Hi.
    assert (Hx : 1 ≤ i + 1 ≤ 2047) by lia.
    pose proof (proj2 (He _ Hx)) as H1. pose proof (proj2 (He' _ Hx)) as H2.
    unfold occ in H1, H2. simpl in H1, H2. replace (i + 1 - 1) with i in * by lia.
    rewrite H1, H2; [done|..]; intros (? & ?%not_elem_of_nil & _); done.
  - apply arr_ext; [congruence|]. intros i Hi.
    pose proof (Hn (i + 1)) as H1. pose proof (Hn' (i + 1)) as H2.
    replace (i + 1 - 1) with i in * by lia. rewrite H1, H2; [done|lia..].
Qed.

Lemma heap0_inv : buddy_inv heap0 [].
Proof.
  assert (Hocc : ∀ x, 1 ≤ x ≤ HEAPSIZE → occ heap0 x = Some EMPTY).
  { intros x Hx. rewrite HEAPSIZE_eq in Hx. apply aget_replicate. rewrite HEAPSIZE_eq. lia. }
  constructor; [|constructor|by intros ? ?%elem_of_nil| |by intros ? ? ?%elem_of_nil].
  - constructor; [apply length_replicate|cbn [heap0 base]; by rewrite length_map, length_seq|reflexivity..| |].
    + intros n o Hn. pose proof (aget_inv _ _ _ Hn) as Hr. cbn [heap0 occupied] in Hr.
      rewrite length_replicate, HEAPSIZE_eq in Hr. rewrite Hocc in Hn by (rewrite HEAPSIZE_eq; lia).
      injection Hn as <-. unfold EMPTY. lia.
    + intros n Hn. rewrite HEAPSIZE_eq in Hn. rewrite aget_nat by lia. cbn [heap0 base].
      rewrite list_lookup_fmap, lookup_seq_lt by (rewrite HEAPSIZE_eq; lia). simpl.
      do 2 f_equal. lia.
  - intros x Hx. rewrite Hocc by done. split; [|done]. by intros _ (? & ?%elem_of_nil & _).
Qed.

Lemma heap0_eq : createHeap buddy_bss = Some heap0.
Proof.
  destruct buddy_bss_inv as (b & -> & Hinv).
  by rewrite (buddy_inv_nil_unique b heap0 Hinv heap0_inv).
Qed.

#[global] Opaque heap0.

Lemma heap0_alloc_1 : allocPage heap0 1 = Some (0x1000000, after_alloc heap0 1).
Proof. vm_compute. reflexivity. Qed.

#[global] Opaque after_alloc after_free.

Lemma alloc_run_disjoint_witness :
  ∃ b l, alloc_run b l ∧ l = [(0x1000000, 1)] ∧
  (∀ p n, (p, n) ∈ l → 0x1000000 ≤ p ∧ p + n * PAGE_SIZE ≤ 0x1000000 + MEMORY ∧
                       p mod PAGE_SIZE = 0) ∧
  (∀ i j p n q m, l !! i = Some (p, n) → l !! j = Some (q, m) → i ≠ j →
     p + n * PAGE_SIZE ≤ q ∨ q + m * PAGE_SIZE ≤ p).
Proof.
  exists (after_alloc heap0 1), [(0x1000000, 1)].
  assert (H : alloc_run (after_alloc heap0 1) [(0x1000000, 1)]).
  { eapply run_alloc; [apply run_boot, heap0_eq|lia|exact heap0_alloc_1|]. unfold NULL. lia. }
  split; [exact H|]. split; [reflexivity|]. exact (alloc_run_disjoint _ _ H).
Defined.

(** C23: freeing a live block, under the condition [free_safe] on the other live
    blocks, terminates inside of the arrays, returns 0 and leaves a well-formed
    heap in which exactly that block is no longer live. *)
Theorem deallocPage_correct (b : typeBuddyArray) (live : list Z) (n : Z) :
  buddy_inv b live → n ∈ live → free_safe live n →
  ∃ b', deallocPage b (node_addr n) = Some (0, b') ∧
    buddy_inv b' (filter (λ m, m ≠ n) live) ∧
    (∀ m, m ∈ live → m ≠ n → occ b' m = Some BUDDY_FULL).
Proof.
  intros Hinv Hlive Hsafe. destruct (deallocPage_inv _ _ _ Hinv Hlive Hsafe) as (b' & Hd & Hinv').
  exists b'. split; [done|]. split; [done|]. intros m Hm Hmn.
  apply (inv_full _ _ Hinv'). by apply list_elem_of_filter.
Qed.

(** A single live block can always be freed. *)
Lemma free_safe_single n : free_safe [n] n.
Proof. intros i _ _ (m & Hm%list_elem_of_singleton & Hne & _). done. Qed.

Lemma heap_one_inv : ∃ n, node_addr n = 0x1000000 ∧ buddy_inv (after_alloc heap0 1) [n].
Proof.
  destruct (allocPage_inv heap0 [] 1 heap0_inv ltac:(lia)) as (p & b & Ha & H).
  rewrite heap0_alloc_1 in Ha. apply (inj Some) in Ha.
  pose proof (f_equal fst Ha) as Hp. pose proof (f_equal snd Ha) as Hb. cbn [fst snd] in Hp, Hb.
  rewrite <-Hp, <-Hb in H. clear p b Ha Hp Hb.
  destruct H as [(H & _)|(n & Hp & _ & _ & Hi & _)]; [exfalso; unfold NULL in H; lia|].
  exists n. split; [symmetry; exact Hp|exact Hi].
Qed.

Lemma deallocPage_correct_witness :
  ∃ n b', buddy_inv (after_alloc heap0 1) [n] ∧
    deallocPage (after_alloc heap0 1) (node_addr n) = Some (0, b') ∧
    buddy_inv b' (filter (λ m, m ≠ n) [n]) ∧
    (∀ m, m ∈ [n] → m ≠ n → occ b' m = Some BUDDY_FULL).
Proof.
  destruct heap_one_inv as (n & _ & Hi).
  destruct (deallocPage_correct _ [n] n Hi ltac:(set_solver) (free_safe_single n)) as (b' & H).
  exists n, b'. split; [exact Hi|exact H].
Defined.

(** C24: on an empty heap every request of 1 to 1024 pages succeeds, and freeing the
    block that it returned restores the heap exactly. *)
Theorem alloc_dealloc_roundtrip (b : typeBuddyArray) (pages : Z) :
  buddy_inv b [] → 1 ≤ pages ≤ NUMBER_OF_PAGES →
  ∃ p b', allocPage b pages = Some (p, b') ∧ p ≠ NULL ∧ deallocPage b' p = Some (0, b).
Proof.
  intros Hinv Hp. pose proof (log2_up_pages _ Hp) as Hl.
  destruct (allocPage_inv b [] pages Hinv ltac:(lia))
    as (p & b' & Ha & [(_ & _ & Hno)|(n & -> & Hn & Hnin & Hinv' & Hs)]).
  - exfalso. destruct (empty_avail b 1 (10 - Z.log2_up pages)) as [n Hn].
    + by apply Hinv.
    + by eapply inv_closed.
    + lia.
    + change (depth 1) with 0. lia.
    + apply (inv_empty _ _ Hinv); [rewrite HEAPSIZE_eq; lia|].
      intros (? & ?%not_elem_of_nil & _); done.
    + by apply (Hno n).
  - exists (node_addr n), b'. split; [done|]. split; [by apply wf_node_nonnull|].
    destruct (deallocPage_inv b' [n] n Hinv') as (b2 & Hd & Hinv2); [set_solver|apply free_safe_single|].
    rewrite filter_cons_False in Hinv2 by tauto.
    rewrite (buddy_inv_nil_unique b b2); done.
Qed.

Lemma alloc_dealloc_roundtrip_witness :
  ∃ p b', allocPage heap0 5 = Some (p, b') ∧ p ≠ NULL ∧ deallocPage b' p = Some (0, heap0).
Proof. apply (alloc_dealloc_roundtrip heap0 5 heap0_inv). change NUMBER_OF_PAGES with 1024. lia. Defined.

(** A FULL root refuses every request. *)
Lemma root_full_fails b pages :
  aget (occupied b) 0 = Some BUDDY_FULL → heapLevel b = 11 → 1 ≤ pages ≤ NUMBER_OF_PAGES →
  alloc_ptr b pages = NULL.
Proof.
  intros Hroot Hlvl Hp. pose proof (log2_up_pages _ Hp).
  unfold alloc_ptr, allocPage. rewrite (proj2 (Z.eqb_neq _ _)), (proj2 (Z.ltb_ge _ _)) by lia.
  simpl orb. rewrite (getLevel_spec b pages Hlvl Hp). simpl mbind. rewrite Hlvl.
  rewrite (proj2 (Z.ltb_ge _ _)) by lia. change (Z.to_nat 11) with (S 10).
  generalize 10%nat. intros fuel. cbn [getNextPageRecursive]. change (1 - 1) with 0.
  by rewrite Hroot.
Qed.

(** [freeUpRecursive] marks an ancestor EMPTY from the state of one sibling only.
    After two one-page requests and the release of the first page, the whole region
    counts as free: a request for 1024 pages is granted and its block contains the
    second page, which is still in use. *)
Theorem free_then_alloc_overlaps :
  let b2 := after_alloc (after_alloc heap0 1) 1 in
  let p := alloc_ptr heap0 1 in
  let q := alloc_ptr (after_alloc heap0 1) 1 in
  let r := alloc_ptr (after_free b2 p) 1024 in
  p ≠ NULL ∧ q ≠ NULL ∧ r ≠ NULL ∧ p ≠ q ∧ r ≤ q ∧ q + PAGE_SIZE ≤ r + 1024 * PAGE_SIZE.
Proof. vm_compute. intuition discriminate. Qed.

(** An inner node becomes FULL as soon as its right half is, whatever its left
    half holds: after requests of 1 and 512 pages nothing can be allocated, although
    511 pages of the left half are free. *)
Theorem alloc_fails_with_free_pages :
  let b1 := after_alloc heap0 1 in
  let b2 := after_alloc b1 512 in
  alloc_ptr heap0 1 ≠ NULL ∧ alloc_ptr b1 512 ≠ NULL ∧
  (∀ n, 1025 ≤ n ≤ 1535 → occ b2 n = Some EMPTY) ∧
  (∀ pages, 1 ≤ pages ≤ NUMBER_OF_PAGES → alloc_ptr b2 pages = NULL).
Proof.
  cbv zeta. set (b1 := after_alloc heap0 1). set (b2 := after_alloc b1 512).
  split_and!; [vm_compute; discriminate..| |].
  - assert (Hall : forallb (λ k, bool_decide (occ b2 (1025 + Z.of_nat k) = Some EMPTY)) (seq 0 511) = true)
      by (vm_compute; reflexivity).
    intros n Hn. rewrite forallb_forall in Hall.
    specialize (Hall (Z.to_nat (n - 1025))). rewrite bool_decide_eq_true in Hall.
    replace (1025 + Z.of_nat (Z.to_nat (n - 1025))) with n in Hall by lia.
    apply Hall, in_seq. lia.
  - intros pages Hp.
    assert (Hroot : aget (occupied b2) 0 = Some BUDDY_FULL) by (vm_compute; reflexivity).
    assert (Hlvl : heapLevel b2 = 11) by (vm_compute; reflexivity).
    by apply root_full_fails.
Qed.
