(* ===== verification/KMonad.v ===== *)
(** * A resumption monad for kernel code

    A system call runs with interrupts disabled (the gates of [loadIDT] are interrupt
    gates), so kernel code is atomic except where it calls [_yield()]: there the processor
    is given away and other kernel code runs before the call returns.  A computation over
    a state [S] is therefore a tree: it faults (undefined behaviour, or out of fuel), it
    is done, or it yields in a state and goes on from whatever state it is resumed in. *)

From S2P Require Import Prelude.

Section resumptions.
Context {S : Type}.

Inductive res (A : Type) : Type :=
| Fault
| Done (a : A) (s : S)
| Yield (s : S) (k : S → res A).

Definition M (A : Type) : Type := S → res A.
End resumptions.

Arguments res : clear implicits.
Arguments M : clear implicits.
Arguments Fault {S A}.
Arguments Done {S A} _ _.
Arguments Yield {S A} _ _.

Fixpoint res_bind {S A B} (f : A → M S B) (r : res S A) : res S B :=
  match r with
  | Fault => Fault
  | Done a s => f a s
  | Yield s k => Yield s (λ s', res_bind f (k s'))
  end.

#[export] Instance M_ret S : MRet (M S) := λ A a s, Done a s.
#[export] Instance M_bind S : MBind (M S) := λ A B f m s, res_bind f (m s).

(** ** Primitive computations *)

Section primitives.
Context {S : Type}.

(** [_yield()]. *)
Definition _yield : M S unit := λ s, Yield s (Done tt).

Definition fault {A} : M S A := λ _, Fault.

(** Reads the state. *)
Definition asks {A} (f : S → A) : M S A := λ s, Done (f s) s.
Definition asksO {A} (f : S → option A) : M S A :=
  λ s, match f s with Some a => Done a s | None => Fault end.

(** Updates the state. *)
Definition modify (f : S → S) : M S unit := λ s, Done tt (f s).
Definition modifyO (f : S → option S) : M S unit :=
  λ s, match f s with Some s' => Done tt s' | None => Fault end.

(** Runs a function that returns a value and the new state. *)
Definition calls {A} (f : S → option (A * S)) : M S A :=
  λ s, match f s with Some (a, s') => Done a s' | None => Fault end.

Definition when (b : bool) (m : M S unit) : M S unit := if b then m else mret tt.
End primitives.

(** ** Running code of a component inside a larger state *)

Section zoom.
Context {S T : Type} (get : S → T) (set : T → S → S).

Fixpoint res_zoom {A} (s : S) (r : res T A) : res S A :=
  match r with
  | Fault => Fault
  | Done a t => Done a (set t s)
  | Yield t k => Yield (set t s) (λ s', res_zoom s' (k (get s')))
  end.

Definition zoom {A} (m : M T A) : M S A := λ s, res_zoom s (m (get s)).
End zoom.

(** ** Equality of computations up to the continuations' arguments *)

Section equivalence.
Context {S A : Type}.

Inductive res_equiv : Equiv (res S A) :=
| equiv_fault : res_equiv Fault Fault
| equiv_done a s : res_equiv (Done a s) (Done a s)
| equiv_yield s k1 k2 : (∀ s', res_equiv (k1 s') (k2 s')) → res_equiv (Yield s k1) (Yield s k2).
#[export] Existing Instance res_equiv.

Lemma res_refl (r : res S A) : r ≡ r.
Proof. induction r; constructor; auto. Qed.

Lemma res_sym (r1 r2 : res S A) : r1 ≡ r2 → r2 ≡ r1.
Proof. induction 1; constructor; auto. Qed.

Lemma res_trans (r1 r2 r3 : res S A) : r1 ≡ r2 → r2 ≡ r3 → r1 ≡ r3.
Proof.
  intros H. revert r3. induction H as [|a s|s k1 k2 Hk IH]; intros r3 H3; [done..|].
  inversion H3 as [| |? ? ? Hk2]; subst. constructor. intros s'. apply IH, Hk2.
Qed.

#[export] Instance res_equivalence : Equivalence (≡@{res S A}).
Proof. split; [exact res_refl|exact res_sym|exact res_trans]. Qed.

#[export] Instance M_equiv : Equiv (M S A) := λ m1 m2, ∀ s, m1 s ≡ m2 s.
#[export] Instance M_equivalence : Equivalence (≡@{M S A}).
Proof.
  split; [intros m s; reflexivity|intros m1 m2 H s; symmetry; apply H|].
  intros m1 m2 m3 H1 H2 s. etransitivity; [apply H1|apply H2].
Qed.
End equivalence.

#[export] Instance res_bind_proper {S A B} :
  Proper (pointwise_relation A (≡) ==> (≡) ==> (≡)) (@res_bind S A B).
Proof.
  intros f g Hfg r1 r2 H. induction H as [|a s|s k1 k2 Hk IH]; simpl;
    [reflexivity|apply Hfg|constructor; apply IH].
Qed.

Lemma res_bind_assoc {S A B C} (f : A → M S B) (g : B → M S C) (r : res S A) :
  res_bind g (res_bind f r) ≡ res_bind (λ a s, res_bind g (f a s)) r.
Proof. induction r as [|a s|s k IH]; simpl; [reflexivity..|constructor; apply IH]. Qed.

Lemma res_bind_ret {S A} (r : res S A) : res_bind (λ a, Done a) r ≡ r.
Proof. induction r as [|a s|s k IH]; simpl; [reflexivity..|constructor; apply IH]. Qed.

Lemma res_zoom_bind {S T A B} (get : S → T) set (Hset : ∀ t s, get (set t s) = t)
    (Hset2 : ∀ t t' s, set t (set t' s) = set t s) s (f : A → M T B) (r : res T A) :
  res_zoom get set s (res_bind f r) ≡
    res_bind (λ a, zoom get set (f a)) (res_zoom get set s r).
Proof.
  revert s. induction r as [|a t|t k IH]; intros s; simpl; [reflexivity| |].
  - unfold zoom. rewrite Hset. generalize (f a t) as r. intros r.
    destruct r as [|b t2|t2 k2]; simpl; [reflexivity|by rewrite Hset2|].
    rewrite Hset2. reflexivity.
  - constructor. intros s'. apply IH.
Qed.

(** ** Computing with the monad *)

Section laws.
Context {S : Type}.

Lemma bind_done {A B} (m : M S A) (f : A → M S B) s a s' :
  m s = Done a s' → (m ≫= f) s = f a s'.
Proof. intros H. unfold mbind, M_bind. by rewrite H. Qed.

Lemma bind_yield {A B} (m : M S A) (f : A → M S B) s s' k :
  m s = Yield s' k → (m ≫= f) s = Yield s' (λ s2, res_bind f (k s2)).
Proof. intros H. unfold mbind, M_bind. by rewrite H. Qed.

Lemma asks_bind {A B} (g : S → A) (f : A → M S B) s : (asks g ≫= f) s = f (g s) s.
Proof. done. Qed.

Lemma asksO_bind {A B} (g : S → option A) (f : A → M S B) s a :
  g s = Some a → (asksO g ≫= f) s = f a s.
Proof. intros H. apply bind_done. unfold asksO. by rewrite H. Qed.

Lemma modify_bind {B} (g : S → S) (f : unit → M S B) s : (modify g ≫= f) s = f tt (g s).
Proof. done. Qed.

Lemma modifyO_bind {B} (g : S → option S) (f : unit → M S B) s s' :
  g s = Some s' → (modifyO g ≫= f) s = f tt s'.
Proof. intros H. apply bind_done. unfold modifyO. by rewrite H. Qed.

Lemma calls_bind {A B} (g : S → option (A * S)) (f : A → M S B) s a s' :
  g s = Some (a, s') → (calls g ≫= f) s = f a s'.
Proof. intros H. apply bind_done. unfold calls. by rewrite H. Qed.

Lemma yield_bind {B} (f : unit → M S B) s : (_yield ≫= f) s = Yield s (f tt).
Proof. done. Qed.
End laws.

(** ** Components of a larger state *)

(** [S] has a component of type [T]. *)
Class Field (S T : Type) := {
  fget : S → T;
  fset : T → S → S;
}.

Class FieldLaws (S T : Type) `{Field S T} := {
  fget_set (t : T) (s : S) : fget (fset t s) = t;
  fset_set (t t' : T) (s : S) : fset t (fset t' s) = fset t s;
  fset_get (s : S) : fset (fget s : T) s = s;
}.

Section fields.
Context {S : Type}.

(** Runs an operation on a component. *)
Definition on_field {T} `{Field S T} (f : T → option T) : M S unit :=
  modifyO (λ s, t ← f (fget s); Some (fset t s)).
Definition call_field {T A} `{Field S T} (f : T → option (A * T)) : M S A :=
  calls (λ s, '(a, t) ← f (fget s); Some (a, fset t s)).
Definition zoom_field {T A} `{Field S T} (m : M T A) : M S A := zoom fget fset m.

Lemma on_field_bind {T A} `{Field S T} (f : T → option T) (g : unit → M S A) s t :
  f (fget s) = Some t → (on_field f ≫= g) s = g tt (fset t s).
Proof. intros E. apply modifyO_bind. by rewrite E. Qed.

Lemma call_field_bind {T A B} `{Field S T} (f : T → option (A * T)) (g : A → M S B) s a t :
  f (fget s) = Some (a, t) → (call_field f ≫= g) s = g a (fset t s).
Proof. intros E. apply calls_bind. by rewrite E. Qed.

Lemma zoom_done {T A} `{Field S T} (c : M T A) s a t :
  c (fget s) = Done a t → zoom_field c s = Done a (fset t s).
Proof. intros E. unfold zoom_field, zoom. by rewrite E. Qed.

Lemma zoom_bind {T A B} `{Field S T} (c : M T A) (g : A → M S B) s a t :
  c (fget s) = Done a t → (zoom_field c ≫= g) s = g a (fset t s).
Proof. intros E. apply bind_done. by apply zoom_done. Qed.
End fields.
