(* ===== verification/CString.v ===== *)
(** * Memory and C strings ([Kernel/lib.c], [Kernel/stdio.c])

    The kernel's address space is a total map from addresses to bytes (there is no
    unmapped page: the kernel runs identity-mapped).  This file models the routines
    that walk over it: [memset], [memcpy], [strcmp], [strcmpN] and [strcpy]. *)

From S2P Require Import Prelude.

(** ** Byte-addressed memory *)

Definition mem : Type := Z → Z.

Definition load8 (m : mem) (a : Z) : Z := uint8 (m a).
Definition store8 (m : mem) (a v : Z) : mem := λ x, if x =? a then uint8 v else m x.

(** [char] is signed. *)
Definition char_at (m : mem) (a : Z) : Z := int8 (m a).

(** A little-endian [uint32_t]. *)
Definition load32 (m : mem) (a : Z) : Z :=
  load8 m a + 256 * (load8 m (a + 1) + 256 * (load8 m (a + 2) + 256 * load8 m (a + 3))).
Definition store32 (m : mem) (a v : Z) : mem :=
  store8 (store8 (store8 (store8 m a v) (a + 1) (v / 256)) (a + 2) (v / 65536))
    (a + 3) (v / 16777216).

(** A little-endian [uint64_t] (a pointer). *)
Definition load64 (m : mem) (a : Z) : Z := load32 m a + 4294967296 * load32 m (a + 4).
Definition store64 (m : mem) (a v : Z) : mem :=
  store32 (store32 m a v) (a + 4) (v / 4294967296).

(** ** [lib.c] *)

(** [while(length--) dst[length] = chr;] *)
Fixpoint memset_loop (length : nat) (m : mem) (dst chr : Z) : mem :=
  match length with
  | O => m
  | S length' => memset_loop length' (store8 m (dst + Z.of_nat length') chr) dst chr
  end.

Definition memset (m : mem) (destination c length : Z) : Z * mem :=
  (destination, memset_loop (Z.to_nat length) m destination (uint8 c)).

(** The two loops of [memcpy], over words and over bytes; [n] iterations are left. *)
Fixpoint memcpy_words (n : nat) (i : Z) (m : mem) (d s : Z) : mem :=
  match n with
  | O => m
  | S n' => memcpy_words n' (i + 1) (store32 m (d + 4 * i) (load32 m (s + 4 * i))) d s
  end.

Fixpoint memcpy_bytes (n : nat) (i : Z) (m : mem) (d s : Z) : mem :=
  match n with
  | O => m
  | S n' => memcpy_bytes n' (i + 1) (store8 m (d + i) (load8 m (s + i))) d s
  end.

Definition memcpy (m : mem) (destination source length : Z) : Z * mem :=
  if (destination mod 4 =? 0) && (source mod 4 =? 0) && (length mod 4 =? 0)
  then (destination, memcpy_words (Z.to_nat (length / 4)) 0 m destination source)
  else (destination, memcpy_bytes (Z.to_nat length) 0 m destination source).

(** ** [stdio.c] *)

(** [strcmp] and [strcmpN] run until a terminator is met; [fuel] bounds the walk.
    [strcmp2] is [strcmp] with each string in a memory of its own: the address space or
    one of the kernel's character arrays. *)
Fixpoint strcmp2 (fuel : nat) (m1 : mem) (str1 : Z) (m2 : mem) (str2 : Z) : option Z :=
  match fuel with
  | O => None
  | S fuel' =>
      let c1 := char_at m1 str1 in
      let c2 := char_at m2 str2 in
      if negb (c1 =? 0) && negb (c2 =? 0) then
        if 0 <? c1 - c2 then Some 1
        else if c1 - c2 <? 0 then Some (-1)
        else strcmp2 fuel' m1 (str1 + 1) m2 (str2 + 1)
      else if (c1 =? 0) && (c2 =? 0) then Some 0
      else if c1 =? 0 then Some (-1)
      else Some 1
  end.

Definition strcmp (fuel : nat) (m : mem) (str1 str2 : Z) : option Z := strcmp2 fuel m str1 m str2.

Fixpoint strcmpN (fuel : nat) (m : mem) (str1 str2 number : Z) : option Z :=
  match fuel with
  | O => None
  | S fuel' =>
      let c1 := char_at m str1 in
      let c2 := char_at m str2 in
      if negb (c1 =? 0) && negb (c2 =? 0) && negb (number =? 0) then
        if 0 <? c1 - c2 then Some 1
        else if c1 - c2 <? 0 then Some (-1)
        else strcmpN fuel' m (str1 + 1) (str2 + 1) (number - 1)
      else if number =? 0 then Some 0
      else if (c1 =? 0) && (c2 =? 0) then Some 0
      else if c1 =? 0 then Some (-1)
      else Some 1
  end.

(** [strcpy] returns the number of characters copied. *)
Fixpoint strcpy_loop (fuel : nat) (i : Z) (m : mem) (to from : Z) : option (Z * mem) :=
  match fuel with
  | O => None
  | S fuel' =>
      if negb (char_at m (from + i) =? 0)
      then strcpy_loop fuel' (i + 1) (store8 m (to + i) (char_at m (from + i))) to from
      else Some (i, store8 m (to + i) 0)
  end.

Definition strcpy (fuel : nat) (m : mem) (to from : Z) : option (Z * mem) :=
  strcpy_loop fuel 0 m to from.

(** [strcpy] into an array of [size] chars: the bytes written, the terminator included.
    Writing past the array is a fault. *)
Fixpoint strcpy_array (size : nat) (m : mem) (from : Z) : option (list Z) :=
  match size with
  | O => None
  | S size' =>
      if negb (char_at m from =? 0)
      then l ← strcpy_array size' m (from + 1); Some (load8 m from :: l)
      else Some [0]
  end.

(** An array of which the first bytes are [l], as a memory. *)
Definition array_mem (l : list Z) : mem := λ a, default 0 (aget l a).

(** ** Specifications *)

(** [m] holds at [p] the zero-terminated string of the (non-zero, signed) chars [l]. *)
Fixpoint cstr (m : mem) (p : Z) (l : list Z) : Prop :=
  match l with
  | [] => char_at m p = 0
  | c :: l' => c ≠ 0 ∧ char_at m p = c ∧ cstr m (p + 1) l'
  end.

(** The lexicographic order on strings. *)
Fixpoint str_compare (l1 l2 : list Z) : Z :=
  match l1, l2 with
  | [], [] => 0
  | [], _ :: _ => -1
  | _ :: _, [] => 1
  | c1 :: l1', c2 :: l2' =>
      if c2 <? c1 then 1 else if c1 <? c2 then -1 else str_compare l1' l2'
  end.

(** The memory after a copy of [n] bytes from [s] to [d]. *)
Definition copied (m : mem) (d s n : Z) (m' : mem) : Prop :=
  ∀ a, load8 m' a = if (d <=? a) && (a <? d + n) then load8 m (s + (a - d)) else load8 m a.

(** [n] bytes at [p] and [n] bytes at [q] have none in common. *)
Definition apart (p q n : Z) : Prop := p + n ≤ q ∨ q + n ≤ p.

(** ** Lemmas *)

Lemma store8_load m a v x :
  load8 (store8 m a v) x = if x =? a then uint8 v else load8 m x.
Proof.
  unfold load8, store8. destruct (x =? a); [|done]. unfold wrap_u.
  by rewrite Z.mod_mod.
Qed.

Lemma int8_uint8 v : int8 (uint8 v) = int8 v.
Proof. unfold wrap_s, wrap_u. f_equal. by rewrite Z.add_mod_idemp_l. Qed.

Lemma store8_char m a v x :
  char_at (store8 m a v) x = if x =? a then int8 v else char_at m x.
Proof. unfold char_at, store8. destruct (x =? a); [by rewrite int8_uint8|done]. Qed.

Lemma load8_char m m' a b : load8 m a = load8 m' b → char_at m a = char_at m' b.
Proof. unfold char_at, load8. intros H. by rewrite <-(int8_uint8 (m a)), H, int8_uint8. Qed.

Lemma uint8_load m a : uint8 (load8 m a) = load8 m a.
Proof. unfold load8, wrap_u. by rewrite Z.mod_mod. Qed.

Lemma load8_range m a : 0 ≤ load8 m a < 256.
Proof. apply (wrap_u_range 8). lia. Qed.

Lemma char_at_0 m a : char_at m a = 0 → load8 m a = uint8 0.
Proof.
  unfold char_at, load8, wrap_s, wrap_u. change (2 ^ (8 - 1)) with 128. change (2 ^ 8) with 256.
  generalize (m a) as u. intros u Hu. Z.to_euclidean_division_equations; lia.
Qed.

Lemma uint8_char m a : uint8 (char_at m a) = load8 m a.
Proof.
  unfold load8, char_at, wrap_s, wrap_u. change (2 ^ (8 - 1)) with 128. change (2 ^ 8) with 256.
  generalize (m a) as u. intros u. rewrite Zminus_mod, Z.mod_mod, <-Zminus_mod by lia.
  f_equal. lia.
Qed.

Lemma cstr_load m m' p l :
  (∀ a, p ≤ a ≤ p + Z.of_nat (length l) → load8 m' a = load8 m a) → cstr m p l → cstr m' p l.
Proof.
  revert p. induction l as [|c l IH]; intros p Hsame; simpl.
  - intros H. rewrite <-H. apply load8_char, Hsame. simpl. lia.
  - intros (Hc & Hp & Hl). split; [done|]. split.
    + rewrite <-Hp. apply load8_char, Hsame. simpl. lia.
    + apply IH; [|done]. intros a Ha. apply Hsame. simpl. lia.
Qed.

Lemma str_compare_eq l1 l2 : str_compare l1 l2 = 0 ↔ l1 = l2.
Proof.
  revert l2. induction l1 as [|c1 l1 IH]; intros [|c2 l2]; simpl; try done.
  destruct (Z.ltb_spec c2 c1), (Z.ltb_spec c1 c2); try (split; [done|]; intros [= -> _]; lia).
  rewrite IH. replace c2 with c1 by lia. naive_solver.
Qed.

Lemma str_compare_antisym l1 l2 : str_compare l2 l1 = - str_compare l1 l2.
Proof.
  revert l2. induction l1 as [|c1 l1 IH]; intros [|c2 l2]; simpl; try done.
  destruct (Z.ltb_spec c2 c1), (Z.ltb_spec c1 c2); done || lia || apply IH.
Qed.

Lemma strcmp2_spec fuel m1 m2 p q l1 l2 :
  cstr m1 p l1 → cstr m2 q l2 → (Nat.min (length l1) (length l2) < fuel)%nat →
  strcmp2 fuel m1 p m2 q = Some (str_compare l1 l2).
Proof.
  revert fuel p q l2. induction l1 as [|c1 l1 IH]; intros [|fuel] p q [|c2 l2]; simpl; try lia.
  - intros -> ->. done.
  - intros -> (Hc & -> & _). destruct (Z.eqb_spec c2 0); done.
  - intros (Hc & -> & _) ->. destruct (Z.eqb_spec c1 0); done.
  - intros (Hc1 & -> & H1) (Hc2 & -> & H2) Hf.
    rewrite (proj2 (Z.eqb_neq c1 0)), (proj2 (Z.eqb_neq c2 0)) by done. simpl.
    destruct (Z.ltb_spec 0 (c1 - c2)), (Z.ltb_spec c2 c1); try lia; [done|].
    destruct (Z.ltb_spec (c1 - c2) 0), (Z.ltb_spec c1 c2); try lia; [done|].
    apply IH; [done..|lia].
Qed.

Lemma strcmp_spec fuel m p q l1 l2 :
  cstr m p l1 → cstr m q l2 → (Nat.min (length l1) (length l2) < fuel)%nat →
  strcmp fuel m p q = Some (str_compare l1 l2).
Proof. apply strcmp2_spec. Qed.

Lemma strcmpN_spec fuel m p q l1 l2 (n : nat) :
  cstr m p l1 → cstr m q l2 → (Nat.min (length l1) (length l2) < fuel)%nat →
  strcmpN fuel m p q (Z.of_nat n) = Some (str_compare (take n l1) (take n l2)).
Proof.
  revert fuel p q l2 n. induction l1 as [|c1 l1 IH]; intros [|fuel] p q [|c2 l2] n; simpl; try lia.
  - intros -> ->. destruct n; done.
  - intros -> (Hc & -> & _). destruct (Z.eqb_spec c2 0); [done|]. destruct n; done.
  - intros (Hc & -> & _) ->. destruct (Z.eqb_spec c1 0); [done|]. destruct n; done.
  - intros (Hc1 & -> & H1) (Hc2 & -> & H2) Hf.
    rewrite (proj2 (Z.eqb_neq c1 0)), (proj2 (Z.eqb_neq c2 0)) by done.
    destruct n as [|n]; [done|]. rewrite (proj2 (Z.eqb_neq (Z.of_nat (S n)) 0)) by lia.
    cbn [negb andb take str_compare].
    destruct (Z.ltb_spec 0 (c1 - c2)), (Z.ltb_spec c2 c1); try lia; [done|].
    destruct (Z.ltb_spec (c1 - c2) 0), (Z.ltb_spec c1 c2); try lia; [done|].
    replace (Z.of_nat (S n) - 1) with (Z.of_nat n) by lia. apply IH; [done..|lia].
Qed.

Lemma memset_loop_spec n m dst chr a :
  load8 (memset_loop n m dst chr) a =
    if (dst <=? a) && (a <? dst + Z.of_nat n) then uint8 chr else load8 m a.
Proof.
  revert m. induction n as [|n IH]; intros m; cbn [memset_loop].
  { destruct (Z.leb_spec dst a), (Z.ltb_spec a (dst + Z.of_nat 0)); done || lia. }
  rewrite IH, store8_load.
  destruct (Z.leb_spec dst a), (Z.ltb_spec a (dst + Z.of_nat n)),
    (Z.eqb_spec a (dst + Z.of_nat n)), (Z.ltb_spec a (dst + Z.of_nat (S n)));
    done || lia.
Qed.

(** Copying the bytes [i .. i + k - 1] after the bytes [0 .. i - 1]. *)
Lemma copied_step m d s i k m1 m2 :
  copied m d s i m1 → 0 ≤ i → 0 ≤ k → apart d s (i + k) →
  (∀ a, load8 m2 a = if (d + i <=? a) && (a <? d + i + k) then load8 m1 (s + (a - d)) else load8 m1 a) →
  copied m d s (i + k) m2.
Proof.
  intros H1 Hi Hk Hap H2 a. unfold apart in Hap. rewrite H2, !H1.
  destruct (Z.leb_spec (d + i) a), (Z.ltb_spec a (d + i + k)), (Z.leb_spec d a),
    (Z.ltb_spec a (d + i)), (Z.ltb_spec a (d + (i + k))), (Z.leb_spec d (s + (a - d))),
    (Z.ltb_spec (s + (a - d)) (d + i)); simpl; done || lia.
Qed.

Lemma memcpy_bytes_spec n i m m1 d s :
  copied m d s i m1 → 0 ≤ i → apart d s (i + Z.of_nat n) →
  copied m d s (i + Z.of_nat n) (memcpy_bytes n i m1 d s).
Proof.
  revert i m1. induction n as [|n IH]; intros i m1 H1 Hi Hap; cbn [memcpy_bytes].
  { by rewrite Z.add_0_r. }
  replace (i + Z.of_nat (S n)) with (i + 1 + Z.of_nat n) in * by lia.
  apply IH; [|lia|done]. eapply copied_step; [done|done|lia|unfold apart in *; lia|].
  intros a. rewrite store8_load, uint8_load.
  destruct (Z.eqb_spec a (d + i)), (Z.leb_spec (d + i) a), (Z.ltb_spec a (d + i + 1));
    try lia; simpl; [|done..]. f_equal. lia.
Qed.

(** A word store writes the four bytes of the word. *)
Lemma store32_load m a v x :
  load8 (store32 m a v) x =
    if x =? a then uint8 v else if x =? a + 1 then uint8 (v / 256)
    else if x =? a + 2 then uint8 (v / 65536)
    else if x =? a + 3 then uint8 (v / 16777216) else load8 m x.
Proof.
  unfold store32. rewrite !store8_load.
  repeat match goal with |- context [?p =? ?q] => destruct (Z.eqb_spec p q) end; done || lia.
Qed.

(** The bytes of a word that was loaded are the bytes in memory. *)
Lemma load32_bytes m a :
  let v := load32 m a in
  uint8 v = load8 m a ∧ uint8 (v / 256) = load8 m (a + 1) ∧
  uint8 (v / 65536) = load8 m (a + 2) ∧ uint8 (v / 16777216) = load8 m (a + 3).
Proof.
  unfold load32. pose proof (load8_range m a). pose proof (load8_range m (a + 1)).
  pose proof (load8_range m (a + 2)). pose proof (load8_range m (a + 3)).
  set (b0 := load8 m a) in *. set (b1 := load8 m (a + 1)) in *.
  set (b2 := load8 m (a + 2)) in *. set (b3 := load8 m (a + 3)) in *.
  clearbody b0 b1 b2 b3. cbv zeta. unfold wrap_u. change (2 ^ 8) with 256.
  split_and!; Z.to_euclidean_division_equations; lia.
Qed.

Lemma load64_store64 m a v : 0 ≤ v < 2 ^ 64 → load64 (store64 m a v) a = v.
Proof.
  intros Hv. unfold load64, store64, load32. rewrite !store32_load. c_tests.
  unfold wrap_u. change (2 ^ 8) with 256. change (2 ^ 64) with 18446744073709551616 in Hv.
  Z.to_euclidean_division_equations. lia.
Qed.

Lemma load32_store32 m a v : load32 (store32 m a v) a = uint32 v.
Proof.
  unfold load32. rewrite !store32_load. c_tests. unfold wrap_u. change (2 ^ 8) with 256. change (2 ^ 32) with 4294967296.
  Z.to_euclidean_division_equations. lia.
Qed.

Lemma load32_frame m a v b : a + 4 ≤ b ∨ b + 4 ≤ a → load32 (store32 m a v) b = load32 m b.
Proof. intros Hab. unfold load32. rewrite !store32_load. c_tests; reflexivity. Qed.

(** A pointer is apart from the other bytes. *)
Lemma store64_load m a v x : ¬ (a ≤ x < a + 8) → load8 (store64 m a v) x = load8 m x.
Proof. intros Hx. unfold store64. rewrite !store32_load. c_tests; reflexivity. Qed.

Lemma load64_ext m m' a : (∀ x, a ≤ x < a + 8 → load8 m' x = load8 m x) → load64 m' a = load64 m a.
Proof. intros Hx. unfold load64, load32. by rewrite !Hx by lia. Qed.

Lemma store32_load32 m a s x :
  load8 (store32 m a (load32 m s)) x =
    if (a <=? x) && (x <? a + 4) then load8 m (s + (x - a)) else load8 m x.
Proof.
  rewrite store32_load. destruct (load32_bytes m s) as (-> & -> & -> & ->).
  repeat match goal with |- context [?p =? ?q] => destruct (Z.eqb_spec p q) end;
    destruct (Z.leb_spec a x), (Z.ltb_spec x (a + 4)); try lia; simpl; try done; f_equal; lia.
Qed.

Lemma memcpy_words_spec n i m m1 d s :
  copied m d s (4 * i) m1 → 0 ≤ i → apart d s (4 * (i + Z.of_nat n)) →
  copied m d s (4 * (i + Z.of_nat n)) (memcpy_words n i m1 d s).
Proof.
  revert i m1. induction n as [|n IH]; intros i m1 H1 Hi Hap; cbn [memcpy_words].
  { by rewrite Z.add_0_r. }
  replace (i + Z.of_nat (S n)) with (i + 1 + Z.of_nat n) in * by lia.
  apply IH; [|lia|done]. replace (4 * (i + 1)) with (4 * i + 4) by lia.
  eapply copied_step; [done|lia|lia|unfold apart in *; lia|].
  intros a. rewrite store32_load32.
  destruct (Z.leb_spec (d + 4 * i) a), (Z.ltb_spec a (d + 4 * i + 4)); simpl; try done.
  f_equal. lia.
Qed.

Lemma copied_0 m d s : copied m d s 0 m.
Proof. intros a. destruct (Z.leb_spec d a), (Z.ltb_spec a (d + 0)); done || lia. Qed.

Lemma strcpy_loop_spec fuel i m m1 to from n l :
  copied m to from i m1 → 0 ≤ i → cstr m (from + i) l → n = i + Z.of_nat (length l) →
  apart to from (n + 1) → (length l < fuel)%nat →
  ∃ m', strcpy_loop fuel i m1 to from = Some (n, m') ∧ copied m to from (n + 1) m'.
Proof.
  revert i m1 l. induction fuel as [|fuel IH]; intros i m1 l H1 Hi Hl -> Hap Hf; [lia|].
  unfold apart in Hap.
  assert (Hsrc : load8 m1 (from + i) = load8 m (from + i)).
  { rewrite H1. destruct (Z.leb_spec to (from + i)), (Z.ltb_spec (from + i) (to + i)); done || lia. }
  assert (Hch : char_at m1 (from + i) = char_at m (from + i)) by (by apply load8_char).
  assert (Hstep : ∀ v, uint8 v = load8 m1 (from + i) →
    copied m to from (i + 1) (store8 m1 (to + i) v)).
  { intros v Hv. eapply copied_step; [done|done|lia|unfold apart; lia|].
    intros a. rewrite store8_load, Hv.
    destruct (Z.eqb_spec a (to + i)), (Z.leb_spec (to + i) a), (Z.ltb_spec a (to + i + 1));
      try lia; simpl; try done. f_equal. lia. }
  cbn [strcpy_loop]. rewrite Hch. destruct l as [|c l]; simpl in Hl.
  - rewrite Hl. simpl. rewrite !Z.add_0_r in *. eexists. split; [done|].
    apply Hstep. rewrite Hsrc. symmetry. by apply char_at_0.
  - destruct Hl as (Hc & Hcc & Hl). rewrite Hcc, (proj2 (Z.eqb_neq c 0)) by done. simpl.
    apply (IH (i + 1) _ l); [|lia| |simpl; lia|done|simpl in Hf; lia].
    + apply Hstep. rewrite Hsrc, <-Hcc. apply uint8_char.
    + by replace (from + (i + 1)) with (from + i + 1) by lia.
Qed.

Lemma array_mem_cons c l a : 0 ≤ a → array_mem (c :: l) (a + 1) = array_mem l a.
Proof.
  intros Ha. unfold array_mem. rewrite !aget_nat by lia.
  by replace (Z.to_nat (a + 1)) with (S (Z.to_nat a)) by lia.
Qed.

Lemma cstr_shift m m' p q l :
  (∀ a, 0 ≤ a → char_at m' (q + a) = char_at m (p + a)) → cstr m p l → cstr m' q l.
Proof.
  revert p q. induction l as [|c l IH]; intros p q Hs; simpl.
  - intros Hp. specialize (Hs 0). rewrite !Z.add_0_r in Hs. by rewrite Hs.
  - intros (Hc & Hp & Hl). split; [done|]. split.
    { specialize (Hs 0). rewrite !Z.add_0_r in Hs. by rewrite Hs. }
    apply (IH (p + 1) (q + 1)); [|done]. intros a Ha.
    replace (q + 1 + a) with (q + (a + 1)) by lia. rewrite Hs by lia. f_equal. lia.
Qed.

(** A string that fits is copied complete; one that does not is a fault. *)
Lemma strcpy_array_spec size m p l :
  cstr m p l →
  if decide (length l < size)%nat
  then ∃ b, strcpy_array size m p = Some b ∧ cstr (array_mem b) 0 l
  else strcpy_array size m p = None.
Proof.
  revert p l. induction size as [|size IH]; intros p l Hl; cbn [strcpy_array].
  { by rewrite decide_False by lia. }
  destruct l as [|c l]; simpl in Hl.
  - rewrite Hl, decide_True by (simpl; lia). by exists [0].
  - destruct Hl as (Hc & Hcc & Hl). rewrite Hcc, (proj2 (Z.eqb_neq _ _)) by done. simpl.
    specialize (IH _ _ Hl). destruct (decide (length l < size)%nat) as [Hd|Hd].
    + rewrite decide_True by (simpl; lia). destruct IH as (b & -> & Hb). eexists. split; [done|].
      split; [done|]. split.
      { rewrite <-Hcc. unfold char_at, array_mem. simpl. apply int8_uint8. }
      eapply cstr_shift; [|exact Hb]. intros a Ha. unfold char_at. simpl.
      rewrite Z.add_comm. by rewrite array_mem_cons.
    + rewrite decide_False by (simpl; lia). by rewrite IH.
Qed.

Lemma copied_cstr m d s n m' l :
  copied m d s n m' → Z.of_nat (length l) < n → cstr m s l → cstr m' d l.
Proof.
  intros Hc. assert (Hg : ∀ k l, 0 ≤ k → k + Z.of_nat (length l) < n → cstr m (s + k) l → cstr m' (d + k) l).
  { clear l. intros k l. revert k. induction l as [|c l IH]; intros k Hk Hn; simpl in *.
    - intros H. rewrite <-H. apply load8_char. rewrite Hc.
      destruct (Z.leb_spec d (d + k)), (Z.ltb_spec (d + k) (d + n)); try lia. simpl. f_equal. lia.
    - intros (H1 & H2 & H3). split; [done|]. split.
      + rewrite <-H2. apply load8_char. rewrite Hc.
        destruct (Z.leb_spec d (d + k)), (Z.ltb_spec (d + k) (d + n)); try lia. simpl. f_equal. lia.
      + replace (d + k + 1) with (d + (k + 1)) by lia. apply IH; [lia|lia|].
        by replace (s + (k + 1)) with (s + k + 1) by lia. }
  intros Hn Hl. rewrite <-(Z.add_0_r d). apply Hg; [lia|lia|]. by rewrite Z.add_0_r.
Qed.

(** ** Properties *)

(** On two C strings [strcmp] returns, within as many steps as the shorter one is
    long, their lexicographic comparison by signed chars: 0 exactly for equal strings,
    and the opposite result when the arguments are swapped. *)
Theorem strcmp_correct (m : mem) (p q : Z) (l1 l2 : list Z) (fuel : nat) :
  cstr m p l1 → cstr m q l2 → (Nat.min (length l1) (length l2) < fuel)%nat →
  ∃ r, strcmp fuel m p q = Some r ∧ strcmp fuel m q p = Some (- r) ∧
    r = str_compare l1 l2 ∧ (r = 0 ↔ l1 = l2).
Proof.
  intros H1 H2 Hf. exists (str_compare l1 l2). split_and!.
  - by apply strcmp_spec.
  - rewrite <-str_compare_antisym. apply strcmp_spec; [done..|lia].
  - done.
  - apply str_compare_eq.
Qed.

(** "ab" at 0 and "ac" at 3. *)
Definition mem_demo : mem :=
  λ a, default 0 (aget [97; 98; 0; 97; 99; 0] a).

Lemma strcmp_correct_witness :
  ∃ r, strcmp 3 mem_demo 0 3 = Some r ∧ strcmp 3 mem_demo 3 0 = Some (- r) ∧
    r = str_compare [97; 98] [97; 99] ∧ (r = 0 ↔ [97; 98] = [97; 99]).
Proof.
  apply strcmp_correct; [vm_compute; split_and!; congruence..|simpl; lia].
Defined.

(** [memcpy] copies [length] bytes between disjoint buffers and nothing else,
    whether it takes the word-by-word path (both addresses and the length aligned) or
    the byte-by-byte path. *)
Theorem memcpy_correct (m : mem) (destination source length : Z) :
  0 ≤ length → apart destination source length →
  ∃ m', memcpy m destination source length = (destination, m') ∧
    copied m destination source length m'.
Proof.
  intros Hlen Hap. unfold memcpy.
  destruct ((destination mod 4 =? 0) && (source mod 4 =? 0) && (length mod 4 =? 0)) eqn:E.
  - rewrite !andb_true_iff, !Z.eqb_eq in E. destruct E as [_ Hmod].
    assert (Hl : 4 * (0 + Z.of_nat (Z.to_nat (length / 4))) = length)
      by (pose proof (Z.div_mod length 4 ltac:(lia)); pose proof (Z.div_pos length 4 ltac:(lia) ltac:(lia)); rewrite Z2Nat.id; lia).
    eexists. split; [done|]. rewrite <-Hl. rewrite Hl at 2.
    apply memcpy_words_spec; [apply copied_0|lia|by rewrite Hl].
  - eexists. split; [done|]. replace length with (0 + Z.of_nat (Z.to_nat length)) at 1 by lia.
    apply memcpy_bytes_spec; [apply copied_0|lia|].
    by replace (0 + Z.of_nat (Z.to_nat length)) with length by lia.
Qed.

Lemma memcpy_correct_witness :
  ∃ m', memcpy mem_demo 16 0 4 = (16, m') ∧ copied mem_demo 16 0 4 m'.
Proof. apply (memcpy_correct mem_demo 16 0 4); unfold apart; lia. Defined.

(** [strcpy] of a C string to a disjoint buffer terminates, returns the string's
    length, leaves an equal string at the destination and changes no byte but the
    [length + 1] it writes. *)
Theorem strcpy_correct (m : mem) (to from : Z) (l : list Z) (fuel : nat) :
  let n := Z.of_nat (length l) in
  cstr m from l → apart to from (n + 1) → (length l < fuel)%nat →
  ∃ m', strcpy fuel m to from = Some (n, m') ∧ cstr m' to l ∧
    (∀ a, a < to ∨ to + n < a → load8 m' a = load8 m a).
Proof.
  intros n Hl Hap Hf. unfold strcpy.
  destruct (strcpy_loop_spec fuel 0 m m to from n l) as (m' & -> & Hc);
    [apply copied_0|lia|by rewrite Z.add_0_r|done|done|done|].
  exists m'. split; [done|]. split; [apply (copied_cstr _ _ _ _ _ _ Hc); [lia|done]|].
  intros a Ha. rewrite Hc.
  destruct (Z.leb_spec to a), (Z.ltb_spec a (to + (n + 1))); simpl; done || lia.
Qed.

Lemma strcpy_correct_witness :
  ∃ m', strcpy 3 mem_demo 8 0 = Some (2, m') ∧ cstr m' 8 [97; 98] ∧
    (∀ a, a < 8 ∨ 8 + 2 < a → load8 m' a = load8 mem_demo a).
Proof.
  apply (strcpy_correct mem_demo 8 0 [97; 98] 3);
    [vm_compute; split_and!; congruence|unfold apart; simpl; lia|simpl; lia].
Defined.
