(* ===== verification/Structs.v ===== *)
(** * The kernel's shared structures ([Kernel/include/structs.h])

    A C struct is a record; a pointer field is an address.  Fixed-size arrays of
    pointers are lists of their declared length.  The sizes are the ones the x86_64 ABI
    gives the structs, because the code computes with them. *)

From S2P Require Import Prelude.

Inductive processState := RUNNING | READY | BLOCKED | DEAD | SLEEPING.

#[export] Instance processState_eq_dec : EqDecision processState.
Proof. solve_decision. Defined.

(** The number of an enumerator. *)
Definition processState_num (s : processState) : Z :=
  match s with RUNNING => 0 | READY => 1 | BLOCKED => 2 | DEAD => 3 | SLEEPING => 4 end.

Definition MAX_PAGES_PER_PROCESS : Z := 10.
Definition MAX_THREADS : Z := 10.
Definition PIPE_LENGTH : Z := 10.
Definition MAX_PIPES : Z := 50.
Definition MAX_PROCESS_PIPES : Z := 3.
Definition MAX_LISTENERS_IPC : Z := 2.

Record Pipe := mkPipe {
  pi_name : Z;
  pi_position : Z;
  pi_end : Z;
  pi_creator : Z;
  pi_pipePids : Z;
  pi_blocked : Z;
  pi_cardinalBlocked : Z;
  pi_connected : Z;
  pi_pipe : Z;
  pi_readFlag : Z;
  pi_mutex : Z;
}.

(** The registers a context switch restores. *)
Record StackFrame := mkStackFrame {
  gs : Z; fs : Z; r15 : Z; r14 : Z; r13 : Z; r12 : Z; r11 : Z; r10 : Z; r9 : Z; r8 : Z;
  rsi : Z; rdi : Z; rbp : Z; rdx : Z; rcx : Z; rbx : Z; rax : Z;
  rip : Z; cs : Z; eflags : Z; rsp : Z; ss : Z; base : Z;
}.

Record Thread := mkThread {
  userStack : Z;
  kernelStack : Z;
  entryPoint : Z;
}.

Record Process := mkProcess {
  p_pid : Z;
  p_state : processState;
  p_description : Z;
  p_activeThread : Z;
  p_numberOfThreads : Z;
  p_thread : list Z;
  p_pipesOpened : Z;
  p_occupiedPosition : Z;
  p_pipePids : Z;
  p_blocked : Z;
  p_pipesStruct : Z;
  p_pipes : Z;
  p_heap : Z;
  p_pagesIndex : Z;
  p_pages : list Z;
}.

Record ProcessSlot := mkSlot {
  s_next : Z;
  s_process : Z;
}.

(** [sizeof] of the structs. *)
Definition sizeof_int : Z := 4.
Definition sizeof_ptr : Z := 8.
Definition sizeof_Pipe : Z := 64.
Definition sizeof_StackFrame : Z := 184.
Definition sizeof_Thread : Z := 24.
Definition sizeof_Process : Z := 248.
Definition sizeof_ProcessSlot : Z := 16.

(** ** Field updates *)

Definition p_set_state (st : processState) (p : Process) : Process :=
  mkProcess (p_pid p) st (p_description p) (p_activeThread p) (p_numberOfThreads p)
    (p_thread p) (p_pipesOpened p) (p_occupiedPosition p) (p_pipePids p) (p_blocked p)
    (p_pipesStruct p) (p_pipes p) (p_heap p) (p_pagesIndex p) (p_pages p).

Definition p_set_threads (active number : Z) (t : list Z) (p : Process) : Process :=
  mkProcess (p_pid p) (p_state p) (p_description p) active number
    t (p_pipesOpened p) (p_occupiedPosition p) (p_pipePids p) (p_blocked p)
    (p_pipesStruct p) (p_pipes p) (p_heap p) (p_pagesIndex p) (p_pages p).

Definition p_set_pages (index : Z) (pages : list Z) (p : Process) : Process :=
  mkProcess (p_pid p) (p_state p) (p_description p) (p_activeThread p) (p_numberOfThreads p)
    (p_thread p) (p_pipesOpened p) (p_occupiedPosition p) (p_pipePids p) (p_blocked p)
    (p_pipesStruct p) (p_pipes p) (p_heap p) index pages.

Definition p_set_pipesOpened (n : Z) (p : Process) : Process :=
  mkProcess (p_pid p) (p_state p) (p_description p) (p_activeThread p) (p_numberOfThreads p)
    (p_thread p) n (p_occupiedPosition p) (p_pipePids p) (p_blocked p)
    (p_pipesStruct p) (p_pipes p) (p_heap p) (p_pagesIndex p) (p_pages p).
