(* ===== verification/World.v ===== *)
(** * Interfaces between the components

    [PageAllocator] is what the clients of [buddyAllocator.c] rely on and [World] what
    the synchronisation primitives and the drivers rely on in [scheduler.c] and
    [naiveConsole.c].  The classes with the operations come with classes of laws;
    [Buddy_allocator] below discharges the first, [Scheduler] the second. *)

From S2P Require Import Prelude BuddyTree Buddy CString Structs.

(** ** Page allocation *)

Class PageAllocator (H : Type) := {
  pa_alloc : H → Z → option (Z * H);
  pa_free : H → Z → option (Z * H);
}.

(** [pa_inv h l]: in [h] the live blocks are [l], as (address, size in bytes). *)
Class PageAllocatorLaws (H : Type) `{PageAllocator H} := {
  pa_inv : H → list (Z * Z) → Prop;
  pa_alloc_law (h : H) (l : list (Z * Z)) (pages : Z) :
    pa_inv h l → 0 ≤ pages < 2 ^ 64 →
    ∃ p h', pa_alloc h pages = Some (p, h') ∧
      ((p = NULL ∧ h' = h) ∨
       (NULL < p ∧ ∃ sz, pages * PAGE_SIZE ≤ sz ∧ pa_inv h' ((p, sz) :: l) ∧
          ∀ q t, (q, t) ∈ l → p + sz ≤ q ∨ q + t ≤ p));
  pa_inv_pos (h : H) (l : list (Z * Z)) (p sz : Z) : pa_inv h l → (p, sz) ∈ l → NULL < p ∧ 0 < sz;
}.

#[export] Instance Buddy_allocator : PageAllocator typeBuddyArray := {|
  pa_alloc := allocPage;
  pa_free := deallocPage;
|}.

Definition buddy_block (n : Z) : Z * Z := (node_addr n, node_size n).

Lemma node_pos n : 1 ≤ n ≤ HEAPSIZE → NULL < node_addr n ∧ 0 < node_size n.
Proof.
  intros Hn. pose proof (node_in_region n Hn) as Hr. unfold NULL.
  assert (0 < node_size n); [|unfold node_addr in *; lia].
  pose proof (heap_depth n Hn). pose proof (Z.log2_nonneg n).
  unfold node_size. rewrite MEMORY_split by lia. unfold PAGE_SIZE.
  pose proof (Z.pow_pos_nonneg 2 (10 - depth n)). lia.
Qed.

#[export] Instance Buddy_allocator_laws : PageAllocatorLaws typeBuddyArray.
Proof.
  refine {| pa_inv b l := ∃ live, buddy_inv b live ∧ l = buddy_block <$> live |}.
  - intros b l pages (live & Hinv & ->) Hp.
    destruct (allocPage_inv b live pages Hinv ltac:(lia))
      as (p & b' & Ha & [(-> & -> & _)|(n & -> & Hn & Hnin & Hinv' & Hs)]).
    { exists NULL, b. auto. }
    exists (node_addr n), b'. split; [done|]. right. destruct (node_pos n Hn). split; [done|].
    exists (node_size n). split; [lia|]. split; [by exists (n :: live)|].
    intros q t (m & [= -> ->] & Hm)%list_elem_of_fmap.
    destruct (inv_full _ _ Hinv m Hm) as [Hmr _]. assert (n ≠ m) by (by intros ->).
    apply node_disjoint; [done|done|..]; apply (inv_sep _ _ Hinv'); set_solver.
  - intros b l p sz (live & Hinv & ->) (n & [= -> ->] & Hn)%list_elem_of_fmap.
    apply node_pos, (inv_full _ _ Hinv n Hn).
Defined.

(** An allocator that never reuses a page, for the examples. *)
#[export] Instance Bump_allocator : PageAllocator Z := {|
  pa_alloc h n := Some (h, h + (n + 1) * PAGE_SIZE);
  pa_free h _ := Some (0, h);
|}.

#[export] Instance Bump_allocator_laws : PageAllocatorLaws Z.
Proof.
  refine {| pa_inv h L := NULL < h ∧ ∀ q t, (q, t) ∈ L → NULL < q ∧ 0 < t ∧ q + t ≤ h |}.
  - intros h L n [Hh HL] Hn. exists h, (h + (n + 1) * PAGE_SIZE). split; [done|]. right.
    split; [done|]. exists ((n + 1) * PAGE_SIZE). unfold PAGE_SIZE. split; [lia|].
    split; [split; [lia|]|].
    + intros q t [[= -> ->]|Hqt]%elem_of_cons; [lia|]. specialize (HL q t Hqt). lia.
    + intros q t Hqt. specialize (HL q t Hqt). lia.
  - intros h L q t [Hh HL] Hqt. specialize (HL q t Hqt). lia.
Defined.

(** ** Sequences of allocations *)

Section sequences.
Context {H : Type} `{PageAllocator H}.

(** The pages one call allocates. *)
Fixpoint alloc_seq (h : H) (ns : list Z) : option (list Z * H) :=
  match ns with
  | [] => Some ([], h)
  | n :: ns' => '(a, h) ← pa_alloc h n; '(l, h) ← alloc_seq h ns'; Some (a :: l, h)
  end.

Lemma alloc_seq_snoc h ns n ps h2 :
  alloc_seq h (ns ++ [n]) = Some (ps, h2) →
  ∃ ps1 h1 a, ps = ps1 ++ [a] ∧ alloc_seq h ns = Some (ps1, h1) ∧ pa_alloc h1 n = Some (a, h2).
Proof.
  revert h ps. induction ns as [|m ns IH]; intros h ps; simpl.
  - destruct (pa_alloc h n) as [[a h1]|] eqn:E; [|done]. simpl. intros [= <- <-].
    by exists [], h, a.
  - destruct (pa_alloc h m) as [[b h1]|] eqn:E; [|done]. simpl.
    destruct (alloc_seq h1 (ns ++ [n])) as [[l h3]|] eqn:E2; [|done]. simpl. intros [= <- <-].
    destruct (IH h1 l E2) as (ps1 & h4 & a & -> & H1 & H2).
    exists (b :: ps1), h4, a. rewrite H1. done.
Qed.
End sequences.

Section owned_sequences.
Context {H : Type} `{PageAllocatorLaws H}.

Lemma alloc_seq_spec h L ns :
  pa_inv h L → (∀ n, n ∈ ns → 0 ≤ n < 2 ^ 64) →
  ∃ ps h', alloc_seq h ns = Some (ps, h') ∧
    (NULL ∈ ps ∨ ∃ L', pa_inv h' (L' ++ L) ∧ ps = reverse L'.*1 ∧ NoDup ps ∧
       ∀ p, p ∈ ps → p ∉ L.*1).
Proof.
  revert h L. induction ns as [|n ns IH]; intros h L Hinv Hns; cbn [alloc_seq].
  { exists [], h. split; [done|]. right. exists []. split_and!; [done..|constructor|].
    intros p Hp. by apply elem_of_nil in Hp. }
  destruct (pa_alloc_law h L n Hinv) as (p & h1 & -> & Hp); [apply Hns; by left|].
  cbn [mbind option_bind].
  destruct Hp as [[-> ->]|(Hnull & sz & Hsz & Hinv1 & Hdis)].
  { destruct (IH h L Hinv) as (ps & h' & -> & _); [intros m Hm; apply Hns; by right|].
    eexists _, _. split; [done|]. left. by left. }
  destruct (IH h1 _ Hinv1) as (ps & h' & -> & Hps); [intros m Hm; apply Hns; by right|].
  eexists _, _. split; [done|].
  destruct Hps as [Hps|(L' & Hinv' & -> & Hnd & Hout)]; [left; by right|].
  right. exists (L' ++ [(p, sz)]). split; [by rewrite <-app_assoc|].
  split; [by rewrite fmap_app, reverse_app|]. split.
  - apply list.NoDup_cons. split; [|done]. intros Hin. apply (Hout p Hin). by left.
  - intros q [->|Hq]%elem_of_cons.
    + intros ((q & t) & -> & Hqt)%list_elem_of_fmap. simpl in *.
      destruct (pa_inv_pos _ _ q sz Hinv1) as [_ ?]; [by left|].
      destruct (pa_inv_pos _ _ _ _ Hinv Hqt) as [_ ?]. specialize (Hdis _ _ Hqt). lia.
    + intros Hin. apply (Hout q Hq). by right.
Qed.

End owned_sequences.

(** ** Processes, memory and the console *)

(** What the kernel prints: a literal, the C string at a pointer, a decimal number, a
    hexadecimal number, one character. *)
Inductive output :=
| OStr (s : string)
| OPtr (p : Z)
| ONum (n : Z)
| OHex (n : Z)
| OChar (c : Z).

Class World (W : Type) := {
  w_currentPid : W → option Z;
  w_changeState : Z → processState → W → option W;
  w_print : output → W → W;
  w_memory : W → mem;
}.

(** [w_procs w pid] is the state of process [pid], if there is one. *)
Class WorldLaws (W : Type) `{World W} := {
  w_ok : W → Prop;
  w_procs : W → Z → option processState;
  w_current_law w : w_ok w →
    ∃ pid, w_currentPid w = Some pid ∧ (pid = -1 ∨ is_Some (w_procs w pid));
  w_change_law w pid st : w_ok w →
    ∃ w', w_changeState pid st w = Some w' ∧ w_ok w' ∧
      w_currentPid w' = w_currentPid w ∧ w_memory w' = w_memory w ∧
      ∀ q, w_procs w' q = if decide (q = pid) then (λ _, st) <$> w_procs w q else w_procs w q;
  w_print_law w s : w_ok w →
    w_ok (w_print s w) ∧ w_currentPid (w_print s w) = w_currentPid w ∧
    w_memory (w_print s w) = w_memory w ∧ ∀ q, w_procs (w_print s w) q = w_procs w q;
}.

(** *** Processes by pointer *)

(** What the code that keeps [Process *] pointers reads through them; [p->state] is the
    raw [int], whatever the pointer. *)
Class WorldProc (W : Type) `{World W} := {
  w_currentProcess : W → option Z;
  w_procPid : W → Z → option Z;
  w_procState : W → Z → option Z;
}.

(** [w_isProc w p pid]: the record at [p] is that of the process [pid]. *)
Class WorldProcLaws (W : Type) `{WorldProc W, !WorldLaws W} := {
  w_isProc : W → Z → Z → Prop;
  w_cur_proc_law w pid : w_ok w → w_currentPid w = Some pid → pid ≠ -1 →
    ∃ p, w_currentProcess w = Some p ∧ w_isProc w p pid;
  w_isProc_law w p pid : w_ok w → w_isProc w p pid →
    p ≠ NULL ∧ w_procPid w p = Some pid ∧
    ∃ st, w_procs w pid = Some st ∧ w_procState w p = Some (processState_num st);
  w_isProc_change w w' p pid q st : w_ok w → w_isProc w p pid →
    w_changeState q st w = Some w' → w_isProc w' p pid;
  w_null_change w w' q st : w_ok w → w_changeState q st w = Some w' →
    w_procState w' NULL = w_procState w NULL;
  w_isProc_inj w p1 p2 pid : w_ok w → w_isProc w p1 pid → w_isProc w p2 pid → p1 = p2;
}.

(** ** A world whose memory the code writes *)

Class WorldMem (W : Type) `{World W} := {
  w_set_memory : mem → W → W;
}.

Class WorldMemLaws (W : Type) `{WorldMem W, !WorldLaws W} := {
  w_set_memory_law w m : w_ok w →
    w_ok (w_set_memory m w) ∧ w_currentPid (w_set_memory m w) = w_currentPid w ∧
    w_memory (w_set_memory m w) = m ∧ ∀ q, w_procs (w_set_memory m w) q = w_procs w q;
}.

(** The fields of a process that the pipes use, through its pointer. *)
Class WorldPipes (W : Type) `{World W} := {
  w_getProcessById : Z → W → option Z;
  w_process : W → Z → option Process;
  w_set_pipesOpened : Z → Z → W → option W;
}.

Class WorldPipesLaws (W : Type) `{WorldPipes W, !WorldMem W, !WorldLaws W} := {
  wp_set_law w p pr n : w_ok w → w_process w p = Some pr →
    ∃ w', w_set_pipesOpened p n w = Some w' ∧ w_ok w' ∧ w_currentPid w' = w_currentPid w ∧
      (∀ q, w_procs w' q = w_procs w q) ∧ ∃ pr', w_process w' p = Some pr';
  wp_mem_law w m p : w_process (w_set_memory m w) p = w_process w p;
}.

(** What [malloc.c] needs of processes and pages. *)
Class WorldHeap (W : Type) `{WorldProc W} := {
  w_heap : W → Z → option Z;
  w_set_heap : Z → Z → W → option W;
  w_allocPage : Z → W → option (Z * W);
  w_addPagesToProcess : Z → Z → W → option W;
}.
