(* ===== verification/Toy.v ===== *)
(** * A small world for the examples

    The least an instance of [World] can be: the pid that runs, the states of the
    processes, memory and what was printed.  The record of process [p] is at [2 p + 1]. *)

From S2P Require Import Prelude CString Structs World.

(** The current pid and the states of the processes. *)
Record Toy := mkToyFull {
  toy_current : Z; toy_states : Z → processState; toy_mem : mem; toy_out : list output;
  toy_heap : Z; toy_page : Z }.

Definition mkToy (c : Z) (st : Z → processState) (m : mem) (o : list output) : Toy :=
  mkToyFull c st m o NULL 65536.

#[export] Instance Toy_world : World Toy := {|
  w_currentPid w := Some (toy_current w);
  w_changeState pid st w :=
    Some (mkToyFull (toy_current w) (λ q, if q =? pid then st else toy_states w q) (toy_mem w)
            (toy_out w) (toy_heap w) (toy_page w));
  w_print o w := mkToyFull (toy_current w) (toy_states w) (toy_mem w) (toy_out w ++ [o]) (toy_heap w) (toy_page w);
  w_memory := toy_mem;
|}.

#[export] Instance Toy_laws : WorldLaws Toy.
Proof.
  refine {| w_ok _ := True; w_procs w q := Some (toy_states w q) |}.
  - intros w _. eexists. split; [done|]. right. by eexists.
  - intros w pid st _. eexists. split; [done|]. do 3 (split; [done|]). intros q. simpl.
    case_decide; destruct (Z.eqb_spec q pid); done.
  - done.
Defined.

Lemma toy_ok (w : Toy) : w_ok w.
Proof. exact I. Qed.

#[export] Instance Toy_proc : WorldProc Toy := {|
  w_currentProcess w := Some (2 * toy_current w + 1);
  w_procPid w p := Some (p / 2);
  w_procState w p := Some (if p =? NULL then 0 else processState_num (toy_states w (p / 2)));
|}.

#[export] Instance Toy_proc_laws : WorldProcLaws Toy.
Proof.
  refine {| w_isProc w p pid := p = 2 * pid + 1 |}.
  - intros w pid _ [= <-] _. by eexists.
  - intros w p pid _ ->. unfold NULL. split; [lia|].
    assert ((2 * pid + 1) / 2 = pid) as Hd by (Z.to_euclidean_division_equations; lia).
    simpl. rewrite Hd. split; [done|]. eexists. split; [done|].
    destruct (Z.eqb_spec (2 * pid + 1) NULL); [unfold NULL in *; lia|done].
  - intros w w' p pid q st _ Hp _. exact Hp.
  - intros w w' q st _ [= <-]. done.
  - intros w p1 p2 pid _ -> ->. done.
Defined.

#[export] Instance Toy_mem : WorldMem Toy := {|
  w_set_memory m w := mkToyFull (toy_current w) (toy_states w) m (toy_out w) (toy_heap w) (toy_page w);
|}.

#[export] Instance Toy_mem_laws : WorldMemLaws Toy.
Proof. by split. Qed.

(** Each process has the same heap; a page is used once. *)
#[export] Instance Toy_heap : WorldHeap Toy := {|
  w_heap w p := Some (toy_heap w);
  w_set_heap p h w := Some (mkToyFull (toy_current w) (toy_states w) (toy_mem w) (toy_out w) h (toy_page w));
  w_allocPage n w := Some (toy_page w,
    mkToyFull (toy_current w) (toy_states w) (toy_mem w) (toy_out w) (toy_heap w) (toy_page w + n * 4096));
  w_addPagesToProcess a pid w := Some w;
|}.

(** Every process keeps its arrays from 4096 on and has no pipe open. *)
#[export] Instance Toy_pipes : WorldPipes Toy := {|
  w_getProcessById pid w := Some (2 * pid + 1);
  w_process w p := Some (mkProcess (p / 2) (toy_states w (p / 2)) NULL 0 0 [] 0 4096 4196 4296 4396 4096 0 0 []);
  w_set_pipesOpened p n w := Some w;
|}.

#[export] Instance Toy_pipes_laws : WorldPipesLaws Toy.
Proof. split; [|done]. intros w p pr n _ _. exists w. split_and!; try done. by eexists. Qed.

(** "a" at 8; NULL is the empty string. *)
Definition toy_memory : mem := λ a, if a =? 8 then 97 else 0.
Definition toy0 : Toy := mkToy 1 (λ _, READY) toy_memory [].
