(* ===== verification/Scheduler.v ===== *)
(** * Processes, threads and the scheduler
    ([Kernel/process.c], [Kernel/threads.c], [Kernel/scheduler.c])

    The kernel's linked structures live in typed stores, one per struct, keyed by
    address; pages come from an allocator the development only knows by its interface.
    Reading through a pointer that is not in its store is undefined behaviour ([None]).
    [Module RoundRobin] is the abstract scheduler: a list of processes, the running one
    first; the theorems show that the pointer code implements it. *)

From S2P Require Import Prelude Buddy KMonad CString Structs World.

Definition INIT_PID : Z := 0.

Section kernel.
Context {H : Type} `{PageAllocator H}.

Record Kernel := mkKernel {
  k_mem : mem;
  k_alloc : H;
  k_slots : gmap Z ProcessSlot;
  k_procs : gmap Z Process;
  k_threads : gmap Z Thread;
  k_frames : gmap Z StackFrame;
  k_console : list output;
  cardinal_processes : Z;
  current : Z;
  next_pid : Z;
}.

Implicit Types k : Kernel.

Definition set_mem m k := mkKernel m (k_alloc k) (k_slots k) (k_procs k) (k_threads k)
  (k_frames k) (k_console k) (cardinal_processes k) (current k) (next_pid k).
Definition set_alloc h k := mkKernel (k_mem k) h (k_slots k) (k_procs k) (k_threads k)
  (k_frames k) (k_console k) (cardinal_processes k) (current k) (next_pid k).
Definition set_slots s k := mkKernel (k_mem k) (k_alloc k) s (k_procs k) (k_threads k)
  (k_frames k) (k_console k) (cardinal_processes k) (current k) (next_pid k).
Definition set_procs p k := mkKernel (k_mem k) (k_alloc k) (k_slots k) p (k_threads k)
  (k_frames k) (k_console k) (cardinal_processes k) (current k) (next_pid k).
Definition set_threads t k := mkKernel (k_mem k) (k_alloc k) (k_slots k) (k_procs k) t
  (k_frames k) (k_console k) (cardinal_processes k) (current k) (next_pid k).
Definition set_frames f k := mkKernel (k_mem k) (k_alloc k) (k_slots k) (k_procs k)
  (k_threads k) f (k_console k) (cardinal_processes k) (current k) (next_pid k).
Definition set_console c k := mkKernel (k_mem k) (k_alloc k) (k_slots k) (k_procs k)
  (k_threads k) (k_frames k) c (cardinal_processes k) (current k) (next_pid k).
Definition set_cardinal n k := mkKernel (k_mem k) (k_alloc k) (k_slots k) (k_procs k)
  (k_threads k) (k_frames k) (k_console k) n (current k) (next_pid k).
Definition set_current c k := mkKernel (k_mem k) (k_alloc k) (k_slots k) (k_procs k)
  (k_threads k) (k_frames k) (k_console k) (cardinal_processes k) c (next_pid k).
Definition set_next_pid n k := mkKernel (k_mem k) (k_alloc k) (k_slots k) (k_procs k)
  (k_threads k) (k_frames k) (k_console k) (cardinal_processes k) (current k) n.

Definition k_allocPage (pages : Z) k : option (Z * Kernel) :=
  '(a, h) ← pa_alloc (k_alloc k) pages; Some (a, set_alloc h k).
Definition k_deallocPage (a : Z) k : option Kernel :=
  '(_, h) ← pa_free (k_alloc k) a; Some (set_alloc h k).
Definition k_print (o : output) k : Kernel := set_console (k_console k ++ [o]) k.

(** Access through pointers. *)
Definition slot_next k (a : Z) : option Z := s_next <$> k_slots k !! a.
Definition slot_process k (a : Z) : option Z := s_process <$> k_slots k !! a.
Definition slot_proc k (a : Z) : option Process := p ← slot_process k a; k_procs k !! p.
Definition set_slot_next (a n : Z) k : option Kernel :=
  s ← k_slots k !! a; Some (set_slots (<[a := mkSlot n (s_process s)]> (k_slots k)) k).
Definition upd_process (p : Z) (f : Process → Process) k : option Kernel :=
  pr ← k_procs k !! p; Some (set_procs (<[p := f pr]> (k_procs k)) k).
Definition set_userStack (t v : Z) k : option Kernel :=
  th ← k_threads k !! t;
  Some (set_threads (<[t := mkThread v (kernelStack th) (entryPoint th)]> (k_threads k)) k).

(** ** [threads.c] *)

(** The address of the function [callProcess], where new threads start. *)
Context (callProcess : Z).

Definition fillStackFrame (entryPoint userStack args : Z) k : Z * Kernel :=
  let frame := userStack - 2 * sizeof_StackFrame in
  (frame, set_frames (<[frame := {|
     gs := 0x001; fs := 0x002; r15 := 0x003; r14 := 0x004; r13 := 0x005; r12 := 0x006;
     r11 := 0x007; r10 := 0x008; r9 := 0x009; r8 := 0x00A;
     rsi := entryPoint; rdi := entryPoint; rbp := 0x00D; rdx := args; rcx := args;
     rbx := 0x010; rax := 0x011; rip := callProcess; cs := 0x008; eflags := 0x202;
     rsp := frame + 22 * 8; ss := 0x000;
     base := uint64 (userStack - 50 * sizeof_StackFrame - sizeof_StackFrame)
   |}]> (k_frames k)) k).

Definition findNextSpot (t : list Z) (dim : Z) : option (Z * list Z) :=
  r ← scan_for (Z.to_nat dim) 0 (λ i, v ← aget t i; Some (v =? NULL));
  match r with
  | Some i => t' ← aset t i 1; Some (i, t')
  | None => Some (-1, t)
  end.

Definition createThread (entryPoint args p : Z) k : option (Z * Kernel) :=
  '(t, k) ← k_allocPage (NUMBER_OF_PAGES_TO_ALLOC sizeof_Thread) k;
  '(page1, k) ← k_allocPage 2 k;
  '(page2, k) ← k_allocPage 2 k;
  let userStack := page1 + 2 * PAGE_SIZE in
  let kernelStack := page2 + 2 * PAGE_SIZE in
  let '(stack, k) := fillStackFrame entryPoint userStack args k in
  pr ← k_procs k !! p;
  '(index, thread) ← findNextSpot (p_thread pr) 3;
  let pr := p_set_threads (p_activeThread pr) (p_numberOfThreads pr) thread pr in
  let k := set_procs (<[p := pr]> (k_procs k)) k in
  if index =? -1 then Some (-1, k)
  else
    thread ← aset (p_thread pr) index t;
    let pr := p_set_threads (p_activeThread pr) (int32 (p_numberOfThreads pr + 1)) thread pr in
    let k := set_procs (<[p := pr]> (k_procs k)) k in
    Some (0, set_threads (<[t := mkThread stack kernelStack entryPoint]> (k_threads k)) k).

Definition freeThreadPages (t : Z) k : option Kernel :=
  th ← k_threads k !! t;
  k ← k_deallocPage (userStack th) k;
  k ← k_deallocPage (kernelStack th) k;
  k_deallocPage t k.

(** ** [process.c] *)

Definition initializeThreadArray (t : list Z) (dim : Z) : option (list Z) :=
  for_range (Z.to_nat dim) 0 (λ i t, aset t i NULL) t.

Definition initiatePagesForProcess (pages : list Z) (length : Z) : option (list Z) :=
  for_range (Z.to_nat length) 0 (λ i t, aset t i NULL) pages.

Definition initializePipeFields (infoPage : Z) (p : Process) : Process :=
  let pipes := infoPage in
  let pipesStruct := pipes + MAX_PROCESS_PIPES * PIPE_LENGTH in
  let pipePids := pipesStruct + MAX_PROCESS_PIPES * sizeof_Pipe in
  let blocked := pipePids + MAX_PROCESS_PIPES * MAX_LISTENERS_IPC * sizeof_int in
  let occupiedPosition := blocked + MAX_LISTENERS_IPC * MAX_PROCESS_PIPES * sizeof_int in
  mkProcess (p_pid p) (p_state p) (p_description p) (p_activeThread p) (p_numberOfThreads p)
    (p_thread p) 0 occupiedPosition pipePids blocked pipesStruct pipes (p_heap p)
    (p_pagesIndex p) (p_pages p).

Definition initiatePipesForProcess (occupiedPosition : Z) (m : mem) : option mem :=
  for_range (Z.to_nat MAX_PROCESS_PIPES) 0
    (λ i m, Some (store32 m (occupiedPosition + sizeof_int * i) 0)) m.

(** The record in a page that was never written. *)
Definition raw_process : Process :=
  mkProcess 0 RUNNING 0 0 0 (replicate (Z.to_nat MAX_THREADS) 0) 0 0 0 0 0 0 0 0
    (replicate (Z.to_nat MAX_PAGES_PER_PROCESS) 0).

Definition getProcess (entryPoint description args : Z) k : option (Z * Kernel) :=
  '(p, k) ← k_allocPage (NUMBER_OF_PAGES_TO_ALLOC sizeof_Process) k;
  let pr := default raw_process (k_procs k !! p) in
  let infoPage := p + sizeof_Process in
  thread ← initializeThreadArray (p_thread pr) MAX_THREADS;
  let k := set_procs (<[p := p_set_threads 0 0 thread pr]> (k_procs k)) k in
  '(_, k) ← createThread entryPoint args p k;
  pr ← k_procs k !! p;
  let pr := mkProcess (next_pid k) READY description (p_activeThread pr) (p_numberOfThreads pr)
    (p_thread pr) (p_pipesOpened pr) (p_occupiedPosition pr) (p_pipePids pr) (p_blocked pr)
    (p_pipesStruct pr) (p_pipes pr) NULL 0 (p_pages pr) in
  let k := set_next_pid (int32 (next_pid k + 1)) k in
  let pr := initializePipeFields infoPage pr in
  let k := set_procs (<[p := pr]> (k_procs k)) k in
  m ← initiatePipesForProcess (p_occupiedPosition pr) (k_mem k);
  Some (p, set_mem m k).

(** ** [scheduler.c] *)

(** [slot[i]] for a pointer [slot] to a single [ProcessSlot]: the element at distance
    [i * sizeof(ProcessSlot)], which is another slot only if one happens to lie there. *)
Fixpoint getProcessById_loop (n : nat) (i pid : Z) k : option Z :=
  match n with
  | O => Some NULL
  | S n' =>
      p ← slot_process k (current k + i * sizeof_ProcessSlot);
      pr ← k_procs k !! p;
      if p_pid pr =? pid then Some p else getProcessById_loop n' (i + 1) pid k
  end.

Definition getProcessById (pid : Z) k : option Z :=
  getProcessById_loop (Z.to_nat (cardinal_processes k)) 0 pid k.

Definition addPagesToProcess (pageBase pid : Z) k : option Kernel :=
  p ← getProcessById pid k;
  if p =? NULL then Some k
  else
    pr ← k_procs k !! p;
    if MAX_PAGES_PER_PROCESS <=? p_pagesIndex pr then Some k
    else
      pages ← aset (p_pages pr) (p_pagesIndex pr) pageBase;
      upd_process p (p_set_pages (int32 (p_pagesIndex pr + 1)) pages) k.

(** [dataStart] is at offset 28 of a heap block. *)
Definition freeProcessPages (pid : Z) k : option (Z * Kernel) :=
  p ← getProcessById pid k;
  k ← k_deallocPage p k;
  pr ← k_procs k !! p;
  k ← for_range (Z.to_nat (p_numberOfThreads pr)) 0
    (λ i k, t ← aget (p_thread pr) i; th ← k_threads k !! t;
            k ← k_deallocPage (userStack th) k; k_deallocPage (kernelStack th) k) k;
  k ← k_deallocPage (p_heap pr + 28) k;
  k ← for_range (Z.to_nat (p_pagesIndex pr)) 0
    (λ i k, a ← aget (p_pages pr) i; k_deallocPage a k) k;
  Some (0, k).

Definition newProcessSlot (process : Z) k : option (Z * Kernel) :=
  '(a, k) ← k_allocPage (NUMBER_OF_PAGES_TO_ALLOC sizeof_ProcessSlot) k;
  let s := default (mkSlot 0 0) (k_slots k !! a) in
  Some (a, set_slots (<[a := mkSlot (s_next s) process]> (k_slots k)) k).

Definition addProcess (process : Z) k : option Kernel :=
  '(newProcess, k) ← newProcessSlot process k;
  if current k =? NULL then
    let k := set_current newProcess k in
    set_slot_next (current k) (current k) k
  else
    next ← slot_next k (current k);
    k ← set_slot_next (current k) newProcess k;
    cnext ← slot_next k (current k);
    set_slot_next cnext next k.

Definition createProcess (entryPoint description args : Z) k : option (Z * Kernel) :=
  '(p, k) ← getProcess entryPoint description args k;
  k ← addProcess p k;
  let k := set_cardinal (int32 (cardinal_processes k + 1)) k in
  pr ← k_procs k !! p;
  Some (p_pid pr, k).

Definition getCurrentPid k : option Z :=
  if current k =? NULL then Some (-1) else p_pid <$> slot_proc k (current k).

Definition getCurrentProcess k : option Z := slot_process k (current k).

Fixpoint changeProcessState_loop (n : nat) (slot pid : Z) (state : processState) k
    : option Kernel :=
  match n with
  | O => Some k
  | S n' =>
      p ← slot_process k slot;
      pr ← k_procs k !! p;
      if p_pid pr =? pid then upd_process p (p_set_state state) k
      else next ← slot_next k slot; changeProcessState_loop n' next pid state k
  end.

Definition changeProcessState (pid : Z) (state : processState) k : option Kernel :=
  changeProcessState_loop (Z.to_nat (cardinal_processes k)) (current k) pid state k.

Definition getCurrentUserStack k : option Z :=
  pr ← slot_proc k (current k); t ← aget (p_thread pr) (p_activeThread pr);
  userStack <$> k_threads k !! t.

(** [while (current->process->state != READY) current = current->next;] *)
Fixpoint schedule_loop (fuel : nat) k : option Kernel :=
  match fuel with
  | O => None
  | S fuel' =>
      pr ← slot_proc k (current k);
      if decide (p_state pr ≠ READY)
      then next ← slot_next k (current k); schedule_loop fuel' (set_current next k)
      else Some k
  end.

Definition schedule (fuel : nat) k : option Kernel :=
  p ← slot_process k (current k);
  pr ← k_procs k !! p;
  k ← (if decide (p_state pr = RUNNING) then upd_process p (p_set_state READY) k else Some k);
  next ← slot_next k (current k);
  k ← schedule_loop fuel (set_current next k);
  p ← slot_process k (current k);
  upd_process p (p_set_state RUNNING) k.

Definition next_process (fuel : nat) (current_rsp : Z) k : option (Z * Kernel) :=
  if current k =? NULL then Some (current_rsp, k)
  else
    pr ← slot_proc k (current k);
    t ← aget (p_thread pr) (p_activeThread pr);
    k ← set_userStack t current_rsp k;
    k ← schedule fuel k;
    ans ← getCurrentUserStack k;
    Some (ans, k).

Fixpoint nextThread_loop (fuel : nat) (i : Z) (pr : Process) : option Z :=
  match fuel with
  | O => None
  | S fuel' =>
      let index := Z.rem (p_activeThread pr + i) MAX_THREADS in
      t ← aget (p_thread pr) index;
      if t =? NULL then nextThread_loop fuel' (i + 1) pr else Some index
  end.

Definition nextThread (fuel : nat) k : option Z :=
  p ← getCurrentProcess k; pr ← k_procs k !! p; nextThread_loop fuel 1 pr.

Definition switchUserToKernel (esp : Z) k : option (Z * Kernel) :=
  pr ← slot_proc k (current k);
  t ← aget (p_thread pr) (p_activeThread pr);
  k ← set_userStack t esp k;
  th ← k_threads k !! t;
  Some (kernelStack th, k).

Definition switchKernelToUser (fuel : nat) k : option (Z * Kernel) :=
  k ← schedule fuel k;
  index ← nextThread fuel k;
  p ← slot_process k (current k);
  k ← upd_process p (λ pr, p_set_threads index (p_numberOfThreads pr) (p_thread pr) pr) k;
  pr ← k_procs k !! p;
  t ← aget (p_thread pr) index;
  th ← k_threads k !! t;
  Some (userStack th, k).

Definition getCurrentEntryPoint k : option Z :=
  pr ← slot_proc k (current k); t ← aget (p_thread pr) (p_activeThread pr);
  entryPoint <$> k_threads k !! t.

(** The array is filled from index 0, written before the loop, to index
    [cardinal_processes]: one element more than the loop's bound names. *)
Fixpoint getCurrentProcesses_loop (n : nat) (i aux processes : Z) k : option Kernel :=
  match n with
  | O => Some k
  | S n' =>
      let i := i + 1 in
      p ← slot_process k aux;
      let k := set_mem (store64 (k_mem k) (processes + sizeof_ptr * i) p) k in
      next ← slot_next k aux;
      getCurrentProcesses_loop n' i next processes k
  end.

Definition getCurrentProcesses k : option (Z * Z * Kernel) :=
  '(processes, k) ← k_allocPage (NUMBER_OF_PAGES_TO_ALLOC (cardinal_processes k * sizeof_ptr)) k;
  let aux := current k in
  p ← slot_process k aux;
  let k := set_mem (store64 (k_mem k) processes p) k in
  next ← slot_next k aux;
  k ← getCurrentProcesses_loop (Z.to_nat (cardinal_processes k)) 0 next processes k;
  Some (processes, cardinal_processes k, k).

Definition eqProcess (a b : Process) : bool := p_pid a =? p_pid b.

Definition getStateFromNumber (state : Z) : string :=
  if state =? 0 then "RUNNING" else if state =? 1 then "READY"
  else if state =? 2 then "BLOCKED" else if state =? 3 then "DEAD"
  else if state =? 4 then "SLEEPING" else "other".

Definition printProcess (pr : Process) k : option Kernel :=
  let k := k_print (OStr "pid: ") k in
  let k := k_print (ONum (p_pid pr)) k in
  let k := k_print (OStr "-->description: ") k in
  let k := k_print (OPtr (p_description pr)) k in
  let k := k_print (OStr "-->state: ") k in
  let k := k_print (OStr (getStateFromNumber (processState_num (p_state pr)))) k in
  let k := k_print (OStr "  UserStack:") k in
  t ← aget (p_thread pr) 0;
  th ← k_threads k !! t;
  let k := k_print (OHex (userStack th)) k in
  k ← for_range (Z.to_nat (p_numberOfThreads pr)) 0 (λ j k,
    let k := k_print (OChar 10) k in
    let k := k_print (OStr "         thread: ") k in
    let k := k_print (ONum j) k in
    let k := k_print (OStr "   UserStack:") k in
    Some (k_print (OHex (userStack th)) k)) k;
  Some (k_print (OChar 10) k).

Definition printProcesses k : option Kernel :=
  '(s, c, k) ← getCurrentProcesses k;
  for_range (Z.to_nat c) 0
    (λ i k, pr ← k_procs k !! load64 (k_mem k) (s + sizeof_ptr * i); printProcess pr k) k.

(** The walk of [removeProcess]: the slot before the process's and its slot. *)
Fixpoint removeProcess_loop (n : nat) (prevSlot slotToRemove pid : Z) k : option (option (Z * Z)) :=
  pr ← slot_proc k slotToRemove;
  if p_pid pr =? pid then Some (match n with O => None | _ => Some (prevSlot, slotToRemove) end)
  else match n with
       | O => Some None
       | S n' => next ← slot_next k slotToRemove; removeProcess_loop n' slotToRemove next pid k
       end.

Definition removeProcess (pid : Z) : M Kernel unit :=
  if pid =? 0 then _yield
  else
    c ← asks current;
    if c =? NULL then mret tt
    else
      only ← asksO (λ k, a ← slot_proc k (current k);
                         next ← slot_next k (current k); b ← slot_proc k next;
                         Some (eqProcess a b && (p_pid a =? pid)));
      if (only : bool) then
        _ ← calls (freeProcessPages pid);
        modify (λ k, set_cardinal (int32 (cardinal_processes k - 1)) (set_current NULL k))
      else
        r ← asksO (λ k, next ← slot_next k (current k);
                        removeProcess_loop (Z.to_nat (cardinal_processes k)) (current k) next pid k);
        match r with
        | None => mret tt
        | Some (prevSlot, slotToRemove) =>
            modifyO (λ k, n ← slot_next k slotToRemove; set_slot_next prevSlot n k) ;;
            modify (λ k, set_cardinal (int32 (cardinal_processes k - 1)) k) ;;
            isCurrent ← asksO (λ k, a ← slot_proc k slotToRemove; b ← slot_proc k (current k);
                                    Some (eqProcess a b));
            if (isCurrent : bool) then _yield else mret tt
        end.

(** [while(aux != current)]. *)
Fixpoint killAllExceptCurrent_loop (fuel : nat) (aux pid : Z) : M Kernel unit :=
  match fuel with
  | O => λ _, Fault
  | S fuel' =>
      c ← asks current;
      if aux =? c then mret tt
      else
        pr ← asksO (λ k, slot_proc k aux);
        when (negb (p_pid pr =? pid) && negb (p_pid pr =? INIT_PID)) (removeProcess (p_pid pr)) ;;
        next ← asksO (λ k, slot_next k aux);
        killAllExceptCurrent_loop fuel' next pid
  end.

Definition killAllExceptCurrent (fuel : nat) : M Kernel unit :=
  pid ← asksO getCurrentPid;
  aux ← asksO (λ k, slot_next k (current k));
  killAllExceptCurrent_loop fuel aux pid.

(** ** [threads.c], the operations on the current process *)

Definition terminateThread : M Kernel unit :=
  p ← asksO getCurrentProcess;
  pr ← asksO (λ k, k_procs k !! p);
  if p_activeThread pr =? 0 then removeProcess (p_pid pr)
  else modifyO (λ k,
    t ← aget (p_thread pr) (p_activeThread pr);
    k ← freeThreadPages t k;
    thread ← aset (p_thread pr) (p_activeThread pr) NULL;
    upd_process p (p_set_threads (p_activeThread pr) (int32 (p_numberOfThreads pr - 1)) thread) k).

Definition thread_create (entryPoint args : Z) k : option Kernel :=
  p ← getCurrentProcess k;
  '(_, k) ← createThread entryPoint args p k;
  Some k.

End kernel.
Arguments Kernel : clear implicits.
