(* ===== verification/SchedulerSpec.v ===== *)
(** * The scheduler refines a round-robin list

    [Module RoundRobin] is the abstract scheduler: the processes with their states, the
    current one first, in the order in which the turn goes round.  The rest of the file
    shows that the circular linked list of [scheduler.c] implements it, and that the
    kernel state is a [World]. *)

From S2P Require Import Prelude Buddy KMonad CString Structs World Scheduler.

(** ** The abstract scheduler *)

Module RoundRobin.

Abbreviation t := (list (Z * processState)) (only parsing).

Definition set_state (pid : Z) (st : processState) (v : t) : t :=
  (λ e, if decide (e.1 = pid) then (e.1, st) else e) <$> v.

(** A new process gets its turn right after the current one. *)
Definition add (e : Z * processState) (v : t) : t :=
  match v with [] => [e] | c :: v' => c :: e :: v' end.

Definition remove (pid : Z) (v : t) : t := filter (λ e, e.1 ≠ pid) v.

(** The turn goes to the first ready process, which runs. *)
Fixpoint to_ready (before v : t) : option t :=
  match v with
  | [] => None
  | e :: v' =>
      if decide (e.2 = READY) then Some ((e.1, RUNNING) :: v' ++ before)
      else to_ready (before ++ [e]) v'
  end.

Definition preempt (s : processState) : processState :=
  if decide (s = RUNNING) then READY else s.

Definition schedule (v : t) : option t :=
  match v with
  | [] => None
  | e :: v' => to_ready [] (v' ++ [(e.1, preempt e.2)])
  end.

Fixpoint schedules (n : nat) (v : t) : option t :=
  match n with O => Some v | S n' => v' ← schedule v; schedules n' v' end.

Fixpoint state_of (pid : Z) (v : t) : option processState :=
  match v with
  | [] => None
  | e :: v' => if decide (e.1 = pid) then Some e.2 else state_of pid v'
  end.

Lemma to_ready_spec before v :
  match to_ready before v with
  | Some r => ∃ v1 pid v2, v = v1 ++ (pid, READY) :: v2 ∧
      (∀ e, e ∈ v1 → e.2 ≠ READY) ∧ r = (pid, RUNNING) :: v2 ++ before ++ v1
  | None => ∀ e, e ∈ v → e.2 ≠ READY
  end.
Proof.
  revert before. induction v as [|[pid s] v IH]; intros before; cbn [to_ready].
  { intros e He. by apply elem_of_nil in He. }
  case_decide as Hs; simpl in Hs.
  - subst s. exists [], pid, v. split; [done|]. split; [|by rewrite app_nil_r].
    intros e He. by apply elem_of_nil in He.
  - specialize (IH (before ++ [(pid, s)])). destruct (to_ready _ v) as [r|].
    + destruct IH as (v1 & q & v2 & -> & Hv1 & ->). exists ((pid, s) :: v1), q, v2.
      split; [done|]. split; [|by rewrite <-app_assoc].
      intros e [->|He]%elem_of_cons; [done|by apply Hv1].
    + intros e [->|He]%elem_of_cons; [done|by apply IH].
Qed.
End RoundRobin.

(** ** The ring *)

Section ring.
Context {H : Type} `{PageAllocator H}.
Implicit Types k : Kernel H.

(** An element of the ring: slot address, process address, process. *)
Abbreviation entry := (Z * Z * Process)%type.

Definition e_slot (e : entry) : Z := e.1.1.
Definition e_addr (e : entry) : Z := e.1.2.
Definition e_pid (e : entry) : Z := p_pid e.2.
Definition e_view (e : entry) : Z * processState := (p_pid e.2, p_state e.2).

(** Following [next] from [a] visits the slots of [l] and ends in [b]. *)
Fixpoint chain k (a : Z) (l : list entry) (b : Z) : Prop :=
  match l with
  | [] => a = b
  | (x, p, pr) :: l' =>
      x = a ∧ a ≠ NULL ∧ k_procs k !! p = Some pr ∧
      ∃ n, k_slots k !! a = Some (mkSlot n p) ∧ chain k n l' b
  end.

Record ring k (l : list entry) : Prop := {
  ring_chain : chain k (current k) l (current k);
  ring_slots : NoDup (e_slot <$> l);
  ring_procs : NoDup (e_addr <$> l);
  ring_pids : NoDup (e_pid <$> l);
  ring_fresh : ∀ e, e ∈ l → 0 ≤ e_pid e < next_pid k ∧ e_addr e ≠ NULL;
  ring_card : cardinal_processes k = Z.of_nat (length l);
  ring_empty : l = [] → current k = NULL;
}.

(** The kernel implements the abstract scheduler [v]. *)
Definition implements k (v : RoundRobin.t) : Prop := ∃ l, ring k l ∧ v = e_view <$> l.

(** *** Chains *)

Lemma chain_app k a l1 l2 b :
  chain k a (l1 ++ l2) b ↔ ∃ c, chain k a l1 c ∧ chain k c l2 b.
Proof.
  revert a. induction l1 as [|[[x p] pr] l1 IH]; intros a; simpl.
  { split; [by exists a|]. by intros (c & -> & Hc). }
  split.
  - intros (-> & Ha & Hp & n & Hn & Hc). apply IH in Hc as (c & Hc1 & Hc2).
    exists c. split_and!; try done. by exists n.
  - intros (c & (-> & Ha & Hp & n & Hn & Hc1) & Hc2). split_and!; try done.
    exists n. split; [done|]. apply IH. by exists c.
Qed.

(** A chain only depends on its own slots and processes. *)
Lemma chain_frame k k' a l b :
  (∀ e, e ∈ l → k_slots k' !! e_slot e = k_slots k !! e_slot e) →
  (∀ e, e ∈ l → k_procs k' !! e_addr e = k_procs k !! e_addr e) →
  chain k a l b → chain k' a l b.
Proof.
  revert a. induction l as [|[[x p] pr] l IH]; intros a Hs Hp; simpl; [done|].
  intros (-> & Ha & Hpr & n & Hn & Hc). split_and!; try done.
  - rewrite <-Hpr. apply (Hp (a, p, pr)). by apply elem_of_cons; left.
  - exists n. split; [rewrite <-Hn; apply (Hs (a, p, pr)); by apply elem_of_cons; left|].
    apply IH; [| |done]; intros e He; [apply Hs|apply Hp]; by apply elem_of_cons; right.
Qed.

Lemma chain_head k a x p pr l b : chain k a ((x, p, pr) :: l) b → 
  ∃ n, slot_next k a = Some n ∧ slot_process k a = Some p ∧ slot_proc k a = Some pr ∧
    k_procs k !! p = Some pr ∧ x = a ∧ a ≠ NULL ∧ chain k n l b.
Proof.
  simpl. intros (-> & Ha & Hp & n & Hn & Hc). exists n.
  unfold slot_proc, slot_next, slot_process. rewrite Hn. simpl. split_and!; done.
Qed.

Lemma chain_procs k a l b e : chain k a l b → e ∈ l → k_procs k !! e_addr e = Some e.2.
Proof.
  intros Hc (l1 & l2 & ->)%list_elem_of_split. apply chain_app in Hc as (c & _ & Hc).
  destruct e as [[x p] pr].
  by destruct (chain_head _ _ _ _ _ _ _ Hc) as (n & _ & _ & _ & ? & _).
Qed.

(** *** Updating a process of the ring *)

Definition upd_entry (p : Z) (f : Process → Process) (e : entry) : entry :=
  if decide (e_addr e = p) then (e.1, f e.2) else e.

Lemma upd_entry_slot p f e : e_slot (upd_entry p f e) = e_slot e.
Proof. unfold upd_entry. by case_decide. Qed.

Lemma upd_entry_addr p f e : e_addr (upd_entry p f e) = e_addr e.
Proof. unfold upd_entry. by case_decide. Qed.

Lemma chain_upd k p f pr a l b :
  k_procs k !! p = Some pr → chain k a l b →
  chain (set_procs (<[p := f pr]> (k_procs k)) k) a (upd_entry p f <$> l) b.
Proof.
  intros Hp. revert a. induction l as [|[[x q] qr] l IH]; intros a; [done|].
  rewrite fmap_cons. unfold upd_entry at 1, e_addr at 1. simpl.
  intros (-> & Ha & Hq & n & Hn & Hc).
  destruct (decide (q = p)) as [->|Hne]; simpl.
  - rewrite lookup_insert_eq. assert (qr = pr) as -> by congruence. split_and!; try done.
    exists n. split; [done|]. by apply IH.
  - rewrite lookup_insert_ne by done. split_and!; try done.
    exists n. split; [done|]. by apply IH.
Qed.

Lemma ring_upd k l p f pr :
  ring k l → k_procs k !! p = Some pr → (∀ pr, p_pid (f pr) = p_pid pr) →
  upd_process p f k = Some (set_procs (<[p := f pr]> (k_procs k)) k) ∧
  ring (set_procs (<[p := f pr]> (k_procs k)) k) (upd_entry p f <$> l).
Proof.
  intros [Hc Hs Ha Hi Hf Hn He] Hp Hpid. split; [by unfold upd_process; rewrite Hp|].
  assert (Hpids : ∀ e, e_pid (upd_entry p f e) = e_pid e).
  { intros e. unfold upd_entry, e_pid. case_decide; simpl; auto. }
  split.
  - by apply chain_upd.
  - rewrite <-list_fmap_compose. erewrite list_fmap_ext; [exact Hs|].
    intros. apply upd_entry_slot.
  - rewrite <-list_fmap_compose. erewrite list_fmap_ext; [exact Ha|].
    intros. apply upd_entry_addr.
  - rewrite <-list_fmap_compose. erewrite list_fmap_ext; [exact Hi|].
    intros. apply Hpids.
  - intros e (e' & -> & He')%list_elem_of_fmap. rewrite Hpids, upd_entry_addr. by apply Hf.
  - by rewrite length_fmap.
  - intros Hnil%fmap_nil_inv. by apply He.
Qed.

Lemma ring_inj_addr k l e1 e2 : ring k l → e1 ∈ l → e2 ∈ l → e_addr e1 = e_addr e2 → e1 = e2.
Proof.
  intros Hr H1 H2 Heq. apply list_elem_of_lookup in H1 as [i Hi], H2 as [j Hj].
  assert (i = j) as ->; [|congruence].
  eapply NoDup_lookup; [apply (ring_procs _ _ Hr)| |].
  - rewrite list_lookup_fmap, Hi. done.
  - rewrite list_lookup_fmap, Hj. simpl. by rewrite Heq.
Qed.

Lemma ring_inj_pid k l e1 e2 : ring k l → e1 ∈ l → e2 ∈ l → e_pid e1 = e_pid e2 → e1 = e2.
Proof.
  intros Hr H1 H2 Heq. apply list_elem_of_lookup in H1 as [i Hi], H2 as [j Hj].
  assert (i = j) as ->; [|congruence].
  eapply NoDup_lookup; [apply (ring_pids _ _ Hr)| |].
  - rewrite list_lookup_fmap, Hi. done.
  - rewrite list_lookup_fmap, Hj. simpl. by rewrite Heq.
Qed.

(** The ring is determined by the state. *)
Lemma chain_prefix k a l1 l2 b1 b2 :
  chain k a l1 b1 → chain k a l2 b2 → (length l1 ≤ length l2)%nat → l1 = take (length l1) l2.
Proof.
  revert a l2. induction l1 as [|[[x p] pr] l1 IH]; intros a [|[[y q] qr] l2] H1 H2 Hlen; try done;
    [simpl in Hlen; lia|].
  destruct H1 as (-> & _ & Hp & n & Hn & H1), H2 as (-> & _ & Hq & m & Hm & H2).
  rewrite Hn in Hm. injection Hm as <- <-. rewrite Hp in Hq. injection Hq as <-. simpl. f_equal.
  apply (IH n); [done|done|simpl in Hlen; lia].
Qed.

Lemma ring_unique k l1 l2 : ring k l1 → ring k l2 → l1 = l2.
Proof.
  intros R1 R2. pose proof (ring_card _ _ R1) as C1. pose proof (ring_card _ _ R2) as C2.
  rewrite (chain_prefix _ _ _ _ _ _ (ring_chain _ _ R1) (ring_chain _ _ R2)) by lia.
  apply take_ge. lia.
Qed.

(** *** Turning the ring *)

Lemma ring_turn k e l :
  ring k (e :: l) → ∃ n, slot_next k (current k) = Some n ∧ ring (set_current n k) (l ++ [e]).
Proof.
  intros [Hc Hs Ha Hi Hf Hn He]. destruct e as [[x p] pr].
  destruct (chain_head _ _ _ _ _ _ _ Hc) as (n & Hnext & Hsp & _ & Hp & -> & Hnull & Hl).
  exists n. split; [done|].
  assert (Hperm : ∀ A (g : entry → A), g <$> (l ++ [(current k, p, pr)]) ≡ₚ g <$> ((current k, p, pr) :: l)).
  { intros A g. apply fmap_Permutation. rewrite Permutation_app_comm. done. }
  split.
  - apply chain_app. exists (current k). split.
    + eapply chain_frame; [| |exact Hl]; done.
    + simpl in Hc. destruct Hc as (_ & _ & _ & n' & Hn' & _). simpl. split_and!; try done.
      exists n'. split; [done|]. unfold slot_next in Hnext. rewrite Hn' in Hnext.
      by injection Hnext.
  - by rewrite Hperm.
  - by rewrite Hperm.
  - by rewrite Hperm.
  - intros e' He'. apply Hf. rewrite elem_of_app, list_elem_of_singleton in He'.
    rewrite elem_of_cons. tauto.
  - simpl. rewrite length_app, Hn. simpl. lia.
  - intros Hnil. by destruct l.
Qed.

Lemma ring_current k e l : ring k (e :: l) →
  slot_process k (current k) = Some (e_addr e) ∧ slot_proc k (current k) = Some e.2 ∧
  k_procs k !! e_addr e = Some e.2 ∧ current k = e_slot e ∧ current k ≠ NULL.
Proof.
  intros [Hc _ _ _ _ _ _]. destruct e as [[x p] pr].
  destruct (chain_head _ _ _ _ _ _ _ Hc) as (n & ? & ? & ? & ? & -> & ? & ?). done.
Qed.
End ring.
Arguments ring {H}.

(** ** [changeProcessState] *)

Section operations.
Context {H : Type} `{PageAllocator H}.
Implicit Types k : Kernel H.
Abbreviation entry := (Z * Z * Process)%type.

Lemma change_loop_spec k a (l : list entry) b pid st :
  chain k a l b →
  (∃ e, e ∈ l ∧ e_pid e = pid ∧
     changeProcessState_loop (length l) a pid st k = upd_process (e_addr e) (p_set_state st) k) ∨
  ((∀ e, e ∈ l → e_pid e ≠ pid) ∧ changeProcessState_loop (length l) a pid st k = Some k).
Proof.
  revert a. induction l as [|[[x p] pr] l IH]; intros a Hc.
  { right. split; [|done]. intros e He. by apply elem_of_nil in He. }
  destruct (chain_head _ _ _ _ _ _ _ Hc) as (n & Hn & Hp & _ & Hpr & -> & Ha & Hl).
  cbn [length changeProcessState_loop]. rewrite Hp. simpl. rewrite Hpr. simpl.
  destruct (Z.eqb_spec (p_pid pr) pid) as [Heq|Hne].
  - left. exists (a, p, pr). split; [by apply elem_of_cons; left|done].
  - rewrite Hn. simpl. destruct (IH n Hl) as [(e & He & Hpid & ->)|[Hnone ->]].
    + left. exists e. split; [by apply elem_of_cons; right|done].
    + right. split; [|done]. intros e [->|He]%elem_of_cons; [done|by apply Hnone].
Qed.

Lemma upd_entry_view k l e st :
  ring k l → e ∈ l →
  e_view <$> (upd_entry (e_addr e) (p_set_state st) <$> l) =
    RoundRobin.set_state (e_pid e) st (e_view <$> l).
Proof.
  intros Hr He. unfold RoundRobin.set_state. rewrite <-!list_fmap_compose.
  apply list_fmap_ext. intros i e' Hi%list_elem_of_lookup_2. simpl.
  unfold upd_entry. case_decide as H1; case_decide as H2; [| | |done].
  - unfold e_view. simpl. f_equal.
  - destruct H2. f_equal. by rewrite (ring_inj_addr k l e' e).
  - destruct H1. f_equal. by apply (ring_inj_pid k l).
Qed.

Lemma set_state_absent pid st (v : RoundRobin.t) :
  (∀ e, e ∈ v → e.1 ≠ pid) → RoundRobin.set_state pid st v = v.
Proof.
  intros Hv. unfold RoundRobin.set_state. rewrite <-(list_fmap_id v) at 2.
  apply list_fmap_ext. intros i e Hi%list_elem_of_lookup_2. rewrite decide_False; auto.
Qed.

Lemma change_ring k l pid st :
  ring k l → ∃ k' l', changeProcessState pid st k = Some k' ∧ ring k' l' ∧
    e_view <$> l' = RoundRobin.set_state pid st (e_view <$> l) ∧
    current k' = current k ∧ k_mem k' = k_mem k ∧ k_console k' = k_console k ∧
    k_alloc k' = k_alloc k ∧ next_pid k' = next_pid k ∧ k_slots k' = k_slots k ∧
    k_threads k' = k_threads k ∧ e_addr <$> l' = e_addr <$> l.
Proof.
  intros Hr. pose proof (ring_chain _ _ Hr) as Hc.
  unfold changeProcessState. rewrite (ring_card _ _ Hr), Nat2Z.id.
  destruct (change_loop_spec k _ l _ pid st Hc) as [(e & He & <- & ->)|[Hnone ->]].
  - assert (Hp : k_procs k !! e_addr e = Some e.2) by (by eapply chain_procs).
    destruct (ring_upd k l _ (p_set_state st) _ Hr Hp ltac:(done)) as [-> Hr'].
    eexists _, _. split; [done|]. split; [exact Hr'|].
    split; [by apply (upd_entry_view k)|]. do 7 (split; [done|]).
    rewrite <-list_fmap_compose. apply list_fmap_ext. intros. apply upd_entry_addr.
  - exists k, l. split; [done|]. split; [done|]. split; [|done].
    rewrite set_state_absent; [done|]. intros e' (e & -> & He)%list_elem_of_fmap. by apply Hnone.
Qed.

(** ** [schedule] *)

Definition set_running k : option (Kernel H) :=
  p ← slot_process k (current k); upd_process p (p_set_state RUNNING) k.

Lemma upd_head_view k e l st :
  ring k (e :: l) →
  e_view <$> (upd_entry (e_addr e) (p_set_state st) <$> e :: l) =
    (e_pid e, st) :: (e_view <$> l).
Proof.
  intros Hr. rewrite (upd_entry_view k) by (done || by apply elem_of_cons; left).
  unfold RoundRobin.set_state. rewrite !fmap_cons. rewrite decide_True by done. f_equal.
  pose proof (ring_pids _ _ Hr) as Hnd. rewrite fmap_cons in Hnd. apply list.NoDup_cons in Hnd as [Hnd _].
  rewrite <-list_fmap_compose. apply list_fmap_ext. intros i e' Hi%list_elem_of_lookup_2. simpl.
  rewrite decide_False; [done|]. intros Heq. apply Hnd. rewrite <-Heq.
  by apply (list_elem_of_fmap_2 e_pid).
Qed.

(** The loop of [schedule] followed by the store of [RUNNING]: as many steps as there
    are processes are enough when one is ready. *)
Lemma schedule_loop_ready fuel k l1 l2 v :
  ring k (l2 ++ l1) → RoundRobin.to_ready (e_view <$> l1) (e_view <$> l2) = Some v →
  (length l2 ≤ fuel)%nat →
  ∃ k' l', schedule_loop fuel k ≫= set_running = Some k' ∧ ring k' l' ∧ e_view <$> l' = v.
Proof.
  revert k l1 l2. induction fuel as [|fuel IH]; intros k l1 [|e l2] Hr Hv Hlen;
    [done|simpl in Hlen; lia|done|].
  destruct (ring_current _ _ _ Hr) as (Hp & Hpr & Hpp & _).
  cbn [schedule_loop]. rewrite Hpr. simpl. rewrite fmap_cons in Hv. cbn [RoundRobin.to_ready] in Hv.
  destruct (decide (p_state e.2 = READY)) as [Hready|Hnot].
  - rewrite (decide_False (P := _ ≠ _)) by tauto. simpl. rewrite decide_True in Hv by done.
    unfold set_running. rewrite Hp. simpl.
    destruct (ring_upd k _ _ (p_set_state RUNNING) _ Hr Hpp ltac:(done)) as [-> Hr'].
    eexists _, _. split; [done|]. split; [exact Hr'|].
    rewrite (upd_head_view k e (l2 ++ l1)) by done. injection Hv as <-.
    by rewrite fmap_app.
  - rewrite (decide_True (P := _ ≠ _)) by done. rewrite decide_False in Hv by done.
    destruct (ring_turn _ _ _ Hr) as (n & -> & Hr'). simpl.
    apply (IH _ (l1 ++ [e]) l2); [by rewrite app_assoc| |simpl in Hlen; lia].
    rewrite fmap_app. exact Hv.
Qed.

Lemma schedule_loop_none fuel k l :
  ring k l → l ≠ [] → (∀ e, e ∈ l → p_state e.2 ≠ READY) → schedule_loop fuel k = None.
Proof.
  revert k l. induction fuel as [|fuel IH]; intros k [|e l] Hr Hl Hnone; [done..|].
  destruct (ring_current _ _ _ Hr) as (_ & Hpr & _). cbn [schedule_loop]. rewrite Hpr. simpl.
  rewrite decide_True by (apply Hnone, elem_of_cons; by left).
  destruct (ring_turn _ _ _ Hr) as (n & -> & Hr'). simpl.
  apply (IH _ _ Hr'); [by destruct l|]. intros e' He'. apply Hnone.
  rewrite elem_of_app, list_elem_of_singleton in He'. rewrite elem_of_cons. tauto.
Qed.

(** The beginning of [schedule]: the running process is preempted and the turn moves. *)
Lemma schedule_start fuel k e l :
  ring k (e :: l) →
  ∃ k1 e1, ring k1 (l ++ [e1]) ∧ e_view e1 = (e_pid e, RoundRobin.preempt (p_state e.2)) ∧
    schedule fuel k = schedule_loop fuel k1 ≫= set_running.
Proof.
  intros Hr. destruct (ring_current _ _ _ Hr) as (Hp & Hpr & Hpp & _).
  unfold schedule. rewrite Hp. simpl. rewrite Hpp. simpl. unfold RoundRobin.preempt.
  case_decide as Hs.
  - destruct (ring_upd k _ _ (p_set_state READY) _ Hr Hpp ltac:(done)) as [-> Hr']. simpl.
    rewrite fmap_cons in Hr'. destruct (ring_turn _ _ _ Hr') as (n & Hn & Hr2).
    exists (set_current n (set_procs (<[e_addr e := p_set_state READY e.2]> (k_procs k)) k)),
      (upd_entry (e_addr e) (p_set_state READY) e).
    replace (upd_entry (e_addr e) (p_set_state READY) <$> l) with l in Hr2.
    + split; [exact Hr2|]. split; [unfold upd_entry; by rewrite decide_True|].
      simpl in Hn. unfold slot_next in *. simpl in *. by rewrite Hn.
    + pose proof (ring_procs _ _ Hr) as Hnd. rewrite fmap_cons in Hnd.
      apply list.NoDup_cons in Hnd as [Hnd _]. symmetry. rewrite <-(list_fmap_id l) at 2.
      apply list_fmap_ext. intros i e' Hi%list_elem_of_lookup_2. unfold upd_entry.
      rewrite decide_False; [done|]. intros Heq. apply Hnd. rewrite <-Heq.
      by apply (list_elem_of_fmap_2 e_addr).
  - destruct (ring_turn _ _ _ Hr) as (n & Hn & Hr2). exists (set_current n k), e.
    split; [done|]. split; [done|]. simpl. by rewrite Hn.
Qed.

Lemma schedule_refines fuel k l v :
  ring k l → RoundRobin.schedule (e_view <$> l) = Some v → (length l ≤ fuel)%nat →
  ∃ k' l', schedule fuel k = Some k' ∧ ring k' l' ∧ e_view <$> l' = v.
Proof.
  intros Hr Hv Hf. destruct l as [|e l]; [done|].
  destruct (schedule_start fuel k e l Hr) as (k1 & e1 & Hr1 & He1 & ->).
  apply (schedule_loop_ready fuel k1 [] (l ++ [e1]));
    [by rewrite app_nil_r| |rewrite length_app; simpl in *; lia].
  rewrite fmap_app. cbn [list_fmap]. simpl. rewrite He1. exact Hv.
Qed.

(** ** [World] *)

(** The state of a process, found by the walk of [changeProcessState]. *)
Fixpoint state_loop (n : nat) (slot pid : Z) k : option processState :=
  match n with
  | O => None
  | S n' =>
      pr ← slot_proc k slot;
      if p_pid pr =? pid then Some (p_state pr)
      else next ← slot_next k slot; state_loop n' next pid k
  end.

Definition state_of k (pid : Z) : option processState :=
  state_loop (Z.to_nat (cardinal_processes k)) (current k) pid k.

Lemma state_of_view k l pid :
  ring k l → state_of k pid = RoundRobin.state_of pid (e_view <$> l).
Proof.
  intros Hr. pose proof (ring_chain _ _ Hr) as Hc. unfold state_of.
  rewrite (ring_card _ _ Hr), Nat2Z.id. clear Hr. revert Hc. generalize (current k) at 1 3 as a.
  induction l as [|[[x p] pr] l IH]; intros a Hc; [done|].
  destruct (chain_head _ _ _ _ _ _ _ Hc) as (n & Hn & _ & Hp & _ & -> & _ & Hl).
  cbn [length state_loop]. rewrite Hp. simpl.
  destruct (Z.eqb_spec (p_pid pr) pid) as [Heq|Hne].
  - by rewrite decide_True.
  - rewrite decide_False by done. rewrite Hn. simpl. apply (IH n Hl).
Qed.
End operations.

(** The kernel is a [World] for the code above the scheduler. *)

#[export] Instance Kernel_world {H} `{PageAllocator H} : World (Kernel H) := {|
  w_currentPid := getCurrentPid;
  w_changeState := changeProcessState;
  w_print := k_print;
  w_memory := k_mem;
|}.

Lemma rr_state_of_set pid st q (v : RoundRobin.t) :
  RoundRobin.state_of q (RoundRobin.set_state pid st v) =
    if decide (q = pid) then (λ _, st) <$> RoundRobin.state_of q v else RoundRobin.state_of q v.
Proof.
  unfold RoundRobin.set_state. induction v as [|[p s] v IH]; [by case_decide|].
  rewrite fmap_cons. cbn [RoundRobin.state_of]. rewrite IH. clear IH.
  destruct (decide (p = pid)) as [->|Hp]; simpl; repeat case_decide; simplify_eq; done.
Qed.

#[export] Instance Kernel_world_laws {H} `{PageAllocator H} : WorldLaws (Kernel H).
Proof.
  refine {| w_ok k := ∃ l, ring k l; w_procs := state_of |}.
  - intros k (l & Hr). simpl. unfold getCurrentPid.
    destruct l as [|e l].
    + rewrite (ring_empty _ _ Hr eq_refl). exists (-1). auto.
    + destruct (ring_current _ _ _ Hr) as (_ & -> & _ & _ & Hn).
      rewrite (proj2 (Z.eqb_neq _ _)) by done. eexists. split; [done|]. right.
      rewrite (state_of_view _ _ _ Hr). simpl. rewrite decide_True by done. by eexists.
  - intros k pid st (l & Hr). destruct (change_ring k l pid st Hr)
      as (k' & l' & Hk' & Hr' & Hv & Hc & Hm & _ & _ & _ & Hs & _ & _).
    exists k'. split; [exact Hk'|]. split; [by exists l'|]. split.
    + simpl. unfold getCurrentPid. rewrite Hc. case_match; [done|].
      destruct l as [|e l]; [by rewrite (ring_empty _ _ Hr eq_refl) in *|].
      destruct l' as [|e' l']; [by apply (f_equal length) in Hv|].
      destruct (ring_current _ _ _ Hr) as (_ & Hp & _).
      destruct (ring_current _ _ _ Hr') as (_ & Hp' & _). rewrite Hc in Hp'.
      rewrite Hp, Hp'. simpl. f_equal. rewrite !fmap_cons in Hv.
      unfold RoundRobin.set_state in Hv. rewrite fmap_cons in Hv. injection Hv as Hv _.
      apply (f_equal fst) in Hv. simpl in Hv. rewrite Hv. by case_decide.
    + split; [done|]. intros q. rewrite (state_of_view _ _ _ Hr), (state_of_view _ _ _ Hr'), Hv.
      apply rr_state_of_set.
  - intros k s (l & [H1 H2 H3 H4 H5 H6 H7]). split; [|split_and!; try done].
    + exists l. split; try done. eapply chain_frame; [| |exact H1]; done.
    + intros q. unfold state_of. simpl. generalize (current k) as a.
      induction (Z.to_nat (cardinal_processes k)) as [|n IH]; intros a; [done|].
      cbn [state_loop]. apply option_bind_ext; [|done]. intros pr. case_match; [done|].
      apply option_bind_ext; [|done]. intros b. apply IH.
Defined.

#[export] Instance Kernel_world_mem {H} `{PageAllocator H} : WorldMem (Kernel H) := {|
  w_set_memory := set_mem;
|}.

#[export] Instance Kernel_world_mem_laws {H} `{PageAllocator H} : WorldMemLaws (Kernel H).
Proof.
  split. intros k m (l & [Hch Hs Ha Hi Hf Hn He]). split; [|split_and!; try done].
  - exists l. change (ring (set_mem m k) l). split; try done. apply (chain_frame k); [done..|exact Hch].
  - intros q. change (state_of (set_mem m k) q = state_of k q). unfold state_of. simpl.
    generalize (current k) as a. induction (Z.to_nat (cardinal_processes k)) as [|n IH]; intros a; [done|].
    cbn [state_loop]. apply option_bind_ext; [|done]. intros pr. case_match; [done|].
    apply option_bind_ext; [|done]. intros b. apply IH.
Qed.

#[export] Instance Kernel_pipes {H} `{PageAllocator H} : WorldPipes (Kernel H) := {|
  w_getProcessById := getProcessById;
  w_process k p := k_procs k !! p;
  w_set_pipesOpened p n := upd_process p (p_set_pipesOpened n);
|}.

#[export] Instance Kernel_pipes_laws {H} `{PageAllocator H} : WorldPipesLaws (Kernel H).
Proof.
  split; [|done]. intros k p pr n (l & Hr) Hp.
  destruct (ring_upd k l p (p_set_pipesOpened n) pr Hr Hp ltac:(done)) as [Hu Hr'].
  eexists. split; [exact Hu|]. split; [by eexists|].
  assert (Hv : e_view <$> (upd_entry p (p_set_pipesOpened n) <$> l) = e_view <$> l).
  { rewrite <-list_fmap_compose. apply list_fmap_ext. intros i e _. simpl. unfold upd_entry. by case_decide. }
  split; [|split].
  - simpl. unfold getCurrentPid. simpl. case_match; [done|].
    destruct l as [|e l]; [by rewrite (ring_empty _ _ Hr eq_refl) in *|].
    destruct (ring_current _ _ _ Hr) as (_ & Hpc & _). destruct (ring_current _ _ _ Hr') as (_ & Hpc' & _).
    simpl in Hpc'. rewrite Hpc, Hpc'. simpl. unfold upd_entry. by case_decide.
  - intros q. change (state_of (set_procs (<[p:=p_set_pipesOpened n pr]> (k_procs k)) k) q = state_of k q).
    by rewrite (state_of_view _ _ _ Hr), (state_of_view _ _ _ Hr'), Hv.
  - exists (p_set_pipesOpened n pr). simpl. by rewrite lookup_insert_eq.
Qed.

(** Through a pointer that is not a process the code reads plain memory: [pid] is at
    offset 0 and [state] at offset 4. *)
#[export] Instance Kernel_proc {H} `{PageAllocator H} : WorldProc (Kernel H) := {|
  w_currentProcess := getCurrentProcess;
  w_procPid k p := Some (match k_procs k !! p with
    | Some pr => p_pid pr | None => int32 (load32 (k_mem k) p) end);
  w_procState k p := Some (match k_procs k !! p with
    | Some pr => processState_num (p_state pr) | None => int32 (load32 (k_mem k) (p + 4)) end);
|}.

Lemma rr_state_of_in (v : RoundRobin.t) pid st :
  NoDup v.*1 → (pid, st) ∈ v → RoundRobin.state_of pid v = Some st.
Proof.
  induction v as [|[q s] v IH]; intros Hnd Hin; [by apply elem_of_nil in Hin|].
  apply list.NoDup_cons in Hnd as [Hq Hnd]. simpl. apply elem_of_cons in Hin as [[= -> ->]|Hin].
  - by rewrite decide_True.
  - rewrite decide_False; [by apply IH|]. intros ->. apply Hq. by apply (list_elem_of_fmap_2 fst _ (pid, st)).
Qed.

#[export] Instance Kernel_proc_laws {H} `{PageAllocator H} : WorldProcLaws (Kernel H).
Proof.
  refine {| w_isProc k p pid := ∃ l e, ring k l ∧ e ∈ l ∧ e_addr e = p ∧ e_pid e = pid |}.
  - intros k pid (l & Hr) Hcur Hne. simpl in *. unfold getCurrentPid, getCurrentProcess in *.
    destruct l as [|e l].
    { rewrite (ring_empty _ _ Hr eq_refl) in Hcur. by injection Hcur as <-. }
    destruct (ring_current _ _ _ Hr) as (Hp & Hpr & _ & _ & Hn).
    rewrite (proj2 (Z.eqb_neq _ _)), Hpr in Hcur by done. injection Hcur as <-.
    exists (e_addr e). split; [done|]. exists (e :: l), e. split_and!; try done. by left.
  - intros k p pid _ (l & e & Hr & He & <- & <-).
    destruct (ring_fresh _ _ Hr e He) as [_ Hnn]. split; [done|].
    pose proof (chain_procs _ _ _ _ _ (ring_chain _ _ Hr) He) as Hp. simpl. rewrite Hp.
    split; [done|]. exists (p_state e.2). split; [|done].
    rewrite (state_of_view _ _ _ Hr). apply rr_state_of_in.
    + rewrite <-list_fmap_compose. exact (ring_pids _ _ Hr).
    + by apply (list_elem_of_fmap_2 e_view).
  - intros k k' p pid q st _ (l & e & Hr & He & <- & <-) Hch. simpl in Hch.
    destruct (change_ring k l q st Hr) as (k2 & l' & Hk' & Hr' & Hv & _ & _ & _ & _ & _ & _ & _ & Hadr).
    assert (k2 = k') as -> by congruence.
    apply list_elem_of_lookup in He as [i Hi].
    assert (Hi' : ∃ e', l' !! i = Some e').
    { apply lookup_lt_is_Some_2. rewrite <-(length_fmap e_addr), Hadr, length_fmap.
      by eapply lookup_lt_Some. }
    destruct Hi' as [e' Hi']. exists l', e'. split; [done|]. split; [by eapply list_elem_of_lookup_2|].
    split.
    + pose proof (f_equal (.!! i) Hadr) as Ha. simpl in Ha. rewrite !list_lookup_fmap, Hi, Hi' in Ha.
      by injection Ha.
    + pose proof (f_equal (fmap fst ∘ (.!! i)) Hv) as Ha. simpl in Ha. unfold RoundRobin.set_state in Ha.
      rewrite !list_lookup_fmap, Hi, Hi' in Ha. simpl in Ha. injection Ha as Ha.
      unfold e_pid. rewrite Ha. by case_decide.
  - intros k k' q st (l & Hr) Hch. simpl in Hch. unfold changeProcessState in Hch.
    rewrite (ring_card _ _ Hr), Nat2Z.id in Hch.
    destruct (change_loop_spec k _ l _ q st (ring_chain _ _ Hr)) as [(e & He & _ & Hc)|[_ Hc]];
      rewrite Hc in Hch; [|by injection Hch as <-].
    destruct (ring_fresh _ _ Hr e He) as [_ Hnn]. pose proof (chain_procs _ _ _ _ _ (ring_chain _ _ Hr) He) as Hp.
    destruct (ring_upd k l _ (p_set_state st) _ Hr Hp ltac:(done)) as [Hu _].
    rewrite Hu in Hch. injection Hch as <-. simpl. by rewrite lookup_insert_ne.
  - intros k p1 p2 pid _ (l1 & e1 & Hr1 & He1 & <- & Hp1) (l2 & e2 & Hr2 & He2 & <- & Hp2).
    assert (l1 = l2) as <- by (by eapply ring_unique).
    assert (e1 = e2) as <-; [|done]. eapply ring_inj_pid; [done..|congruence].
Qed.

(** ** [addProcess], [createProcess] *)

Section creation.
Context {H : Type} `{PageAllocator H}.
Implicit Types k : Kernel H.
Abbreviation entry := (Z * Z * Process)%type.

Definition ring_insert (e : entry) (l : list entry) : list entry :=
  match l with [] => [e] | c :: l' => c :: e :: l' end.

Lemma ring_insert_perm e l : ring_insert e l ≡ₚ e :: l.
Proof. destruct l; [done|]. simpl. apply Permutation_swap. Qed.

Lemma ring_insert_view e l : e_view <$> ring_insert e l = RoundRobin.add (e_view e) (e_view <$> l).
Proof. by destruct l. Qed.

Lemma ring_insert_ring k k' e l :
  ring k l → e_slot e ∉ (e_slot <$> l) → e_addr e ∉ (e_addr <$> l) → e_pid e ∉ (e_pid <$> l) →
  0 ≤ e_pid e < next_pid k → e_addr e ≠ NULL → next_pid k' = next_pid k →
  cardinal_processes k' = Z.of_nat (length l) + 1 →
  chain k' (current k') (ring_insert e l) (current k') → ring k' (ring_insert e l).
Proof.
  intros [Hc Hs Ha Hi Hf Hn He] H1 H2 H3 H4 Hnn H5 H6 H7.
  pose proof (ring_insert_perm e l) as Hp.
  split; [done|rewrite (fmap_Permutation _ _ _ Hp); apply list.NoDup_cons; done..| | |].
  - intros e' He'. rewrite Hp in He'. rewrite H5. apply elem_of_cons in He' as [->|He']; auto.
  - rewrite H6, (Permutation_length Hp). simpl. lia.
  - destruct l; done.
Qed.

Lemma addProcess_ring k l p pr a h :
  ring k l → k_procs k !! p = Some pr →
  pa_alloc (k_alloc k) (NUMBER_OF_PAGES_TO_ALLOC sizeof_ProcessSlot) = Some (a, h) →
  a ≠ NULL → a ∉ (e_slot <$> l) → p ∉ (e_addr <$> l) → p_pid pr ∉ (e_pid <$> l) →
  0 ≤ p_pid pr < next_pid k → p ≠ NULL → Z.of_nat (length l) + 1 ≤ INT_MAX →
  ∃ k', addProcess p k = Some k' ∧ k_procs k' = k_procs k ∧
    cardinal_processes k' = cardinal_processes k ∧ k_alloc k' = h ∧ next_pid k' = next_pid k ∧
    ring (set_cardinal (int32 (cardinal_processes k' + 1)) k') (ring_insert (a, p, pr) l).
Proof.
  intros Hr Hp Ha Hnull Hs Hap Hpid Hfresh Hpnull Hlen. unfold addProcess, newProcessSlot, k_allocPage.
  rewrite Ha. cbn [mbind option_bind]. 
  set (s := default (mkSlot 0 0) _). pose proof (ring_card _ _ Hr) as Hcard.
  destruct l as [|[[c pc] prc] l].
  - pose proof (ring_empty _ _ Hr eq_refl) as Hcur. cbn [current set_slots set_alloc].
    rewrite Hcur. simpl. unfold set_slot_next. simpl. rewrite lookup_insert_eq. simpl.
    eexists. do 5 (split; [done|]).
    apply (ring_insert_ring k _ (a, p, pr) []); try done.
    + simpl. rewrite Hcard. rewrite int32_id by (unfold INT_MIN; simpl in *; lia). done.
    + simpl. split_and!; try done. rewrite lookup_insert_eq. by eexists.
  - destruct (ring_current _ _ _ Hr) as (_ & _ & _ & Hcur & Hcn). unfold e_slot in Hcur. simpl in Hcur.
    destruct (chain_head _ _ _ _ _ _ _ (ring_chain _ _ Hr)) as (n & Hn & _ & _ & Hpc & _ & _ & Hl).
    pose proof (ring_chain _ _ Hr) as (_ & _ & _ & n' & Hn' & _).
    assert (n' = n) as -> by (unfold slot_next in Hn; rewrite Hn' in Hn; by injection Hn).
    pose proof (ring_slots _ _ Hr) as Hnd. rewrite fmap_cons in Hnd, Hs.
    apply list.NoDup_cons in Hnd as [Hcl _]. apply not_elem_of_cons in Hs as [Hac Hs].
    unfold e_slot at 1 in Hcl. unfold e_slot at 1 in Hac. simpl in Hcl, Hac.
    cbn [current set_slots set_alloc]. rewrite (proj2 (Z.eqb_neq _ _)) by done.
    unfold slot_next, set_slot_next. simpl. rewrite lookup_insert_ne by congruence.
    rewrite Hn'. simpl.
    rewrite lookup_insert_eq. simpl. rewrite lookup_insert_ne, lookup_insert_eq by congruence.
    simpl. eexists. do 5 (split; [done|]).
    apply (ring_insert_ring k _ (a, p, pr) ((c, pc, prc) :: l)); try done.
    + rewrite fmap_cons. by apply not_elem_of_cons.
    + simpl. rewrite Hcard. rewrite int32_id by (unfold INT_MIN; simpl in *; lia). simpl in *. lia.
    + simpl. split_and!; try done. exists a.
      rewrite lookup_insert_ne, lookup_insert_eq by congruence. split_and!; try done.
      exists n. rewrite lookup_insert_eq. split; [done|].
      eapply chain_frame; [| |exact Hl]; [|done].
      intros e He. simpl. apply (list_elem_of_fmap_2 e_slot) in He.
      rewrite !lookup_insert_ne; [done|intros Heq; rewrite Heq in *; congruence..].
Qed.

(** Every process record has its full array of threads. *)
Definition threads_ok k : Prop :=
  ∀ p pr, k_procs k !! p = Some pr → length (p_thread pr) = Z.to_nat MAX_THREADS.

Definition created_process k (callProcess entry description args p t page1 page2 : Z)
    (pages : list Z) : Process :=
  let info := p + sizeof_Process in
  mkProcess (next_pid k) READY description 0 1 (t :: replicate 9 NULL) 0 (info + 270)
    (info + 222) (info + 246) (info + 30) info NULL 0 pages.

Lemma initiatePipes_total a m : ∃ m', initiatePipesForProcess a m = Some m'.
Proof. by eexists. Qed.

Lemma getProcess_spec k callProcess entry description args p t page1 page2 h :
  threads_ok k →
  alloc_seq (k_alloc k) [NUMBER_OF_PAGES_TO_ALLOC sizeof_Process;
    NUMBER_OF_PAGES_TO_ALLOC sizeof_Thread; 2; 2] = Some ([p; t; page1; page2], h) →
  ∃ k' pages, getProcess callProcess entry description args k = Some (p, k') ∧
    let pr := created_process k callProcess entry description args p t page1 page2 pages in
    k_procs k' = <[p := pr]> (k_procs k) ∧ k_slots k' = k_slots k ∧ k_alloc k' = h ∧
    cardinal_processes k' = cardinal_processes k ∧ current k' = current k ∧
    next_pid k' = int32 (next_pid k + 1) ∧
    k_threads k' !! t = Some (mkThread (page1 + 2 * PAGE_SIZE - 2 * sizeof_StackFrame)
      (page2 + 2 * PAGE_SIZE) entry) ∧
    (rip <$> k_frames k' !! (page1 + 2 * PAGE_SIZE - 2 * sizeof_StackFrame)) = Some callProcess ∧
    (rsi <$> k_frames k' !! (page1 + 2 * PAGE_SIZE - 2 * sizeof_StackFrame)) = Some entry ∧
    (rcx <$> k_frames k' !! (page1 + 2 * PAGE_SIZE - 2 * sizeof_StackFrame)) = Some args.
Proof.
  intros Hok Hseq. cbn [alloc_seq] in Hseq.
  destruct (pa_alloc (k_alloc k) _) as [[p' h1]|] eqn:E1; [|done]. simpl in Hseq.
  destruct (pa_alloc h1 _) as [[t' h2]|] eqn:E2; [|done]. simpl in Hseq.
  destruct (pa_alloc h2 2) as [[q1 h3]|] eqn:E3; [|done]. simpl in Hseq.
  destruct (pa_alloc h3 2) as [[q2 h4]|] eqn:E4; [|done]. simpl in Hseq.
  injection Hseq as -> -> -> -> ->.
  unfold getProcess, k_allocPage. rewrite E1. cbn [mbind option_bind].
  set (pr0 := default raw_process _).
  assert (Hlen : length (p_thread pr0) = Z.to_nat MAX_THREADS).
  { unfold pr0. simpl. destruct (k_procs k !! p) eqn:E; [by apply (Hok p)|done]. }
  unfold initializeThreadArray. rewrite for_fill by lia. cbn [mbind option_bind].
  replace (drop (Z.to_nat MAX_THREADS) (p_thread pr0)) with (@nil Z)
    by (symmetry; apply drop_ge; lia). rewrite app_nil_r.
  unfold createThread, k_allocPage. cbn [k_alloc set_procs set_alloc]. rewrite E2.
  cbn [mbind option_bind k_alloc set_procs set_alloc]. rewrite E3.
  cbn [mbind option_bind k_alloc set_procs set_alloc]. rewrite E4.
  cbn [mbind option_bind fillStackFrame k_procs set_procs set_alloc set_frames k_frames].
  rewrite lookup_insert_eq. cbn [mbind option_bind p_thread p_set_threads].
  change (findNextSpot (replicate (Z.to_nat MAX_THREADS) NULL) 3)
    with (Some (0, 1 :: replicate 9 NULL)).
  cbn [mbind option_bind Z.eqb p_thread p_set_threads].
  change (aset (1 :: replicate 9 NULL) 0 t) with (Some (t :: replicate 9 NULL)).
  cbn [mbind option_bind k_procs set_procs set_threads].
  rewrite lookup_insert_eq. cbn [mbind option_bind].
  match goal with |- context [initiatePipesForProcess ?a ?b] =>
    destruct (initiatePipes_total a b) as [m' ->] end.
  cbn [mbind option_bind].
  eexists _, (p_pages pr0). split; [done|]. simpl. rewrite !insert_insert_eq, !lookup_insert_eq.
  split_and!; try done. f_equal. unfold created_process, initializePipeFields. simpl.
  unfold MAX_PROCESS_PIPES, PIPE_LENGTH, MAX_LISTENERS_IPC, sizeof_Pipe, sizeof_int.
  f_equal; (done || lia).
Qed.

End creation.

Section ownership.
Context {H : Type} `{PageAllocatorLaws H}.
Implicit Types k : Kernel H.
Abbreviation entry := (Z * Z * Process)%type.

(** The slots and the processes of the ring are pages the allocator gave out. *)
Definition owned k (l : list entry) (L : list (Z * Z)) : Prop :=
  pa_inv (k_alloc k) L ∧ ∀ e, e ∈ l → e_slot e ∈ L.*1 ∧ e_addr e ∈ L.*1.

Definition process_pages : list Z :=
  [NUMBER_OF_PAGES_TO_ALLOC sizeof_Process; NUMBER_OF_PAGES_TO_ALLOC sizeof_Thread; 2; 2;
   NUMBER_OF_PAGES_TO_ALLOC sizeof_ProcessSlot].
End ownership.

(** ** [removeProcess] *)

Section removal.
Context {H : Type} `{PageAllocator H}.
Implicit Types k : Kernel H.
Abbreviation entry := (Z * Z * Process)%type.

(** The slot that precedes the element after [l] on a walk that comes from [prev]. *)
Definition last_slot (prev : Z) (l : list entry) : Z := default prev (list.last (e_slot <$> l)).

Lemma remove_loop_found n k prev a w1 e w2 b pid :
  chain k a (w1 ++ e :: w2) b → (∀ e', e' ∈ w1 → e_pid e' ≠ pid) → e_pid e = pid →
  (length w1 < n)%nat →
  removeProcess_loop n prev a pid k = Some (Some (last_slot prev w1, e_slot e)).
Proof.
  revert n prev a. induction w1 as [|[[x p] pr] w1 IH]; intros n prev a Hc Hw1 Hpid Hn.
  - destruct n as [|n]; [simpl in Hn; lia|]. destruct e as [[x p] pr].
    destruct (chain_head _ _ _ _ _ _ _ Hc) as (m & _ & _ & Hpr & _ & -> & _).
    cbn [removeProcess_loop]. rewrite Hpr. simpl. unfold e_pid in Hpid. simpl in Hpid.
    by rewrite (proj2 (Z.eqb_eq _ _)).
  - destruct n as [|n]; [lia|].
    destruct (chain_head _ _ _ _ _ _ _ Hc) as (m & Hm & _ & Hpr & _ & -> & _ & Hl).
    cbn [removeProcess_loop]. rewrite Hpr. simpl.
    rewrite (proj2 (Z.eqb_neq _ _)) by (apply (Hw1 (a, p, pr)); by left).
    rewrite Hm. simpl. rewrite (IH n a m Hl); [|intros e' He'; apply Hw1; by right|done|simpl in Hn; lia].
    unfold last_slot. rewrite fmap_cons, last_cons. by destruct (list.last _).
Qed.

Lemma remove_loop_absent n k prev a w b pid :
  chain k a w b → (∀ e', e' ∈ w → e_pid e' ≠ pid) → (n < length w)%nat →
  removeProcess_loop n prev a pid k = Some None.
Proof.
  revert n prev a. induction w as [|[[x p] pr] w IH]; intros n prev a Hc Hw Hn; [simpl in Hn; lia|].
  destruct (chain_head _ _ _ _ _ _ _ Hc) as (m & Hm & _ & Hpr & _ & -> & _ & Hl).
  assert (Hne : (p_pid pr =? pid) = false) by (apply Z.eqb_neq, (Hw (a, p, pr)); by left).
  destruct n as [|n]; cbn [removeProcess_loop]; rewrite Hpr; simpl; rewrite Hne; [done|].
  rewrite Hm. simpl. apply IH; [done|intros e' He'; apply Hw; by right|simpl in Hn; lia].
Qed.

Definition unlink k (x e : entry) (n : Z) : Kernel H :=
  set_slots (<[e_slot x := mkSlot n (e_addr x)]> (k_slots k)) k.

Lemma chain_remove k a u x e w b :
  NoDup (e_slot <$> u ++ x :: e :: w) → chain k a (u ++ x :: e :: w) b →
  ∃ n, slot_next k (e_slot e) = Some n ∧ set_slot_next (e_slot x) n k = Some (unlink k x e n) ∧
    chain (unlink k x e n) a (u ++ x :: w) b ∧ (w = [] → n = b).
Proof.
  intros Hnd (c & Hu & Hc)%chain_app.
  destruct x as [[x px] prx], e as [[e pe] pre].
  pose proof Hc as (Hxc & Hx & Hpx & nx & Hnx & Hc').
  destruct (chain_head _ _ _ _ _ _ _ Hc') as (n & Hn & _ & Hpre & _ & Hen & He & Hw).
  subst c nx. exists n. split; [done|]. split; [unfold set_slot_next, e_slot; simpl; by rewrite Hnx|].
  rewrite fmap_app, !fmap_cons in Hnd. apply list.NoDup_app in Hnd as (_ & Hout & Hnd).
  apply list.NoDup_cons in Hnd as [Hxw Hnd]. rewrite not_elem_of_cons in Hxw.
  destruct Hxw as [Hxe Hxw]. split; [|by intros ->].
  apply chain_app. exists x. split.
  - eapply chain_frame; [| |exact Hu]; [|done]. intros y Hy. simpl.
    apply lookup_insert_ne. intros Heq. apply (list_elem_of_fmap_2 e_slot) in Hy.
    apply (Hout _ Hy). rewrite <-Heq. by left.
  - simpl. split_and!; try done. exists n. rewrite lookup_insert_eq. split; [done|].
    eapply chain_frame; [| |exact Hw]; [|done]. intros y Hy. simpl.
    apply lookup_insert_ne. intros Heq. apply Hxw. rewrite Heq.
    by apply (list_elem_of_fmap_2 e_slot).
Qed.

(** A ring less one element. *)
Lemma ring_sublist k k' l l' :
  ring k l → sublist l' l → l' ≠ [] → chain k' (current k') l' (current k') →
  next_pid k' = next_pid k → cardinal_processes k' = Z.of_nat (length l') → ring k' l'.
Proof.
  intros [R1 R2 R3 R4 R5 R6 R7] Hsub Hne Hc Hi Hn. split; try done.
  - eapply sublist_NoDup; [exact R2|]. by apply fmap_sublist.
  - eapply sublist_NoDup; [exact R3|]. by apply fmap_sublist.
  - eapply sublist_NoDup; [exact R4|]. by apply fmap_sublist.
  - intros e He. rewrite Hi. apply R5. by eapply elem_of_sublist.
Qed.

Lemma last_slot_split c (l : list entry) :
  ∃ u x, c :: l = u ++ [x] ∧ last_slot (e_slot c) l = e_slot x.
Proof.
  destruct (exists_last (l := c :: l)) as (u & x & Hux); [done|]. exists u, x. split; [done|].
  assert (Hl : list.last (e_slot <$> c :: l) = Some (e_slot x))
    by (rewrite Hux, fmap_app; apply last_snoc).
  rewrite fmap_cons, last_cons in Hl. unfold last_slot.
  destruct (list.last (e_slot <$> l)); simpl; congruence.
Qed.

Lemma unlink_slot_proc k x e n a :
  slot_process k (e_slot x) = Some (e_addr x) → slot_proc (unlink k x e n) a = slot_proc k a.
Proof.
  unfold slot_proc, slot_process. intros Hx. simpl.
  destruct (decide (a = e_slot x)) as [->|Hne]; [|by rewrite lookup_insert_ne].
  rewrite lookup_insert_eq. simpl. rewrite Hx. done.
Qed.

Lemma slot_proc_cardinal k n a : slot_proc (set_cardinal n k) a = slot_proc k a.
Proof. done. Qed.

Lemma chain_in k a l b e : chain k a l b → e ∈ l →
  slot_process k (e_slot e) = Some (e_addr e) ∧ slot_proc k (e_slot e) = Some e.2.
Proof.
  intros Hc (l1 & l2 & ->)%list_elem_of_split. apply chain_app in Hc as (c & _ & Hc).
  destruct e as [[x p] pr].
  by destruct (chain_head _ _ _ _ _ _ _ Hc) as (n & _ & ? & ? & _ & -> & _).
Qed.

(** The guard that tells whether the current process is alone. *)
Lemma not_alone k c d l :
  ring k (c :: d :: l) →
  ∃ n b, slot_next k (current k) = Some n ∧ slot_proc k n = Some b ∧
    slot_proc k (current k) = Some c.2 ∧ eqProcess c.2 b = false.
Proof.
  intros Hr. destruct (ring_turn _ _ _ Hr) as (n & Hn & Hr2).
  destruct (ring_current _ _ _ Hr) as (_ & Hc & _).
  destruct (ring_current _ _ _ Hr2) as (_ & Hd & _). simpl in Hd.
  exists n, d.2. split_and!; [done..|]. apply Z.eqb_neq. intros Heq.
  pose proof (ring_pids _ _ Hr) as Hnd. rewrite !fmap_cons in Hnd.
  apply list.NoDup_cons in Hnd as [Hnd _]. apply Hnd. unfold e_pid at 1. rewrite Heq. by left.
Qed.

Lemma removeProcess_other k c l1 e l2 :
  ring k (c :: l1 ++ e :: l2) → e_pid e ≠ 0 → Z.of_nat (length (l1 ++ l2)) < INT_MAX →
  ∃ k', removeProcess (e_pid e) k = Done tt k' ∧ ring k' (c :: l1 ++ l2) ∧
    current k' = current k.
Proof.
  intros Hr Hpid Hlen. pose proof (ring_card _ _ Hr) as Hcard.
  assert (Halone : ∃ n b, slot_next k (current k) = Some n ∧ slot_proc k n = Some b ∧
      slot_proc k (current k) = Some c.2 ∧ eqProcess c.2 b = false)
    by (destruct l1; by eapply not_alone).
  destruct Halone as (n & b & Hn & Hb & Hcur & Heq).
  destruct (ring_current _ _ _ Hr) as (Hcp & _ & _ & Hcs & Hnull).
  pose proof (ring_chain _ _ Hr) as Hchain. pose proof (ring_slots _ _ Hr) as Hnd.
  assert (Hw : chain k n (l1 ++ e :: l2) (current k)).
  { clear -Hchain Hn. destruct c as [[x p] pr].
    destruct (chain_head _ _ _ _ _ _ _ Hchain) as (n' & Hn' & _ & _ & _ & _ & _ & Hl).
    congruence. }
  assert (Hne : ∀ e', e' ∈ c :: l1 → e_pid e' ≠ e_pid e).
  { intros e' He' Heq'. pose proof (ring_pids _ _ Hr) as Hp.
    rewrite app_comm_cons, fmap_app, fmap_cons in Hp. apply list.NoDup_app in Hp as (_ & Hp & _).
    apply (list_elem_of_fmap_2 e_pid) in He'. apply (Hp _ He'). rewrite Heq'. by left. }
  assert (Hloop : removeProcess_loop (Z.to_nat (cardinal_processes k)) (current k) n (e_pid e) k
      = Some (Some (last_slot (current k) l1, e_slot e))).
  { apply (remove_loop_found _ _ _ _ l1 e l2 (current k)); [done| |done|].
    - intros e' He'. apply Hne. by right.
    - rewrite Hcard. simpl. rewrite length_app. simpl. lia. }
  destruct (last_slot_split c l1) as (u & x & Hux & Hlast). rewrite <-Hcs in Hlast.
  rewrite app_comm_cons, Hux, <-app_assoc in Hchain, Hnd. simpl in Hchain, Hnd.
  destruct (chain_remove k _ u x e l2 _ Hnd Hchain) as (m & Hm & Hset & Hnew & _).
  destruct (chain_in k _ _ _ x Hchain) as [Hxp _]; [apply elem_of_app; right; by left|].
  destruct (chain_in k _ _ _ e Hchain) as [_ Hep]; [apply elem_of_app; right; right; by left|].
  eexists. split.
  - unfold removeProcess. rewrite (proj2 (Z.eqb_neq _ _)) by done. rewrite asks_bind.
    rewrite (proj2 (Z.eqb_neq _ _)) by done.
    rewrite (asksO_bind _ _ _ false) by (rewrite Hcur, Hn; simpl; rewrite Hb; simpl; by rewrite Heq).
    rewrite (asksO_bind _ _ _ (Some (last_slot (current k) l1, e_slot e))) by (by rewrite Hn).
    rewrite Hlast. rewrite (modifyO_bind _ _ _ (unlink k x e m)) by (rewrite Hm; done).
    rewrite modify_bind.
    rewrite (asksO_bind _ _ _ false).
    + done.
    + rewrite !slot_proc_cardinal, !unlink_slot_proc, Hep by done. simpl.
      rewrite Hcur. simpl. f_equal. apply Z.eqb_neq.
      intros Heq'. apply (Hne c); [by left|]. by unfold e_pid.
  - split; [|done]. rewrite app_comm_cons, Hux, <-app_assoc. simpl.
    apply (ring_sublist k _ (c :: l1 ++ e :: l2)); try done.
    + rewrite (app_comm_cons l1 (e :: l2)), Hux, <-app_assoc. simpl. apply sublist_app; [done|].
      apply sublist_skip, sublist_cons. done.
    + by destruct u.
    + eapply chain_frame; [| |exact Hnew]; done.
    + assert (E : Z.of_nat (length (u ++ x :: l2)) = Z.of_nat (length (c :: l1 ++ e :: l2)) - 1).
      { apply (f_equal length) in Hux. cbn [length] in *. rewrite !length_app in *.
        cbn [length] in *. lia. }
      rewrite E, <-Hcard. apply int32_id. rewrite Hcard. cbn [length].
      rewrite length_app in *. cbn [length]. unfold INT_MIN. lia.
Qed.

(** Removing the current process leaves it off the ring, its slot pointing into it. *)
Lemma removeProcess_current k c d l :
  ring k (c :: d :: l) → e_pid c ≠ 0 → Z.of_nat (length l) < INT_MAX - 1 →
  ∃ k1 n, removeProcess (e_pid c) k = Yield k1 (Done tt) ∧
    slot_process k1 (current k1) = Some (e_addr c) ∧ k_procs k1 !! e_addr c = Some c.2 ∧
    slot_next k1 (current k1) = Some n ∧ ring (set_current n k1) (d :: l) ∧
    e_addr c ∉ (e_addr <$> d :: l).
Proof.
  intros Hr Hpid Hlen. pose proof (ring_card _ _ Hr) as Hcard.
  destruct (not_alone _ _ _ _ Hr) as (n & b & Hn & Hb & Hcur & Heq).
  destruct (ring_current _ _ _ Hr) as (Hcp & _ & Hcpp & Hcs & Hnull).
  destruct (ring_turn _ _ _ Hr) as (n' & Hn' & Hr2).
  assert (n' = n) as -> by congruence.
  pose proof (ring_chain _ _ Hr2) as Hchain. pose proof (ring_slots _ _ Hr2) as Hnd.
  cbn [current set_current] in Hchain.
  assert (Hch : chain k n ((d :: l) ++ [c]) n) by (eapply chain_frame; [| |exact Hchain]; done).
  assert (Hne : ∀ e', e' ∈ d :: l → e_pid e' ≠ e_pid c).
  { intros e' He' Heq'. pose proof (ring_pids _ _ Hr) as Hp. rewrite fmap_cons in Hp.
    apply list.NoDup_cons in Hp as [Hp _]. apply Hp. rewrite <-Heq'.
    by apply (list_elem_of_fmap_2 e_pid). }
  assert (Hloop : removeProcess_loop (Z.to_nat (cardinal_processes k)) (current k) n (e_pid c) k
      = Some (Some (last_slot (current k) (d :: l), e_slot c))).
  { apply (remove_loop_found _ _ _ _ (d :: l) c [] n _ Hch Hne eq_refl).
    rewrite Hcard. cbn [length]. lia. }
  destruct (last_slot_split d l) as (u & x & Hux & Hlast).
  assert (Hlast' : last_slot (current k) (d :: l) = e_slot x).
  { unfold last_slot in *. rewrite fmap_cons, last_cons.
    by destruct (list.last (e_slot <$> l)). }
  rewrite Hux, <-app_assoc in Hch, Hnd. simpl in Hch, Hnd.
  destruct (chain_remove k _ u x c [] _ Hnd Hch) as (m & Hm & Hset & Hnew & Hmn).
  specialize (Hmn eq_refl) as ->.
  destruct (chain_in k _ _ _ x Hch) as [Hxp _]; [apply elem_of_app; right; by left|].
  assert (Hxc : e_slot x ≠ e_slot c).
  { rewrite fmap_app, !fmap_cons in Hnd. apply list.NoDup_app in Hnd as (_ & _ & Hnd).
    apply list.NoDup_cons in Hnd as [Hnd _]. intros E. apply Hnd. rewrite E. by left. }
  exists (set_cardinal (int32 (cardinal_processes k - 1)) (unlink k x c n)), n. split_and!.
  - unfold removeProcess. rewrite (proj2 (Z.eqb_neq _ _)) by done. rewrite asks_bind.
    rewrite (proj2 (Z.eqb_neq _ _)) by done.
    rewrite (asksO_bind _ _ _ false) by (rewrite Hcur, Hn; simpl; rewrite Hb; simpl; by rewrite Heq).
    rewrite (asksO_bind _ _ _ (Some (last_slot (current k) (d :: l), e_slot c))) by (by rewrite Hn).
    rewrite Hlast'. rewrite (modifyO_bind _ _ _ (unlink k x c n)) by (rewrite Hm; done).
    rewrite modify_bind.
    rewrite (asksO_bind _ _ _ true); [done|].
    rewrite !slot_proc_cardinal, !unlink_slot_proc, <-Hcs, Hcur by done. simpl.
    rewrite Hcur. simpl. unfold eqProcess. by rewrite Z.eqb_refl.
  - unfold slot_process. simpl. rewrite lookup_insert_ne by congruence. done.
  - done.
  - unfold slot_next. simpl. rewrite lookup_insert_ne by congruence. done.
  - rewrite Hux. apply (ring_sublist k _ (c :: d :: l)); try done.
    + rewrite Hux. by apply sublist_cons.
    + by destruct u.
    + eapply chain_frame; [| |exact Hnew]; done.
    + cbn [cardinal_processes set_current set_cardinal]. rewrite <-Hux, Hcard. cbn [length].
      rewrite int32_id; [|unfold INT_MIN]; lia.
  - pose proof (ring_procs _ _ Hr) as Hp. rewrite fmap_cons in Hp.
    by apply list.NoDup_cons in Hp as [Hp _].
Qed.

(** The scheduler then goes on with the ring. *)
Lemma schedule_detached fuel k c p n l v :
  slot_process k (current k) = Some p → k_procs k !! p = Some c →
  slot_next k (current k) = Some n → ring (set_current n k) l → p ∉ (e_addr <$> l) →
  RoundRobin.to_ready [] (e_view <$> l) = Some v → (length l ≤ fuel)%nat →
  ∃ k' l', schedule fuel k = Some k' ∧ ring k' l' ∧ e_view <$> l' = v.
Proof.
  intros Hp Hc Hn Hr Hout Hv Hf. unfold schedule. rewrite Hp. simpl. rewrite Hc. simpl.
  case_decide as Hs.
  - unfold upd_process. rewrite Hc. simpl. unfold slot_next in *. simpl. rewrite Hn. simpl.
    apply (schedule_loop_ready fuel _ [] l); [|done..]. rewrite app_nil_r.
    destruct Hr as [R1 R2 R3 R4 R5 R6 R7]. split; try done.
    eapply chain_frame; [| |exact R1]; [done|]. intros e He. simpl.
    apply lookup_insert_ne. intros ->. by apply Hout, (list_elem_of_fmap_2 e_addr).
  - simpl. rewrite Hn. simpl. apply (schedule_loop_ready fuel _ [] l); [|done..].
    by rewrite app_nil_r.
Qed.
End removal.
