(* ===== verification/SchedulerThms.v ===== *)
(** * Properties of the scheduler

    Each operation of [scheduler.c] implements its counterpart of [RoundRobin]; a context
    switch saves and restores the threads' stacks; the witnesses use a kernel with three
    processes over an allocator that never reuses a page. *)

From S2P Require Import Prelude Buddy KMonad CString Structs World Scheduler SchedulerSpec.

(** ** A small kernel for the witnesses *)

Definition demo_process (pid : Z) (st : processState) (t : Z) : Process :=
  mkProcess pid st 0 0 1 (t :: replicate 9 NULL) 0 0 0 0 0 0 0 0 (replicate 10 NULL).

(** Processes 0 (running), 1 and 2; their slots at 16, 32, 48 (in units of 4096). *)
Definition demo_kernel (s1 s2 : processState) : Kernel Z := {|
  k_mem := λ _, 0;
  k_alloc := 0x100000;
  k_slots := {[ 0x10000 := mkSlot 0x20000 0x11000; 0x20000 := mkSlot 0x30000 0x21000;
                0x30000 := mkSlot 0x10000 0x31000 ]};
  k_procs := {[ 0x11000 := demo_process 0 RUNNING 0x12000; 0x21000 := demo_process 1 s1 0x22000;
                0x31000 := demo_process 2 s2 0x32000 ]};
  k_threads := {[ 0x12000 := mkThread 0x14000 0x16000 1; 0x22000 := mkThread 0x24000 0x26000 2;
                  0x32000 := mkThread 0x34000 0x36000 3 ]};
  k_frames := ∅;
  k_console := [];
  cardinal_processes := 3;
  current := 0x10000;
  next_pid := 3;
|}.

Definition demo_ring (s1 s2 : processState) : list (Z * Z * Process) :=
  [(0x10000, 0x11000, demo_process 0 RUNNING 0x12000); (0x20000, 0x21000, demo_process 1 s1 0x22000);
   (0x30000, 0x31000, demo_process 2 s2 0x32000)].

Definition demo_pages : list (Z * Z) :=
  (λ a, (a, 0x1000)) <$> [0x10000; 0x11000; 0x20000; 0x21000; 0x30000; 0x31000].

Lemma demo_ring_ok s1 s2 : ring (demo_kernel s1 s2) (demo_ring s1 s2).
Proof.
  split.
  - cbn [chain demo_ring demo_kernel current k_procs]. do 3 (split; [done|]; split; [done|]; split; [reflexivity|];
      eexists; split; [reflexivity|]). done.
  - apply (bool_decide_unpack _). by vm_compute.
  - apply (bool_decide_unpack _). by vm_compute.
  - apply (bool_decide_unpack _). by vm_compute.
  - intros e He. unfold demo_ring in He. rewrite !elem_of_cons, elem_of_nil in He.
    destruct He as [->|[->|[->|[]]]]; by vm_compute.
  - done.
  - done.
Qed.

Section refinement.
Context {H : Type} `{PageAllocatorLaws H}.
Implicit Types k : Kernel H.
Abbreviation entry := (Z * Z * Process)%type.

Record kernel_ok k (l : list entry) (L : list (Z * Z)) : Prop := {
  ok_ring : ring k l;
  ok_threads : threads_ok k;
  ok_owned : owned k l L;
}.

(** A ring survives changes outside of it. *)
Lemma ring_frame k k' l :
  ring k l → k_slots k' = k_slots k →
  (∀ e, e ∈ l → k_procs k' !! e_addr e = k_procs k !! e_addr e) →
  current k' = current k → cardinal_processes k' = cardinal_processes k →
  next_pid k ≤ next_pid k' → ring k' l.
Proof.
  intros [R1 R2 R3 R4 R5 R6 R7] Hs Hp Hc Hn Hi. split; [|done..| | |].
  - rewrite Hc. eapply chain_frame; [|exact Hp|exact R1]. intros. by rewrite Hs.
  - intros e He. destruct (R5 e He). split; [lia|done].
  - by rewrite Hn.
  - intros ->. rewrite Hc. by apply R7.
Qed.

(** What [createProcess] does, with the pages it takes. *)
Lemma createProcess_spec callProcess entryPoint description args k l L :
  kernel_ok k l L → next_pid k < INT_MAX → Z.of_nat (length l) < INT_MAX → 0 ≤ next_pid k →
  ∃ ps h', alloc_seq (k_alloc k) process_pages = Some (ps, h') ∧
    (NULL ∈ ps ∨
     ∃ k' l' L', createProcess callProcess entryPoint description args k = Some (next_pid k, k') ∧
       kernel_ok k' l' L' ∧ next_pid k' = next_pid k + 1 ∧
       e_view <$> l' = RoundRobin.add (next_pid k, READY) (e_view <$> l) ∧ k_alloc k' = h').
Proof.
  intros [Hr Ht [Hinv Hown]] Hmax Hlen Hpos.
  destruct (alloc_seq_spec (k_alloc k) L process_pages Hinv) as (ps & h' & Hseq & Hps).
  { intros n. unfold process_pages. rewrite !elem_of_cons, elem_of_nil.
    intros [->|[->|[->|[->|[->|[]]]]]]; by vm_compute. }
  exists ps, h'. split; [done|]. destruct Hps as [Hnull|(L' & Hinv' & Hps & Hnd & Hout)]; [by left|].
  destruct (decide (NULL ∈ ps)) as [Hnull|Hnull]; [by left|]. right.
  apply (alloc_seq_snoc _ (take 4 process_pages)) in Hseq as (ps1 & h1 & a & -> & Hseq & Ha).
  assert (Hlps : length ps1 = 4%nat).
  { unfold process_pages in Hseq. cbn [take alloc_seq] in Hseq. clear -Hseq. 
    repeat (match type of Hseq with context [pa_alloc ?h ?n ≫= _] =>
      destruct (pa_alloc h n) as [[? ?]|]; [|done] end; cbn [mbind option_bind] in Hseq).
    by injection Hseq as <- <-. }
  destruct ps1 as [|p [|t [|page1 [|page2 [|]]]]]; try done. clear Hlps.
  destruct (getProcess_spec k callProcess entryPoint description args p t page1 page2 h1 Ht Hseq)
    as (k1 & pages & Hget & Hp1 & Hs1 & Ha1 & Hc1 & Hcur1 & Hi1 & _).
  set (pr := created_process _ _ _ _ _ _ _ _ _ _) in *.
  rewrite int32_id in Hi1 by (unfold INT_MIN; lia).
  assert (Hpfresh : p ∉ (e_addr <$> l)).
  { intros (e & -> & He)%list_elem_of_fmap. destruct (Hown e He) as [_ Hin].
    apply (Hout (e_addr e)); [by left|done]. }
  assert (Hafresh : a ∉ (e_slot <$> l)).
  { intros (e & -> & He)%list_elem_of_fmap. destruct (Hown e He) as [Hin _].
    apply (Hout (e_slot e)); [|done]. apply elem_of_app. right. by left. }
  assert (Hr1 : ring k1 l).
  { eapply (ring_frame k); [done..| |done|done|lia]. intros e He. rewrite Hp1.
    apply lookup_insert_ne. intros ->. by apply Hpfresh, (list_elem_of_fmap_2 e_addr). }
  rewrite <-Ha1 in Ha.
  assert (Hanull : a ≠ NULL) by (intros ->; apply Hnull, elem_of_app; right; by left).
  destruct (addProcess_ring k1 l p pr a h' Hr1) as (k2 & Hadd & Hp2 & Hc2 & Ha2 & Hi2 & Hr2);
    [rewrite Hp1; apply lookup_insert_eq|done|done|done|done| | |intros ->; apply Hnull; by left|lia|].
  { intros (e & Heq & He)%list_elem_of_fmap. simpl in Heq.
    pose proof (ring_fresh _ _ Hr e He). lia. }
  { simpl. lia. }
  unfold createProcess. rewrite Hget. cbn [mbind option_bind]. rewrite Hadd.
  cbn [mbind option_bind k_procs set_cardinal]. rewrite Hp2, Hp1, lookup_insert_eq.
  cbn [mbind option_bind].
  eexists _, _, (L' ++ L). split; [done|]. split; [split; [exact Hr2| |]|split_and!].
  - intros q qr. simpl. rewrite Hp2, Hp1, lookup_insert_Some.
    intros [[_ <-]|[_ Hq]]; [done|by apply (Ht q)].
  - split.
    + simpl. by rewrite Ha2.
    + intros e He. rewrite ring_insert_perm in He. rewrite fmap_app, !elem_of_app.
      apply elem_of_cons in He as [->|He]; [|destruct (Hown e He); auto].
      unfold e_slot, e_addr. simpl. rewrite <-(reverse_involutive L'.*1), <-Hps.
      rewrite !elem_of_reverse. split; left; [|by left]. apply elem_of_app. right. by left.
  - simpl. lia.
  - by rewrite ring_insert_view.
  - done.
Qed.

(** C26: creating a process either runs out of pages or links the process, ready, right
    after the current one, under a pid no process has; the ring, the process table
    and the ownership of the pages stay well-formed. *)
Theorem createProcess_refines callProcess entryPoint description args k l L :
  kernel_ok k l L → next_pid k < INT_MAX → Z.of_nat (length l) < INT_MAX → 0 ≤ next_pid k →
  ∃ ps h', alloc_seq (k_alloc k) process_pages = Some (ps, h') ∧
    (NULL ∈ ps ∨
     ∃ k' l' L', createProcess callProcess entryPoint description args k = Some (next_pid k, k') ∧
       kernel_ok k' l' L' ∧ next_pid k' = next_pid k + 1 ∧
       e_view <$> l' = RoundRobin.add (next_pid k, READY) (e_view <$> l)).
Proof.
  intros Hk A1 A2 A3. destruct (createProcess_spec callProcess entryPoint description args k l L Hk A1 A2 A3)
    as (ps & h' & Ha & [Hn|(k' & l' & L' & Hc & Hk' & Hi & Hv & _)]); exists ps, h'; (split; [done|]); [by left|].
  right. by exists k', l', L'.
Qed.

Lemma rr_schedule_cons e (v : RoundRobin.t) :
  RoundRobin.schedule (e :: v) = RoundRobin.to_ready [] (v ++ [(e.1, RoundRobin.preempt e.2)]).
Proof. done. Qed.

(** C27: [schedule] gives the processor to the first ready process after the current one in
    ring order (which was running and becomes ready again), within as many steps of its
    loop as there are processes; when no process is ready the loop never ends. *)
Theorem schedule_correct fuel k l :
  ring k l → l ≠ [] →
  match RoundRobin.schedule (e_view <$> l) with
  | Some v => (length l ≤ fuel)%nat →
      ∃ k' l', schedule fuel k = Some k' ∧ ring k' l' ∧ e_view <$> l' = v
  | None => schedule fuel k = None
  end.
Proof.
  intros Hr Hl. destruct (RoundRobin.schedule _) as [v|] eqn:Hv.
  { intros Hf. by apply (schedule_refines fuel k l). }
  destruct l as [|e l]; [done|].
  destruct (schedule_start fuel k e l Hr) as (k1 & e1 & Hr1 & He1 & ->).
  rewrite (schedule_loop_none fuel k1 _ Hr1); [done|by destruct l|].
  intros e' He'. rewrite fmap_cons, rr_schedule_cons in Hv.
  change ((e_view e).1, RoundRobin.preempt (e_view e).2)
    with (e_pid e, RoundRobin.preempt (p_state e.2)) in Hv. rewrite <-He1 in Hv.
  pose proof (RoundRobin.to_ready_spec [] ((e_view <$> l) ++ [e_view e1])) as Hs.
  rewrite Hv in Hs.
  apply (Hs (e_view e')). apply elem_of_app in He' as [He'|He'].
  - apply elem_of_app. left. by apply list_elem_of_fmap_2.
  - apply list_elem_of_singleton in He' as ->. apply elem_of_app. right. by left.
Qed.

(** [n] turns of the scheduler. *)
Fixpoint schedule_n (fuel n : nat) k : option (Kernel H) :=
  match n with O => Some k | S n' => k' ← schedule fuel k; schedule_n fuel n' k' end.

(** The abstract scheduler is fair: a ready process gets closer to the head with every turn. *)
Lemma rr_fair j v e w :
  v = e :: w → (∃ pid, w !! j = Some (pid, READY)) →
  ∃ v' m, (m ≤ S j)%nat ∧ (0 < m)%nat ∧ RoundRobin.schedules m v = Some v' ∧
    head v' = Some (default 0 (fst <$> w !! j), RUNNING) ∧ length v' = length v.
Proof.
  revert v e w. induction j as [j IH] using lt_wf_ind. intros v e w -> (pid & Hj).
  pose proof (RoundRobin.to_ready_spec [] (w ++ [(e.1, RoundRobin.preempt e.2)])) as Hs.
  destruct (RoundRobin.to_ready _ _) as [r|] eqn:Hr.
  2: { exfalso. apply (Hs (pid, READY)); [|done]. apply elem_of_app. left.
       by eapply list_elem_of_lookup_2. }
  destruct Hs as (v1 & q & v2 & Hw & Hv1 & ->). rewrite app_nil_l in *.
  assert (Hj1 : (length v1 ≤ j)%nat).
  { destruct (decide (j < length v1)%nat) as [Hlt|]; [|lia]. exfalso.
    assert (Hv1j : v1 !! j = Some (pid, READY)).
    { rewrite <-(lookup_app_l v1 ((q, READY) :: v2)) by done. rewrite <-Hw.
      by rewrite lookup_app_l by (by eapply lookup_lt_Some). }
    apply (Hv1 (pid, READY)); [|done]. by eapply list_elem_of_lookup_2. }
  assert (Hlen : length w = (length v1 + length v2)%nat).
  { apply (f_equal length) in Hw. rewrite !length_app in Hw. simpl in Hw. lia. }
  assert (Hwj : (w ++ [(e.1, RoundRobin.preempt e.2)]) !! j = Some (pid, READY)).
  { by rewrite lookup_app_l by (by eapply lookup_lt_Some). }
  rewrite Hw, lookup_app_r in Hwj by done. rewrite Hj. simpl.
  destruct (decide (j = length v1)) as [->|Hne].
  - rewrite Nat.sub_diag in Hwj. injection Hwj as ->.
    exists ((pid, RUNNING) :: v2 ++ v1), 1%nat. split; [lia|]. split; [lia|].
    simpl. rewrite Hr. simpl. split_and!; [done..|]. rewrite length_app. lia.
  - destruct (j - length v1)%nat as [|j'] eqn:Ej; [lia|]. simpl in Hwj.
    destruct (IH j' ltac:(lia) ((q, RUNNING) :: v2 ++ v1) _ _ eq_refl) as (v' & m & Hm & Hm0 & Hs & Hh & Hl').
    { exists pid. by rewrite lookup_app_l by (by eapply lookup_lt_Some). }
    exists v', (S m). split; [lia|]. split; [lia|]. cbn [RoundRobin.schedules RoundRobin.schedule].
    rewrite Hr. simpl. rewrite Hs. split_and!; [done| |].
    + rewrite Hh, lookup_app_l by (by eapply lookup_lt_Some). by rewrite Hwj.
    + rewrite Hl'. simpl. rewrite length_app. lia.
Qed.

Lemma schedules_refines fuel n k l v :
  ring k l → RoundRobin.schedules n (e_view <$> l) = Some v → (length l ≤ fuel)%nat →
  ∃ k' l', schedule_n fuel n k = Some k' ∧ ring k' l' ∧ e_view <$> l' = v.
Proof.
  revert k l. induction n as [|n IH]; intros k l Hr Hv Hf; simpl in *.
  { injection Hv as <-. by exists k, l. }
  destruct (RoundRobin.schedule _) as [v1|] eqn:Hv1; [|done]. simpl in Hv.
  destruct (schedule_refines fuel k l v1 Hr Hv1 Hf) as (k1 & l1 & -> & Hr1 & Hl1). simpl.
  rewrite <-Hl1 in Hv. apply (IH k1 l1 Hr1 Hv).
  assert (length l1 = length l) as ->; [|done].
  rewrite <-(length_fmap e_view l1), Hl1.
  destruct l as [|e l]; [done|]. rewrite fmap_cons, rr_schedule_cons in Hv1.
  pose proof (RoundRobin.to_ready_spec [] ((e_view <$> l) ++ [((e_view e).1, RoundRobin.preempt (e_view e).2)])) as Hs.
  rewrite Hv1 in Hs. destruct Hs as (u1 & q & u2 & Hu & _ & ->).
  apply (f_equal length) in Hu. rewrite !length_app, length_fmap in Hu. simpl in *.
  rewrite length_app. lia.
Qed.

(** C28: bounded waiting: the ready process [j + 1] places after the current one gets the
    processor within [j + 1] turns. *)
Theorem schedule_bounded_waiting fuel k c l j e :
  ring k (c :: l) → l !! j = Some e → p_state e.2 = READY → (length (c :: l) ≤ fuel)%nat →
  ∃ m k', (0 < m ≤ S j)%nat ∧ schedule_n fuel m k = Some k' ∧
    getCurrentPid k' = Some (e_pid e) ∧ state_of k' (e_pid e) = Some RUNNING.
Proof.
  intros Hr Hj He Hf.
  destruct (rr_fair j _ (e_view c) (@fmap list _ _ _ e_view l) eq_refl)
    as (v' & m & Hm & Hm0 & Hs & Hh & Hl').
  { exists (p_pid e.2). rewrite list_lookup_fmap, Hj. simpl. unfold e_view. by rewrite He. }
  destruct (schedules_refines fuel m k (c :: l) v' Hr Hs Hf) as (k' & l' & Hk' & Hr' & <-).
  exists m, k'. split; [lia|]. split; [done|].
  destruct l' as [|e' l']; [by simpl in Hl'|].
  rewrite list_lookup_fmap, Hj in Hh. simpl in Hh.
  pose proof (f_equal (from_option fst 0) Hh) as Hpid. simpl in Hpid.
  pose proof (f_equal (from_option snd READY) Hh) as Hst. simpl in Hst.
  destruct (ring_current _ _ _ Hr') as (_ & Hp & _ & _ & Hn). split.
  - unfold getCurrentPid. rewrite (proj2 (Z.eqb_neq _ _)) by done. rewrite Hp. simpl.
    by rewrite Hpid.
  - rewrite (state_of_view _ _ _ Hr'). simpl. rewrite decide_True by done. by rewrite Hst.
Qed.

(** [changeProcessState] gives the process with that pid the new state, wherever it is
    on the ring, changes no other process, and does nothing when no process has it. *)
Theorem changeProcessState_correct k l pid st :
  ring k l →
  ∃ k' l', changeProcessState pid st k = Some k' ∧ ring k' l' ∧
    e_view <$> l' = RoundRobin.set_state pid st (e_view <$> l) ∧
    current k' = current k ∧ k_mem k' = k_mem k ∧ k_slots k' = k_slots k ∧
    k_threads k' = k_threads k ∧
    ((∀ e, e ∈ l → e_pid e ≠ pid) → e_view <$> l' = e_view <$> l).
Proof.
  intros Hr. destruct (change_ring k l pid st Hr)
    as (k' & l' & Hk' & Hr' & Hv & Hc & Hm & _ & _ & _ & Hs & Ht & _).
  exists k', l'. split_and!; try done. intros Hnone. rewrite Hv. apply set_state_absent.
  intros e' (e & -> & He)%list_elem_of_fmap. by apply Hnone.
Qed.

Lemma removeProcess_absent k c d l pid :
  ring k (c :: d :: l) → pid ≠ 0 → (∀ e, e ∈ c :: d :: l → e_pid e ≠ pid) →
  removeProcess pid k = Done tt k.
Proof.
  intros Hr Hpid Habs. destruct (not_alone _ _ _ _ Hr) as (n & b & Hn & Hb & Hcur & Heq).
  destruct (ring_current _ _ _ Hr) as (_ & _ & _ & _ & Hnull).
  destruct (ring_turn _ _ _ Hr) as (n' & Hn' & Hr2). assert (n' = n) as -> by congruence.
  unfold removeProcess. rewrite (proj2 (Z.eqb_neq _ _)) by done. rewrite asks_bind.
  rewrite (proj2 (Z.eqb_neq _ _)) by done.
  rewrite (asksO_bind _ _ _ false) by (rewrite Hcur, Hn; simpl; rewrite Hb; simpl; by rewrite Heq).
  rewrite (asksO_bind _ _ _ None); [done|]. rewrite Hn. simpl.
  pose proof (ring_chain _ _ Hr2) as Hch. cbn [current set_current] in Hch.
  (* one full round, and the slot it started from once more *)
  eapply (remove_loop_absent _ _ _ _ (((d :: l) ++ [c]) ++ ((d :: l) ++ [c]))).
  + apply chain_app. exists n. split; (eapply chain_frame; [| |exact Hch]; done).
  + intros e He. apply Habs. rewrite !elem_of_app, !list_elem_of_singleton in He.
    rewrite !elem_of_cons in *. tauto.
  + rewrite (ring_card _ _ Hr). rewrite !length_app. simpl. lia.
Qed.

Lemma remove_view_notin pid (u : list entry) :
  (∀ e, e ∈ u → e_pid e ≠ pid) → RoundRobin.remove pid (e_view <$> u) = e_view <$> u.
Proof.
  intros Hu. apply filter_all. intros x (e & -> & He)%list_elem_of_fmap. by apply Hu.
Qed.

Lemma remove_view k l1 e l2 :
  ring k (l1 ++ e :: l2) →
  RoundRobin.remove (e_pid e) (e_view <$> l1 ++ e :: l2) = e_view <$> l1 ++ l2.
Proof.
  intros Hr. pose proof (ring_pids _ _ Hr) as Hnd. rewrite fmap_app, fmap_cons in Hnd.
  apply list.NoDup_app in Hnd as (_ & Hout & Hnd). apply list.NoDup_cons in Hnd as [Hin _].
  rewrite !fmap_app, (fmap_cons _ e). unfold RoundRobin.remove.
  rewrite list.filter_app, filter_cons_False by (intros Hn; by apply Hn).
  fold (RoundRobin.remove (e_pid e) (e_view <$> l1)) (RoundRobin.remove (e_pid e) (e_view <$> l2)).
  rewrite !remove_view_notin; [done|..].
  - intros e' He' Heq. apply Hin. rewrite <-Heq. by apply list_elem_of_fmap_2.
  - intros e' He' Heq. apply (list_elem_of_fmap_2 e_pid) in He'. apply (Hout _ He').
    rewrite Heq. by left.
Qed.

(** C25: [removeProcess] of another process unlinks exactly it; of the current process it
    unlinks it and gives the processor away, to the first ready process among the
    others; of process 0 it only gives the processor away; of a pid no process has it
    does nothing. *)
Theorem removeProcess_correct fuel k c d l pid :
  ring k (c :: d :: l) → Z.of_nat (length l) < INT_MAX - 1 → (length (c :: d :: l) ≤ fuel)%nat →
  (pid = 0 ∧ removeProcess pid k = Yield k (Done tt)) ∨
  (pid ≠ 0 ∧ (∀ e, e ∈ c :: d :: l → e_pid e ≠ pid) ∧ removeProcess pid k = Done tt k) ∨
  (pid ≠ 0 ∧ e_pid c ≠ pid ∧ ∃ k' l', removeProcess pid k = Done tt k' ∧ ring k' l' ∧
     e_view <$> l' = RoundRobin.remove pid (e_view <$> c :: d :: l)) ∨
  (pid ≠ 0 ∧ e_pid c = pid ∧ ∃ k1, removeProcess pid k = Yield k1 (Done tt) ∧
     ∀ v, RoundRobin.to_ready [] (e_view <$> d :: l) = Some v →
       ∃ k' l', schedule fuel k1 = Some k' ∧ ring k' l' ∧ e_view <$> l' = v).
Proof.
  intros Hr Hlen Hf. destruct (decide (pid = 0)) as [->|Hpid]; [by left|]. right.
  destruct (decide (e_pid c = pid)) as [<-|Hc].
  { right. right. split; [done|]. split; [done|].
    destruct (removeProcess_current k c d l Hr Hpid Hlen) as (k1 & n & Hk1 & H2 & H3 & H4 & H5 & H6).
    exists k1. split; [done|]. intros v Hv.
    eapply schedule_detached; [done..|]. simpl in *. lia. }
  destruct (decide (Exists (λ e, e_pid e = pid) (d :: l))) as [(e & He & <-)%list.Exists_exists|Hnone].
  - right. left. split; [done|]. split; [done|].
    apply list_elem_of_split in He as (l1 & l2 & Hl). rewrite Hl in *.
    destruct (removeProcess_other k c l1 e l2 Hr Hpid) as (k' & Hk' & Hr' & _).
    { apply (f_equal length) in Hl. rewrite !length_app in *. simpl in *. lia. }
    exists k', (c :: l1 ++ l2). split; [done|]. split; [done|].
    symmetry. rewrite app_comm_cons in *. by apply (remove_view k).
  - left. split; [done|]. assert (Habs : ∀ e, e ∈ c :: d :: l → e_pid e ≠ pid).
    { intros e [->|He]%elem_of_cons; [done|]. intros Heq. apply Hnone, list.Exists_exists. by exists e. }
    split; [done|]. by apply (removeProcess_absent k c d l).
Qed.

(** ** Context switches *)

Definition active_thread k : option Z :=
  pr ← slot_proc k (current k); aget (p_thread pr) (p_activeThread pr).

(** Every process has its active thread. *)
Definition threads_valid k : Prop :=
  ∀ p pr, k_procs k !! p = Some pr →
    ∃ t th, aget (p_thread pr) (p_activeThread pr) = Some t ∧ k_threads k !! t = Some th.

(** [k'] only differs from [k] in [current] and in the states of processes. *)
Record same_but_states k k' : Prop := {
  sb_threads : k_threads k' = k_threads k;
  sb_slots : k_slots k' = k_slots k;
  sb_procs : ∀ p, match k_procs k !! p, k_procs k' !! p with
                  | Some pr, Some pr' => pr' = p_set_state (p_state pr') pr
                  | None, None => True
                  | _, _ => False
                  end;
}.

Lemma same_refl k : same_but_states k k.
Proof. split; [done..|]. intros p. destruct (k_procs k !! p) as [[]|]; done. Qed.

Lemma same_trans k1 k2 k3 : same_but_states k1 k2 → same_but_states k2 k3 → same_but_states k1 k3.
Proof.
  intros [T1 S1 P1] [T2 S2 P2]. split; [congruence..|]. intros p. specialize (P1 p). specialize (P2 p).
  destruct (k_procs k1 !! p) as [a|], (k_procs k2 !! p) as [b|], (k_procs k3 !! p) as [c|];
    try contradiction; [|exact I].
  transitivity (p_set_state (p_state c) b); [exact P2|]. rewrite P1 at 1. reflexivity.
Qed.

Lemma same_current k c : same_but_states k (set_current c k).
Proof. destruct (same_refl k). by split. Qed.

Lemma same_upd k p st k' : upd_process p (p_set_state st) k = Some k' → same_but_states k k'.
Proof.
  unfold upd_process. destruct (k_procs k !! p) as [pr|] eqn:E; [|done]. intros [= <-].
  split; [done..|]. intros q. simpl. destruct (decide (q = p)) as [->|Hne].
  - by rewrite lookup_insert_eq, E.
  - rewrite lookup_insert_ne by done. apply (sb_procs _ _ (same_refl k)).
Qed.

Lemma schedule_loop_same fuel k k' : schedule_loop fuel k = Some k' → same_but_states k k'.
Proof.
  revert k. induction fuel as [|fuel IH]; intros k; cbn [schedule_loop]; [done|].
  intros Hs. apply bind_Some in Hs as (pr & _ & Hs). case_decide.
  - apply bind_Some in Hs as (n & _ & Hs). eapply same_trans; [apply same_current|by apply IH].
  - injection Hs as <-. apply same_refl.
Qed.

Lemma schedule_same fuel k k' : schedule fuel k = Some k' → same_but_states k k'.
Proof.
  unfold schedule. intros Hs. apply bind_Some in Hs as (p & _ & Hs).
  apply bind_Some in Hs as (pr & _ & Hs). apply bind_Some in Hs as (k1 & Hk1 & Hs).
  apply bind_Some in Hs as (n & _ & Hs). apply bind_Some in Hs as (k2 & Hk2 & Hs).
  apply bind_Some in Hs as (q & _ & Hs).
  eapply same_trans; [|eapply same_trans; [apply (schedule_loop_same _ _ _ Hk2)|by eapply same_upd]].
  eapply same_trans; [|apply same_current]. case_decide; [by eapply same_upd|].
  injection Hk1 as <-. apply same_refl.
Qed.

Lemma set_userStack_ring k l t v k' :
  set_userStack t v k = Some k' → ring k l → ring k' l.
Proof.
  unfold set_userStack. intros Hs Hr. apply bind_Some in Hs as (th & _ & Hs). injection Hs as <-.
  by apply (ring_frame k).
Qed.

Lemma same_threads_valid k k' : same_but_states k k' → threads_valid k → threads_valid k'.
Proof.
  intros [Ht _ Hp] Hv p pr Hpr. specialize (Hp p). rewrite Hpr in Hp.
  destruct (k_procs k !! p) as [a|] eqn:E; [|contradiction]. rewrite Hp, Ht. exact (Hv p a E).
Qed.

Lemma valid_current k c l :
  ring k (c :: l) → threads_valid k →
  ∃ t th, active_thread k = Some t ∧ k_threads k !! t = Some th ∧
    getCurrentUserStack k = Some (userStack th).
Proof.
  intros Hr Hv. destruct (ring_current _ _ _ Hr) as (_ & Hc & Hp & _).
  destruct (Hv _ _ Hp) as (t & th & Ht & Hth). exists t, th.
  unfold active_thread, getCurrentUserStack. rewrite Hc. simpl. rewrite Ht. simpl.
  by rewrite Hth.
Qed.

(** A timer tick: when a process is ready, [next_process] saves the interrupted stack in
    the current thread and in no other, moves the turn as the abstract scheduler says, and
    returns the stack that was saved in the thread it switches to. *)
Theorem next_process_correct fuel rsp k c l v :
  ring k (c :: l) → threads_valid k →
  RoundRobin.schedule (e_view <$> c :: l) = Some v → (length (c :: l) ≤ fuel)%nat →
  ∃ a t t' k' l', next_process fuel rsp k = Some (a, k') ∧ ring k' l' ∧ e_view <$> l' = v ∧
    threads_valid k' ∧ active_thread k = Some t ∧ active_thread k' = Some t' ∧
    userStack <$> (k_threads k' !! t) = Some rsp ∧
    (∀ u, u ≠ t → k_threads k' !! u = k_threads k !! u) ∧
    Some a = userStack <$> (k_threads k' !! t').
Proof.
  intros Hr Hv Hrr Hf. destruct (valid_current _ _ _ Hr Hv) as (t & th & Ht & Hth & _).
  destruct (ring_current _ _ _ Hr) as (_ & Hc & _ & _ & Hn).
  set (k1 := set_threads (<[t := mkThread rsp (kernelStack th) (entryPoint th)]> (k_threads k)) k).
  assert (Hset : set_userStack t rsp k = Some k1) by (unfold set_userStack; by rewrite Hth).
  pose proof (set_userStack_ring _ _ _ _ _ Hset Hr) as Hr1.
  assert (Hv1 : threads_valid k1).
  { intros p pr Hp. destruct (Hv p pr Hp) as (u & uh & Hu & Huh). exists u. simpl.
    destruct (decide (u = t)) as [->|Hne];
      [rewrite lookup_insert_eq|rewrite lookup_insert_ne by done]; by eexists. }
  destruct (schedule_refines fuel k1 _ v Hr1 Hrr Hf) as (k' & l' & Hk' & Hr' & Hl').
  pose proof (schedule_same _ _ _ Hk') as Hsame. pose proof (same_threads_valid _ _ Hsame Hv1) as Hv'.
  destruct l' as [|c' l'].
  { rewrite fmap_cons, rr_schedule_cons in Hrr. simpl in Hl'. subst v.
    pose proof (RoundRobin.to_ready_spec [] ((e_view <$> l) ++ [((e_view c).1, RoundRobin.preempt (e_view c).2)])) as Hs.
    rewrite Hrr in Hs. by destruct Hs as (? & ? & ? & _ & _ & ?). }
  destruct (valid_current _ _ _ Hr' Hv') as (t' & th' & Ht' & Hth' & Hus).
  exists (userStack th'), t, t', k', (c' :: l'). split.
  { unfold next_process. rewrite (proj2 (Z.eqb_neq _ _)) by done.
    unfold active_thread in Ht. rewrite Hc in *. simpl in Ht |- *. rewrite Ht. simpl.
    rewrite Hset. simpl. rewrite Hk'. simpl. by rewrite Hus. }
  rewrite (sb_threads _ _ Hsame) in *. simpl in *. split_and!; try done.
  - by rewrite lookup_insert_eq.
  - intros u Hu. by rewrite lookup_insert_ne.
  - by rewrite Hth'.
Qed.

(** [getProcessById] finds the current process; asked for any other one it reads
    [slot[1]], past the end of the current process's slot. *)
Theorem getProcessById_current_only k c l pid :
  ring k (c :: l) → k_slots k !! (current k + sizeof_ProcessSlot) = None →
  (e_pid c = pid → getProcessById pid k = Some (e_addr c)) ∧
  (e_pid c ≠ pid → l ≠ [] → getProcessById pid k = None).
Proof.
  intros Hr Hnext. destruct (ring_current _ _ _ Hr) as (Hp & _ & Hpp & _).
  unfold getProcessById. rewrite (ring_card _ _ Hr), Nat2Z.id. cbn [length getProcessById_loop].
  rewrite Z.mul_0_l, Z.add_0_r, Hp. simpl. rewrite Hpp. simpl. split.
  - intros <-. unfold e_pid. by rewrite Z.eqb_refl.
  - intros Hne Hl. rewrite (proj2 (Z.eqb_neq _ _)) by done. destruct l; [done|].
    cbn [length getProcessById_loop].
    assert (Hs : slot_process k (current k + (0 + 1) * sizeof_ProcessSlot) = None)
      by (unfold slot_process; replace ((0 + 1) * sizeof_ProcessSlot) with sizeof_ProcessSlot by done;
          by rewrite Hnext).
    by rewrite Hs.
Qed.

(** [nextThread] terminates and picks the thread that follows the active one in the
    array, cyclically, over the spots that are empty; the active thread itself if it is
    the only one. *)
Theorem nextThread_correct k c l (d : nat) :
  ring k (c :: l) → length (p_thread c.2) = Z.to_nat MAX_THREADS →
  0 ≤ p_activeThread c.2 < MAX_THREADS → (1 ≤ d)%nat →
  (∃ t, p_thread c.2 !! Z.to_nat ((p_activeThread c.2 + Z.of_nat d) mod MAX_THREADS) = Some t ∧ t ≠ NULL) →
  (∀ i, (1 ≤ i < d)%nat →
     p_thread c.2 !! Z.to_nat ((p_activeThread c.2 + Z.of_nat i) mod MAX_THREADS) = Some NULL) →
  nextThread d k = Some ((p_activeThread c.2 + Z.of_nat d) mod MAX_THREADS).
Proof.
  intros Hr Hlen Hact Hd (t & Ht & Htn) Hgap. destruct (ring_current _ _ _ Hr) as (Hp & _ & Hpp & _).
  unfold nextThread, getCurrentProcess. rewrite Hp. simpl. rewrite Hpp. simpl.
  set (pr := c.2) in *. clearbody pr. clear Hr Hp Hpp.
  assert (Hgen : ∀ n i, (1 ≤ i)%nat → (i + n = S d)%nat → (0 < n)%nat →
    nextThread_loop n (Z.of_nat i) pr = Some ((p_activeThread pr + Z.of_nat d) mod MAX_THREADS)).
  { intros n. induction n as [|n IH]; intros i Hi Hin Hn; [lia|]. cbn [nextThread_loop].
    assert (Hrem : Z.rem (p_activeThread pr + Z.of_nat i) MAX_THREADS =
      (p_activeThread pr + Z.of_nat i) mod MAX_THREADS)
      by (apply Z.rem_mod_nonneg; unfold MAX_THREADS in *; lia).
    rewrite Hrem. pose proof (Z.mod_pos_bound (p_activeThread pr + Z.of_nat i) MAX_THREADS ltac:(done)).
    rewrite aget_nat by lia. destruct (decide (i = d)) as [->|Hne].
    - rewrite Ht. simpl. by rewrite (proj2 (Z.eqb_neq t NULL)).
    - rewrite (Hgap i) by lia. simpl. replace (Z.of_nat i + 1) with (Z.of_nat (S i)) by lia.
      apply IH; lia. }
  apply (Hgen d 1%nat); lia.
Qed.
(** *** The end of a thread *)

(** A thread other than the first that ends leaves a null pointer where the processor goes on: the next
    switch stores the stack pointer through it. *)
Lemma thread_exit_undefined fuel rsp k k' pr :
  slot_proc k (current k) = Some pr → current k ≠ NULL → p_activeThread pr ≠ 0 → k_threads k !! NULL = None →
  terminateThread k = Done tt k' → next_process fuel rsp k' = None.
Proof.
  intros Hs Hc Ha Hn. unfold slot_proc in Hs. apply bind_Some in Hs as (p & Hp & Hpr).
  unfold terminateThread. rewrite (asksO_bind getCurrentProcess _ k p) by exact Hp.
  rewrite (asksO_bind _ _ k pr) by exact Hpr. rewrite (proj2 (Z.eqb_neq _ _) Ha). unfold modifyO.
  case_match eqn:E; [|done]. intros [= <-]. apply bind_Some in E as (t & Ht & E). apply bind_Some in E as (k1 & Hf & E).
  apply bind_Some in E as (ts & Hts & E). unfold upd_process in E. apply bind_Some in E as (pr1 & Hpr1 & [= <-]).
  unfold freeThreadPages in Hf. apply bind_Some in Hf as (th & _ & Hf).
  assert (Hk1 : current k1 = current k ∧ k_slots k1 = k_slots k ∧ k_threads k1 = k_threads k).
  { assert (Hd : ∀ a k1 k2, k_deallocPage a k1 = Some k2 → current k2 = current k1 ∧ k_slots k2 = k_slots k1 ∧ k_threads k2 = k_threads k1).
    { intros a k2 k3. unfold k_deallocPage. by intros ([? ?] & _ & [= <-])%bind_Some. }
    apply bind_Some in Hf as (k2 & Hd1 & Hf). apply bind_Some in Hf as (k3 & Hd2 & Hd3).
    apply Hd in Hd3 as (-> & -> & ->). apply Hd in Hd2 as (-> & -> & ->). by apply Hd in Hd1. }
  destruct Hk1 as (Ec & Es & Et). unfold next_process. cbn [current set_procs]. rewrite Ec, (proj2 (Z.eqb_neq _ _) Hc).
  unfold slot_proc, slot_process in *. cbn [k_slots k_procs set_procs]. rewrite Es, Hp. cbn [mbind option_bind].
  rewrite lookup_insert_eq. cbn [mbind option_bind p_activeThread p_thread p_set_threads].
  apply aset_inv in Hts as [Hr ->]. rewrite aget_aput_eq by lia. cbn [mbind option_bind].
  unfold set_userStack. cbn [k_threads set_procs]. by rewrite Et, Hn.
Qed.
End refinement.

(** ** Witnesses *)

Lemma demo_kernel_ok s1 s2 : kernel_ok (demo_kernel s1 s2) (demo_ring s1 s2) demo_pages.
Proof.
  split; [apply demo_ring_ok| |split; [split|]].
  - intros p pr Hp. cbn [demo_kernel k_procs] in Hp.
    repeat (apply lookup_insert_Some in Hp as [[_ <-]|[_ Hp]]; [done|]).
    apply lookup_singleton_Some in Hp as [_ <-]. done.
  - done.
  - intros q t Hq. unfold demo_pages in Hq. simpl in Hq.
    rewrite !elem_of_cons, elem_of_nil in Hq.
    destruct Hq as [[= -> ->]|[[= -> ->]|[[= -> ->]|[[= -> ->]|[[= -> ->]|[[= -> ->]|[]]]]]]];
      by vm_compute.
  - intros e He. unfold demo_ring in He. rewrite !elem_of_cons, elem_of_nil in He.
    destruct He as [->|[->|[->|[]]]]; split; apply (bool_decide_unpack _); by vm_compute.
Qed.

Lemma demo_threads_valid s1 s2 : threads_valid (demo_kernel s1 s2).
Proof.
  intros p pr Hp. cbn [demo_kernel k_procs] in Hp.
  apply lookup_insert_Some in Hp as [[_ <-]|[_ Hp]]; [by eexists _, _|].
  apply lookup_insert_Some in Hp as [[_ <-]|[_ Hp]]; [by eexists _, _|].
  apply lookup_singleton_Some in Hp as [_ <-]. by eexists _, _.
Qed.

Lemma createProcess_refines_witness :
  ∃ ps h', alloc_seq (k_alloc (demo_kernel READY READY)) process_pages = Some (ps, h') ∧
    (NULL ∈ ps ∨
     ∃ k' l' L', createProcess 7 1 2 3 (demo_kernel READY READY) = Some (3, k') ∧
       kernel_ok k' l' L' ∧ next_pid k' = 3 + 1 ∧
       e_view <$> l' = [(0, RUNNING); (3, READY); (1, READY); (2, READY)]).
Proof.
  refine (createProcess_refines 7 1 2 3 _ _ _ (demo_kernel_ok READY READY) eq_refl eq_refl _).
  by vm_compute.
Defined.

Lemma schedule_correct_witness :
  (∃ k' l', schedule 3 (demo_kernel BLOCKED READY) = Some k' ∧ ring k' l' ∧
     e_view <$> l' = [(2, RUNNING); (0, READY); (1, BLOCKED)]).
Proof.
  refine (schedule_correct 3 _ _ (demo_ring_ok BLOCKED READY) _ _); [done|simpl; lia].
Defined.

Lemma schedule_bounded_waiting_witness :
  ∃ m k', (0 < m ≤ 2)%nat ∧ schedule_n 3 m (demo_kernel READY READY) = Some k' ∧
    getCurrentPid k' = Some 2 ∧ state_of k' 2 = Some RUNNING.
Proof.
  refine (schedule_bounded_waiting 3 _ _ _ 1 _ (demo_ring_ok READY READY) eq_refl eq_refl _).
  simpl. lia.
Defined.

Lemma changeProcessState_correct_witness :
  ∃ k' l', changeProcessState 1 BLOCKED (demo_kernel READY READY) = Some k' ∧ ring k' l' ∧
    e_view <$> l' = [(0, RUNNING); (1, BLOCKED); (2, READY)].
Proof.
  destruct (changeProcessState_correct _ _ 1 BLOCKED (demo_ring_ok READY READY))
    as (k' & l' & H1 & H2 & H3 & _). exists k', l'. split; [exact H1|]. split; [exact H2|exact H3].
Defined.

Lemma removeProcess_correct_witness :
  ∃ k1, removeProcess 0 (demo_kernel READY READY) = Yield k1 (Done tt).
Proof.
  destruct (removeProcess_correct 3 _ _ _ _ 0 (demo_ring_ok READY READY))
    as [(_ & E)|[(E & _)|[(E & _)|(E & _)]]];
    [done|simpl; lia|eexists; exact E|by destruct (E eq_refl)..].
Defined.

Lemma next_process_correct_witness :
  ∃ a t t' k' l', next_process 3 99 (demo_kernel READY READY) = Some (a, k') ∧ ring k' l' ∧
    e_view <$> l' = [(1, RUNNING); (2, READY); (0, READY)] ∧
    threads_valid k' ∧ active_thread (demo_kernel READY READY) = Some t ∧ active_thread k' = Some t' ∧
    userStack <$> (k_threads k' !! t) = Some 99 ∧
    (∀ u, u ≠ t → k_threads k' !! u = k_threads (demo_kernel READY READY) !! u) ∧
    Some a = userStack <$> (k_threads k' !! t').
Proof.
  refine (next_process_correct 3 99 _ _ _ _ (demo_ring_ok READY READY)
    (demo_threads_valid READY READY) eq_refl _). simpl. lia.
Defined.

Lemma getProcessById_current_only_witness :
  getProcessById 1 (demo_kernel READY READY) = None.
Proof.
  destruct (getProcessById_current_only _ _ _ 1 (demo_ring_ok READY READY) eq_refl) as [_ Hn].
  by apply Hn.
Defined.

Lemma nextThread_correct_witness : nextThread 10 (demo_kernel READY READY) = Some 0.
Proof.
  refine (nextThread_correct _ _ _ 10 (demo_ring_ok READY READY) eq_refl _ _ _ _).
  - vm_compute. split; congruence.
  - lia.
  - by exists 0x12000.
  - intros i Hi. do 10 (destruct i as [|i]; [by (lia || vm_compute)|]). lia.
Defined.
