(* ===== verification/Queue.v ===== *)
(** * The queue of processes ([Kernel/queue.c])

    A singly linked list with a pointer to its last node.  The queue and its nodes live
    in typed stores keyed by address; their pages come from a [PageAllocator].  The code
    passes [sizeof] (16 bytes, for both structs) as the number of pages. *)

From S2P Require Import Prelude Structs Buddy World.

Record node := mkNode { n_elem : Z; n_next : Z }.
Record queue := mkQueue { q_first : Z; q_last : Z }.

Definition sizeof_node : Z := 16.
Definition sizeof_queue : Z := 16.

Section queue.
Context {H : Type} `{PageAllocator H}.

Record QState := mkQS {
  q_alloc : H;
  q_queues : gmap Z queue;
  q_nodes : gmap Z node;
}.
Implicit Types s : QState.

Definition q_allocPage (pages : Z) s : option (Z * QState) :=
  '(a, h) ← pa_alloc (q_alloc s) pages; Some (a, mkQS h (q_queues s) (q_nodes s)).
Definition q_deallocPage (a : Z) s : option QState :=
  '(_, h) ← pa_free (q_alloc s) a; Some (mkQS h (q_queues s) (q_nodes s)).
Definition set_queue (q : Z) (v : queue) s : QState := mkQS (q_alloc s) (<[q := v]> (q_queues s)) (q_nodes s).
Definition set_node (n : Z) (v : node) s : QState := mkQS (q_alloc s) (q_queues s) (<[n := v]> (q_nodes s)).

Definition create_queue s : option (Z * QState) :=
  '(q, s) ← q_allocPage sizeof_queue s;
  if q =? NULL then Some (NULL, s)
  else Some (q, set_queue q (mkQueue NULL NULL) s).

Definition is_empty (q : Z) s : option bool :=
  if q =? NULL then Some true else qu ← q_queues s !! q; Some (q_first qu =? NULL).

Definition enqueue (q elem : Z) s : option QState :=
  if q =? NULL then Some s
  else
    '(new_node, s) ← q_allocPage sizeof_node s;
    let s := set_node new_node (mkNode elem NULL) s in
    qu ← q_queues s !! q;
    if q_first qu =? NULL then Some (set_queue q (mkQueue new_node new_node) s)
    else
      la ← q_nodes s !! q_last qu;
      let s := set_node (q_last qu) (mkNode (n_elem la) new_node) s in
      Some (set_queue q (mkQueue (q_first qu) new_node) s).

Definition peek (q : Z) s : option Z :=
  e ← is_empty q s;
  if (e : bool) then Some NULL
  else qu ← q_queues s !! q; f ← q_nodes s !! q_first qu; Some (n_elem f).

Definition dequeue (q : Z) s : option (Z * QState) :=
  e ← is_empty q s;
  if (e : bool) then Some (NULL, s)
  else
    qu ← q_queues s !! q;
    let f := q_first qu in
    fn ← q_nodes s !! f;
    let elem := n_elem fn in
    let qu := mkQueue (n_next fn) (q_last qu) in
    let qu := if q_first qu =? NULL then mkQueue (q_first qu) NULL else qu in
    let s := set_queue q qu s in
    s ← q_deallocPage f s;
    Some (elem, s).

(** [while(!is_empty(q)) dequeue(q);] *)
Fixpoint destroy_loop (fuel : nat) (q : Z) s : option QState :=
  e ← is_empty q s;
  if (e : bool) then Some s
  else match fuel with
       | O => None
       | S fuel' => '(_, s) ← dequeue q s; destroy_loop fuel' q s
       end.

Definition destroy_queue (fuel : nat) (q : Z) s : option QState :=
  s ← destroy_loop fuel q s;
  q_deallocPage q s.

(** ** The queue as a list *)

(** From [a] the nodes [ns] (address and element) lead to [b], the last next pointer. *)
Fixpoint nodes_chain (m : gmap Z node) (a : Z) (ns : list (Z * Z)) (b : Z) : Prop :=
  match ns with
  | [] => a = b
  | (n, e) :: ns' => a = n ∧ n ≠ NULL ∧ ∃ nx, m !! n = Some (mkNode e nx) ∧ nodes_chain m nx ns' b
  end.

(** The queue at [q] holds the elements of [ns], in order. *)
Record queue_at s (q : Z) (ns : list (Z * Z)) : Prop := {
  qa_null : q ≠ NULL;
  qa_nodup : NoDup ns.*1;
  qa_queue : q_queues s !! q =
    Some (mkQueue (default NULL (fst <$> head ns)) (default NULL (fst <$> list.last ns)));
  qa_chain : nodes_chain (q_nodes s) (default NULL (fst <$> head ns)) ns NULL;
}.

(** Releasing a page succeeds (what the allocator does with it is its own business). *)
Definition frees_ok : Prop := ∀ h a, is_Some (pa_free h a).

Lemma nodes_chain_frame m m' a ns b :
  (∀ n, n ∈ ns.*1 → m' !! n = m !! n) → nodes_chain m a ns b → nodes_chain m' a ns b.
Proof.
  revert a. induction ns as [|[n e] ns IH]; intros a Hm; simpl; [done|].
  intros (-> & Hn & nx & Hnx & Hc). split; [done|]. split; [done|]. exists nx.
  rewrite Hm by (by left). split; [done|]. apply IH; [|done]. intros n' Hn'. apply Hm. by right.
Qed.

(** The chain of a non-empty list goes through its last node. *)
Lemma nodes_chain_snoc m a ns n e b :
  nodes_chain m a (ns ++ [(n, e)]) b ↔ nodes_chain m a ns n ∧ n ≠ NULL ∧ m !! n = Some (mkNode e b).
Proof.
  revert a. induction ns as [|[x y] ns IH]; intros a; simpl.
  - split; [intros (-> & ? & nx & ? & ->); done|]. intros (-> & ? & ?). split; [done|].
    split; [done|]. by exists b.
  - split.
    + intros (-> & Hx & nx & Hnx & Hc). apply IH in Hc as (Hc & Hn & Hm).
      split_and!; try done. by exists nx.
    + intros ((-> & Hx & nx & Hnx & Hc) & Hn & Hm). split; [done|]. split; [done|]. exists nx.
      split; [done|]. by apply IH.
Qed.

Lemma queue_is_empty s q ns : queue_at s q ns → is_empty q s = Some (bool_decide (ns = [])).
Proof.
  intros [Hn _ Hq Hc]. unfold is_empty. rewrite (proj2 (Z.eqb_neq _ _)) by done. rewrite Hq. simpl.
  destruct ns as [|[n e] ns]; simpl in *; [done|].
  destruct Hc as (_ & Hne & _). by rewrite (proj2 (Z.eqb_neq _ _)).
Qed.

Lemma enqueue_spec s q ns elem a h :
  queue_at s q ns → pa_alloc (q_alloc s) sizeof_node = Some (a, h) → a ≠ NULL → a ∉ ns.*1 →
  ∃ s', enqueue q elem s = Some s' ∧ queue_at s' q (ns ++ [(a, elem)]) ∧ q_alloc s' = h.
Proof.
  intros [Hn Hnd Hq Hc] Ha Hnull Hfresh. unfold enqueue, q_allocPage.
  rewrite (proj2 (Z.eqb_neq _ _)) by done. rewrite Ha. cbn [mbind option_bind q_queues set_node].
  rewrite Hq. cbn [mbind option_bind q_first q_last].
  assert (Hnd' : NoDup (ns ++ [(a, elem)]).*1).
  { rewrite fmap_app. apply list.NoDup_app. split; [done|]. split; [|apply NoDup_singleton].
    intros x Hx ->%list_elem_of_singleton. by apply Hfresh. }
  destruct ns as [|[n e] ns _] using rev_ind.
  - simpl. eexists. split; [done|]. split; [|done]. split; simpl; try done.
    + by rewrite lookup_insert_eq.
    + split; [done|]. split; [done|]. exists NULL. by rewrite lookup_insert_eq.
  - rewrite last_snoc. change (default NULL (fst <$> Some (n, e))) with n.
    assert (Hhead : default NULL (fst <$> head (ns ++ [(n, e)])) =? NULL = false).
    { apply Z.eqb_neq. destruct ns as [|[x y] ns]; simpl in *; by destruct Hc as (_ & ? & _). }
    rewrite Hhead. apply nodes_chain_snoc in Hc as (Hc & Hne & Hlast).
    assert (Hna : n ≠ a) by (intros ->; apply Hfresh; rewrite fmap_app, elem_of_app; right; by left).
    cbn [q_nodes set_node]. rewrite lookup_insert_ne by congruence. rewrite Hlast.
    cbn [mbind option_bind]. eexists. split; [done|]. split; [|done]. split; simpl; try done.
    + rewrite lookup_insert_eq, last_snoc. by destruct ns as [|[]].
    + apply nodes_chain_snoc. split; [|split; [done|rewrite lookup_insert_ne by done; by rewrite lookup_insert_eq]].
      replace (head ((ns ++ [(n, e)]) ++ [(a, elem)])) with (head (ns ++ [(n, e)])) by (by destruct ns).
      apply nodes_chain_snoc. split; [|split; [done|by rewrite lookup_insert_eq]].
      rewrite fmap_app in Hnd, Hfresh. apply list.NoDup_app in Hnd as (_ & Hout & _).
      eapply nodes_chain_frame; [|exact Hc]. intros x Hx.
      rewrite !lookup_insert_ne; [done|intros ->|intros ->].
      * apply Hfresh, elem_of_app. by left.
      * apply (Hout _ Hx). by left.
Qed.

Lemma dequeue_spec s q n e ns :
  frees_ok → queue_at s q ((n, e) :: ns) →
  ∃ s', dequeue q s = Some (e, s') ∧ queue_at s' q ns ∧ q_nodes s' = q_nodes s.
Proof.
  intros Hfree Hat. pose proof (queue_is_empty _ _ _ Hat) as Hem. destruct Hat as [Hn Hnd Hq Hc].
  unfold dequeue. rewrite Hem. cbn [mbind option_bind]. rewrite bool_decide_false by done.
  rewrite Hq. change (default NULL (fst <$> head ((n, e) :: ns))) with n.
  cbn [mbind option_bind q_first q_last]. simpl in Hc. destruct Hc as (_ & Hne & nx & Hnx & Hc). rewrite Hnx.
  cbn [mbind option_bind n_elem n_next q_first q_last].
  unfold q_deallocPage. cbn [q_alloc set_queue]. destruct (Hfree (q_alloc s) n) as [[r h] ->].
  cbn [mbind option_bind]. eexists. split; [done|]. split; [|done].
  apply list.NoDup_cons in Hnd as [_ Hnd]. 
  assert (Hhead : nx = default NULL (fst <$> head ns)).
  { destruct ns as [|[x y] ns]; simpl in *; [done|]. by destruct Hc as (-> & _). }
  split; simpl; try done; [|by rewrite <-Hhead].
  rewrite lookup_insert_eq. f_equal. destruct ns as [|[x y] ns].
  - simpl in *. subst nx. done.
  - simpl in Hc, Hhead. destruct Hc as (_ & Hx & _). subst nx. simpl.
    rewrite (proj2 (Z.eqb_neq _ _)) by done. done.
Qed.

(** The other queues are not touched. *)
Lemma enqueue_frame q e s s' q' : enqueue q e s = Some s' → q' ≠ q → q_queues s' !! q' = q_queues s !! q'.
Proof.
  unfold enqueue, q_allocPage. intros Hs Hne. destruct (q =? NULL); [by injection Hs as <-|].
  destruct (pa_alloc _ _) as [[a h]|]; [|done]. simpl in Hs. destruct (q_queues s !! q) as [qu|]; [|done]. simpl in Hs.
  destruct (q_first qu =? NULL); [injection Hs as <-; by apply lookup_insert_ne|].
  destruct (<[a:=_]> (q_nodes s) !! q_last qu) as [la|]; [|done]. injection Hs as <-. by apply lookup_insert_ne.
Qed.

Lemma dequeue_frame q e s s' q' : dequeue q s = Some (e, s') → q' ≠ q → q_queues s' !! q' = q_queues s !! q'.
Proof.
  unfold dequeue, q_deallocPage. intros Hs Hne. destruct (is_empty q s) as [[|]|]; [by injection Hs as _ <-| |done].
  simpl in Hs. destruct (q_queues s !! q) as [qu|]; [|done]. simpl in Hs. destruct (q_nodes s !! q_first qu) as [fn|]; [|done].
  simpl in Hs. destruct (pa_free _ _) as [[r h]|]; [|done]. injection Hs as _ <-. by apply lookup_insert_ne.
Qed.

Lemma destroy_loop_spec s q ns fuel :
  frees_ok → queue_at s q ns → (length ns ≤ fuel)%nat →
  ∃ s', destroy_loop fuel q s = Some s' ∧ queue_at s' q [].
Proof.
  intros Hfree. revert s ns. induction fuel as [|fuel IH]; intros s ns Hat Hf; cbn [destroy_loop];
    rewrite (queue_is_empty _ _ _ Hat); cbn [mbind option_bind].
  - destruct ns; [|simpl in Hf; lia]. by exists s.
  - destruct ns as [|[n e] ns]; [by exists s|]. rewrite bool_decide_false by done.
    destruct (dequeue_spec _ _ _ _ _ Hfree Hat) as (s' & -> & Hat' & _). cbn [mbind option_bind].
    apply (IH s' ns Hat'). simpl in Hf. lia.
Qed.
End queue.
Arguments QState : clear implicits.

(** ** First in, first out *)

Section fifo.
Context {H : Type} `{PageAllocatorLaws H}.
Implicit Types s : QState H.

Fixpoint enqueue_all (q : Z) (xs : list Z) s : option (QState H) :=
  match xs with [] => Some s | x :: xs' => s ← enqueue q x s; enqueue_all q xs' s end.

Fixpoint dequeue_all (n : nat) (q : Z) s : option (list Z * QState H) :=
  match n with
  | O => Some ([], s)
  | S n' => '(x, s) ← dequeue q s; '(xs, s) ← dequeue_all n' q s; Some (x :: xs, s)
  end.

Lemma enqueue_all_spec s q ns xs ps h :
  queue_at s q ns → alloc_seq (q_alloc s) (replicate (length xs) sizeof_node) = Some (ps, h) →
  NULL ∉ ps → NoDup ps → (∀ p, p ∈ ps → p ∉ ns.*1) →
  ∃ s', enqueue_all q xs s = Some s' ∧ queue_at s' q (ns ++ zip ps xs) ∧ length ps = length xs.
Proof.
  revert s ns ps. induction xs as [|x xs IH]; intros s ns ps Hat Hseq Hnull Hnd Hout; simpl in Hseq.
  { injection Hseq as <- <-. exists s. rewrite app_nil_r. done. }
  destruct (pa_alloc (q_alloc s) sizeof_node) as [[a h1]|] eqn:Ha; [|done]. simpl in Hseq.
  destruct (alloc_seq h1 _) as [[ps' h2]|] eqn:Hseq'; [|done]. simpl in Hseq. injection Hseq as <- <-.
  apply not_elem_of_cons in Hnull as [Hna Hnull]. apply list.NoDup_cons in Hnd as [Haps Hnd].
  destruct (enqueue_spec s q ns x a h1 Hat Ha) as (s1 & Hs1 & Hat1 & Hal1); [done|apply Hout; by left|].
  simpl. rewrite Hs1. simpl. rewrite <-Hal1 in Hseq'.
  destruct (IH s1 _ ps' Hat1 Hseq' Hnull Hnd) as (s' & Hs' & Hat' & Hlen).
  - intros p Hp. rewrite fmap_app, not_elem_of_app. split; [apply Hout; by right|].
    intros ->%list_elem_of_singleton. done.
  - exists s'. split; [done|]. rewrite <-app_assoc in Hat'. split; [done|]. simpl. by rewrite Hlen.
Qed.

Lemma dequeue_all_spec s q ns :
  frees_ok (H := H) → queue_at s q ns →
  ∃ s', dequeue_all (length ns) q s = Some (ns.*2, s') ∧ queue_at s' q [].
Proof.
  intros Hfree. revert s. induction ns as [|[n e] ns IH]; intros s Hat; [by exists s|].
  destruct (dequeue_spec _ _ _ _ _ Hfree Hat) as (s1 & Hd & Hat1 & _).
  destruct (IH s1 Hat1) as (s' & Hs' & Hat'). exists s'. simpl. rewrite Hd. simpl. rewrite Hs'. done.
Qed.

(** A queue is first in, first out: unless a page was missing, what is put into an
    empty queue comes out complete and in the same order, and the queue is empty again. *)
Theorem queue_fifo s q xs L :
  frees_ok (H := H) → queue_at s q [] → pa_inv (q_alloc s) L →
  ∃ ps h, alloc_seq (q_alloc s) (replicate (length xs) sizeof_node) = Some (ps, h) ∧
    (NULL ∈ ps ∨ ∃ s1 s2, enqueue_all q xs s = Some s1 ∧
       peek q s1 = Some (default NULL (head xs)) ∧
       dequeue_all (length xs) q s1 = Some (xs, s2) ∧ queue_at s2 q []).
Proof.
  intros Hfree Hat Hinv.
  destruct (alloc_seq_spec (q_alloc s) L (replicate (length xs) sizeof_node) Hinv)
    as (ps & h & Hseq & Hps).
  { intros n Hn. apply elem_of_replicate in Hn as [-> _]. by vm_compute. }
  exists ps, h. split; [done|]. destruct (decide (NULL ∈ ps)) as [Hnull|Hnull]; [by left|]. right.
  destruct Hps as [|(L' & _ & _ & Hnd & _)]; [done|].
  destruct (enqueue_all_spec s q [] xs ps h Hat Hseq Hnull Hnd) as (s1 & Hs1 & Hat1 & Hlen).
  { intros p _. apply not_elem_of_nil. }
  destruct (dequeue_all_spec s1 q _ Hfree Hat1) as (s2 & Hs2 & Hat2). exists s1, s2.
  rewrite app_nil_l in Hs2. rewrite length_zip, Hlen, Nat.min_id in Hs2.
  rewrite snd_zip in Hs2 by lia. split; [done|]. split; [|done].
  unfold peek. rewrite (queue_is_empty _ _ _ Hat1). cbn [mbind option_bind].
  destruct ps as [|p ps], xs as [|x xs]; simpl in Hlen; try done.
  rewrite bool_decide_false by done. rewrite (qa_queue _ _ _ Hat1).
  pose proof (qa_chain _ _ _ Hat1) as Hc. simpl in *. destruct Hc as (_ & _ & nx & -> & _). done.
Qed.

(** [destroy_queue] empties the queue and gives back its page, however long it is. *)
Theorem destroy_queue_correct s q ns fuel :
  frees_ok (H := H) → queue_at s q ns → (length ns ≤ fuel)%nat →
  ∃ s1 s2 r, destroy_loop fuel q s = Some s1 ∧ queue_at s1 q [] ∧
    destroy_queue fuel q s = Some s2 ∧ pa_free (q_alloc s1) q = Some (r, q_alloc s2).
Proof.
  intros Hfree Hat Hf. destruct (destroy_loop_spec s q ns fuel Hfree Hat Hf) as (s1 & Hs1 & Hat1).
  destruct (Hfree (q_alloc s1) q) as [[r h] Hh].
  eexists s1, _, r. split; [done|]. split; [done|]. unfold destroy_queue. rewrite Hs1.
  cbn [mbind option_bind]. unfold q_deallocPage. rewrite Hh. done.
Qed.
End fifo.

(** ** Witnesses *)

Lemma bump_frees : frees_ok (H := Z).
Proof. intros h a. by eexists. Qed.

(** An empty queue at 4096. *)
Definition empty_demo : QState Z := mkQS 8192 {[ 4096 := mkQueue NULL NULL ]} ∅.

Lemma empty_demo_at : queue_at empty_demo 4096 [].
Proof. split; [done|constructor|done|done]. Qed.

Lemma queue_fifo_witness :
  ∃ s1 s2, enqueue_all 4096 [7; 8; 9] empty_demo = Some s1 ∧
    dequeue_all 3 4096 s1 = Some ([7; 8; 9], s2).
Proof.
  destruct (queue_fifo empty_demo 4096 [7; 8; 9] [] bump_frees empty_demo_at) as (ps & h & Hps & Hr).
  { split; [by vm_compute|]. intros q t Hqt. by apply elem_of_nil in Hqt. }
  destruct Hr as [Hn|(s1 & s2 & H1 & _ & H2 & _)]; [|by exists s1, s2].
  exfalso. injection Hps as <- _. rewrite !elem_of_cons in Hn.
  unfold NULL, sizeof_node, PAGE_SIZE in Hn. destruct Hn as [?|[?|[?|Hn]]]; [lia..|by apply elem_of_nil in Hn].
Defined.

Lemma destroy_queue_correct_witness :
  ∃ s1 s2 r, destroy_loop 1 4096 empty_demo = Some s1 ∧ queue_at s1 4096 [] ∧
    destroy_queue 1 4096 empty_demo = Some s2 ∧ pa_free (q_alloc s1) 4096 = Some (r, q_alloc s2).
Proof.
  apply (destroy_queue_correct empty_demo 4096 [] 1 bump_frees empty_demo_at). simpl. lia.
Defined.
