(* ===== verification/LockSystem.v ===== *)
(** * Locks: an interface and what it gives to many processes

    [Lock] is the interface of a blocking lock: a call that returns or yields, a release,
    and the abstract state behind them (held or not, and who waits).  Whoever meets the
    laws gets mutual exclusion and freedom from lost wake-ups for any number of processes
    under any interleaving: [lock_step] is the transition system, the theorems below are
    invariants of its reachable states.  A call whose behaviour is undefined is a step as
    well, after which everything may happen: the theorems say when that can be.  Both
    kinds of mutex of the kernel are instances. *)

From S2P Require Import Prelude KMonad Structs.

Class Lock (S : Type) := {
  lk_call : M S unit;
  lk_free : S → option S;
  lk_pid : S → option Z;
  lk_procs : S → Z → option processState;
  (** the state is well-formed *)
  lk_ok : S → Prop;
  (** the pids that wait, and whether the lock is held *)
  lk_at : S → list Z → bool → Prop;
  (** there are the resources to wait *)
  lk_room : S → Prop;
  (** with these waiters the call of one more is undefined *)
  lk_full : list Z → Prop;
}.

Definition procs_but {S} `{Lock S} (p : Z) (s s' : S) : Prop :=
  ∀ q, q ≠ p → lk_procs s' q = lk_procs s q.

Class LockLaws (S : Type) `{Lock S} := {
  lk_call_free s : lk_ok s → lk_at s [] false → lk_room s →
    ∃ s', lk_call s = Done tt s' ∧ lk_ok s' ∧ lk_at s' [] true ∧
      ∀ q, lk_procs s' q = lk_procs s q;
  lk_call_held s ws p : lk_ok s → lk_at s ws true → lk_pid s = Some p → p ≠ -1 → p ∉ ws →
    lk_room s →
    (lk_call s = Fault ∧ lk_full ws) ∨
    ∃ s' l1 l2, lk_call s = Yield s' (Done tt) ∧ lk_ok s' ∧ ws = l1 ++ l2 ∧
      lk_at s' (l1 ++ p :: l2) true ∧ procs_but p s s' ∧ lk_procs s' p = Some BLOCKED;
  lk_free_nobody s : lk_ok s → lk_at s [] true →
    ∃ s', lk_free s = Some s' ∧ lk_ok s' ∧ lk_at s' [] false ∧
      ∀ q, lk_procs s' q = lk_procs s q;
  lk_free_handover s p ws : lk_ok s → lk_at s (p :: ws) true → lk_procs s p = Some BLOCKED →
    ∃ s', lk_free s = Some s' ∧ lk_ok s' ∧ lk_at s' ws true ∧ procs_but p s s' ∧
      lk_procs s' p = Some READY;
  lk_held s ws : lk_at s ws false → ws = [];
}.

Section lock_system.
Context {S : Type} `{LockLaws S}.
Implicit Types s : S.

(** Where a process stands; one that waits keeps the continuation it yielded with, one
    that is [Undefined] made a call whose behaviour is not defined. *)
Inductive phase :=
| Idle
| Waiting (k : S → res S unit)
| Critical
| Undefined.

Definition config : Type := S * (Z → phase).
Implicit Types ph : Z → phase.

Definition at_phase (p : Z) (v : phase) ph : Z → phase := λ q, if decide (q = p) then v else ph q.
Definition is_waiting ph (q : Z) : Prop := ∃ k, ph q = Waiting k.
Definition is_blocked s (q : Z) : Prop := lk_procs s q = Some BLOCKED.

(** The current process calls the lock, frees it, or returns from the [_yield] of its
    call; everything else in the kernel may change the state, but not this lock, and may
    not block or wake those who wait for it.  After an undefined call anything happens. *)
Inductive lock_step : config → config → Prop :=
| step_acquire p s s' ph :
    lk_pid s = Some p → p ≠ -1 → ph p = Idle → lk_room s → lk_call s = Done tt s' →
    lock_step (s, ph) (s', at_phase p Critical ph)
| step_block p s s' k ph :
    lk_pid s = Some p → p ≠ -1 → ph p = Idle → lk_room s → lk_call s = Yield s' k →
    lock_step (s, ph) (s', at_phase p (Waiting k) ph)
| step_resume p s s' k ph :
    lk_pid s = Some p → p ≠ -1 → ph p = Waiting k → ¬ is_blocked s p → k s = Done tt s' →
    lock_step (s, ph) (s', at_phase p Critical ph)
| step_free p s s' ph :
    lk_pid s = Some p → p ≠ -1 → ph p = Critical → lk_free s = Some s' →
    lock_step (s, ph) (s', at_phase p Idle ph)
| step_rest s s' ph :
    (∀ ws b, lk_at s ws b → lk_at s' ws b) → lk_ok s' →
    (∀ q, is_waiting ph q → is_blocked s' q ↔ is_blocked s q) →
    lock_step (s, ph) (s', ph)
| step_undefined p s ph :
    lk_pid s = Some p → p ≠ -1 → ph p = Idle → lk_room s → lk_call s = Fault →
    lock_step (s, ph) (s, at_phase p Undefined ph)
| step_anything p s s' ph ph' :
    ph p = Undefined → ph' p = Undefined → lock_step (s, ph) (s', ph').

(** A process that waits but is not among the waiters was handed the lock. *)
Definition holds (ws : list Z) ph (q : Z) : Prop :=
  ph q = Critical ∨ (is_waiting ph q ∧ q ∉ ws).

Record lock_inv (c : config) (ws : list Z) (h : option Z) : Prop := {
  li_at : lk_at c.1 ws (match h with Some _ => true | None => false end);
  li_ok : lk_ok c.1;
  li_nodup : NoDup ws;
  li_holder : ∀ q, holds ws c.2 q ↔ h = Some q;
  li_waiters : ∀ q, q ∈ ws → is_waiting c.2 q ∧ is_blocked c.1 q;
  li_woken : ∀ q, is_waiting c.2 q → q ∉ ws → ¬ is_blocked c.1 q;
  li_cont : ∀ q k, c.2 q = Waiting k → k = Done tt;
  li_defined : ∀ q, c.2 q ≠ Undefined;
}.

(** [p] calls while as many wait as the lock can take, and the call is undefined. *)
Definition overflow (p : Z) (c c' : config) : Prop :=
  lk_pid c.1 = Some p ∧ c.2 p = Idle ∧ lk_call c.1 = Fault ∧ c' = (c.1, at_phase p Undefined c.2) ∧
  ∃ ws, lk_at c.1 ws true ∧ lk_full ws ∧ NoDup ws ∧ ∀ q, q ∈ ws → is_waiting c.2 q ∧ is_blocked c.1 q.

Lemma at_phase_eq p v ph : at_phase p v ph p = v.
Proof. unfold at_phase. by rewrite decide_True. Qed.

Lemma at_phase_ne p q v ph : q ≠ p → at_phase p v ph q = ph q.
Proof. intros Hne. unfold at_phase. by rewrite decide_False. Qed.

Lemma waiting_ne p q v ph : q ≠ p → is_waiting (at_phase p v ph) q ↔ is_waiting ph q.
Proof. intros Hne. unfold is_waiting. by rewrite at_phase_ne. Qed.

Lemma holds_ne ws p q v ph : q ≠ p → holds ws (at_phase p v ph) q ↔ holds ws ph q.
Proof. intros Hne. unfold holds. by rewrite waiting_ne, at_phase_ne. Qed.

(** No continuation changes, except that of [p]. *)
Lemma cont_at p v ph :
  (∀ q k, ph q = Waiting k → k = Done tt) → (∀ k, v = Waiting k → k = Done tt) →
  ∀ q k, at_phase p v ph q = Waiting k → k = Done tt.
Proof.
  intros Hph Hv q k Hq. destruct (decide (q = p)) as [->|Hne].
  - rewrite at_phase_eq in Hq. by apply Hv.
  - rewrite at_phase_ne in Hq by done. by apply (Hph q).
Qed.

Lemma defined_at p v ph : (∀ q, ph q ≠ Undefined) → v ≠ Undefined → ∀ q, at_phase p v ph q ≠ Undefined.
Proof. intros Hph Hv q. unfold at_phase. by case_decide. Qed.

Lemma lock_inv_acquire s s' ph p ws h :
  lock_inv (s, ph) ws h → lk_pid s = Some p → p ≠ -1 → ph p = Idle → lk_room s →
  lk_call s = Done tt s' → lock_inv (s', at_phase p Critical ph) [] (Some p).
Proof.
  intros [Hat Hok Hnd Hh Hw Hwk Hk Hdef] Hcur Hp1 Hidle Hroom Hcall. simpl in *.
  destruct h as [h|].
  { exfalso. assert (Hpw : p ∉ ws) by (intros Hp; destruct (Hw p Hp) as [[k ?] _]; congruence).
    destruct (lk_call_held s ws p Hok Hat Hcur Hp1 Hpw Hroom) as [[E _]|(? & ? & ? & E & _)]; congruence. }
  pose proof (lk_held _ _ Hat) as ->.
  destruct (lk_call_free s Hok Hat Hroom) as (s2 & Hs2 & Hok2 & Hat2 & Hpr). assert (s2 = s') as -> by congruence.
  split; simpl; try done.
  - intros q. destruct (decide (q = p)) as [->|Hne].
    + split; [done|]. intros _. left. by rewrite at_phase_eq.
    + rewrite holds_ne by done. rewrite Hh. split; [done|congruence].
  - intros q Hq. by apply elem_of_nil in Hq.
  - intros q Hq Hn. unfold is_blocked. rewrite Hpr. destruct (decide (q = p)) as [->|Hne].
    + destruct Hq as [k Hq]. by rewrite at_phase_eq in Hq.
    + apply waiting_ne in Hq; [|done]. by apply Hwk.
  - by apply cont_at.
  - by apply defined_at.
Qed.

Lemma lock_inv_block s s' k ph p ws h :
  lock_inv (s, ph) ws h → lk_pid s = Some p → p ≠ -1 → ph p = Idle → lk_room s →
  lk_call s = Yield s' k → ∃ ws', lock_inv (s', at_phase p (Waiting k) ph) ws' h.
Proof.
  intros [Hat Hok Hnd Hh Hw Hwk Hk Hdef] Hcur Hp1 Hidle Hroom Hcall. simpl in *.
  assert (Hpw : p ∉ ws) by (intros Hp; destruct (Hw p Hp) as [[k' ?] _]; congruence).
  destruct h as [h|].
  2: { pose proof (lk_held _ _ Hat) as ->. destruct (lk_call_free s Hok Hat Hroom) as (? & ? & _). congruence. }
  destruct (lk_call_held s ws p Hok Hat Hcur Hp1 Hpw Hroom)
    as [[E _]|(s2 & l1 & l2 & E & Hok2 & -> & Hat2 & Hothers & Hblk)]; [congruence|].
  rewrite E in Hcall. injection Hcall as -> <-. exists (l1 ++ p :: l2).
  assert (Hmem : ∀ q, q ∈ l1 ++ p :: l2 ↔ q = p ∨ q ∈ l1 ++ l2).
  { intros q. rewrite !elem_of_app, elem_of_cons. tauto. }
  split; simpl; try done.
  - rewrite <-Permutation_middle. by apply list.NoDup_cons.
  - intros q. rewrite <-Hh. destruct (decide (q = p)) as [->|Hne].
    + unfold holds. rewrite at_phase_eq, Hidle. split.
      * intros [?|[_ Hn]]; [done|]. destruct Hn. apply Hmem. by left.
      * intros [?|[[k' Hk'] _]]; congruence.
    + rewrite holds_ne by done. unfold holds. rewrite Hmem. tauto.
  - intros q. rewrite Hmem. destruct (decide (q = p)) as [->|Hne].
    + intros _. split; [exists (Done tt); apply at_phase_eq|done].
    + intros [?|Hq]; [done|]. destruct (Hw q Hq) as [H1w H2w].
      rewrite waiting_ne by done. split; [done|]. unfold is_blocked. by rewrite Hothers.
  - intros q Hq. rewrite Hmem. intros Hn. assert (Hne : q ≠ p) by tauto.
    apply waiting_ne in Hq; [|done]. unfold is_blocked. rewrite Hothers by done. apply Hwk; tauto.
  - apply cont_at; [done|]. congruence.
  - by apply defined_at.
Qed.

Lemma lock_inv_resume s s' k ph p ws h :
  lock_inv (s, ph) ws h → ph p = Waiting k → ¬ is_blocked s p → k s = Done tt s' →
  lock_inv (s', at_phase p Critical ph) ws (Some p).
Proof.
  intros [Hat Hok Hnd Hh Hw Hwk Hk Hdef] Hwait Hnb Hks. simpl in *.
  rewrite (Hk p k Hwait) in Hks. injection Hks as <-.
  assert (Hpn : p ∉ ws) by (intros Hp; by apply Hnb, (Hw p Hp)).
  assert (h = Some p) as -> by (apply Hh; right; split; [by exists k|done]).
  split; simpl; try done.
  - intros q. rewrite <-Hh. destruct (decide (q = p)) as [->|Hne].
    + unfold holds. rewrite at_phase_eq. split; [|by left]. intros _. right.
      split; [by exists k|done].
    + by rewrite holds_ne.
  - intros q Hq. assert (Hne : q ≠ p) by congruence. rewrite waiting_ne by done. by apply Hw.
  - intros q Hq Hn. destruct (decide (q = p)) as [->|Hne]; [done|].
    apply Hwk; [by apply waiting_ne in Hq|done].
  - by apply cont_at.
  - by apply defined_at.
Qed.

Lemma lock_inv_free s s' ph p ws h :
  lock_inv (s, ph) ws h → ph p = Critical → lk_free s = Some s' →
  ∃ ws' h', lock_inv (s', at_phase p Idle ph) ws' h'.
Proof.
  intros [Hat Hok Hnd Hh Hw Hwk Hk Hdef] Hcrit Hfree. simpl in *.
  assert (h = Some p) as -> by (apply Hh; by left).
  assert (Hidle : ∀ ws', ¬ holds ws' (at_phase p Idle ph) p).
  { intros ws' [Hp|[[k Hp] _]]; by rewrite at_phase_eq in Hp. }
  assert (Hpw : p ∉ ws) by (intros Hp; destruct (Hw p Hp) as [[k' ?] _]; congruence).
  assert (Hout : ∀ q, q ≠ p → ¬ holds ws ph q) by (intros q Hne Hq%Hh; congruence).
  destruct ws as [|v ws].
  - destruct (lk_free_nobody s Hok Hat) as (s2 & Hs2 & Hok2 & Hat2 & Hpr).
    assert (s2 = s') as -> by congruence. exists [], None. split; simpl; try done.
    + intros q. split; [|done]. intros Hq. exfalso.
      destruct (decide (q = p)) as [->|Hne]; [by apply (Hidle [])|].
      apply (Hout q Hne). by apply holds_ne in Hq.
    + intros q Hq. by apply elem_of_nil in Hq.
    + intros q Hq Hn. unfold is_blocked. rewrite Hpr. destruct (decide (q = p)) as [->|Hne].
      * destruct Hq as [k Hq]. by rewrite at_phase_eq in Hq.
      * apply waiting_ne in Hq; [|done]. by apply Hwk.
    + by apply cont_at.
    + by apply defined_at.
  - destruct (Hw v) as [Hvw Hvb]; [by left|].
    destruct (lk_free_handover s v ws Hok Hat Hvb) as (s2 & Hs2 & Hok2 & Hat2 & Hothers & Hvr).
    assert (s2 = s') as -> by congruence. exists ws, (Some v).
    apply list.NoDup_cons in Hnd as [Hvl Hnd]. apply not_elem_of_cons in Hpw as [Hpv Hpl].
    split; simpl; try done.
    + intros q. destruct (decide (q = p)) as [->|Hne].
      { split; [intros Hq; by apply Hidle in Hq|]. congruence. }
      rewrite holds_ne by done. split.
      * intros [Hq|[Hq Hn]]; [by destruct (Hout q Hne); left|].
        destruct (decide (q = v)) as [->|Hqv]; [done|]. destruct (Hout q Hne). right.
        split; [done|]. by apply not_elem_of_cons.
      * intros [= ->]. right. done.
    + intros q Hq. assert (Hqv : q ≠ v) by congruence. assert (Hqp : q ≠ p) by congruence.
      destruct (Hw q) as [H1w H2w]; [by right|].
      rewrite waiting_ne by done. split; [done|]. unfold is_blocked. by rewrite Hothers.
    + intros q Hq Hn. destruct (decide (q = p)) as [->|Hne].
      { destruct Hq as [k Hq]. by rewrite at_phase_eq in Hq. }
      apply waiting_ne in Hq; [|done]. unfold is_blocked.
      destruct (decide (q = v)) as [->|Hqv]; [by rewrite Hvr|].
      rewrite Hothers by done. apply Hwk; [done|by apply not_elem_of_cons].
    + by apply cont_at.
    + by apply defined_at.
Qed.

(** A call is undefined only when the lock is full. *)
Lemma lock_inv_fault s ph p ws h :
  lock_inv (s, ph) ws h → lk_pid s = Some p → p ≠ -1 → ph p = Idle → lk_room s → lk_call s = Fault →
  overflow p (s, ph) (s, at_phase p Undefined ph).
Proof.
  intros [Hat Hok Hnd Hh Hw Hwk Hk Hdef] Hcur Hp1 Hidle Hroom Hcall. simpl in *.
  assert (Hpw : p ∉ ws) by (intros Hp; destruct (Hw p Hp) as [[k' ?] _]; congruence).
  destruct h as [h|].
  - destruct (lk_call_held s ws p Hok Hat Hcur Hp1 Hpw Hroom) as [[_ Hfull]|(? & ? & ? & E & _)]; [|congruence].
    split_and!; [done..|]. by exists ws.
  - pose proof (lk_held _ _ Hat) as ->. destruct (lk_call_free s Hok Hat Hroom) as (? & ? & _). congruence.
Qed.

Lemma lock_inv_step c c' :
  lock_step c c' → (∃ ws h, lock_inv c ws h) → (∃ ws h, lock_inv c' ws h) ∨ ∃ p, overflow p c c'.
Proof.
  intros Hstep (ws & h & Hinv). inversion Hstep; subst.
  - left. exists [], (Some p). eauto using lock_inv_acquire.
  - left. destruct (lock_inv_block s s' k ph p ws h) as [ws' Hi]; eauto.
  - left. eauto using lock_inv_resume.
  - left. eauto using lock_inv_free.
  - left. destruct Hinv as [Hat Hok Hnd Hh Hw Hwk Hk Hdef]. simpl in *. exists ws, h.
    match goal with Hx : ∀ q, is_waiting ph q → _ |- _ => rename Hx into Hbl end.
    split; simpl; try done; eauto.
    + intros q Hq. destruct (Hw q Hq) as [Hq1 Hq2]. split; [done|]. by apply Hbl.
    + intros q Hq Hn. rewrite Hbl by done. by apply Hwk.
  - right. exists p. by eapply lock_inv_fault.
  - by destruct (li_defined _ _ _ Hinv p).
Qed.

(** What is undefined stays so. *)
Lemma undefined_at p q v ph : ph p = Undefined → ph q ≠ Undefined → at_phase q v ph p = Undefined.
Proof. intros Hp Hq. rewrite at_phase_ne; [done|]. by intros ->. Qed.

Lemma undefined_step c c' : lock_step c c' → (∃ p, c.2 p = Undefined) → ∃ p, c'.2 p = Undefined.
Proof.
  intros Hstep [q Hq]. inversion Hstep as [| | | | | |p s s' ph ph' Hp Hp']; subst; simpl in *;
    [exists q; apply undefined_at; [done|congruence]..|by exists q|exists q; apply undefined_at; [done|congruence]|by exists p].
Qed.

(** Nobody has called yet and the lock is free. *)
Definition lock_start (c : config) : Prop :=
  lk_ok c.1 ∧ lk_at c.1 [] false ∧ ∀ q, c.2 q = Idle.

(** Every run keeps the invariant, but for one in which a call overflowed the lock. *)
Definition overflowed (c c' : config) : Prop :=
  (∃ p, c'.2 p = Undefined) ∧ ∃ p c1 c2, rtc lock_step c c1 ∧ overflow p c1 c2 ∧ rtc lock_step c2 c'.

Lemma lock_reachable c c' : lock_start c → rtc lock_step c c' → (∃ ws h, lock_inv c' ws h) ∨ overflowed c c'.
Proof.
  intros (Hok & Hat & Hph). revert c'. refine (rtc_ind_r _ c _ _).
  - left. exists [], None. split; try done.
    + constructor.
    + intros q. split; [|done]. intros [Hq|[[k Hq] _]]; rewrite Hph in Hq; done.
    + intros q Hq. by apply elem_of_nil in Hq.
    + intros q [k Hq]. by rewrite Hph in Hq.
    + intros q k Hq. by rewrite Hph in Hq.
    + intros q. by rewrite Hph.
  - intros c1 c2 Hr Hstep [Hinv|[Hund Hover]].
    + destruct (lock_inv_step _ _ Hstep Hinv) as [?|[p Hp]]; [by left|right]. pose proof Hp as (_ & _ & _ & -> & _).
      split; [exists p; apply at_phase_eq|]. by eexists p, c1, _.
    + right. destruct Hover as (p & c3 & c4 & H1 & H2 & H3). split; [by eapply undefined_step|].
      exists p, c3, c4. split; [done|]. split; [done|]. by eapply rtc_r.
Qed.

(** No call was undefined: what is undefined stays so. *)
Definition defined (c : config) : Prop := ∀ q, c.2 q ≠ Undefined.

Lemma lock_defined c c' : lock_start c → rtc lock_step c c' → defined c' → ∃ ws h, lock_inv c' ws h.
Proof. intros Hs Hr Hd. destruct (lock_reachable _ _ Hs Hr) as [?|[[p Hp] _]]; [done|]. by destruct (Hd p). Qed.

Lemma lock_undefined c c' p : lock_start c → rtc lock_step c c' → c'.2 p = Undefined → overflowed c c'.
Proof. intros Hs Hr Hp. destruct (lock_reachable _ _ Hs Hr) as [(ws & h & Hinv)|?]; [|done]. by destruct (li_defined _ _ _ Hinv p). Qed.

Lemma lock_exclusion c c' p q :
  lock_start c → rtc lock_step c c' → defined c' → c'.2 p = Critical → c'.2 q = Critical → p = q.
Proof.
  intros Hs Hr Hd Hp Hq. destruct (lock_defined _ _ Hs Hr Hd) as (ws & h & Hinv).
  assert (h = Some p) as -> by (apply (li_holder _ _ _ Hinv); by left).
  assert (Some p = Some q) by (apply (li_holder _ _ _ Hinv); by left). congruence.
Qed.

(** One process has the lock or was handed it; all others wait in the queue or have nothing to do with it. *)
Lemma lock_no_lost_wakeup c c' p :
  lock_start c → rtc lock_step c c' → defined c' → is_waiting c'.2 p →
  ∃ h ws, lk_at c'.1 ws true ∧
    (c'.2 h = Critical ∨ (is_waiting c'.2 h ∧ ¬ is_blocked c'.1 h)) ∧
    (∀ q, q ≠ h → c'.2 q ≠ Critical) ∧
    (∀ q, is_waiting c'.2 q → q ≠ h → is_blocked c'.1 q ∧ q ∈ ws).
Proof.
  intros Hs Hr Hd Hp. destruct (lock_defined _ _ Hs Hr Hd) as (ws & h & Hinv).
  destruct Hinv as [Hat Hok Hnd Hh Hw Hwk Hk Hdef].
  assert (Hsome : ∃ x, h = Some x).
  { destruct h as [x|]; [by exists x|]. pose proof (lk_held _ _ Hat) as ->.
    exists p. apply Hh. right. split; [done|apply not_elem_of_nil]. }
  destruct Hsome as [x ->]. exists x, ws. split; [done|]. split; [|split].
  - destruct (proj2 (Hh x) eq_refl) as [?|[? ?]]; [by left|]. right. split; [done|]. by apply Hwk.
  - intros q Hne Hq. assert (Some x = Some q); [|congruence]. apply Hh. by left.
  - intros q Hq Hne. destruct (decide (q ∈ ws)) as [Hin|Hin]; [split; [by apply Hw|done]|].
    assert (Some x = Some q); [|congruence]. apply Hh. right. done.
Qed.
End lock_system.
Arguments phase : clear implicits.
Arguments config : clear implicits.
