(* ===== verification/KMutex.v ===== *)
(** * Mutexes with a queue of processes ([Kernel/mutex.c], lines 1 to 191)

    The interface [mutex_open] / [mutex_close] / [mutex_lock] / [mutex_unlock]: a table of
    128 named mutexes, each with a [queue.c] queue of the processes that wait.  A spin lock
    guards the table, the [superlock] flag asks the timer not to switch processes. *)

From S2P Require Import Prelude KMonad CString Structs World Queue LockSystem.

Definition MAX_MUTEXES : Z := 128.
Definition MUTEX_NAME_LEN : Z := 64.
Definition OPEN : Z := 1.
Definition CLOSED : Z := 0.
Definition LOCKED : Z := 0.
Definition UNLOCKED : Z := 1.
Definition NOT_OPEN_ERROR : Z := -1.
Definition MAX_MUTEX_OPEN_ERROR : Z := -2.

(** [name] holds the bytes of the array [char name[64]] that were written. *)
Record mutex_type := mkMutex {
  name : list Z;
  locked : Z;
  state : Z;
  process_queue : Z;
}.

Definition set_locked (v : Z) (m : mutex_type) : mutex_type :=
  mkMutex (name m) v (state m) (process_queue m).
Definition set_state (v : Z) (m : mutex_type) : mutex_type :=
  mkMutex (name m) (locked m) v (process_queue m).

(** A statically allocated entry is all zeros. *)
Definition mutex_bss : mutex_type := mkMutex [] 0 0 NULL.

Section kmutex.
Context {W H : Type} `{WorldProc W, PageAllocator H}.

Record KMutexState := mkKM {
  open_mutexes : list mutex_type;
  array_mutex : Z;
  superlock : Z;
  km_queues : QState H;
  km_world : W;
}.
Implicit Types s : KMutexState.

Definition set_mutexes l s : KMutexState :=
  mkKM l (array_mutex s) (superlock s) (km_queues s) (km_world s).
Definition set_array_mutex v s : KMutexState :=
  mkKM (open_mutexes s) v (superlock s) (km_queues s) (km_world s).
Definition set_superlock_to v s : KMutexState :=
  mkKM (open_mutexes s) (array_mutex s) v (km_queues s) (km_world s).
Definition set_queues q s : KMutexState :=
  mkKM (open_mutexes s) (array_mutex s) (superlock s) q (km_world s).
Definition set_world w s : KMutexState :=
  mkKM (open_mutexes s) (array_mutex s) (superlock s) (km_queues s) w.

Definition upd_mutex (key : Z) (f : mutex_type → mutex_type) s : option KMutexState :=
  m ← aget (open_mutexes s) key; Some (set_mutexes (aput (open_mutexes s) key (f m)) s).

(** The calls into [queue.c] and [scheduler.c]. *)
Definition on_queues {A} (f : QState H → option (A * QState H)) : M KMutexState A :=
  calls (λ s, '(a, q) ← f (km_queues s); Some (a, set_queues q s)).
Definition change_state (pid : Z) (st : processState) : M KMutexState unit :=
  modifyO (λ s, w ← w_changeState pid st (km_world s); Some (set_world w s)).

(** The exchange of [asm/lock.asm]: what was in the word, which is now 0. *)
Definition _unlocked (locknum : Z) : Z * Z := (locknum, 0).

Definition set_superlock : M KMutexState unit := modify (set_superlock_to LOCKED).
Definition unset_superlock : M KMutexState unit := modify (set_superlock_to UNLOCKED).

(** [while (!_unlocked(&array_mutex)) _yield();]; [fuel] bounds the turns lost. *)
Fixpoint lock_array (fuel : nat) : M KMutexState unit := λ s,
  let (v, w) := _unlocked (array_mutex s) in
  if v =? 0
  then match fuel with
       | O => Fault
       | S fuel' => (_yield ≫= λ _, lock_array fuel') (set_array_mutex w s)
       end
  else Done tt (set_array_mutex w s).

Definition unlock_array : M KMutexState unit := modify (set_array_mutex UNLOCKED).

Definition create_new_mutex (nm : Z) : M KMutexState mutex_type :=
  n ← asksO (λ s, strcpy_array (Z.to_nat MUTEX_NAME_LEN) (w_memory (km_world s)) nm);
  q ← on_queues create_queue;
  mret (mkMutex n UNLOCKED OPEN q).

Definition queue_process (q p : Z) : M KMutexState unit :=
  modifyO (λ s, qs ← enqueue q p (km_queues s); Some (set_queues qs s)).
Definition dequeue_process (q : Z) : M KMutexState Z := on_queues (dequeue q).

Definition is_open (key : Z) s : bool :=
  (0 <=? key) && (key <? MAX_MUTEXES) &&
  match aget (open_mutexes s) key with Some m => state m =? OPEN | None => false end.

(** [for (k = 0; k < MAX_MUTEXES && is_open(k); k++) if (strcmp(..) == 0) ..]: [k] at the
    end, and whether the name was found there. *)
Fixpoint mutex_open_loop (n : nat) (k nm : Z) s : option (bool * Z) :=
  match n with
  | O => Some (false, k)
  | S n' =>
      if is_open k s then
        m ← aget (open_mutexes s) k;
        c ← strcmp2 (Z.to_nat MUTEX_NAME_LEN) (w_memory (km_world s)) nm (array_mem (name m)) 0;
        if c =? 0 then Some (true, k) else mutex_open_loop n' (k + 1) nm s
      else Some (false, k)
  end.

Definition mutex_open (fuel : nat) (nm : Z) : M KMutexState Z :=
  _ ← lock_array fuel;
  r ← asksO (mutex_open_loop (Z.to_nat MAX_MUTEXES) 0 nm);
  let k := r.2 in
  if r.1 : bool then _ ← unlock_array; mret k
  else if k =? MAX_MUTEXES then _ ← unlock_array; mret MAX_MUTEX_OPEN_ERROR
  else
    m ← create_new_mutex nm;
    _ ← modifyO (upd_mutex k (λ _, m));
    _ ← unlock_array;
    mret k.

(** [while (!is_empty(q)) p = dequeue(q);]: [p] is not initialised before. *)
Fixpoint close_loop (fuel : nat) (q : Z) (p : option Z) : M KMutexState (option Z) :=
  e ← asksO (λ s, is_empty q (km_queues s));
  if (e : bool) then mret p
  else match fuel with
       | O => fault
       | S fuel' => p' ← dequeue_process q; close_loop fuel' q (Some p')
       end.

Definition mutex_close (fuel : nat) (key : Z) : M KMutexState Z :=
  _ ← lock_array fuel;
  o ← asks (is_open key);
  if (o : bool) then
    m ← asksO (λ s, aget (open_mutexes s) key);
    p ← close_loop fuel (process_queue m) None;
    pid ← asksO (λ s, p ≫= w_procPid (km_world s));
    _ ← change_state pid READY;
    _ ← modifyO (upd_mutex key (set_state CLOSED));
    _ ← modifyO (λ s, qs ← destroy_queue fuel (process_queue m) (km_queues s);
                      Some (set_queues qs s));
    _ ← unlock_array;
    mret 1
  else _ ← unlock_array; mret NOT_OPEN_ERROR.

Definition mutex_lock (key : Z) : M KMutexState Z :=
  o ← asks (is_open key);
  if (o : bool) then
    _ ← set_superlock;
    p ← asksO (λ s, w_currentProcess (km_world s));
    m ← asksO (λ s, aget (open_mutexes s) key);
    let (u, v) := _unlocked (locked m) in
    _ ← modifyO (upd_mutex key (set_locked v));
    _ ← (if u =? 0 then
      _ ← queue_process (process_queue m) p;
      pid ← asksO (λ s, w_procPid (km_world s) p);
      _ ← change_state pid BLOCKED;
      _ ← unset_superlock;
      _yield
    else unset_superlock);
    mret 1
  else mret NOT_OPEN_ERROR.

(** [while (p->state == 3) p = dequeue_process(m);], also when [p] is [NULL]. *)
Fixpoint skip_finished (fuel : nat) (q p : Z) : M KMutexState Z :=
  st ← asksO (λ s, w_procState (km_world s) p);
  if st =? 3
  then match fuel with
       | O => fault
       | S fuel' => p' ← dequeue_process q; skip_finished fuel' q p'
       end
  else mret p.

Definition mutex_unlock (fuel : nat) (key : Z) : M KMutexState Z :=
  o ← asks (is_open key);
  if (o : bool) then
    _ ← set_superlock;
    m ← asksO (λ s, aget (open_mutexes s) key);
    p ← dequeue_process (process_queue m);
    p ← skip_finished fuel (process_queue m) p;
    _ ← modifyO (upd_mutex key (set_locked UNLOCKED));
    _ ← when (negb (p =? NULL)) (
      pid ← asksO (λ s, w_procPid (km_world s) p);
      _ ← change_state pid READY;
      modifyO (upd_mutex key (set_locked LOCKED)));
    _ ← unset_superlock;
    mret 1
  else mret NOT_OPEN_ERROR.
End kmutex.
Arguments KMutexState : clear implicits.
