(* ===== verification/KMutexThms.v ===== *)
(** * The mutexes with a queue of processes: theorems

    A mutex of [KMutex] is a [Lock] whose waiters are served in order of arrival. *)

From S2P Require Import Prelude KMonad CString Structs World Toy Queue LockSystem KMutex.

Section kmutex.
Context {W H : Type} `{WorldProcLaws W, PageAllocator H}.
Implicit Types s : KMutexState W H.

(** Mutex [key] is open with the record [m], and the nodes of its queue are [ns]. *)
Record kmutex_at s (key : Z) (m : mutex_type) (ns : list (Z * Z)) : Prop := {
  km_get : aget (open_mutexes s) key = Some m;
  km_key : 0 ≤ key < MAX_MUTEXES;
  km_open : state m = OPEN;
  km_queue : queue_at (km_queues s) (process_queue m) ns;
}.

(** The processes of the pids [ws] are those in the queue. *)
Definition queued s (ns : list (Z * Z)) (ws : list Z) : Prop :=
  Forall2 (w_isProc (km_world s)) ns.*2 ws.

(** What [p->state] reads through a null pointer does not look like a dead process. *)
Definition null_alive s : Prop := ∃ v, w_procState (km_world s) NULL = Some v ∧ v ≠ 3.

Definition km_ok s : Prop := w_ok (km_world s) ∧ null_alive s.

(** A page for one more node. *)
Definition node_room s (key : Z) : Prop :=
  ∀ m ns, kmutex_at s key m ns → ∃ a h,
    pa_alloc (q_alloc (km_queues s)) sizeof_node = Some (a, h) ∧ a ≠ NULL ∧ a ∉ ns.*1.

Lemma is_open_at s key m ns : kmutex_at s key m ns → is_open key s = true.
Proof.
  intros [Hm Hk Ho _]. unfold is_open. rewrite Hm, Ho.
  rewrite (proj2 (Z.leb_le _ _)), (proj2 (Z.ltb_lt _ _)) by lia. done.
Qed.

Lemma is_open_spec s key :
  length (open_mutexes s) = Z.to_nat MAX_MUTEXES →
  is_open key s = true ↔
    0 ≤ key < MAX_MUTEXES ∧ ∃ m, aget (open_mutexes s) key = Some m ∧ state m = OPEN.
Proof.
  intros Hl. unfold is_open. rewrite !andb_true_iff, Z.leb_le, Z.ltb_lt.
  destruct (aget (open_mutexes s) key) as [m|]; [rewrite Z.eqb_eq|]; naive_solver.
Qed.

Lemma queued_change s s' q st ns ws :
  w_ok (km_world s) → w_changeState q st (km_world s) = Some (km_world s') →
  queued s ns ws → queued s' ns ws.
Proof.
  intros Hok Hc. unfold queued. apply Forall2_impl. intros p pid Hp. by eapply w_isProc_change.
Qed.

Lemma km_ok_change s s' q st :
  km_ok s → w_changeState q st (km_world s) = Some (km_world s') → km_ok s'.
Proof.
  intros [Hok (v & Hv & Hne)] Hc.
  destruct (w_change_law _ q st Hok) as (w & Hw & Hok' & _).
  assert (w = km_world s') as -> by congruence. split; [done|]. exists v.
  split; [|done]. by rewrite (w_null_change _ _ _ _ Hok Hc).
Qed.

(** The state after mutex [key] becomes [m], with queues [qs] and world [w]. *)
Definition put_km (key : Z) (m : mutex_type) (qs : QState H) (w : W) s : KMutexState W H :=
  mkKM (aput (open_mutexes s) key m) (array_mutex s) UNLOCKED qs w.

Lemma put_km_at s key m ns m' qs w ns' :
  kmutex_at s key m ns → state m' = OPEN → queue_at qs (process_queue m') ns' →
  kmutex_at (put_km key m' qs w s) key m' ns'.
Proof.
  intros [Hm Hk Ho Hq] Ho' Hq'. split; try done. simpl. apply aget_aput_eq.
  by eapply aget_inv.
Qed.

Lemma aput_aput (l : list mutex_type) i x y : aput (aput l i x) i y = aput l i y.
Proof. unfold aput. by rewrite list_insert_insert_eq. Qed.

Lemma upd_mutex_eq s key m f :
  aget (open_mutexes s) key = Some m →
  upd_mutex key f s = Some (set_mutexes (aput (open_mutexes s) key (f m)) s).
Proof. intros Hm. unfold upd_mutex. by rewrite Hm. Qed.

(** *** [mutex_lock] *)

Lemma mutex_lock_free s key m ns :
  kmutex_at s key m ns → locked m = UNLOCKED → (∃ p, w_currentProcess (km_world s) = Some p) →
  mutex_lock key s = Done 1 (put_km key (set_locked LOCKED m) (km_queues s) (km_world s) s).
Proof.
  intros Hat Hl [p Hp]. unfold mutex_lock. rewrite asks_bind, (is_open_at _ _ _ _ Hat).
  unfold set_superlock. rewrite modify_bind.
  rewrite (asksO_bind _ _ _ p) by done. rewrite (asksO_bind _ _ _ m) by apply Hat.
  cbn [_unlocked]. rewrite Hl. change (UNLOCKED =? 0) with false. cbn iota.
  rewrite (modifyO_bind _ _ _ _ (upd_mutex_eq (set_superlock_to LOCKED s) key m _ (km_get _ _ _ _ Hat))). done.
Qed.

Lemma mutex_lock_held s key m ns p pid a h :
  kmutex_at s key m ns → locked m = LOCKED →
  w_currentProcess (km_world s) = Some p → w_procPid (km_world s) p = Some pid →
  pa_alloc (q_alloc (km_queues s)) sizeof_node = Some (a, h) → a ≠ NULL → a ∉ ns.*1 →
  w_ok (km_world s) →
  ∃ qs w, mutex_lock key s = Yield (put_km key (set_locked LOCKED m) qs w s) (Done 1) ∧
    queue_at qs (process_queue m) (ns ++ [(a, p)]) ∧ w_changeState pid BLOCKED (km_world s) = Some w.
Proof.
  intros Hat Hl Hp Hpid Ha Hnull Hfresh Hok.
  destruct (enqueue_spec _ _ _ p _ _ (km_queue _ _ _ _ Hat) Ha Hnull Hfresh) as (qs & Henq & Hqs & _).
  destruct (w_change_law _ pid BLOCKED Hok) as (w & Hw & _).
  exists qs, w. split; [|done]. unfold mutex_lock. rewrite asks_bind, (is_open_at _ _ _ _ Hat).
  unfold set_superlock. rewrite modify_bind.
  rewrite (asksO_bind _ _ _ p) by done. rewrite (asksO_bind _ _ _ m) by apply Hat.
  cbn [_unlocked]. rewrite Hl. change (LOCKED =? 0) with true. cbn iota.
  rewrite (modifyO_bind _ _ _ _ (upd_mutex_eq (set_superlock_to LOCKED s) key m _ (km_get _ _ _ _ Hat))).
  unfold queue_process, change_state, mbind, M_bind, modifyO, asksO. simpl.
  rewrite Henq. simpl. rewrite Hpid. simpl. rewrite Hw. done.
Qed.

(** *** [mutex_unlock] *)

Context (Hfree : frees_ok (H := H)).

Lemma mutex_unlock_nobody s key m fuel :
  kmutex_at s key m [] → null_alive s →
  mutex_unlock fuel key s = Done 1 (put_km key (set_locked UNLOCKED m) (km_queues s) (km_world s) s).
Proof.
  intros Hat (v & Hv & Hne). unfold mutex_unlock. rewrite asks_bind, (is_open_at _ _ _ _ Hat).
  unfold set_superlock. rewrite modify_bind. rewrite (asksO_bind _ _ _ m) by apply Hat.
  unfold dequeue_process. rewrite (bind_done _ _ _ NULL (set_superlock_to LOCKED s)).
  2: { unfold on_queues, calls, dequeue. simpl. rewrite (queue_is_empty _ _ _ (km_queue _ _ _ _ Hat)). done. }
  rewrite (bind_done _ _ _ NULL (set_superlock_to LOCKED s)).
  2: { destruct fuel; simpl; rewrite (asksO_bind _ _ _ v) by done;
       by rewrite (proj2 (Z.eqb_neq v 3)) by done. }
  rewrite (modifyO_bind _ _ _ _ (upd_mutex_eq (set_superlock_to LOCKED s) key m _ (km_get _ _ _ _ Hat))). done.
Qed.

(** The word of mutex [key], in whose queue [q] nobody waits. *)
Definition lock_word s (key v q : Z) : Prop := ∃ m, kmutex_at s key m [] ∧ locked m = v ∧ process_queue m = q.

(** Taking and releasing a mutex for which nobody waits touches nothing else. *)
Lemma lock_uncontended s key q :
  lock_word s key UNLOCKED q → (∃ p, w_currentProcess (km_world s) = Some p) →
  ∃ s', mutex_lock key s = Done 1 s' ∧ lock_word s' key LOCKED q ∧
    km_world s' = km_world s ∧ km_queues s' = km_queues s ∧ array_mutex s' = array_mutex s ∧
    ∀ j, 0 ≤ j → j ≠ key → aget (open_mutexes s') j = aget (open_mutexes s) j.
Proof.
  intros (m & Hat & Hl & Hmq) Hp. rewrite (mutex_lock_free s key m [] Hat Hl Hp). eexists. split; [done|].
  split; [|split; [done|split; [done|split; [done|]]]].
  - exists (set_locked LOCKED m). split; [|done]. eapply put_km_at; [done|apply Hat|apply Hat].
  - intros j Hj Hne. apply aget_aput_ne; [apply Hat|done].
Qed.

Lemma unlock_uncontended s key fuel q :
  lock_word s key LOCKED q → null_alive s →
  ∃ s', mutex_unlock fuel key s = Done 1 s' ∧ lock_word s' key UNLOCKED q ∧
    km_world s' = km_world s ∧ km_queues s' = km_queues s ∧ array_mutex s' = array_mutex s ∧
    ∀ j, 0 ≤ j → j ≠ key → aget (open_mutexes s') j = aget (open_mutexes s) j.
Proof.
  intros (m & Hat & Hl & Hmq) Hnull. rewrite (mutex_unlock_nobody s key m fuel Hat Hnull). eexists. split; [done|].
  split; [|split; [done|split; [done|split; [done|]]]].
  - exists (set_locked UNLOCKED m). split; [|done]. eapply put_km_at; [done|apply Hat|apply Hat].
  - intros j Hj Hne. apply aget_aput_ne; [apply Hat|done].
Qed.

(** What happens to other mutexes and other queues does not matter. *)
Lemma lock_word_frame s s' key v q :
  lock_word s key v q → aget (open_mutexes s') key = aget (open_mutexes s) key →
  q_queues (km_queues s') !! q = q_queues (km_queues s) !! q → lock_word s' key v q.
Proof.
  intros (m & [Hm Hk Ho [Hn Hnd Hq Hc]] & Hl & <-) Hg Hqq. exists m. split; [|done].
  split; [by rewrite Hg|done|done|]. split; [done|done|by rewrite Hqq|done].
Qed.

(** The dead processes at the head of the queue are dropped. *)
Lemma skip_finished_spec s q n p ns dead pid st fuel :
  queue_at (km_queues s) q (dead ++ (n, p) :: ns) →
  (∀ e, e ∈ dead.*2 → w_procState (km_world s) e = Some (processState_num DEAD)) →
  w_procState (km_world s) p = Some (processState_num st) → st ≠ DEAD →
  w_procPid (km_world s) p = Some pid → (length dead ≤ fuel)%nat →
  ∃ qs, (p ← dequeue_process q; skip_finished fuel q p) s = Done p (set_queues qs s) ∧
    queue_at qs q ns.
Proof.
  revert s fuel. induction dead as [|[n' e] dead IH]; intros s fuel Hq Hdead Hst Hne Hpid Hf.
  - destruct (dequeue_spec _ _ _ _ _ Hfree Hq) as (qs & Hd & Hqs & _). exists qs. split; [|done].
    unfold dequeue_process. rewrite (bind_done _ _ _ p (set_queues qs s)).
    2: { unfold on_queues, calls. by rewrite Hd. }
    destruct fuel; simpl; rewrite (asksO_bind _ _ _ (processState_num st)) by done; by destruct st.
  - destruct (dequeue_spec _ _ _ _ _ Hfree Hq) as (qs & Hd & Hqs & _).
    unfold dequeue_process. rewrite (bind_done _ _ _ e (set_queues qs s)).
    2: { unfold on_queues, calls. by rewrite Hd. }
    destruct fuel as [|fuel]; [simpl in Hf; lia|]. cbn [skip_finished].
    rewrite (asksO_bind _ _ _ 3) by (apply Hdead; by left). cbn iota.
    destruct (IH (set_queues qs s) fuel) as (qs' & Hs & Hqs'); simpl; try done.
    + intros e' He'. apply Hdead. by right.
    + simpl in Hf. lia.
    + exists qs'. split; [exact Hs|done].
Qed.

Lemma mutex_unlock_handover s key m dead n p ns pid st fuel :
  kmutex_at s key m (dead ++ (n, p) :: ns) →
  (∀ e, e ∈ dead.*2 → w_procState (km_world s) e = Some (processState_num DEAD)) →
  w_procState (km_world s) p = Some (processState_num st) → st ≠ DEAD →
  w_procPid (km_world s) p = Some pid → (length dead ≤ fuel)%nat →
  p ≠ NULL → w_ok (km_world s) →
  ∃ qs w, mutex_unlock fuel key s = Done 1 (put_km key (set_locked LOCKED m) qs w s) ∧
    queue_at qs (process_queue m) ns ∧ w_changeState pid READY (km_world s) = Some w.
Proof.
  intros Hat Hdead Hst Hne Hpid Hf Hnull Hok.
  destruct (w_change_law _ pid READY Hok) as (w & Hw & _).
  destruct (skip_finished_spec (set_superlock_to LOCKED s) _ n p ns dead pid st fuel
    (km_queue _ _ _ _ Hat)) as (qs & Hs & Hqs); [done..|].
  exists qs, w. split; [|done]. unfold mutex_unlock. rewrite asks_bind, (is_open_at _ _ _ _ Hat).
  unfold set_superlock. rewrite modify_bind. rewrite (asksO_bind _ _ _ m) by apply Hat.
  unfold mbind, M_bind in Hs. unfold mbind, M_bind.
  destruct (dequeue_process (process_queue m) (set_superlock_to LOCKED s)) as [|p0 s0|s0 k0] eqn:Hd; simpl in Hs; [done| |done].
  simpl. rewrite Hs. simpl. unfold modifyO. rewrite (upd_mutex_eq _ key m _) by apply Hat. simpl.
  rewrite (proj2 (Z.eqb_neq p NULL)) by done. simpl. unfold mbind, M_bind, asksO, change_state, modifyO. simpl.
  rewrite Hpid. simpl. rewrite Hw. simpl.
  rewrite (upd_mutex_eq _ key (set_locked UNLOCKED m)).
  2: { simpl. apply aget_aput_eq. eapply aget_inv, Hat. }
  simpl. unfold put_km, set_mutexes, set_superlock_to. simpl. by rewrite aput_aput.
Qed.
End kmutex.

(** ** A lock *)

Section kmutex_lock.
Context {W H : Type} `{WorldProcLaws W, PageAllocator H} (key : Z) (fuel : nat).
Implicit Types s : KMutexState W H.

#[local] Instance kmutex_lock : Lock (KMutexState W H) := {|
  lk_call := _ ← mutex_lock key; mret tt;
  lk_free s := match mutex_unlock fuel key s with Done _ s' => Some s' | _ => None end;
  lk_pid s := w_currentPid (km_world s);
  lk_procs s := w_procs (km_world s);
  lk_ok := km_ok;
  lk_at s ws held := ∃ m ns, kmutex_at s key m ns ∧ queued s ns ws ∧
    locked m = c_bool (negb held) ∧ (held = false → ws = []);
  lk_room s := node_room s key ∧ ∃ p, w_currentProcess (km_world s) = Some p;
  lk_full _ := False;
|}.

Context (Hfree : frees_ok (H := H)).

#[local] Instance kmutex_lock_laws : LockLaws (KMutexState W H).
Proof.
  split; simpl.
  - intros s Hok (m & ns & Hat & Hq & Hl & Hws) [_ Hcur].
    pose proof (mutex_lock_free s key m ns Hat Hl Hcur) as Hlock.
    eexists. rewrite (bind_done _ _ _ _ _ Hlock). split; [done|]. split; [exact Hok|]. split; [|done].
    exists (set_locked LOCKED m), ns. split; [|done]. eapply put_km_at; [done|apply Hat|apply Hat].
  - intros s ws p Hok (m & ns & Hat & Hq & Hl & _) Hcur Hp1 _ [Hroom _]. right.
    destruct Hok as [Hok Hnull].
    destruct (w_cur_proc_law _ p Hok Hcur Hp1) as (a & Ha & Hisp).
    destruct (w_isProc_law _ _ _ Hok Hisp) as (Hane & Hpid & st & Hst & _).
    destruct (Hroom m ns Hat) as (b & h & Hb & Hbn & Hbf).
    destruct (mutex_lock_held s key m ns a p b h Hat Hl Ha Hpid Hb Hbn Hbf Hok)
      as (qs & w & Hlock & Hqs & Hw).
    destruct (w_change_law _ p BLOCKED Hok) as (w2 & Hw2 & Hok2 & _ & _ & Hpr).
    assert (w2 = w) as -> by congruence.
    exists (put_km key (set_locked LOCKED m) qs w s), ws, [].
    split; [by rewrite (bind_yield _ _ _ _ _ Hlock)|].
    split; [exact (km_ok_change s (put_km key (set_locked LOCKED m) qs w s) p BLOCKED (conj Hok Hnull) Hw)|]. split; [by rewrite app_nil_r|]. split.
    + exists (set_locked LOCKED m), (ns ++ [(b, a)]). split; [by eapply put_km_at; [|apply Hat|]|].
      split; [|done]. unfold queued. rewrite fmap_app. apply Forall2_app.
      * by apply (queued_change s (put_km key (set_locked LOCKED m) qs w s) p BLOCKED).
      * constructor; [|constructor]. exact (w_isProc_change _ _ _ _ _ _ Hok Hisp Hw).
    + split; [intros q Hne; simpl; by rewrite Hpr, decide_False|]. simpl.
      by rewrite Hpr, decide_True, Hst.
  - intros s [Hok Hnull] (m & ns & Hat & Hq & Hl & _).
    assert (ns = []) as ->.
    { apply Forall2_length in Hq. rewrite length_fmap in Hq. by destruct ns. }
    rewrite (mutex_unlock_nobody s key m fuel Hat Hnull).
    eexists. split; [done|]. split; [done|]. split; [|done].
    exists (set_locked UNLOCKED m), []. split; [|done]. eapply put_km_at; [done|apply Hat|apply Hat].
  - intros s pid ws [Hok Hnull] (m & ns & Hat & Hq & Hl & _) Hb.
    destruct ns as [|[n p] ns]; [by apply Forall2_length in Hq|].
    inversion Hq as [|? ? ? ? Hp Hqs1]; subst. clear Hq. rename Hqs1 into Hq. simpl in Hp.
    destruct (w_isProc_law _ _ _ Hok Hp) as (Hpn & Hpid & st & Hst & Hps).
    assert (st = BLOCKED) as -> by congruence.
    destruct (mutex_unlock_handover Hfree s key m [] n p ns pid BLOCKED fuel Hat)
      as (qs & w & Hu & Hqs & Hw); try done.
    { intros e He. by apply elem_of_nil in He. }
    { simpl. lia. }
    destruct (w_change_law _ pid READY Hok) as (w2 & Hw2 & Hok2 & _ & _ & Hpr).
    assert (w2 = w) as -> by congruence.
    rewrite Hu. eexists. split; [done|]. split; [exact (km_ok_change s (put_km key (set_locked LOCKED m) qs w s) pid READY (conj Hok Hnull) Hw)|]. split.
    { exists (set_locked LOCKED m), ns. split; [by eapply put_km_at; [|apply Hat|]|].
      split; [by apply (queued_change s (put_km key (set_locked LOCKED m) qs w s) pid READY)|done]. }
    split; [intros q Hne; simpl; by rewrite Hpr, decide_False|]. simpl.
    by rewrite Hpr, decide_True, Hb.
  - intros s ws (m & ns & _ & _ & _ & Hws). by apply Hws.
Qed.

(** Mutual exclusion for these mutexes too: however the calls of any number of
    processes and the scheduler's switches interleave, at most one process is between a
    [mutex_lock] that returned and its [mutex_unlock]. *)
Theorem kmutex_exclusion (c c' : config (KMutexState W H)) p q :
  lock_start c → rtc lock_step c c' → c'.2 p = Critical → c'.2 q = Critical → p = q.
Proof.
  intros Hs Hr. assert (Hd : defined c').
  { intros x Hx. destruct (lock_undefined _ _ _ Hs Hr Hx) as [_ (p' & c1 & c2 & _ & (_ & _ & _ & _ & ws & _ & [] & _) & _)]. }
  by apply (lock_exclusion c).
Qed.
End kmutex_lock.

(** ** [mutex_unlock]: first come, first served *)

(** The waiters from the first that is not dead on. *)
Fixpoint next_alive (st : Z → option processState) (ws : list Z) : list Z :=
  match ws with
  | [] => []
  | p :: ws' => if decide (st p = Some DEAD) then next_alive st ws' else ws
  end.

Section unlock.
Context {W H : Type} `{WorldProcLaws W, PageAllocator H}.
Implicit Types s : KMutexState W H.

(** Splits a queue at its first live process. *)
Lemma queue_split s ns ws :
  w_ok (km_world s) → queued s ns ws →
  ∃ dead rest, ns = dead ++ rest ∧ queued s rest (next_alive (w_procs (km_world s)) ws) ∧
    (∀ e, e ∈ dead.*2 → w_procState (km_world s) e = Some (processState_num DEAD)) ∧
    match next_alive (w_procs (km_world s)) ws with
    | [] => rest = []
    | pid :: _ => w_procs (km_world s) pid ≠ Some DEAD
    end.
Proof.
  intros Hok. unfold queued. revert ws. induction ns as [|[n p] ns IH]; intros ws Hq.
  - inversion Hq; subst. exists [], []. split; [done|]. split; [done|]. split; [|done].
    intros e He. by apply elem_of_nil in He.
  - inversion Hq as [|? pid ? ws' Hp Hq']; subst. simpl in Hp. simpl. case_decide as Hd.
    + destruct (IH ws' Hq') as (dead & rest & -> & Hr & Hdead & Hn). exists ((n, p) :: dead), rest.
      split; [done|]. split; [done|]. split; [|done]. intros e [->|He]%elem_of_cons; [|by apply Hdead].
      destruct (w_isProc_law _ _ _ Hok Hp) as (_ & _ & st & Hst & Hps). simpl. rewrite Hps. by assert (st = DEAD) as -> by congruence.
    + exists [], ((n, p) :: ns). split; [done|]. split; [done|]. split; [|done].
      intros e He. by apply elem_of_nil in He.
Qed.

Context (Hfree : frees_ok (H := H)).

(** A queue of dead processes is emptied and nobody is found. *)
Lemma skip_all_finished s q dead fuel :
  queue_at (km_queues s) q dead → null_alive s →
  (∀ e, e ∈ dead.*2 → w_procState (km_world s) e = Some (processState_num DEAD)) →
  (length dead ≤ fuel)%nat →
  ∃ qs, (p ← dequeue_process q; skip_finished fuel q p) s = Done NULL (set_queues qs s) ∧
    queue_at qs q [].
Proof.
  revert s fuel. induction dead as [|[n' e] dead IH]; intros s fuel Hq Hnull Hdead Hf.
  - exists (km_queues s). split; [|done]. destruct Hnull as (v & Hv & Hne).
    unfold dequeue_process. rewrite (bind_done _ _ _ NULL s).
    2: { unfold on_queues, calls, dequeue. rewrite (queue_is_empty _ _ _ Hq). by destruct s. }
    destruct fuel; simpl; rewrite (asksO_bind _ _ _ v) by done;
      rewrite (proj2 (Z.eqb_neq v 3)) by done; by destruct s.
  - destruct (dequeue_spec _ _ _ _ _ Hfree Hq) as (qs & Hd & Hqs & _).
    unfold dequeue_process. rewrite (bind_done _ _ _ e (set_queues qs s)).
    2: { unfold on_queues, calls. by rewrite Hd. }
    destruct fuel as [|fuel]; [simpl in Hf; lia|]. cbn [skip_finished].
    rewrite (asksO_bind _ _ _ 3) by (apply Hdead; by left). cbn iota.
    destruct (IH (set_queues qs s) fuel) as (qs' & Hs & Hqs'); simpl; try done.
    + intros e' He'. apply Hdead. by right.
    + simpl in Hf. lia.
    + exists qs'. split; [exact Hs|done].
Qed.

Lemma mutex_unlock_all_dead s key m dead fuel :
  kmutex_at s key m dead → null_alive s →
  (∀ e, e ∈ dead.*2 → w_procState (km_world s) e = Some (processState_num DEAD)) →
  (length dead ≤ fuel)%nat →
  ∃ qs, mutex_unlock fuel key s = Done 1 (put_km key (set_locked UNLOCKED m) qs (km_world s) s) ∧
    queue_at qs (process_queue m) [].
Proof.
  intros Hat Hnull Hdead Hf.
  destruct (skip_all_finished (set_superlock_to LOCKED s) _ dead fuel (km_queue _ _ _ _ Hat))
    as (qs & Hs & Hqs); [done..|].
  exists qs. split; [|done]. unfold mutex_unlock. rewrite asks_bind, (is_open_at _ _ _ _ Hat).
  unfold set_superlock. rewrite modify_bind. rewrite (asksO_bind _ _ _ m) by apply Hat.
  unfold mbind, M_bind in Hs. unfold mbind, M_bind.
  destruct (dequeue_process (process_queue m) (set_superlock_to LOCKED s)) as [|p0 s0|s0 k0];
    simpl in Hs; [done| |done].
  simpl. rewrite Hs. simpl. unfold modifyO. rewrite (upd_mutex_eq _ key m _) by apply Hat. done.
Qed.

(** [mutex_unlock] serves the waiting processes in the order they came: the dead ones
    at the head of the queue are dropped, the first live one becomes ready and the mutex
    stays locked for it, the others stay as they are; the mutex is unlocked only when no
    live process waits.  A key that is not open is refused. *)
Theorem mutex_unlock_correct s key m ns ws fuel :
  kmutex_at s key m ns → queued s ns ws → km_ok s → (length ns ≤ fuel)%nat →
  ∃ s' ns', mutex_unlock fuel key s = Done 1 s' ∧ km_ok s' ∧ superlock s' = UNLOCKED ∧
    match next_alive (w_procs (km_world s)) ws with
    | [] => kmutex_at s' key (set_locked UNLOCKED m) [] ∧
        ∀ q, w_procs (km_world s') q = w_procs (km_world s) q
    | pid :: ws' => kmutex_at s' key (set_locked LOCKED m) ns' ∧ queued s' ns' ws' ∧
        w_procs (km_world s') pid = Some READY ∧
        ∀ q, q ≠ pid → w_procs (km_world s') q = w_procs (km_world s) q
    end.
Proof.
  intros Hat Hq Hkm Hf. pose proof Hkm as [Hok Hnull].
  destruct (queue_split s ns ws Hok Hq) as (dead & rest & -> & Hrest & Hdead & Hcase).
  rewrite length_app in Hf. destruct (next_alive (w_procs (km_world s)) ws) as [|pid ws'].
  - subst rest. rewrite app_nil_r in Hat.
    destruct (mutex_unlock_all_dead s key m dead fuel Hat Hnull Hdead) as (qs & Hu & Hqs); [simpl in Hf; lia|].
    exists (put_km key (set_locked UNLOCKED m) qs (km_world s) s), []. split; [done|]. split; [done|].
    split; [done|]. split; [|done]. eapply put_km_at; [done|apply Hat|done].
  - destruct rest as [|[n p] rest]; [by inversion Hrest|].
    inversion Hrest as [|? ? ? ? Hp Hrest']; subst. simpl in Hp.
    destruct (w_isProc_law _ _ _ Hok Hp) as (Hpn & Hpid & st & Hst & Hps).
    destruct (mutex_unlock_handover Hfree s key m dead n p rest pid st fuel Hat Hdead Hps)
      as (qs & w & Hu & Hqs & Hw); try done; [congruence|lia|].
    destruct (w_change_law _ pid READY Hok) as (w2 & Hw2 & Hok2 & _ & _ & Hpr).
    assert (w2 = w) as -> by congruence.
    exists (put_km key (set_locked LOCKED m) qs w s), rest. split; [done|].
    split; [exact (km_ok_change s (put_km key (set_locked LOCKED m) qs w s) pid READY Hkm Hw)|].
    split; [done|]. split; [eapply put_km_at; [done|apply Hat|done]|].
    split; [by apply (queued_change s (put_km key (set_locked LOCKED m) qs w s) pid READY)|].
    split; simpl; [by rewrite Hpr, decide_True, Hst|].
    intros q Hne. by rewrite Hpr, decide_False.
Qed.
End unlock.

(** ** [mutex_open] *)

Section opening.
Context {W H : Type} `{World W, !WorldProc W, PageAllocator H}.
Implicit Types s : KMutexState W H.

Definition opened s (k : Z) : Prop := ∃ m, aget (open_mutexes s) k = Some m ∧ state m = OPEN.

Definition named s (l : list Z) (k : Z) : Prop :=
  ∃ m, aget (open_mutexes s) k = Some m ∧ state m = OPEN ∧ cstr (array_mem (name m)) 0 l.

(** The table has its 128 entries and every open one a terminated name. *)
Definition table_ok s : Prop :=
  length (open_mutexes s) = Z.to_nat MAX_MUTEXES ∧
  ∀ k m, aget (open_mutexes s) k = Some m → state m = OPEN →
    ∃ l, cstr (array_mem (name m)) 0 l.

Lemma cstr_unique m p l1 l2 : cstr m p l1 → cstr m p l2 → l1 = l2.
Proof.
  revert p l2. induction l1 as [|c l1 IH]; intros p [|c2 l2]; simpl; try done.
  - intros E1 (Hc & E2 & _). congruence.
  - intros (Hc & E2 & _) E1. congruence.
  - intros (_ & <- & E1) (_ & <- & E2). f_equal. by eapply IH.
Qed.

Lemma open_loop_spec s nm l n k :
  table_ok s → cstr (w_memory (km_world s)) nm l → (length l < Z.to_nat MUTEX_NAME_LEN)%nat →
  0 ≤ k → k + Z.of_nat n = MAX_MUTEXES →
  ∃ b r, mutex_open_loop n k nm s = Some (b, r) ∧ k ≤ r ≤ MAX_MUTEXES ∧
    (∀ j, k ≤ j < r → opened s j ∧ ¬ named s l j) ∧
    (if b : bool then r < MAX_MUTEXES ∧ named s l r else r = MAX_MUTEXES ∨ ¬ opened s r).
Proof.
  intros [Hlen Hnames] Hl Hll. revert k. induction n as [|n IH]; intros k Hk Hkn; cbn [mutex_open_loop].
  { exists false, k. split; [done|]. split; [lia|]. split; [lia|]. left. lia. }
  destruct (is_open k s) eqn:Ho.
  - apply (is_open_spec s k Hlen) in Ho as (_ & m & Hm & Hop). rewrite Hm. cbn [mbind option_bind].
    destruct (Hnames k m Hm Hop) as (l' & Hl').
    rewrite (strcmp2_spec _ _ _ _ _ l l' Hl Hl') by lia. cbn [mbind option_bind].
    destruct (Z.eqb_spec (str_compare l l') 0) as [He|He].
    + apply str_compare_eq in He as <-. exists true, k. split; [done|]. split; [lia|].
      split; [lia|]. split; [lia|]. by exists m.
    + assert (Hnn : ¬ named s l k).
      { intros (m' & Hm' & _ & Hn'). assert (m' = m) as -> by congruence.
        apply He, str_compare_eq. by eapply cstr_unique. }
      destruct (IH (k + 1)) as (b & r & -> & Hr & Hbefore & Hb); [lia|lia|].
      exists b, r. split; [done|]. split; [lia|]. split; [|done]. intros j Hj.
      destruct (decide (j = k)) as [->|]; [|apply Hbefore; lia]. split; [by exists m|done].
  - exists false, k. split; [done|]. split; [lia|]. split; [lia|]. right. intros (m & Hm & Hop).
    assert (is_open k s = true); [|congruence]. apply is_open_spec; [done|]. split; [lia|]. by exists m.
Qed.

(** [mutex_open] looks at the mutexes up to the first that is closed.  It returns the
    first of them with the name; otherwise it makes that closed one a new unlocked mutex
    with the name and an empty queue; with all 128 open and none of the name it returns the error.
    The lock of the table is free again. *)
Theorem mutex_open_correct s nm l q h fuel :
  table_ok s → array_mutex s = UNLOCKED → cstr (w_memory (km_world s)) nm l →
  (length l < Z.to_nat MUTEX_NAME_LEN)%nat →
  pa_alloc (q_alloc (km_queues s)) sizeof_queue = Some (q, h) → q ≠ NULL →
  ∃ r s', mutex_open fuel nm s = Done r s' ∧ array_mutex s' = UNLOCKED ∧
    ((r = MAX_MUTEX_OPEN_ERROR ∧ s' = s ∧
        ∀ j, 0 ≤ j < MAX_MUTEXES → opened s j ∧ ¬ named s l j) ∨
     (0 ≤ r < MAX_MUTEXES ∧ (∀ j, 0 ≤ j < r → opened s j ∧ ¬ named s l j) ∧
       ((named s l r ∧ s' = s) ∨
        (¬ opened s r ∧ named s' l r ∧ table_ok s' ∧
          (∃ m, kmutex_at s' r m [] ∧ locked m = UNLOCKED ∧ process_queue m = q) ∧
          ∀ j, 0 ≤ j → j ≠ r → aget (open_mutexes s') j = aget (open_mutexes s) j)))).
Proof.
  intros Htab Harr Hl Hll Hq Hqn. pose proof Htab as [Hlen Hnames].
  set (s1 := set_array_mutex 0 s).
  assert (Hlock : lock_array fuel s = Done tt s1) by (destruct fuel; simpl; by rewrite Harr).
  destruct (open_loop_spec s1 nm l (Z.to_nat MAX_MUTEXES) 0 Htab Hl Hll)
    as (b & r & Hloop & Hr & Hbefore & Hb); [lia|unfold MAX_MUTEXES; lia|].
  assert (Hback : set_array_mutex UNLOCKED s1 = s) by (unfold s1, set_array_mutex; simpl; rewrite <-Harr; by destruct s).
  unfold mutex_open. rewrite (bind_done _ _ _ _ _ Hlock), (asksO_bind _ _ _ (b, r) Hloop).
  cbn [fst snd]. destruct b.
  { exists r, s. destruct Hb as [Hrm Hn]. split; [exact (f_equal (Done r) Hback)|]. split; [done|]. right.
    split; [lia|]. split; [done|]. by left. }
  destruct (Z.eqb_spec r MAX_MUTEXES) as [->|Hrm].
  { exists MAX_MUTEX_OPEN_ERROR, s. split; [exact (f_equal (Done _) Hback)|]. split; [done|]. left. done. }
  assert (¬ opened s r) as Hno by (destruct Hb; done).
  pose proof (strcpy_array_spec (Z.to_nat MUTEX_NAME_LEN) _ _ _ Hl) as Hcopy.
  rewrite decide_True in Hcopy by done. destruct Hcopy as (nmb & Hnm & Hnml).
  set (qs := mkQS h (<[q := mkQueue NULL NULL]> (q_queues (km_queues s))) (q_nodes (km_queues s))).
  set (m := mkMutex nmb UNLOCKED OPEN q).
  assert (Hnew : create_new_mutex nm s1 = Done m (set_queues qs s1)).
  { unfold create_new_mutex. rewrite (asksO_bind
      (λ s, strcpy_array (Z.to_nat MUTEX_NAME_LEN) (w_memory (km_world s)) nm) _ s1 nmb Hnm).
    rewrite (bind_done _ _ _ q (set_queues qs s1)); [done|].
    unfold on_queues, calls, create_queue, q_allocPage. simpl. rewrite Hq. simpl.
    by rewrite (proj2 (Z.eqb_neq q NULL)). }
  rewrite (bind_done _ _ _ _ _ Hnew).
  destruct (aget_some (open_mutexes s) r) as [m0 Hm0]; [rewrite Hlen; unfold MAX_MUTEXES in *; lia|].
  rewrite (modifyO_bind _ _ _ _ (upd_mutex_eq (set_queues qs s1) r m0 (λ _, m) Hm0)).
  eexists r, _. split; [done|]. split; [done|]. right. split; [lia|]. split; [done|]. right.
  split; [done|].
  assert (Hget : aget (aput (open_mutexes s) r m) r = Some m) by (apply aget_aput_eq; by eapply aget_inv).
  split; [by exists m|]. split; [|split].
  - split; simpl; [by rewrite length_aput|]. intros k m' Hm' Hop.
    destruct (decide (k = r)) as [->|Hne].
    + exists l. assert (m' = m) as -> by congruence. done.
    + rewrite aget_aput_ne in Hm' by lia. by eapply Hnames.
  - exists m. split; [|done]. split; [done|lia|done|]. split; simpl; [done|constructor| |done].
    by rewrite lookup_insert_eq.
  - intros j Hj Hne. simpl. apply aget_aput_ne; lia.
Qed.
End opening.

(** ** [mutex_close] *)

Section closing.
Context {W H : Type} `{WorldProcLaws W, PageAllocator H}.
Implicit Types s : KMutexState W H.
Context (Hfree : frees_ok (H := H)).

(** The loop empties the queue and keeps the last process only. *)
Lemma close_loop_spec fuel q ns p0 s :
  queue_at (km_queues s) q ns → (length ns ≤ fuel)%nat →
  ∃ qs, close_loop fuel q p0 s = Done (match list.last ns with Some e => Some e.2 | None => p0 end)
      (set_queues qs s) ∧ queue_at qs q [].
Proof.
  revert s p0 ns. induction fuel as [|fuel IH]; intros s p0 ns Hq Hf; cbn [close_loop];
    rewrite (asksO_bind (λ s, is_empty q (km_queues s)) _ s _ (queue_is_empty _ _ _ Hq)).
  - destruct ns; [|simpl in Hf; lia]. exists (km_queues s). split; [by destruct s|done].
  - destruct ns as [|[n e] ns]; [exists (km_queues s); split; [by destruct s|done]|].
    rewrite bool_decide_false by done.
    destruct (dequeue_spec _ _ _ _ _ Hfree Hq) as (qs & Hd & Hqs & _).
    unfold dequeue_process. rewrite (bind_done _ _ _ e (set_queues qs s)).
    2: { unfold on_queues, calls. by rewrite Hd. }
    destruct (IH (set_queues qs s) (Some e) ns) as (qs' & Hc & Hqs'); [done|simpl in Hf; lia|].
    exists qs'. split; [|done]. rewrite Hc. destruct ns as [|x ns]; [done|].
    change (list.last ((n, e) :: x :: ns)) with (list.last (x :: ns)).
    by destruct (proj2 (last_is_Some (x :: ns))) as [y ->].
Qed.

(** Closing a mutex wakes only the process that came last: the others that wait in its
    queue are dropped from it and stay blocked. *)
Theorem mutex_close_wakes_last s key m ns ws pid fuel :
  kmutex_at s key m ns → queued s ns (ws ++ [pid]) → km_ok s → array_mutex s = UNLOCKED →
  (length ns ≤ fuel)%nat →
  ∃ s', mutex_close fuel key s = Done 1 s' ∧ is_open key s' = false ∧ array_mutex s' = UNLOCKED ∧
    w_procs (km_world s') pid = Some READY ∧
    ∀ q, q ≠ pid → w_procs (km_world s') q = w_procs (km_world s) q.
Proof.
  intros Hat Hq [Hok Hnull] Harr Hf.
  apply Forall2_app_inv_r in Hq as (ps & pl & Hq & Hlast & Hns).
  inversion Hlast as [|p ? pl' ? Hp Hnil]; subst. inversion Hnil; subst.
  destruct (w_isProc_law _ _ _ Hok Hp) as (_ & Hpid & st & Hst & _).
  destruct (w_change_law _ pid READY Hok) as (w & Hw & Hok2 & _ & _ & Hpr).
  assert (Hl : ∃ n, list.last ns = Some (n, p)).
  { pose proof (f_equal list.last Hns) as Hl. rewrite last_snoc, fmap_last in Hl.
    destruct (list.last ns) as [[n e]|]; [|done]. injection Hl as ->. by exists n. }
  destruct Hl as [n Hl]. set (s1 := set_array_mutex 0 s).
  assert (Hlock : lock_array fuel s = Done tt s1) by (destruct fuel; simpl; by rewrite Harr).
  assert (Hat1 : kmutex_at s1 key m ns) by (by destruct Hat).
  destruct (close_loop_spec fuel _ ns None s1 (km_queue _ _ _ _ Hat1) Hf) as (qs & Hc & Hqs).
  rewrite Hl in Hc. simpl in Hc.
  unfold mutex_close. rewrite (bind_done _ _ _ _ _ Hlock), asks_bind, (is_open_at _ _ _ _ Hat1).
  rewrite (asksO_bind _ _ _ m) by apply Hat. rewrite (bind_done _ _ _ _ _ Hc).
  rewrite (asksO_bind _ _ _ pid) by done.
  rewrite (bind_done _ _ _ tt (set_world w (set_queues qs s1))).
  2: { unfold change_state, modifyO. simpl. by rewrite Hw. }
  rewrite (modifyO_bind _ _ _ _ (upd_mutex_eq (set_world w (set_queues qs s1)) key m _ (km_get _ _ _ _ Hat))).
  destruct (destroy_loop_spec qs _ [] fuel Hfree Hqs) as (qs2 & Hd & _); [simpl; lia|].
  destruct (Hfree (q_alloc qs2) (process_queue m)) as [[r h] Hh].
  erewrite modifyO_bind.
  2: { unfold destroy_queue. simpl. rewrite Hd. simpl. unfold q_deallocPage. rewrite Hh. simpl. done. }
  eexists. split; [done|]. split; [|split; [done|]].
  - unfold is_open. simpl. rewrite aget_aput_eq by (eapply aget_inv, Hat). by rewrite andb_false_r.
  - simpl. rewrite Hpr, decide_True, Hst by done. split; [done|]. intros q Hne. by rewrite Hpr, decide_False.
Qed.

(** With nobody waiting the process to wake is whatever an uninitialised pointer says. *)
Lemma mutex_close_empty s key m fuel :
  kmutex_at s key m [] → array_mutex s = UNLOCKED → mutex_close fuel key s = Fault.
Proof.
  intros Hat Harr. set (s1 := set_array_mutex 0 s).
  assert (Hlock : lock_array fuel s = Done tt s1) by (destruct fuel; simpl; by rewrite Harr).
  assert (Hat1 : kmutex_at s1 key m []) by (by destruct Hat).
  destruct (close_loop_spec fuel _ [] None s1 (km_queue _ _ _ _ Hat1)) as (qs & Hc & Hqs); [simpl; lia|].
  unfold mutex_close. rewrite (bind_done _ _ _ _ _ Hlock), asks_bind, (is_open_at _ _ _ _ Hat1).
  rewrite (asksO_bind _ _ _ m) by apply Hat. rewrite (bind_done _ _ _ _ _ Hc). done.
Qed.
End closing.

(** ** Witnesses *)

(** Mutex 0 is open, named "a", with the processes [ps] in its queue. *)
Definition demo_mutex (v : Z) : mutex_type := mkMutex [97; 0] v OPEN 4096.

Definition demo_queues (q : queue) (nodes : gmap Z node) : QState Z :=
  mkQS 65536 {[ 4096 := q ]} nodes.

Definition demo_km (v : Z) (q : queue) (nodes : gmap Z node) (w : Toy) : KMutexState Toy Z :=
  mkKM (demo_mutex v :: replicate 127 mutex_bss) UNLOCKED UNLOCKED (demo_queues q nodes) w.

Definition demo_free : KMutexState Toy Z := demo_km UNLOCKED (mkQueue NULL NULL) ∅ toy0.

(** Processes 5 and 6 wait: their records are at 11 and 13. *)
Definition demo_waiting : KMutexState Toy Z :=
  demo_km LOCKED (mkQueue 8192 12288)
    {[ 8192 := mkNode 11 12288; 12288 := mkNode 13 NULL ]} (mkToy 1 (λ _, BLOCKED) toy_memory []).

Lemma demo_free_at : kmutex_at demo_free 0 (demo_mutex UNLOCKED) [].
Proof. split; [done|done|done|]. split; [done|constructor|done|done]. Qed.

Lemma demo_waiting_at : kmutex_at demo_waiting 0 (demo_mutex LOCKED) [(8192, 11); (12288, 13)].
Proof.
  split; [done|done|done|]. split; [done| |done|].
  - apply (bool_decide_unpack _). by vm_compute.
  - split; [done|]. split; [done|]. exists 12288. split; [done|]. split; [done|]. split; [done|].
    exists NULL. done.
Qed.

Lemma demo_waiting_queued : queued demo_waiting [(8192, 11); (12288, 13)] [5; 6].
Proof. by repeat constructor. Qed.

Lemma demo_ok v q nodes w : km_ok (demo_km v q nodes w).
Proof. split; [exact I|]. exists 0. done. Qed.

Lemma kmutex_exclusion_witness :
  ∃ c, rtc (lock_step (H := kmutex_lock 0 1)) (demo_free, λ _, Idle) c ∧ c.2 1 = Critical ∧
    ∀ q, c.2 q = Critical → 1 = q.
Proof.
  assert (Hs : lock_start (H := kmutex_lock 0 1) (demo_free, λ _, Idle)).
  { refine (conj (demo_ok _ _ _ _) (conj _ (λ q, eq_refl))).
    exists (demo_mutex UNLOCKED), []. split; [apply demo_free_at|]. by repeat constructor. }
  assert (Hstep : ∃ c, rtc (lock_step (H := kmutex_lock 0 1)) (demo_free, λ _, Idle) c ∧ c.2 1 = Critical).
  { eexists (_, _). split.
    - eapply rtc_once. eapply (step_acquire (H := kmutex_lock 0 1) 1); [done|done|done| |reflexivity].
      split; [|by eexists]. intros m ns [Hm _ _ Hq]. injection Hm as <-.
      exists 65536, (65536 + 17 * 4096). split; [done|]. split; [done|].
      destruct ns as [|[n e] ns]; [apply not_elem_of_nil|].
      pose proof (qa_queue _ _ _ Hq) as Hh. injection Hh as <- _. by destruct (qa_chain _ _ _ Hq) as (_ & ? & _).
    - apply at_phase_eq. }
  destruct Hstep as (c & Hc & Hp). exists c. split; [exact Hc|]. split; [exact Hp|].
  intros q Hq. exact (kmutex_exclusion 0 1 bump_frees _ c 1 q Hs Hc Hp Hq).
Defined.

Lemma mutex_unlock_correct_witness :
  ∃ s', mutex_unlock 2 0 demo_waiting = Done 1 s' ∧ w_procs (km_world s') 5 = Some READY.
Proof.
  destruct (mutex_unlock_correct bump_frees demo_waiting 0 _ _ [5; 6] 2 demo_waiting_at demo_waiting_queued)
    as (s' & ns' & Hu & _ & _ & Hr); [apply demo_ok|simpl; lia|].
  exists s'. split; [exact Hu|]. exact (proj1 (proj2 (proj2 Hr))).
Defined.

Lemma mutex_open_correct_witness : ∃ s', mutex_open 0 8 demo_free = Done 0 s'.
Proof.
  destruct (mutex_open_correct demo_free 8 [97] 65536 (65536 + 17 * 4096) 0)
    as (r & s' & Ho & _ & Hr); [|done|done|by apply Nat.ltb_lt|done|done|].
  { split; [done|]. intros k m Hm Hop. exists [97].
    destruct (decide (k = 0)) as [->|Hne]; [injection Hm as <-; done|]. exfalso.
    pose proof (aget_inv _ _ _ Hm) as Hk. rewrite aget_nat in Hm by lia.
    destruct (Z.to_nat k) as [|n] eqn:Hn; [lia|]. cbn [demo_free demo_km open_mutexes] in Hm.
    apply (lookup_replicate 127) in Hm as [-> _]. discriminate Hop. }
  exists s'. rewrite Ho. f_equal.
  destruct Hr as [(_ & _ & Hall)|(Hr & Hbefore & _)].
  - destruct (Hall 0) as [_ Hn]; [unfold MAX_MUTEXES; lia|]. destruct Hn.
    exists (demo_mutex UNLOCKED). done.
  - destruct (decide (r = 0)) as [->|]; [done|]. destruct (Hbefore 0) as [_ Hn]; [lia|].
    destruct Hn. exists (demo_mutex UNLOCKED). done.
Defined.

Lemma mutex_close_wakes_last_witness :
  ∃ s', mutex_close 2 0 demo_waiting = Done 1 s' ∧ w_procs (km_world s') 6 = Some READY ∧
    w_procs (km_world s') 5 = Some BLOCKED.
Proof.
  destruct (mutex_close_wakes_last bump_frees demo_waiting 0 _ _ [5] 6 2 demo_waiting_at demo_waiting_queued)
    as (s' & Hc & _ & _ & H6 & Hothers); [apply demo_ok|done|simpl; lia|].
  exists s'. split; [exact Hc|]. split; [exact H6|]. by rewrite (Hothers 5).
Defined.
