(* ===== verification/PageStack.v ===== *)
(** * The stacks of pages ([Kernel/memoryAllocator.c])

    An allocator of single pages: a stack of page numbers for data and one of addresses
    for the stacks of processes, each behind a mutex of [KMutex]. *)

From S2P Require Import Prelude KMonad CString Structs World Toy Queue LockSystem KMutex KMutexThms.

Definition PAGE_SIZE : Z := 0x1000.
Definition STACK_PAGE_SIZE : Z := 0x100000.
Definition DATA_ADDRESS : Z := 0x500000.
Definition MAX_PROCESSES : Z := 128.
Definition STACK_SIZE : Z := uint8 (-1).
Definition MEMORY_PAGES_END : Z := (STACK_SIZE + 1) * PAGE_SIZE + DATA_ADDRESS.
Definition STACK_ADDRESS : Z := MEMORY_PAGES_END + PAGE_SIZE.

Section pages.
Context {W H : Type} `{WorldProc W, PageAllocator H}.

Record PageState := mkPages {
  pages_stack : list Z;
  current_index : Z;
  memory_mutex_key : Z;
  stack_memory_mutex_key : Z;
  stack_pages_stack : list Z;
  current_stack_index : Z;
  pg_km : KMutexState W H;
}.
Implicit Types s : PageState.

Definition set_pages l i s : PageState :=
  mkPages l i (memory_mutex_key s) (stack_memory_mutex_key s) (stack_pages_stack s) (current_stack_index s) (pg_km s).
Definition set_stack_pages l i s : PageState :=
  mkPages (pages_stack s) (current_index s) (memory_mutex_key s) (stack_memory_mutex_key s) l i (pg_km s).
Definition set_keys k1 k2 s : PageState :=
  mkPages (pages_stack s) (current_index s) k1 k2 (stack_pages_stack s) (current_stack_index s) (pg_km s).
#[export] Instance Field_km : Field PageState (KMutexState W H) := {|
  fget := pg_km;
  fset k s := mkPages (pages_stack s) (current_index s) (memory_mutex_key s) (stack_memory_mutex_key s)
                (stack_pages_stack s) (current_stack_index s) k |}.

Definition pages_bss (k : KMutexState W H) : PageState :=
  mkPages (replicate (Z.to_nat STACK_SIZE) 0) 0 (uint64 (-1)) (uint64 (-1)) (replicate (Z.to_nat MAX_PROCESSES) 0) 0 k.

Definition initialize_memory_allocator s : option PageState :=
  l ← for_range (Z.to_nat (STACK_SIZE - 1)) 0 (λ i l, aset l i (i + 1)) (pages_stack s);
  Some (set_pages l (current_index s) s).

(** [name]: the address of the literal. *)
Definition initialize_memory_allocator_mutex (fuel : nat) (name : Z) : M PageState unit :=
  k ← zoom_field (mutex_open fuel name);
  modify (λ s, set_keys (uint64 k) (stack_memory_mutex_key s) s).

Definition lock_pages : M PageState Z := k ← asks memory_mutex_key; zoom_field (mutex_lock (int32 k)).
Definition unlock_pages (fuel : nat) : M PageState Z :=
  k ← asks memory_mutex_key; zoom_field (mutex_unlock fuel (int32 k)).

Definition get_page (fuel : nat) (size : Z) : M PageState Z :=
  _ ← lock_pages;
  i ← asks current_index;
  if i <? STACK_SIZE then
    index ← asksO (λ s, aget (pages_stack s) i);
    _ ← modify (λ s, set_pages (pages_stack s) (uint8 (i + 1)) s);
    let page := uint64 (index * PAGE_SIZE + DATA_ADDRESS) in
    _ ← unlock_pages fuel;
    mret page
  else _ ← lock_pages; mret 0.

Definition store_page (fuel : nat) (address : Z) : M PageState Z :=
  _ ← lock_pages;
  i ← asks current_index;
  if 0 <? i then
    let i := uint8 (i - 1) in
    _ ← modifyO (λ s, l ← aset (pages_stack s) i (uint8 (uint64 (address - DATA_ADDRESS) / PAGE_SIZE)); Some (set_pages l i s));
    _ ← unlock_pages fuel;
    mret 1
  else _ ← unlock_pages fuel; mret 0.

Definition initialize_stack_memory_allocator s : option PageState :=
  l ← for_range (Z.to_nat MAX_PROCESSES) 0 (λ i l, aset l i (uint64 ((i + 1) * STACK_PAGE_SIZE + STACK_ADDRESS)))
        (stack_pages_stack s);
  Some (set_stack_pages l (current_stack_index s) s).

Definition initialize_stack_memory_allocator_mutex (fuel : nat) (name : Z) : M PageState unit :=
  k ← zoom_field (mutex_open fuel name);
  modify (λ s, set_keys (memory_mutex_key s) (uint64 k) s).

Definition lock_stack_pages : M PageState Z := k ← asks stack_memory_mutex_key; zoom_field (mutex_lock (int32 k)).
Definition unlock_stack_pages (fuel : nat) : M PageState Z :=
  k ← asks stack_memory_mutex_key; zoom_field (mutex_unlock fuel (int32 k)).

Definition get_stack_page (fuel : nat) : M PageState Z :=
  _ ← lock_stack_pages;
  i ← asks current_stack_index;
  if i <? MAX_PROCESSES then
    page ← asksO (λ s, aget (stack_pages_stack s) i);
    _ ← modify (λ s, set_stack_pages (stack_pages_stack s) (uint16 (i + 1)) s);
    _ ← unlock_stack_pages fuel;
    mret page
  else _ ← unlock_stack_pages fuel; mret 0.

Definition store_stack_page (fuel : nat) (address : Z) : M PageState Z :=
  _ ← lock_stack_pages;
  i ← asks current_stack_index;
  if 0 <? i then
    let i := uint16 (i - 1) in
    _ ← modifyO (λ s, l ← aset (stack_pages_stack s) i address; Some (set_stack_pages l i s));
    _ ← unlock_stack_pages fuel;
    mret 1
  else _ ← unlock_stack_pages fuel; mret 0.
End pages.
Arguments PageState : clear implicits.

(** ** The data pages as a stack *)

Section stack.
Context {W H : Type} `{WorldProcLaws W, PageAllocator H}.
Implicit Types s : PageState W H.

Definition page_address (i : Z) : Z := i * PAGE_SIZE + DATA_ADDRESS.

(** The pages that can be had, the next one first. *)
Definition free_pages s : list Z := page_address <$> drop (Z.to_nat (current_index s)) (pages_stack s).

(** What the calls need and keep. *)
Record pages_ok s : Prop := {
  po_length : length (pages_stack s) = 255%nat;
  po_index : 0 ≤ current_index s ≤ 255;
  po_pages : Forall (λ i, 0 ≤ i < 256) (pages_stack s);
  po_key : 0 ≤ memory_mutex_key s < MAX_MUTEXES;
  po_lock : ∃ q, lock_word (pg_km s) (memory_mutex_key s) UNLOCKED q;
  po_null : null_alive (pg_km s);
  po_current : ∃ p, w_currentProcess (km_world (pg_km s)) = Some p;
}.

Lemma key_int s : pages_ok s → int32 (memory_mutex_key s) = memory_mutex_key s.
Proof. intros Hok. apply int32_id. pose proof (po_key _ Hok). unfold MAX_MUTEXES, INT_MIN, INT_MAX in *. lia. Qed.

(** The state with its mutex taken. *)
Definition pages_locked s s1 : Prop :=
  ∃ km q, s1 = fset km s ∧ lock_word km (memory_mutex_key s) LOCKED q ∧ km_world km = km_world (pg_km s) ∧ km_queues km = km_queues (pg_km s).

Lemma lock_pages_ok s : pages_ok s → ∃ s1, lock_pages s = Done 1 s1 ∧ pages_locked s s1.
Proof.
  intros Hok. destruct (po_lock _ Hok) as [q Hq0]. destruct (lock_uncontended _ _ q Hq0 (po_current _ Hok)) as (km & Hl & Hw & Hwo & Hq & _ & _).
  exists (fset km s). split; [|by exists km, q]. unfold lock_pages. rewrite asks_bind, key_int by done. by apply zoom_done.
Qed.

Lemma unlock_pages_ok s s1 l i fuel :
  pages_ok s → pages_locked s s1 → length l = 255%nat → 0 ≤ i ≤ 255 → Forall (λ i, 0 ≤ i < 256) l →
  ∃ s2, unlock_pages fuel (set_pages l i s1) = Done 1 s2 ∧ pages_ok s2 ∧ pages_stack s2 = l ∧ current_index s2 = i ∧
    km_world (pg_km s2) = km_world (pg_km s).
Proof.
  intros Hok (km & q & -> & Hw & Hwo & Hq) Hl Hi Hall.
  assert (Hnull : null_alive km) by (unfold null_alive; rewrite Hwo; apply Hok).
  destruct (unlock_uncontended _ _ fuel q Hw Hnull) as (km2 & Hu & Hw2 & Hwo2 & Hq2 & _ & _).
  exists (fset km2 (set_pages l i (fset km s))). split.
  { unfold unlock_pages. rewrite asks_bind.
    change (memory_mutex_key (set_pages l i (fset km s))) with (memory_mutex_key s).
    rewrite key_int by done. exact (zoom_done _ (set_pages l i (fset km s)) 1 km2 Hu). }
  split; [|split; [done|split; [done|]]]; [|exact (eq_trans Hwo2 Hwo)].
  pose proof (po_key _ Hok). destruct (po_current _ Hok) as [p Hp].
  split; try done; [by exists q|unfold null_alive; cbn; rewrite Hwo2, Hwo; apply Hok|].
  exists p. cbn. by rewrite Hwo2, Hwo.
Qed.

(** Taking a page takes the next one of the stack; the mutex is free again. *)
Lemma get_page_spec s fuel size p rest :
  pages_ok s → free_pages s = p :: rest →
  ∃ s', get_page fuel size s = Done p s' ∧ pages_ok s' ∧ free_pages s' = rest ∧
    current_index s' = current_index s + 1 ∧ pages_stack s' = pages_stack s.
Proof.
  intros Hok Hfr. destruct (lock_pages_ok s Hok) as (s1 & Hl & Hs1).
  unfold free_pages in Hfr. pose proof (po_index _ Hok) as Hi.
  destruct (drop (Z.to_nat (current_index s)) (pages_stack s)) as [|i l] eqn:Hd; [done|]. injection Hfr as <- <-.
  assert (Hget : pages_stack s !! Z.to_nat (current_index s) = Some i).
  { rewrite <-(Nat.add_0_r (Z.to_nat _)), <-lookup_drop. by rewrite Hd. }
  pose proof (lookup_lt_Some _ _ _ Hget) as Hlt. rewrite (po_length _ Hok) in Hlt.
  pose proof (Forall_lookup_1 _ _ _ _ (po_pages _ Hok) Hget) as Hri. cbn beta in Hri.
  destruct (unlock_pages_ok s s1 (pages_stack s) (current_index s + 1) fuel Hok Hs1 (po_length _ Hok) ltac:(lia) (po_pages _ Hok))
    as (s2 & Hu & Hok2 & Hst & Hci & _).
  exists s2. split; [|split; [done|split; [|by rewrite Hci]]].
  - unfold get_page. rewrite (bind_done _ _ _ _ _ Hl), asks_bind. destruct Hs1 as (km & ? & -> & _).
    change (current_index (fset km s)) with (current_index s).
    rewrite (proj2 (Z.ltb_lt (current_index s) STACK_SIZE)) by (change STACK_SIZE with 255; lia).
    rewrite (asksO_bind _ _ (fset km s) i) by (cbn; rewrite aget_nat by lia; done).
    rewrite modify_bind. rewrite (wrap_u_id 8) by (change (2 ^ 8) with 256; lia).
    change (pages_stack (fset km s)) with (pages_stack s). rewrite (bind_done _ _ _ _ _ Hu).
    unfold mret, M_ret, page_address. f_equal. apply wrap_u_id. unfold PAGE_SIZE, DATA_ADDRESS. lia.
  - unfold free_pages. rewrite Hst, Hci, Z2Nat.inj_add, Nat.add_1_r by lia.
    f_equal. rewrite (drop_S _ i) in Hd by done. by injection Hd.
Qed.

(** The pages are a stack.  [get_page] gives the next page; [store_page] puts a page
    of the area back on top, so that it is the next to be given, and fails when none is
    out.  The mutex is taken and free again. *)
Theorem page_stack_correct s fuel size i :
  pages_ok s → 0 ≤ i < 256 →
  (∀ p rest, free_pages s = p :: rest → ∃ s', get_page fuel size s = Done p s' ∧ pages_ok s' ∧ free_pages s' = rest) ∧
  (current_index s = 0 → ∃ s', store_page fuel (page_address i) s = Done 0 s' ∧ pages_ok s' ∧ free_pages s' = free_pages s) ∧
  (0 < current_index s → ∃ s', store_page fuel (page_address i) s = Done 1 s' ∧ pages_ok s' ∧
     free_pages s' = page_address i :: free_pages s).
Proof.
  intros Hok Hri. pose proof (po_index _ Hok) as Hi. split; [|split].
  - intros p rest Hfr. destruct (get_page_spec s fuel size p rest Hok Hfr) as (s' & ? & ? & ? & _). by exists s'.
  - intros Hz. destruct (lock_pages_ok s Hok) as (s1 & Hl & Hs1).
    destruct (unlock_pages_ok s s1 (pages_stack s) (current_index s) fuel Hok Hs1 (po_length _ Hok) Hi (po_pages _ Hok))
      as (s2 & Hu & Hok2 & Hst & Hci & _).
    exists s2. split; [|split; [done|by unfold free_pages; rewrite Hst, Hci]].
    unfold store_page. rewrite (bind_done _ _ _ _ _ Hl), asks_bind. destruct Hs1 as (km & ? & -> & _).
    change (current_index (fset km s)) with (current_index s). rewrite Hz. cbn [Z.ltb Z.compare].
    assert (Hsame : set_pages (pages_stack s) (current_index s) (fset km s) = fset km s) by done.
    rewrite Hsame in Hu. by rewrite (bind_done _ _ _ _ _ Hu).
  - intros Hpos. destruct (lock_pages_ok s Hok) as (s1 & Hl & Hs1).
    set (l := aput (pages_stack s) (current_index s - 1) i).
    assert (Hll : length l = 255%nat) by (unfold l; rewrite length_aput; apply Hok).
    destruct (unlock_pages_ok s s1 l (current_index s - 1) fuel Hok Hs1 Hll ltac:(lia)) as (s2 & Hu & Hok2 & Hst & Hci & _).
    { apply Forall_insert; [apply Hok|done]. }
    exists s2. split; [|split; [done|]].
    + unfold store_page. rewrite (bind_done _ _ _ _ _ Hl), asks_bind. destruct Hs1 as (km & ? & -> & _).
      change (current_index (fset km s)) with (current_index s). rewrite (proj2 (Z.ltb_lt _ _)) by lia.
      rewrite (wrap_u_id 8 (current_index s - 1)) by (change (2 ^ 8) with 256; lia).
      assert (Hbyte : uint8 (uint64 (page_address i - DATA_ADDRESS) / PAGE_SIZE) = i).
      { unfold page_address. replace (i * PAGE_SIZE + DATA_ADDRESS - DATA_ADDRESS) with (i * PAGE_SIZE) by lia.
        rewrite (wrap_u_id 64) by (unfold PAGE_SIZE; lia). rewrite Z.div_mul by done. apply wrap_u_id. change (2 ^ 8) with 256. lia. }
      rewrite Hbyte. erewrite modifyO_bind.
      2: { cbn. rewrite aset_some by (rewrite (po_length _ Hok); lia). done. }
      by rewrite (bind_done _ _ _ _ _ Hu).
    + unfold free_pages. rewrite Hst, Hci. unfold l, aput.
      rewrite (drop_S _ i) by (apply list_lookup_insert_eq; rewrite (po_length _ Hok); lia).
      replace (S (Z.to_nat (current_index s - 1))) with (Z.to_nat (current_index s)) by lia.
      cbn [fmap list_fmap]. by rewrite drop_insert_lt by lia.
Qed.

(** Taking [n] pages. *)
Fixpoint get_pages (fuel n : nat) : M (PageState W H) (list Z) :=
  match n with O => mret [] | S n' => p ← get_page fuel PAGE_SIZE; ps ← get_pages fuel n'; mret (p :: ps) end.

Lemma get_pages_spec s fuel n :
  pages_ok s → (n ≤ length (free_pages s))%nat →
  ∃ s', get_pages fuel n s = Done (take n (free_pages s)) s' ∧ pages_ok s' ∧ free_pages s' = drop n (free_pages s).
Proof.
  revert s. induction n as [|n IH]; intros s Hok Hn; [by exists s|].
  destruct (free_pages s) as [|p rest] eqn:Hfr; [simpl in Hn; lia|].
  destruct (get_page_spec s fuel PAGE_SIZE p rest Hok Hfr) as (s1 & Hg & Hok1 & Hfr1 & _).
  destruct (IH s1 Hok1) as (s2 & Hgs & Hok2 & Hfr2); [rewrite Hfr1; simpl in Hn; lia|].
  exists s2. rewrite Hfr1 in Hgs, Hfr2. split; [|done]. cbn [get_pages].
  rewrite (bind_done _ _ _ _ _ Hg), (bind_done _ _ _ _ _ Hgs). done.
Qed.

(** As [initialize_memory_allocator] leaves them: the pages 1 to 254, and last of all the
    page 0, which was to be kept for other uses. *)
Definition boot_pages : list Z := page_address <$> (seqZ 1 254 ++ [0]).

Lemma initialize_memory_allocator_spec s :
  pages_stack s = replicate 255 0 → current_index s = 0 →
  ∃ s', initialize_memory_allocator s = Some s' ∧ free_pages s' = boot_pages ∧
    s' = set_pages (seqZ 1 254 ++ [0]) 0 s.
Proof.
  intros Hst Hci. unfold initialize_memory_allocator. rewrite Hst.
  assert (Hf : for_range (Z.to_nat (STACK_SIZE - 1)) 0 (λ i l, aset l i (i + 1)) (replicate 255 0) = Some (seqZ 1 254 ++ [0]))
    by (vm_compute; reflexivity).
  rewrite Hf. cbn [mbind option_bind]. rewrite Hci. eexists. split; [done|]. split; [|done]. done.
Qed.

(** From the initialised stack any number of pages up to 255 can be taken without a
    failure; they are the first of the list of all pages, so no page is given twice. *)
Theorem get_pages_distinct s s0 fuel n :
  pages_stack s0 = replicate 255 0 → current_index s0 = 0 → initialize_memory_allocator s0 = Some s →
  pages_ok s → (n ≤ 255)%nat →
  ∃ s', get_pages fuel n s = Done (take n boot_pages) s' ∧ NoDup (take n boot_pages) ∧ pages_ok s'.
Proof.
  intros Hst Hci Hinit Hok Hn. destruct (initialize_memory_allocator_spec s0 Hst Hci) as (s1 & Hi & Hfr & _).
  assert (s1 = s) as -> by congruence.
  destruct (get_pages_spec s fuel n Hok) as (s' & Hg & Hok' & _).
  { rewrite Hfr. change (length boot_pages) with 255%nat. lia. }
  exists s'. rewrite Hfr in Hg. split; [done|]. split; [|done].
  eapply sublist_NoDup; [apply (bool_decide_unpack (NoDup boot_pages)); vm_compute; exact I|apply sublist_take].
Qed.

(** Asking for a page when none is left blocks the caller for ever: it waits for the
    mutex that it holds itself. *)
Theorem get_page_exhausted s fuel size p pid a h :
  pages_ok s → free_pages s = [] → w_ok (km_world (pg_km s)) →
  w_currentProcess (km_world (pg_km s)) = Some p → w_isProc (km_world (pg_km s)) p pid →
  pa_alloc (q_alloc (km_queues (pg_km s))) sizeof_node = Some (a, h) → a ≠ NULL →
  ∃ s' k m, get_page fuel size s = Yield s' k ∧
    kmutex_at (pg_km s') (memory_mutex_key s) m [(a, p)] ∧ locked m = LOCKED ∧
    w_procs (km_world (pg_km s')) pid = Some BLOCKED.
Proof.
  intros Hok Hfr Hw Hp Hproc Ha Hnull. destruct (lock_pages_ok s Hok) as (s1 & Hl & Hs1).
  destruct Hs1 as (km & ? & -> & (m & Hat & Hm & _) & Hwo & Hq).
  destruct (w_isProc_law _ _ _ Hw Hproc) as (_ & Hpid & st & Hst & _).
  destruct (mutex_lock_held km (memory_mutex_key s) m [] p pid a h Hat Hm) as (qs & w & Hy & Hqs & Hc);
    [by rewrite Hwo|by rewrite Hwo|by rewrite Hq|done|apply not_elem_of_nil|by rewrite Hwo|].
  assert (Hci : current_index s = 255).
  { apply fmap_nil_inv in Hfr. pose proof (f_equal length Hfr) as Hlen. rewrite length_drop, (po_length _ Hok) in Hlen.
    simpl in Hlen. pose proof (po_index _ Hok). lia. }
  eexists (fset (put_km (memory_mutex_key s) (set_locked LOCKED m) qs w km) s), _, (set_locked LOCKED m).
  split; [|split; [|split; [done|]]].
  - unfold get_page. rewrite (bind_done _ _ _ _ _ Hl), asks_bind. change (current_index (fset km s)) with (current_index s).
    rewrite Hci. change (255 <? STACK_SIZE) with false. apply bind_yield. unfold lock_pages. rewrite asks_bind.
    change (memory_mutex_key (fset km s)) with (memory_mutex_key s). rewrite key_int by done.
    unfold zoom_field, zoom. change (fget (fset km s)) with km. rewrite Hy. done.
  - eapply put_km_at; [exact Hat|apply Hat|exact Hqs].
  - destruct (w_change_law _ pid BLOCKED Hw) as (w2 & Hw2 & _ & _ & _ & Hq2). rewrite Hwo in Hc.
    assert (w2 = w) as -> by congruence. change (w_procs w pid = Some BLOCKED). by rewrite Hq2, decide_True, Hst.
Qed.
End stack.

(** ** Witnesses *)

(** Mutex 0 of the example guards both stacks. *)
Definition demo_pages (l : list Z) (i : Z) : PageState Toy Z := set_keys 0 0 (set_pages l i (pages_bss demo_free)).

Lemma demo_pages_ok l i :
  length l = 255%nat → 0 ≤ i ≤ 255 → Forall (λ i, 0 ≤ i < 256) l → pages_ok (demo_pages l i).
Proof.
  intros Hl Hi Hall. split; try done.
  - exists 4096, (demo_mutex UNLOCKED). split; [apply demo_free_at|done].
  - exists 0. done.
  - by eexists.
Qed.

Lemma boot_stack_ok : pages_ok (demo_pages (seqZ 1 254 ++ [0]) 0).
Proof.
  apply demo_pages_ok; [done|lia|]. apply (bool_decide_unpack _). vm_compute. exact I.
Qed.

(** The page after 3 is 4; 3 given back comes out again. *)
Lemma page_stack_correct_witness :
  ∃ s1, get_page 0 100 (demo_pages (seqZ 1 254 ++ [0]) 3) = Done (page_address 4) s1 ∧
  ∃ s2, store_page 0 (page_address 3) (demo_pages (seqZ 1 254 ++ [0]) 3) = Done 1 s2 ∧
    head (free_pages s2) = Some (page_address 3).
Proof.
  assert (Hok : pages_ok (demo_pages (seqZ 1 254 ++ [0]) 3)).
  { apply demo_pages_ok; [done|lia|]. apply (bool_decide_unpack _). vm_compute. exact I. }
  destruct (page_stack_correct (demo_pages (seqZ 1 254 ++ [0]) 3) 0 100 3 Hok ltac:(lia)) as (Hget & _ & Hstore).
  destruct (Hget _ _ eq_refl) as (s1 & H1 & _). destruct (Hstore eq_refl) as (s2 & H2 & _ & H3).
  exists s1. split; [exact H1|]. exists s2. split; [exact H2|]. by rewrite H3.
Defined.

Lemma get_pages_distinct_witness :
  ∃ s', get_pages 0 2 (demo_pages (seqZ 1 254 ++ [0]) 0) = Done [page_address 1; page_address 2] s'.
Proof.
  destruct (get_pages_distinct (demo_pages (seqZ 1 254 ++ [0]) 0) (demo_pages (replicate 255 0) 0) 0 2)
    as (s' & Hg & _); [done|done|vm_compute; done|apply boot_stack_ok|lia|]. exists s'. exact Hg.
Defined.

Lemma get_page_exhausted_witness :
  ∃ s' k m, get_page 0 100 (demo_pages (replicate 255 1) 255) = Yield s' k ∧
    kmutex_at (pg_km s') 0 m [(65536, 3)] ∧ locked m = LOCKED ∧ w_procs (km_world (pg_km s')) 1 = Some BLOCKED.
Proof.
  assert (Hok : pages_ok (demo_pages (replicate 255 1) 255)) by (apply demo_pages_ok; [done|lia|apply Forall_replicate; lia]).
  destruct (get_page_exhausted (demo_pages (replicate 255 1) 255) 0 100 3 1 65536 (65536 + 17 * 4096) Hok)
    as (s' & k & m & Hg & Hat & Hl & Hb); [done|exact I|done|done|done|done|].
  exists s', k, m. split; [exact Hg|]. split; [exact Hat|]. split; [exact Hl|exact Hb].
Defined.
