(* ===== verification/Mutex.v ===== *)
(** * Mutexes ([Kernel/mutex.c], the table of [Mutex] records)

    The first interface of [mutex.c] (the file calls it the old implementation; the
    semaphores, the pipes and the system calls use it): a table of named mutexes, each
    with an array of blocked pids.  The code runs over any [World]. *)

From S2P Require Import Prelude KMonad CString Structs World.

Definition MAX_MUTEXES : Z := 128.
Definition MAX_BLOCKED_QUEUE_SIZE : Z := 20.
Definition MAX_MUTEX_PIDS : Z := 20.
Definition FALSE : Z := 0.
Definition TRUE : Z := 1.
Definition MUTEX_NOT_FOUND : Z := -1.
Definition NO_SPACE_LEFT_M : Z := -2.
Definition NO_BLOCKED_QUEUE_VALUE : Z := -1.
Definition NO_PID_VALUE : Z := -1.
Definition ACQUIRED : Z := 1.
Definition ERROR : Z := -4.

Record Mutex := mkMutex {
  m_used : Z;
  m_name : Z;
  m_queue : list Z;
  m_usingPids : list Z;
  m_mutex : Z;
  m_cardinalBlocked : Z;
  m_cardinalUsing : Z;
  m_pidCreator : Z;
}.

Definition m_set_used v m := mkMutex v (m_name m) (m_queue m) (m_usingPids m) (m_mutex m)
  (m_cardinalBlocked m) (m_cardinalUsing m) (m_pidCreator m).
Definition m_set_name v m := mkMutex (m_used m) v (m_queue m) (m_usingPids m) (m_mutex m)
  (m_cardinalBlocked m) (m_cardinalUsing m) (m_pidCreator m).
Definition m_set_queue v m := mkMutex (m_used m) (m_name m) v (m_usingPids m) (m_mutex m)
  (m_cardinalBlocked m) (m_cardinalUsing m) (m_pidCreator m).
Definition m_set_mutex v m := mkMutex (m_used m) (m_name m) (m_queue m) (m_usingPids m) v
  (m_cardinalBlocked m) (m_cardinalUsing m) (m_pidCreator m).
Definition m_set_card v m := mkMutex (m_used m) (m_name m) (m_queue m) (m_usingPids m)
  (m_mutex m) v (m_cardinalUsing m) (m_pidCreator m).
Definition m_set_creator v m := mkMutex (m_used m) (m_name m) (m_queue m) (m_usingPids m)
  (m_mutex m) (m_cardinalBlocked m) (m_cardinalUsing m) v.

(** The array before [initializeMutexes] runs. *)
Definition mutex_bss : Mutex :=
  mkMutex 0 NULL (replicate (Z.to_nat MAX_BLOCKED_QUEUE_SIZE) 0)
    (replicate (Z.to_nat MAX_MUTEX_PIDS) 0) 0 0 0 0.

Section mutex.
Context {W : Type} `{World W}.

Record MutexState := mkMS {
  mutexes : list Mutex;
  adminMutex : Z;
  m_world : W;
}.
Implicit Types s : MutexState.

Definition with_mutex (i : Z) (f : Mutex → option Mutex) s : option MutexState :=
  m ← aget (mutexes s) i; m' ← f m; l ← aset (mutexes s) i m'; Some (mkMS l (adminMutex s) (m_world s)).
Definition with_world (f : W → option W) s : option MutexState :=
  w ← f (m_world s); Some (mkMS (mutexes s) (adminMutex s) w).
Definition m_currentPid s : option Z := w_currentPid (m_world s).
Definition m_changeState (pid : Z) (st : processState) : MutexState → option MutexState :=
  with_world (w_changeState pid st).

(** ** The table *)

Definition clearArray (array : list Z) (length value : Z) : option (list Z) :=
  for_range (Z.to_nat length) 0 (λ i a, aset a i value) array.

Definition cleanMutex (index : Z) s : option MutexState :=
  if MAX_MUTEXES <=? index then Some s
  else with_mutex index (λ m,
    let m := m_set_mutex 0 (m_set_card 0 (m_set_name NULL (m_set_used FALSE m))) in
    q ← clearArray (m_queue m) MAX_BLOCKED_QUEUE_SIZE NO_BLOCKED_QUEUE_VALUE;
    Some (m_set_queue q m)) s.

Definition initializeMutexes s : option MutexState :=
  s ← for_range (Z.to_nat MAX_MUTEXES) 0 cleanMutex s;
  let s := mkMS (mutexes s) 0 (m_world s) in
  with_mutex (adminMutex s) (λ m, Some (m_set_used TRUE m)) s.

(** Names are compared as C strings in the memory the call runs in, [fuel] characters
    at most. *)
Definition getIndex (fuel : nat) (mutexName : Z) s : option Z :=
  r ← scan_for (Z.to_nat MAX_MUTEXES) 0 (λ i,
    m ← aget (mutexes s) i;
    c ← strcmp fuel (w_memory (m_world s)) (m_name m) mutexName;
    Some ((c =? 0) && (m_used m =? TRUE)));
  Some (default MUTEX_NOT_FOUND r).

Definition getFreeSpot s : option Z :=
  r ← scan_for (Z.to_nat MAX_MUTEXES) 0 (λ i, m ← aget (mutexes s) i; Some (m_used m =? FALSE));
  Some (default NO_SPACE_LEFT_M r).

Definition createMutex (mutexName : Z) s : option (Z * MutexState) :=
  pid ← m_currentPid s;
  index ← getFreeSpot s;
  if index =? NO_SPACE_LEFT_M then Some (ERROR, s)
  else
    s ← with_mutex index (λ m, Some (m_set_creator pid (m_set_name mutexName (m_set_used TRUE m)))) s;
    Some (index, s).

(** ** Locking *)

Definition isValidMutex (mutex : Z) s : option Z :=
  if MAX_MUTEXES <=? mutex then Some FALSE else m_used <$> aget (mutexes s) mutex.

Definition isQueueFull (mutex : Z) s : option bool :=
  m ← aget (mutexes s) mutex; Some (MAX_BLOCKED_QUEUE_SIZE <=? m_cardinalBlocked m).

Definition getFreeSpotInBlockedQueue (blocked : list Z) (length : Z) : option Z :=
  r ← scan_for (Z.to_nat length) 0 (λ i, v ← aget blocked i; Some (v =? NO_BLOCKED_QUEUE_VALUE));
  Some (default NO_SPACE_LEFT_M r).

Definition getFreeSpotInUsingQueue (usings : list Z) (length : Z) : option Z :=
  r ← scan_for (Z.to_nat length) 0 (λ i, v ← aget usings i; Some (v =? NO_PID_VALUE));
  Some (default NO_SPACE_LEFT_M r).

Definition addToBlocked (mutex pid : Z) s : option MutexState :=
  m ← aget (mutexes s) mutex;
  index ← getFreeSpotInBlockedQueue (m_queue m) MAX_BLOCKED_QUEUE_SIZE;
  if index =? NO_SPACE_LEFT_M then with_world (λ w, Some (w_print (OStr "MUERTE5") w)) s
  else with_mutex mutex (λ m,
    q ← aset (m_queue m) index pid;
    Some (m_set_card (int32 (m_cardinalBlocked m + 1)) (m_set_queue q m))) s.

(** [lock CMPXCHG8B [rdi]] with all of edx:eax zero and ecx:ebx = 1: the eight bytes at
    [&mutex] are the fields [mutex] and [cardinalBlocked]; both must be 0 for the
    exchange, which stores 1 and 0. *)
Definition _testAndSet (mutex : Z) s : option (Z * MutexState) :=
  m ← aget (mutexes s) mutex;
  if (m_mutex m =? 0) && (m_cardinalBlocked m =? 0)
  then s ← with_mutex mutex (λ m, Some (m_set_card 0 (m_set_mutex 1 m))) s; Some (1, s)
  else Some (0, s).

(** When the queue is full the code goes on with an uninitialised pid. *)
Definition lockMutex (mutex : Z) : M MutexState unit :=
  valid ← asksO (isValidMutex mutex);
  if valid =? 0 then mret tt
  else
    lock ← calls (_testAndSet mutex);
    if negb (lock =? ACQUIRED) then
      full ← asksO (isQueueFull mutex);
      pid ← (if (full : bool) then λ _, Fault
             else
               pid ← asksO m_currentPid;
               modifyO (addToBlocked mutex pid) ;;
               mret pid);
      modifyO (m_changeState pid BLOCKED) ;;
      _yield
    else mret tt.

Definition unblockProcess (mutex : Z) s : option MutexState :=
  m ← aget (mutexes s) mutex;
  r ← scan_for (Z.to_nat MAX_BLOCKED_QUEUE_SIZE) 0
        (λ i, v ← aget (m_queue m) i; Some (negb (v =? NO_BLOCKED_QUEUE_VALUE)));
  match r with
  | None => Some s
  | Some i =>
      v ← aget (m_queue m) i;
      s ← m_changeState v READY s;
      with_mutex mutex (λ m, q ← aset (m_queue m) i NO_BLOCKED_QUEUE_VALUE; Some (m_set_queue q m)) s
  end.

Definition freeMutex (mutex : Z) s : option MutexState :=
  valid ← isValidMutex mutex s;
  if valid =? 0 then Some s
  else
    m ← aget (mutexes s) mutex;
    if 0 <? m_cardinalBlocked m then
      s ← unblockProcess mutex s;
      with_mutex mutex (λ m, Some (m_set_card (int32 (m_cardinalBlocked m - 1)) m)) s
    else with_mutex mutex (λ m, Some (m_set_mutex 0 m)) s.

Definition closeMutex (index : Z) s : option MutexState :=
  valid ← isValidMutex index s;
  if valid =? 0 then Some s
  else
    pid ← m_currentPid s;
    m ← aget (mutexes s) index;
    if pid =? m_pidCreator m then with_mutex index (λ m, Some (m_set_used FALSE m)) s else Some s.

Definition getMutex (fuel : nat) (mutexName : Z) : M MutexState Z :=
  admin ← asks adminMutex;
  lockMutex admin ;;
  index ← asksO (getIndex fuel mutexName);
  index ← (if index =? MUTEX_NOT_FOUND then calls (createMutex mutexName) else mret index);
  admin ← asks adminMutex;
  modifyO (freeMutex admin) ;;
  mret index.
End mutex.
Arguments MutexState : clear implicits.
