(* ===== verification/MutexThms.v ===== *)
(** * Properties of the mutexes

    A well-formed record is an abstract lock: free, or held with a list of waiters (the
    occupied places of the array, in order), so a mutex of the table is a [Lock]: mutual
    exclusion and the absence of lost wake-ups follow for any number of processes. *)

From S2P Require Import Prelude KMonad CString Structs World Toy Mutex LockSystem.

(** ** Records *)

Definition waiters (m : Mutex) : list Z := filter (λ v, v ≠ NO_BLOCKED_QUEUE_VALUE) (m_queue m).

Record mutex_wf (m : Mutex) : Prop := {
  mwf_queue : length (m_queue m) = Z.to_nat MAX_BLOCKED_QUEUE_SIZE;
  mwf_card : m_cardinalBlocked m = Z.of_nat (length (waiters m));
  mwf_value : m_mutex m = 0 ∨ m_mutex m = 1;
  mwf_held : waiters m ≠ [] → m_mutex m = 1;
}.

Lemma waiters_le m : mutex_wf m → (length (waiters m) ≤ 20)%nat.
Proof.
  intros Hwf. pose proof (mwf_queue _ Hwf) as Hq.
  change (Z.to_nat MAX_BLOCKED_QUEUE_SIZE) with 20%nat in Hq. rewrite <-Hq. apply length_filter.
Qed.

(** *** The array of waiters *)

Section queue.
Implicit Types q : list Z.

Lemma filter_insert_free q (i : nat) (v : Z) :
  q !! i = Some NO_BLOCKED_QUEUE_VALUE → v ≠ NO_BLOCKED_QUEUE_VALUE →
  ∃ l1 l2, filter (λ v, v ≠ NO_BLOCKED_QUEUE_VALUE) q = l1 ++ l2 ∧
    filter (λ v, v ≠ NO_BLOCKED_QUEUE_VALUE) (<[i:=v]> q) = l1 ++ v :: l2.
Proof.
  intros Hi Hv. pose proof (lookup_lt_Some _ _ _ Hi) as Hlt.
  assert (Hq : ∀ P `{∀ x : Z, Decision (P x)}, filter P q = filter P (take i q ++ NO_BLOCKED_QUEUE_VALUE :: drop (S i) q))
    by (intros; by rewrite take_drop_middle).
  rewrite Hq, insert_take_drop by done.
  rewrite !list.filter_app, filter_cons_False, filter_cons_True by (done || intros Hn; by apply Hn).
  by eexists _, _.
Qed.

Lemma filter_insert_taken q (i : nat) (v : Z) :
  q !! i = Some v → v ≠ NO_BLOCKED_QUEUE_VALUE →
  (∀ j w, (j < i)%nat → q !! j = Some w → w = NO_BLOCKED_QUEUE_VALUE) →
  ∃ l, filter (λ v, v ≠ NO_BLOCKED_QUEUE_VALUE) q = v :: l ∧
    filter (λ v, v ≠ NO_BLOCKED_QUEUE_VALUE) (<[i:=NO_BLOCKED_QUEUE_VALUE]> q) = l.
Proof.
  intros Hi Hv Hfirst. pose proof (lookup_lt_Some _ _ _ Hi) as Hlt.
  assert (Hq : ∀ P `{∀ x : Z, Decision (P x)}, filter P q = filter P (take i q ++ v :: drop (S i) q))
    by (intros; by rewrite take_drop_middle).
  rewrite Hq, insert_take_drop by done.
  rewrite !list.filter_app, filter_cons_True, filter_cons_False by (done || intros Hn; by apply Hn).
  assert (Hnil : filter (λ v, v ≠ NO_BLOCKED_QUEUE_VALUE) (take i q) = []).
  { apply elem_of_nil_inv. intros w [Hw Hin]%list_elem_of_filter. apply Hw.
    apply list_elem_of_lookup in Hin as [j Hj]. apply lookup_take_Some in Hj as [Hj Hji].
    by apply (Hfirst j). }
  rewrite Hnil. by eexists.
Qed.

(** The first free place, when there are fewer than 20 waiters. *)
Lemma free_spot_spec q :
  length q = Z.to_nat MAX_BLOCKED_QUEUE_SIZE →
  ∃ r, getFreeSpotInBlockedQueue q MAX_BLOCKED_QUEUE_SIZE = Some r ∧
    ((r = NO_SPACE_LEFT_M ∧ length (filter (λ v, v ≠ NO_BLOCKED_QUEUE_VALUE) q) = 20%nat) ∨
     (0 ≤ r < MAX_BLOCKED_QUEUE_SIZE ∧ q !! Z.to_nat r = Some NO_BLOCKED_QUEUE_VALUE ∧
      ∀ j, 0 ≤ j < r → q !! Z.to_nat j ≠ Some NO_BLOCKED_QUEUE_VALUE)).
Proof.
  intros Hq. unfold getFreeSpotInBlockedQueue.
  destruct (scan_for_total (Z.to_nat MAX_BLOCKED_QUEUE_SIZE) 0
    (λ i, v ← aget q i; Some (v =? NO_BLOCKED_QUEUE_VALUE))
    (λ i, default 0 (q !! Z.to_nat i) =? NO_BLOCKED_QUEUE_VALUE)) as (r & -> & Hr).
  { intros j Hj. destruct (aget_some q j) as [v Hv]; [lia|]. rewrite Hv. simpl.
    rewrite aget_nat in Hv by lia. by rewrite Hv. }
  eexists. split; [done|]. destruct r as [r|]; simpl.
  - destruct Hr as (Hr & Hv & Hfirst). right. unfold MAX_BLOCKED_QUEUE_SIZE in *. split; [lia|].
    destruct (lookup_lt_is_Some_2 q (Z.to_nat r)) as [v E]; [lia|].
    rewrite E in *. simpl in Hv. apply Z.eqb_eq in Hv as ->. split; [done|].
    intros j Hj Hq'. specialize (Hfirst j Hj). rewrite Hq' in Hfirst. done.
  - left. split; [done|].
    assert (Hall : filter (λ v, v ≠ NO_BLOCKED_QUEUE_VALUE) q = q); [|by rewrite Hall].
    apply filter_all. intros v [i Hi]%list_elem_of_lookup ->.
    pose proof (lookup_lt_Some _ _ _ Hi). specialize (Hr (Z.of_nat i)).
    rewrite Nat2Z.id, Hi in Hr. simpl in Hr. lia.
Qed.

(** The first waiter. *)
Lemma first_waiter_spec q :
  length q = Z.to_nat MAX_BLOCKED_QUEUE_SIZE →
  filter (λ v, v ≠ NO_BLOCKED_QUEUE_VALUE) q ≠ [] →
  ∃ i v l, scan_for (Z.to_nat MAX_BLOCKED_QUEUE_SIZE) 0
      (λ i, v ← aget q i; Some (negb (v =? NO_BLOCKED_QUEUE_VALUE))) = Some (Some i) ∧
    0 ≤ i < MAX_BLOCKED_QUEUE_SIZE ∧ aget q i = Some v ∧
    filter (λ v, v ≠ NO_BLOCKED_QUEUE_VALUE) q = v :: l ∧
    filter (λ v, v ≠ NO_BLOCKED_QUEUE_VALUE) (aput q i NO_BLOCKED_QUEUE_VALUE) = l.
Proof.
  intros Hq Hne.
  destruct (scan_for_total (Z.to_nat MAX_BLOCKED_QUEUE_SIZE) 0
    (λ i, v ← aget q i; Some (negb (v =? NO_BLOCKED_QUEUE_VALUE)))
    (λ i, negb (default 0 (q !! Z.to_nat i) =? NO_BLOCKED_QUEUE_VALUE))) as (r & -> & Hr).
  { intros j Hj. destruct (aget_some q j) as [v Hv]; [lia|]. rewrite Hv. simpl.
    rewrite aget_nat in Hv by lia. by rewrite Hv. }
  destruct r as [i|].
  - destruct Hr as (Hi & Hv & Hfirst). unfold MAX_BLOCKED_QUEUE_SIZE in *.
    destruct (lookup_lt_is_Some_2 q (Z.to_nat i)) as [v E]; [lia|].
    rewrite E in Hv. simpl in Hv. apply negb_true_iff, Z.eqb_neq in Hv.
    destruct (filter_insert_taken q (Z.to_nat i) v E Hv) as (l & Hl & Hl').
    { intros j w Hj Hw. specialize (Hfirst (Z.of_nat j) ltac:(lia)).
      rewrite Nat2Z.id, Hw in Hfirst. simpl in Hfirst. by apply negb_false_iff, Z.eqb_eq in Hfirst. }
    exists i, v, l. split_and!; [done|lia|lia| |done|done]. rewrite aget_nat by lia. done.
  - exfalso. apply Hne, elem_of_nil_inv. intros v [Hv [i Hi]%list_elem_of_lookup]%list_elem_of_filter.
    pose proof (lookup_lt_Some _ _ _ Hi). specialize (Hr (Z.of_nat i) ltac:(lia)).
    rewrite Nat2Z.id, Hi in Hr. simpl in Hr. by apply negb_false_iff, Z.eqb_eq in Hr.
Qed.
End queue.

(** ** The operations on a well-formed mutex *)

Section operations.
Context {W : Type} `{WorldLaws W}.
Implicit Types s : MutexState W.

(** Mutex [i] of the table is in use and is the well-formed record [m]. *)
Record mutex_at s (i : Z) (m : Mutex) : Prop := {
  at_get : aget (mutexes s) i = Some m;
  at_max : i < MAX_MUTEXES;
  at_used : m_used m ≠ 0;
  at_wf : mutex_wf m;
}.

(** [s'] is [s] with another record at [i] and another world. *)
Definition put_mutex (i : Z) (m : Mutex) (w : W) s : MutexState W :=
  mkMS (aput (mutexes s) i m) (adminMutex s) w.

Lemma with_mutex_some s i m f m' :
  aget (mutexes s) i = Some m → f m = Some m' →
  with_mutex i f s = Some (put_mutex i m' (m_world s) s).
Proof.
  intros Hm Hf. unfold with_mutex. rewrite Hm. simpl. rewrite Hf. simpl.
  rewrite aset_some by (by eapply aget_inv). done.
Qed.

Lemma put_get i m w s m0 :
  aget (mutexes s) i = Some m0 → aget (mutexes (put_mutex i m w s)) i = Some m.
Proof. intros Hm. apply aget_aput_eq. by eapply aget_inv. Qed.

Lemma put_get_ne i j m w s m0 :
  aget (mutexes s) i = Some m0 → i ≠ j → aget (mutexes (put_mutex i m w s)) j = aget (mutexes s) j.
Proof. intros Hm Hne. apply aget_aput_ne; [|done]. apply aget_inv in Hm. lia. Qed.

Lemma put_put i m m' w w' s : put_mutex i m (w) (put_mutex i m' w' s) = put_mutex i m w s.
Proof. unfold put_mutex. simpl. unfold aput. by rewrite list_insert_insert_eq. Qed.

Lemma valid_at s i m : mutex_at s i m → isValidMutex i s = Some (m_used m).
Proof.
  intros [Hm Hi _ _]. unfold isValidMutex. rewrite (proj2 (Z.leb_gt _ _)) by done. by rewrite Hm.
Qed.

Lemma lock_free s i m :
  mutex_at s i m → m_mutex m = 0 →
  waiters m = [] ∧ ∃ m', lockMutex i s = Done tt (put_mutex i m' (m_world s) s) ∧
    mutex_wf m' ∧ m_used m' = m_used m ∧ m_mutex m' = 1 ∧ waiters m' = [] ∧
    m_set_mutex 0 m' = m.
Proof.
  intros Hat H0m. pose proof (at_wf _ _ _ Hat) as [Hq Hc Hv Hh].
  assert (Hw : waiters m = []) by (destruct (waiters m); [done|]; rewrite Hh in H0m; done).
  split; [done|]. rewrite Hw in Hc. simpl in Hc.
  exists (m_set_card 0 (m_set_mutex 1 m)). split; [|split_and!; try done].
  - unfold lockMutex. rewrite (asksO_bind _ _ _ _ (valid_at _ _ _ Hat)).
    rewrite (proj2 (Z.eqb_neq _ _)) by apply (at_used _ _ _ Hat).
    rewrite (calls_bind _ _ _ 1 (put_mutex i (m_set_card 0 (m_set_mutex 1 m)) (m_world s) s)); [done|].
    unfold _testAndSet. rewrite (at_get _ _ _ Hat). simpl. rewrite H0m, Hc. simpl.
    by rewrite (with_mutex_some _ _ m _ (m_set_card 0 (m_set_mutex 1 m)) (at_get _ _ _ Hat)).
  - split; [done| |by right|done]. unfold waiters in *. simpl. by rewrite Hw.
  - destruct m; simpl in *; subst; done.
Qed.

Lemma lock_held_test s i m :
  mutex_at s i m → m_mutex m = 1 → _testAndSet i s = Some (0, s).
Proof. intros Hat Hm. unfold _testAndSet. rewrite (at_get _ _ _ Hat). simpl. by rewrite Hm. Qed.

Lemma lock_held s i m p :
  mutex_at s i m → m_mutex m = 1 → (length (waiters m) < 20)%nat →
  w_ok (m_world s) → w_currentPid (m_world s) = Some p → p ≠ -1 →
  ∃ m' w' l1 l2, lockMutex i s = Yield (put_mutex i m' w' s) (Done tt) ∧
    mutex_wf m' ∧ m_used m' = m_used m ∧ m_mutex m' = 1 ∧
    waiters m = l1 ++ l2 ∧ waiters m' = l1 ++ p :: l2 ∧
    w_changeState p BLOCKED (m_world s) = Some w'.
Proof.
  intros Hat Hheld Hlen Hok Hcur Hp. pose proof (at_wf _ _ _ Hat) as [Hq Hc Hv Hh].
  destruct (free_spot_spec (m_queue m) Hq) as (r & Hspot & [[-> Hfull]|(Hr & Hfree & _)]);
    [unfold waiters in Hlen; lia|].
  destruct (filter_insert_free (m_queue m) (Z.to_nat r) p Hfree Hp) as (l1 & l2 & Hl & Hl').
  destruct (w_change_law (m_world s) p BLOCKED Hok) as (w' & Hw' & _).
  set (m' := m_set_card (int32 (m_cardinalBlocked m + 1)) (m_set_queue (aput (m_queue m) r p) m)).
  exists m', w', l1, l2. split; [|split_and!; try done].
  - unfold lockMutex. rewrite (asksO_bind _ _ _ _ (valid_at _ _ _ Hat)).
    rewrite (proj2 (Z.eqb_neq _ _)) by apply (at_used _ _ _ Hat).
    rewrite (calls_bind _ _ _ _ _ (lock_held_test _ _ _ Hat Hheld)). cbn [negb Z.eqb ACQUIRED].
    rewrite (asksO_bind _ _ _ false).
    2: { unfold isQueueFull. rewrite (at_get _ _ _ Hat). simpl. f_equal. apply Z.leb_gt.
         rewrite Hc. unfold MAX_BLOCKED_QUEUE_SIZE. lia. }
    rewrite (bind_done _ _ _ p (put_mutex i m' (m_world s) s)).
    + rewrite (modifyO_bind _ _ _ (put_mutex i m' w' s)); [done|].
      unfold m_changeState, with_world. simpl. by rewrite Hw'.
    + rewrite (asksO_bind _ _ _ p) by done.
      rewrite (modifyO_bind _ _ _ (put_mutex i m' (m_world s) s)); [done|].
      unfold addToBlocked. rewrite (at_get _ _ _ Hat). simpl. rewrite Hspot. simpl.
      rewrite (proj2 (Z.eqb_neq _ _)) by (unfold NO_SPACE_LEFT_M; lia).
      rewrite (with_mutex_some _ _ m _ m' (at_get _ _ _ Hat)); [done|].
      rewrite aset_some by (rewrite Hq; unfold MAX_BLOCKED_QUEUE_SIZE in *; lia). done.
  - assert (Hw2 : waiters m' = l1 ++ p :: l2) by done. split.
    + simpl. rewrite length_aput. done.
    + rewrite Hw2. simpl. unfold waiters in *. rewrite Hl in *. rewrite !length_app in *. simpl in *.
      rewrite Hc, int32_id; unfold INT_MIN, INT_MAX; lia.
    + by right.
    + done.
Qed.

Lemma lock_full s i m :
  mutex_at s i m → m_mutex m = 1 → length (waiters m) = 20%nat → lockMutex i s = Fault.
Proof.
  intros Hat Hheld Hlen. unfold lockMutex. rewrite (asksO_bind _ _ _ _ (valid_at _ _ _ Hat)).
  rewrite (proj2 (Z.eqb_neq _ _)) by apply (at_used _ _ _ Hat).
  rewrite (calls_bind _ _ _ _ _ (lock_held_test _ _ _ Hat Hheld)). cbn [negb Z.eqb ACQUIRED].
  rewrite (asksO_bind _ _ _ true); [done|]. unfold isQueueFull. rewrite (at_get _ _ _ Hat). simpl.
  f_equal. apply Z.leb_le. by rewrite (mwf_card _ (at_wf _ _ _ Hat)), Hlen.
Qed.

Lemma free_nobody s i m :
  mutex_at s i m → waiters m = [] →
  ∃ m', freeMutex i s = Some (put_mutex i m' (m_world s) s) ∧ mutex_wf m' ∧
    m_used m' = m_used m ∧ m_mutex m' = 0 ∧ waiters m' = [] ∧ m' = m_set_mutex 0 m.
Proof.
  intros Hat Hw. pose proof (at_wf _ _ _ Hat) as [Hq Hc Hv Hh]. rewrite Hw in Hc.
  exists (m_set_mutex 0 m). split; [|split_and!; try done].
  - unfold freeMutex. rewrite (valid_at _ _ _ Hat). simpl.
    rewrite (proj2 (Z.eqb_neq _ _)) by apply (at_used _ _ _ Hat).
    rewrite (at_get _ _ _ Hat). simpl. rewrite Hc. simpl.
    apply (with_mutex_some _ _ m); [apply (at_get _ _ _ Hat)|done].
  - split; [done| |by left|].
    + unfold waiters in *. simpl. by rewrite Hw.
    + unfold waiters in *. simpl. by rewrite Hw.
Qed.

Lemma free_handover s i m p l :
  mutex_at s i m → waiters m = p :: l → w_ok (m_world s) →
  ∃ m' w', freeMutex i s = Some (put_mutex i m' w' s) ∧ mutex_wf m' ∧
    m_used m' = m_used m ∧ m_mutex m' = 1 ∧ waiters m' = l ∧
    w_changeState p READY (m_world s) = Some w'.
Proof.
  intros Hat Hw Hok. pose proof (waiters_le _ (at_wf _ _ _ Hat)) as Hle.
  pose proof (at_wf _ _ _ Hat) as [Hq Hc Hv Hh]. rewrite Hw in Hc, Hle. simpl in Hc, Hle.
  destruct (first_waiter_spec (m_queue m) Hq) as (j & v & l' & Hscan & Hj & Hvj & Hl & Hl');
    [unfold waiters in Hw; by rewrite Hw|].
  assert (v = p ∧ l' = l) as [-> ->] by (unfold waiters in Hw; split; congruence).
  destruct (w_change_law (m_world s) p READY Hok) as (w' & Hw' & _).
  set (m1 := m_set_queue (aput (m_queue m) j NO_BLOCKED_QUEUE_VALUE) m).
  set (m' := m_set_card (int32 (m_cardinalBlocked m - 1)) m1).
  exists m', w'. split; [|split_and!; try done].
  - unfold freeMutex. rewrite (valid_at _ _ _ Hat). simpl.
    rewrite (proj2 (Z.eqb_neq _ _)) by apply (at_used _ _ _ Hat).
    rewrite (at_get _ _ _ Hat). simpl. rewrite (proj2 (Z.ltb_lt _ _)) by lia.
    unfold unblockProcess. rewrite (at_get _ _ _ Hat). cbn [mbind option_bind]. rewrite Hscan. simpl. rewrite Hvj. simpl.
    unfold m_changeState, with_world. rewrite Hw'. simpl.
    rewrite (with_mutex_some _ _ m _ m1); [|apply (at_get _ _ _ Hat)|].
    + simpl. rewrite (with_mutex_some _ _ m1 _ m'); [by rewrite put_put|apply (put_get _ _ _ _ m)|done].
      apply (at_get _ _ _ Hat).
    + rewrite aset_some by (rewrite Hq; unfold MAX_BLOCKED_QUEUE_SIZE in *; lia). done.
  - assert (Hw2 : waiters m' = l) by done. split.
    + simpl. by rewrite length_aput.
    + rewrite Hw2. simpl. rewrite Hc, int32_id; unfold INT_MIN, INT_MAX; lia.
    + right. apply Hh. by rewrite Hw.
    + intros _. apply Hh. by rewrite Hw.
  - apply Hh. by rewrite Hw.
Qed.
End operations.

(** ** A mutex of the table is a lock *)

Section mutex_lock.
Context {W : Type} `{WorldLaws W} (i : Z).
Implicit Types s : MutexState W.

#[local] Instance mutex_lock : Lock (MutexState W) := {|
  lk_call := lockMutex i;
  lk_free := freeMutex i;
  lk_pid := m_currentPid;
  lk_procs s := w_procs (m_world s);
  lk_ok s := w_ok (m_world s);
  lk_at s ws held := ∃ m, mutex_at s i m ∧ waiters m = ws ∧ m_mutex m = c_bool held;
  lk_room _ := True;
  lk_full ws := length ws = Z.to_nat MAX_BLOCKED_QUEUE_SIZE;
|}.

Lemma put_at s m m' w' :
  mutex_at s i m → m_used m' = m_used m → mutex_wf m' → mutex_at (put_mutex i m' w' s) i m'.
Proof.
  intros [Hm Hi Hu Hwf] Hu' Hwf'. split; [by apply (put_get _ _ _ _ m)|done|congruence|done].
Qed.

#[local] Instance mutex_lock_laws : LockLaws (MutexState W).
Proof.
  split; simpl.
  - intros s Hok (m & Hat & _ & Hv) _.
    destruct (lock_free _ _ _ Hat Hv) as (_ & m' & Hl & Hwf' & Hu' & Hv' & Hwt' & _).
    eexists. split; [exact Hl|]. split; [done|]. split; [|done]. exists m'.
    split; [by eapply put_at|done].
  - intros s ws p Hok (m & Hat & <- & Hv) Hcur Hp1 _ _.
    pose proof (waiters_le _ (at_wf _ _ _ Hat)) as Hle.
    destruct (decide (length (waiters m) = 20%nat)) as [Hfull|].
    { left. split; [by apply (lock_full _ _ m)|done]. }
    right. destruct (lock_held s i m p Hat Hv ltac:(lia) Hok Hcur Hp1)
      as (m' & w' & l1 & l2 & Hl & Hwf' & Hu' & Hv' & Hl12 & Hl12' & Hc).
    destruct (w_change_law (m_world s) p BLOCKED Hok) as (w2 & Hw2 & Hok2 & _ & _ & Hpr).
    assert (w2 = w') as -> by congruence.
    destruct (w_current_law _ Hok) as (p' & Hp' & Hsome). unfold m_currentPid in Hcur.
    assert (p' = p) as -> by congruence. destruct Hsome as [|[st Hst]]; [done|].
    eexists _, l1, l2. split; [exact Hl|]. split; [done|]. split; [done|].
    split; [exists m'; split; [by eapply put_at|done]|]. split.
    + intros q Hq. simpl. by rewrite Hpr, decide_False.
    + by rewrite Hpr, decide_True, Hst.
  - intros s Hok (m & Hat & Hw & Hv).
    destruct (free_nobody _ _ _ Hat Hw) as (m' & Hf & Hwf' & Hu' & Hv' & Hwt' & _).
    eexists. split; [exact Hf|]. split; [done|]. split; [|done]. exists m'.
    split; [by eapply put_at|done].
  - intros s p ws Hok (m & Hat & Hw & Hv) Hb.
    destruct (free_handover _ _ _ _ _ Hat Hw Hok) as (m' & w' & Hf & Hwf' & Hu' & Hv' & Hwt' & Hc).
    destruct (w_change_law (m_world s) p READY Hok) as (w2 & Hw2 & Hok2 & _ & _ & Hpr).
    assert (w2 = w') as -> by congruence.
    eexists. split; [exact Hf|]. split; [done|]. split; [exists m'; split; [by eapply put_at|done]|].
    split.
    + intros q Hq. simpl. by rewrite Hpr, decide_False.
    + by rewrite Hpr, decide_True, Hb.
  - intros s ws (m & Hat & <- & Hv). destruct (waiters m) eqn:Hw; [done|].
    pose proof (mwf_held _ (at_wf _ _ _ Hat)) as Hh. rewrite Hw, Hv in Hh. by specialize (Hh ltac:(done)).
Qed.

(** In the run from [c] to [c'] some [p] called [lockMutex] while 20 processes, as many as the array holds, waited blocked for the
    held mutex; that call is undefined. *)
Definition too_many (c c' : config (MutexState W)) : Prop :=
  ∃ p c1 c2 m, rtc lock_step c c1 ∧ rtc lock_step c2 c' ∧
    m_currentPid c1.1 = Some p ∧ c1.2 p = Idle ∧ lockMutex i c1.1 = Fault ∧ c2 = (c1.1, at_phase p Undefined c1.2) ∧
    aget (mutexes c1.1) i = Some m ∧ m_mutex m = 1 ∧
    length (waiters m) = 20%nat ∧ NoDup (waiters m) ∧ ∀ q, q ∈ waiters m → is_waiting c1.2 q ∧ is_blocked c1.1 q.

Lemma overflowed_many c c' : overflowed c c' → too_many c c'.
Proof.
  intros [_ (p & c1 & c2 & Hr & (Hcur & Hidle & Hcall & Hc2 & ws & (m & Hat & <- & Hv) & Hfull & Hnd & Hq) & Hr2)].
  exists p, c1, c2, m. split_and!; try done. apply (at_get _ _ _ Hat).
Qed.

(** C1: mutual exclusion: however the calls of any number of processes and the
    scheduler's switches interleave, at most one process is between a [lockMutex] that
    returned and its [freeMutex], as long as no call was undefined; and the only undefined one is a [lockMutex] of the held mutex
    while 20 processes are blocked waiting for it, for which the code has an uninitialised pid. *)
Theorem mutex_exclusion (c c' : config (MutexState W)) :
  lock_start c → rtc lock_step c c' →
  (defined c' → ∀ p q, c'.2 p = Critical → c'.2 q = Critical → p = q) ∧
  (∀ p, c'.2 p = Undefined → too_many c c').
Proof.
  intros Hs Hr. split; [intros Hd p q; by apply (lock_exclusion c)|]. intros p Hp. by eapply overflowed_many, lock_undefined.
Qed.

(** C2: no wake-up is lost: whenever a process waits for the mutex (and no [lockMutex] was called while 20 others were
    blocked waiting for it), the mutex is held for exactly one process: that process is in its critical section or can run and
    enter it, no other is in its critical section, and every other that waits is blocked and in the queue. *)
Theorem mutex_no_lost_wakeup (c c' : config (MutexState W)) p :
  lock_start c → rtc lock_step c c' → defined c' → is_waiting c'.2 p →
  ∃ h m, aget (mutexes c'.1) i = Some m ∧ m_mutex m = 1 ∧
    (c'.2 h = Critical ∨ (is_waiting c'.2 h ∧ ¬ is_blocked c'.1 h)) ∧
    (∀ q, q ≠ h → c'.2 q ≠ Critical) ∧
    (∀ q, is_waiting c'.2 q → q ≠ h → is_blocked c'.1 q ∧ q ∈ waiters m).
Proof.
  intros Hs Hr Hd Hp. destruct (lock_no_lost_wakeup c c' p Hs Hr Hd Hp) as (h & ws & (m & Hat & <- & Hv) & Hh).
  exists h, m. split; [apply (at_get _ _ _ Hat)|]. split; [exact Hv|exact Hh].
Qed.
End mutex_lock.

(** ** The table of names *)

Section names.
Context {W : Type} `{WorldLaws W}.
Implicit Types s : MutexState W.

(** Every name pointer of the table points to a C string, [names] in order. *)
Definition names_ok s (names : list (list Z)) : Prop :=
  length (mutexes s) = Z.to_nat MAX_MUTEXES ∧
  Forall2 (λ m l, cstr (w_memory (m_world s)) (m_name m) l) (mutexes s) names.

(** Entry [i] is a mutex in use whose name is [l]. *)
Definition named s (names : list (list Z)) (l : list Z) (i : Z) : Prop :=
  ∃ m, aget (mutexes s) i = Some m ∧ m_used m = TRUE ∧ aget names i = Some l.

Definition unused s (i : Z) : Prop := ∃ m, aget (mutexes s) i = Some m ∧ m_used m = FALSE.

Lemma getIndex_spec fuel s names p l :
  names_ok s names → cstr (w_memory (m_world s)) p l → (length l < fuel)%nat →
  ∃ r, getIndex fuel p s = Some r ∧
    ((r = MUTEX_NOT_FOUND ∧ ∀ i, 0 ≤ i < MAX_MUTEXES → ¬ named s names l i) ∨
     (0 ≤ r < MAX_MUTEXES ∧ named s names l r ∧ ∀ i, 0 ≤ i < r → ¬ named s names l i)).
Proof.
  intros [Hlen Hn] Hl Hf. unfold getIndex.
  assert (Hent : ∀ j, 0 ≤ j < MAX_MUTEXES → ∃ m n, aget (mutexes s) j = Some m ∧
    aget names j = Some n ∧ cstr (w_memory (m_world s)) (m_name m) n).
  { intros j Hj. destruct (aget_some (mutexes s) j) as [m Hm]; [unfold MAX_MUTEXES in *; lia|].
    pose proof Hm as Hm2. rewrite aget_nat in Hm2 by lia.
    destruct (Forall2_lookup_l _ _ _ _ _ Hn Hm2) as (n & Hnn & Hc). exists m, n.
    rewrite (aget_nat names) by lia. done. }
  destruct (scan_for_total (Z.to_nat MAX_MUTEXES) 0
    (λ i, m ← aget (mutexes s) i; c ← strcmp fuel (w_memory (m_world s)) (m_name m) p;
          Some ((c =? 0) && (m_used m =? TRUE)))
    (λ i, match aget (mutexes s) i, aget names i with
          | Some m, Some n => bool_decide (n = l) && (m_used m =? TRUE) | _, _ => false end))
    as (r & -> & Hr).
  { intros j Hj. destruct (Hent j) as (m & n & Hm & Hnn & Hc); [unfold MAX_MUTEXES in *; lia|].
    rewrite Hm, Hnn. simpl. rewrite (strcmp_spec fuel _ _ _ n l) by (done || lia). simpl.
    do 2 f_equal. apply eq_bool_prop_intro. rewrite !Is_true_true, bool_decide_eq_true, Z.eqb_eq.
    apply str_compare_eq. }
  eexists. split; [done|].
  assert (Hnamed : ∀ j, 0 ≤ j < MAX_MUTEXES →
    named s names l j ↔ match aget (mutexes s) j, aget names j with
      | Some m, Some n => bool_decide (n = l) && (m_used m =? TRUE) | _, _ => false end = true).
  { intros j Hj. destruct (Hent j Hj) as (m & n & Hm & Hnn & Hc). unfold named.
    rewrite Hm, Hnn, andb_true_iff, bool_decide_eq_true, Z.eqb_eq. naive_solver. }
  destruct r as [r|]; simpl.
  - right. destruct Hr as (Hr & Hyes & Hno). unfold MAX_MUTEXES in *. split; [lia|].
    split; [by apply Hnamed; [lia|]|]. intros j Hj. rewrite Hnamed by lia.
    rewrite (Hno j) by lia. done.
  - left. split; [done|]. intros j Hj. rewrite Hnamed by done. rewrite (Hr j); [done|].
    unfold MAX_MUTEXES in *. lia.
Qed.

Lemma getFreeSpot_spec s :
  length (mutexes s) = Z.to_nat MAX_MUTEXES →
  ∃ r, getFreeSpot s = Some r ∧
    ((r = NO_SPACE_LEFT_M ∧ ∀ i, 0 ≤ i < MAX_MUTEXES → ¬ unused s i) ∨
     (0 ≤ r < MAX_MUTEXES ∧ unused s r ∧ ∀ i, 0 ≤ i < r → ¬ unused s i)).
Proof.
  intros Hlen. unfold getFreeSpot.
  destruct (scan_for_total (Z.to_nat MAX_MUTEXES) 0
    (λ i, m ← aget (mutexes s) i; Some (m_used m =? FALSE))
    (λ i, match aget (mutexes s) i with Some m => m_used m =? FALSE | None => false end))
    as (r & -> & Hr).
  { intros j Hj. destruct (aget_some (mutexes s) j) as [m ->]; [lia|done]. }
  assert (Hun : ∀ j, unused s j ↔
    match aget (mutexes s) j with Some m => m_used m =? FALSE | None => false end = true).
  { intros j. unfold unused. destruct (aget (mutexes s) j) as [m|]; [|naive_solver].
    rewrite Z.eqb_eq. naive_solver. }
  eexists. split; [done|]. destruct r as [r|]; simpl.
  - right. destruct Hr as (Hr & Hyes & Hno). unfold MAX_MUTEXES in *. split; [lia|].
    split; [by apply Hun|]. intros j Hj. rewrite Hun, (Hno j) by lia. done.
  - left. split; [done|]. intros j Hj. rewrite Hun, (Hr j); [done|]. unfold MAX_MUTEXES in *. lia.
Qed.

(** Locking a mutex does not touch the names. *)
Lemma names_ok_put s names i m m' :
  aget (mutexes s) i = Some m → m_name m' = m_name m → names_ok s names →
  names_ok (put_mutex i m' (m_world s) s) names.
Proof.
  intros Hm Hname [Hlen Hn]. split; [simpl; by rewrite length_aput|]. simpl.
  pose proof (aget_inv _ _ _ Hm). rewrite aget_nat in Hm by lia.
  destruct (Forall2_lookup_l _ _ _ _ _ Hn Hm) as (n & Hnn & Hc).
  rewrite <-(list_insert_id _ _ _ Hnn). apply Forall2_insert; [done|]. by rewrite Hname.
Qed.

Lemma named_put s names i m m' l j :
  aget (mutexes s) i = Some m → m_name m' = m_name m → m_used m' = m_used m →
  named (put_mutex i m' (m_world s) s) names l j ↔ named s names l j.
Proof.
  intros Hm Hname Hused. unfold named. destruct (decide (i = j)) as [<-|Hne].
  - rewrite (put_get _ _ _ _ m Hm), Hm. split; intros (? & [= <-] & ? & ?);
      eexists; (split; [done|]); split; congruence.
  - by rewrite (put_get_ne _ _ _ _ _ m Hm Hne).
Qed.

Lemma unused_put s i m m' j :
  aget (mutexes s) i = Some m → m_used m' = m_used m →
  unused (put_mutex i m' (m_world s) s) j ↔ unused s j.
Proof.
  intros Hm Hused. unfold unused. destruct (decide (i = j)) as [<-|Hne].
  - rewrite (put_get _ _ _ _ m Hm), Hm. split; intros (? & [= <-] & ?);
      eexists; (split; [done|]); congruence.
  - by rewrite (put_get_ne _ _ _ _ _ m Hm Hne).
Qed.

(** Freeing what was locked restores the entry. *)
Lemma free_restores s i m m1 :
  mutex_at s i m1 → waiters m1 = [] → m_set_mutex 0 m1 = m →
  freeMutex i s = Some (put_mutex i m (m_world s) s).
Proof.
  intros Hat Hw Hback. destruct (free_nobody _ _ _ Hat Hw) as (m' & Hf & _ & _ & _ & _ & ->).
  by rewrite Hf, Hback.
Qed.

Lemma put_back s i m m1 :
  aget (mutexes s) i = Some m → put_mutex i m (m_world s) (put_mutex i m1 (m_world s) s) = s.
Proof.
  intros Hm. rewrite put_put. unfold put_mutex. rewrite (aput_id _ _ _ Hm). by destruct s.
Qed.

Lemma put_back_other s i j m m1 m2 :
  aget (mutexes s) i = Some m → 0 ≤ j → i ≠ j →
  put_mutex i m (m_world s) (put_mutex j m2 (m_world s) (put_mutex i m1 (m_world s) s)) =
    put_mutex j m2 (m_world s) s.
Proof.
  intros Hm Hj Hne. pose proof (aget_inv _ _ _ Hm). unfold put_mutex. simpl. f_equal.
  unfold aput. rewrite list_insert_insert_ne by lia. rewrite list_insert_insert_eq.
  f_equal. apply (aput_id _ _ _ Hm).
Qed.

Lemma createMutex_eq s p pid f :
  w_currentPid (m_world s) = Some pid → getFreeSpot s = Some f →
  createMutex p s =
    if f =? NO_SPACE_LEFT_M then Some (ERROR, s)
    else s' ← with_mutex f (λ m, Some (m_set_creator pid (m_set_name p (m_set_used TRUE m)))) s;
         Some (f, s').
Proof. intros Hpid Hf. unfold createMutex, m_currentPid. rewrite Hpid. simpl. by rewrite Hf. Qed.

(** The body of [getMutex] between the lock and the release. *)
Lemma getMutex_lookup fuel s names p l i m :
  names_ok s names → cstr (w_memory (m_world s)) p l → (length l < fuel)%nat →
  w_ok (m_world s) → mutex_at s i m →
  ∃ r s' pid, (index ← asksO (getIndex fuel p);
      if index =? MUTEX_NOT_FOUND then calls (createMutex p) else mret index) s = Done r s' ∧
    w_currentPid (m_world s) = Some pid ∧
    ((0 ≤ r < MAX_MUTEXES ∧ named s names l r ∧ (∀ j, 0 ≤ j < r → ¬ named s names l j) ∧ s' = s) ∨
     ((∀ j, 0 ≤ j < MAX_MUTEXES → ¬ named s names l j) ∧ 0 ≤ r < MAX_MUTEXES ∧ unused s r ∧
      (∀ j, 0 ≤ j < r → ¬ unused s j) ∧ i ≠ r ∧
      ∃ mr, aget (mutexes s) r = Some mr ∧
        s' = put_mutex r (m_set_creator pid (m_set_name p (m_set_used TRUE mr))) (m_world s) s) ∨
     ((∀ j, 0 ≤ j < MAX_MUTEXES → ¬ named s names l j ∧ ¬ unused s j) ∧ r = ERROR ∧ s' = s)).
Proof.
  intros Hnames Hl Hf Hok Hat. destruct (w_current_law _ Hok) as (pid & Hpid & _).
  destruct (getIndex_spec fuel s names p l Hnames Hl Hf) as (r & Hidx & Hr).
  rewrite (asksO_bind _ _ _ _ Hidx). destruct Hr as [(-> & Hno)|(Hr & Hyes & Hno)].
  2: { exists r, s, pid. rewrite (proj2 (Z.eqb_neq _ _)) by (unfold MUTEX_NOT_FOUND; lia).
       split; [done|]. split; [done|]. by left. }
  destruct (getFreeSpot_spec s (proj1 Hnames)) as (f & Hfree & Hr).
  rewrite Z.eqb_refl. unfold calls. rewrite (createMutex_eq s p pid f) by done.
  destruct Hr as [(-> & Hnone)|(Hfr & Hun & Hfirst)].
  - exists ERROR, s, pid. split; [done|]. split; [done|]. right. right. split; [|done].
    intros j Hj. split; [by apply Hno|by apply Hnone].
  - rewrite (proj2 (Z.eqb_neq _ _)) by (unfold NO_SPACE_LEFT_M; lia).
    destruct Hun as (mr & Hmr & Hmu).
    rewrite (with_mutex_some _ _ mr _ (m_set_creator pid (m_set_name p (m_set_used TRUE mr))) Hmr) by done.
    simpl. eexists f, _, pid. split; [done|]. split; [done|]. right. left.
    split; [done|]. split; [done|]. split; [by exists mr|]. split; [done|]. split; [|by exists mr].
    intros ->. apply (at_used _ _ _ Hat). rewrite (at_get _ _ _ Hat) in Hmr. by injection Hmr as ->.
Qed.

(** What [getMutex] does when nobody is in the table's critical section. *)
Lemma getMutex_spec fuel s names p l m0 :
  names_ok s names → cstr (w_memory (m_world s)) p l → (length l < fuel)%nat →
  w_ok (m_world s) → mutex_at s (adminMutex s) m0 → m_mutex m0 = 0 →
  ∃ r s' pid, getMutex fuel p s = Done r s' ∧ w_currentPid (m_world s) = Some pid ∧
    ((0 ≤ r < MAX_MUTEXES ∧ named s names l r ∧ (∀ j, 0 ≤ j < r → ¬ named s names l j) ∧ s' = s) ∨
     ((∀ j, 0 ≤ j < MAX_MUTEXES → ¬ named s names l j) ∧ 0 ≤ r < MAX_MUTEXES ∧ unused s r ∧
      (∀ j, 0 ≤ j < r → ¬ unused s j) ∧
      ∃ mr, aget (mutexes s) r = Some mr ∧
        s' = put_mutex r (m_set_creator pid (m_set_name p (m_set_used TRUE mr))) (m_world s) s) ∨
     ((∀ j, 0 ≤ j < MAX_MUTEXES → ¬ named s names l j ∧ ¬ unused s j) ∧ r = ERROR ∧ s' = s)).
Proof.
  intros Hnames Hl Hf Hok Hat Hv0.
  destruct (lock_free _ _ _ Hat Hv0) as (Hw0 & m1 & Hlock & Hwf1 & Hu1 & Hv1 & Hw1 & Hback).
  pose proof (at_get _ _ _ Hat) as Hg0.
  assert (Hname1 : m_name m1 = m_name m0) by (rewrite <-Hback; done).
  set (a := adminMutex s) in *. set (s1 := put_mutex a m1 (m_world s) s) in *.
  assert (Hat1 : mutex_at s1 a m1).
  { destruct Hat as [_ Hi Hu Hwf]. split; [by apply (put_get _ _ _ _ m0)|done|congruence|done]. }
  destruct (getMutex_lookup fuel s1 names p l a m1) as (r & s2 & pid & Hbody & Hpid & Hr); try done.
  { by apply (names_ok_put _ _ _ m0). }
  assert (Hget : ∀ s3, adminMutex s2 = a → freeMutex a s2 = Some s3 → getMutex fuel p s = Done r s3).
  { intros s3 Ha Hfree. unfold getMutex. rewrite asks_bind. fold a.
    rewrite (bind_done _ _ _ _ _ Hlock). unfold mbind at 1, M_bind at 1 in Hbody.
    unfold mbind at 1, M_bind at 1. destruct (asksO (getIndex fuel p) s1) as [|idx s4|]; [done| |done].
    simpl in *. rewrite (bind_done _ _ _ r s2) by done. rewrite asks_bind, Ha.
    by rewrite (modifyO_bind _ _ _ s3). }
  assert (Hnam : ∀ j, named s1 names l j ↔ named s names l j) by (intros; by apply (named_put _ _ _ m0)).
  assert (Hun1 : ∀ j, unused s1 j ↔ unused s j) by (intros; by apply (unused_put _ _ m0)).
  setoid_rewrite Hnam in Hr. setoid_rewrite Hun1 in Hr.
  destruct Hr as [(Hr & Hyes & Hno & ->)|[(Hno & Hr & Hun & Hfirst & Hne & mr & Hmr & ->)|(Hno & -> & ->)]].
  - exists r, s, pid. split; [|split; [done|by left]]. apply Hget; [done|].
    rewrite (free_restores s1 a m0 m1 Hat1 Hw1 Hback).
    exact (f_equal Some (put_back s a m0 m1 Hg0)).
  - pose proof Hmr as Hmr1. unfold s1 in Hmr. rewrite (put_get_ne _ _ _ _ _ _ Hg0 Hne) in Hmr.
    eexists r, _, pid. split; [|split; [done|right; left]]; [|exact (conj Hno (conj Hr (conj Hun (conj Hfirst (ex_intro _ mr (conj Hmr eq_refl))))))].
    apply Hget; [done|]. rewrite (free_restores _ a m0 m1); [|split|done|done].
    + exact (f_equal Some (put_back_other s a r m0 m1 _ Hg0 (proj1 Hr) Hne)).
    + rewrite (put_get_ne _ _ _ _ _ mr Hmr1) by done. apply (at_get _ _ _ Hat1).
    + apply (at_max _ _ _ Hat1).
    + apply (at_used _ _ _ Hat1).
    + apply (at_wf _ _ _ Hat1).
  - exists ERROR, s, pid. split; [|split; [done|by right; right]]. apply Hget; [done|].
    rewrite (free_restores s1 a m0 m1 Hat1 Hw1 Hback).
    exact (f_equal Some (put_back s a m0 m1 Hg0)).
Qed.

(** When nobody is in the table's critical section, [getMutex] returns the first mutex
    in use that has this name and changes nothing; if there is none it takes the first
    entry not in use, for the calling process; if there is none of these either it
    returns the error and changes nothing.  The table's own mutex is free again. *)
Theorem getMutex_correct fuel s names p l m0 :
  names_ok s names → cstr (w_memory (m_world s)) p l → (length l < fuel)%nat →
  w_ok (m_world s) → mutex_at s (adminMutex s) m0 → m_mutex m0 = 0 →
  ∃ r s' pid, getMutex fuel p s = Done r s' ∧ w_currentPid (m_world s) = Some pid ∧
    ((0 ≤ r < MAX_MUTEXES ∧ named s names l r ∧ (∀ j, 0 ≤ j < r → ¬ named s names l j) ∧ s' = s) ∨
     ((∀ j, 0 ≤ j < MAX_MUTEXES → ¬ named s names l j) ∧ 0 ≤ r < MAX_MUTEXES ∧ unused s r ∧
      (∀ j, 0 ≤ j < r → ¬ unused s j) ∧
      ∃ mr, aget (mutexes s) r = Some mr ∧
        s' = put_mutex r (m_set_creator pid (m_set_name p (m_set_used TRUE mr))) (m_world s) s) ∨
     ((∀ j, 0 ≤ j < MAX_MUTEXES → ¬ named s names l j ∧ ¬ unused s j) ∧ r = ERROR ∧ s' = s)).
Proof. apply getMutex_spec. Qed.
End names.

(** ** Initialisation *)

Section initialisation.
Context {W : Type} `{WorldLaws W}.
Implicit Types s : MutexState W.

Definition clean_queue : list Z := replicate (Z.to_nat MAX_BLOCKED_QUEUE_SIZE) NO_BLOCKED_QUEUE_VALUE.

Definition cleaned (m : Mutex) : Mutex :=
  m_set_queue clean_queue (m_set_mutex 0 (m_set_card 0 (m_set_name NULL (m_set_used FALSE m)))).

Lemma clearArray_spec l n v :
  0 ≤ n ≤ Z.of_nat (length l) → clearArray l n v = Some (replicate (Z.to_nat n) v ++ drop (Z.to_nat n) l).
Proof. intros Hn. unfold clearArray. apply for_fill. lia. Qed.

Lemma cleanMutex_spec s i m :
  aget (mutexes s) i = Some m → i < MAX_MUTEXES →
  length (m_queue m) = Z.to_nat MAX_BLOCKED_QUEUE_SIZE →
  cleanMutex i s = Some (put_mutex i (cleaned m) (m_world s) s).
Proof.
  intros Hm Hi Hq. unfold cleanMutex. rewrite (proj2 (Z.leb_gt _ _)) by done.
  apply (with_mutex_some _ _ m); [done|]. cbn [m_queue m_set_mutex m_set_card m_set_name m_set_used].
  rewrite clearArray_spec by (rewrite Hq; done). cbn [mbind option_bind].
  rewrite drop_ge by (rewrite Hq; done). by rewrite app_nil_r.
Qed.

(** [initializeMutexes] empties the table, except that entry 0, which guards the
    table, is in use and free; every entry is a well-formed free mutex. *)
Theorem initializeMutexes_correct s :
  length (mutexes s) = Z.to_nat MAX_MUTEXES →
  (∀ m, m ∈ mutexes s → length (m_queue m) = Z.to_nat MAX_BLOCKED_QUEUE_SIZE) →
  ∃ s', initializeMutexes s = Some s' ∧ m_world s' = m_world s ∧ adminMutex s' = 0 ∧
    ∀ i, 0 ≤ i < MAX_MUTEXES → ∃ m, aget (mutexes s') i = Some m ∧ mutex_wf m ∧
      m_used m = (if i =? 0 then TRUE else FALSE) ∧ m_mutex m = 0 ∧ waiters m = [].
Proof.
  intros Hlen Hq.
  destruct (for_range_ind (λ i s1, length (mutexes s1) = length (mutexes s) ∧ m_world s1 = m_world s ∧
      ∀ j m, aget (mutexes s) j = Some m → aget (mutexes s1) j = Some (if j <? i then cleaned m else m))
    (Z.to_nat MAX_MUTEXES) 0 cleanMutex s) as (s1 & Hs1 & Hl1 & Hw1 & Hall).
  { split; [done|]. split; [done|]. intros j m Hm. pose proof (aget_inv _ _ _ Hm).
    by rewrite (proj2 (Z.ltb_ge _ _)) by lia. }
  { intros j s1 Hj (Hl1 & Hw1 & Hall). unfold MAX_MUTEXES in *.
    destruct (aget_some (mutexes s) j) as [m Hm]; [lia|].
    pose proof (Hall j m Hm) as Hm1. rewrite Z.ltb_irrefl in Hm1.
    assert (Hin : m ∈ mutexes s).
    { rewrite aget_nat in Hm by lia. by eapply list_elem_of_lookup_2. }
    eexists. split; [apply (cleanMutex_spec _ _ m Hm1); [unfold MAX_MUTEXES; lia|by apply Hq]|].
    split; [simpl; by rewrite length_aput|]. split; [done|]. intros j' m' Hm'.
    destruct (decide (j = j')) as [<-|Hne].
    - rewrite (put_get _ _ _ _ _ Hm1). rewrite (proj2 (Z.ltb_lt _ _)) by lia. congruence.
    - rewrite (put_get_ne _ _ _ _ _ _ Hm1 Hne), (Hall _ _ Hm').
      destruct (Z.ltb_spec j' j), (Z.ltb_spec j' (j + 1)); done || lia. }
  unfold initializeMutexes. rewrite Hs1. cbn [mbind option_bind adminMutex].
  destruct (aget_some (mutexes s) 0) as [m0 Hm0]; [rewrite Hlen; done|].
  pose proof (Hall _ _ Hm0) as Hm01. simpl in Hm01.
  rewrite (with_mutex_some (mkMS (mutexes s1) 0 (m_world s1)) 0 (cleaned m0) _ (m_set_used TRUE (cleaned m0))) by done.
  eexists. split; [done|]. split; [done|]. split; [done|]. intros i Hi.
  destruct (aget_some (mutexes s) i) as [m Hm]; [rewrite Hlen; unfold MAX_MUTEXES in *; lia|].
  assert (Hclean : ∀ u, mutex_wf (m_set_used u (cleaned m))) by (intros u; split; [done|done|by left|done]).
  destruct (Z.eqb_spec i 0) as [->|Hne].
  - rewrite (put_get _ _ _ _ (cleaned m0)) by done. exists (m_set_used TRUE (cleaned m)).
    assert (m = m0) as -> by congruence. split; [done|]. split; [apply Hclean|done].
  - rewrite (put_get_ne _ _ _ _ _ (cleaned m0)) by done. exists (cleaned m).
    simpl. rewrite (Hall _ _ Hm), (proj2 (Z.ltb_lt _ _)) by (simpl; lia).
    split; [done|]. split; [exact (Hclean FALSE)|done].
Qed.
End initialisation.

(** ** Examples *)

Definition toy_as (p : Z) (s : MutexState Toy) : MutexState Toy :=
  mkMS (mutexes s) (adminMutex s)
    (mkToy p (toy_states (m_world s)) (toy_mem (m_world s)) (toy_out (m_world s))).

Definition used_mutex : Mutex := m_set_used TRUE (cleaned mutex_bss).

(** The table with mutexes 0 and 1 in use. *)
Definition toy_state : MutexState Toy :=
  mkMS (used_mutex :: used_mutex :: replicate 126 (cleaned mutex_bss)) 0 toy0.

Lemma toy_at i : i = 0 ∨ i = 1 → mutex_at toy_state i used_mutex.
Proof. intros [-> | ->]; (split; [done|done|done|split; [done|done|by left|done]]). Qed.

(** The state a computation ends or stops in. *)
Definition res_state {S A} (r : res S A) : option S :=
  match r with Fault => None | Done _ s => Some s | Yield s _ => Some s end.

(** The mutex is not first-come first-served: 1 holds it, 2 and then 3 wait; 1 frees it
    for 2, 4 comes to wait in the place 2 left, and when 2 frees the mutex it goes to 4. *)
Theorem mutex_not_fifo :
  (s ← res_state (lockMutex 1 (toy_as 1 toy_state));
   s ← res_state (lockMutex 1 (toy_as 2 s));
   s ← res_state (lockMutex 1 (toy_as 3 s));
   s ← freeMutex 1 (toy_as 1 s);
   s ← res_state (lockMutex 1 (toy_as 4 s));
   s ← freeMutex 1 (toy_as 2 s);
   m ← aget (mutexes s) 1;
   Some (waiters m, toy_states (m_world s) 3, toy_states (m_world s) 4)) =
  Some ([3], BLOCKED, READY).
Proof. vm_compute. reflexivity. Qed.

(** *** Witnesses *)

Definition all_idle : Z → phase (MutexState Toy) := λ _, Idle.

#[local] Existing Instance mutex_lock.

Lemma toy_as_at p s i m : mutex_at s i m → mutex_at (toy_as p s) i m.
Proof. by intros []. Qed.

Lemma toy_start : lock_start (H := mutex_lock 1) (toy_state, all_idle).
Proof.
  refine (conj _ (conj _ (λ q, eq_refl))); [exact I|].
  exists used_mutex. exact (conj (toy_at 1 (or_intror eq_refl)) (conj eq_refl eq_refl)).
Qed.

Abbreviation toy_run := (rtc (lock_step (H := mutex_lock 1)) (toy_state, all_idle)).

(** Process 1 takes the mutex. *)
Lemma toy_step : ∃ c, toy_run c ∧ c.2 1 = Critical ∧ defined c.
Proof.
  eexists (_, _). split; [|split].
  - eapply rtc_once. eapply (step_acquire (H := mutex_lock 1) 1); [done|done|done|done|reflexivity].
  - apply at_phase_eq.
  - intros q. simpl. unfold at_phase. by case_decide.
Qed.

Lemma mutex_exclusion_witness : ∃ c, toy_run c ∧ c.2 1 = Critical ∧
  ∀ q, c.2 q = Critical → 1 = q.
Proof.
  destruct toy_step as (c & Hc & H1 & Hd). exists c. split; [exact Hc|]. split; [exact H1|].
  intros q Hq. exact (proj1 (mutex_exclusion 1 _ c toy_start Hc) Hd 1 q H1 Hq).
Defined.

(** Process 1 takes the mutex and process 2 waits for it. *)
Lemma toy_wait : ∃ c, toy_run c ∧ is_waiting c.2 2 ∧ defined c.
Proof.
  eexists (_, _). split; [|split].
  - eapply rtc_l; [eapply (step_acquire (H := mutex_lock 1) 1); [done|done|done|done|reflexivity]|].
    eapply rtc_l; [eapply (step_rest (H := mutex_lock 1) _ (toy_as 2 _));
      [intros ws b (m & Hat & Hm); exists m; split; [by apply toy_as_at|exact Hm]|exact I|done]|].
    eapply rtc_once. eapply (step_block (H := mutex_lock 1) 2); [done|done|done|done|reflexivity].
  - eexists. apply at_phase_eq.
  - intros q. simpl. unfold at_phase. by repeat case_decide.
Qed.

Lemma mutex_no_lost_wakeup_witness :
  ∃ c, toy_run c ∧ ∃ h m, aget (mutexes c.1) 1 = Some m ∧ m_mutex m = 1 ∧
    (c.2 h = Critical ∨ (is_waiting c.2 h ∧ ¬ is_blocked (H := mutex_lock 1) c.1 h)) ∧
    (∀ q, q ≠ h → c.2 q ≠ Critical) ∧
    (∀ q, is_waiting c.2 q → q ≠ h → is_blocked (H := mutex_lock 1) c.1 q ∧ q ∈ waiters m).
Proof.
  destruct toy_wait as (c & Hc & H2 & Hd). exists c. split; [exact Hc|].
  exact (mutex_no_lost_wakeup 1 _ c 2 toy_start Hc Hd H2).
Defined.

Lemma getMutex_correct_witness : ∃ r s', getMutex 3 8 toy_state = Done r s' ∧ r ≠ ERROR.
Proof.
  destruct (getMutex_correct 3 toy_state (replicate 128 []) 8 [97] used_mutex)
    as (r & s' & pid & Hg & _ & Hr); [split; [done|]|done|simpl; lia|done|by apply (toy_at 0); left|done|].
  { change (mutexes toy_state) with ([used_mutex; used_mutex] ++ replicate 126 (cleaned mutex_bss)).
    change (replicate 128 (@nil Z)) with ([[]; []] ++ replicate 126 (@nil Z)).
    apply Forall2_app; [by repeat constructor|]. by apply Forall2_replicate. }
  exists r, s'. split; [exact Hg|]. intros ->.
  destruct Hr as [([? _] & _)|[(_ & [? _] & _)|(Hno & _)]]; [by unfold ERROR in *|by unfold ERROR in *|].
  destruct (Hno 2) as [_ Hu]; [by unfold MAX_MUTEXES|]. apply Hu.
  exists (cleaned mutex_bss). done.
Defined.

Lemma initializeMutexes_correct_witness :
  ∃ s', initializeMutexes (mkMS (replicate 128 mutex_bss) 7 toy0) = Some s' ∧ adminMutex s' = 0.
Proof.
  destruct (initializeMutexes_correct (mkMS (replicate 128 mutex_bss) 7 toy0))
    as (s' & Hs & _ & Ha & _); [done| |exists s'; split; [exact Hs|exact Ha]].
  intros m Hm. apply elem_of_replicate in Hm as [-> _]. done.
Defined.
