(* ===== verification/Malloc.v ===== *)
(** * The heaps ([Kernel/malloc.c])

    First-fit allocation in doubly linked lists of blocks: one list for the kernel, at a
    fixed address, and one for each process, in pages of the page allocator.  The headers
    are a typed store keyed by address; a block's data starts 28 bytes after it.
    [size_t] is [unsigned int], so every size is a 32-bit number. *)

From S2P Require Import Prelude Structs Buddy World.

Definition BLOCK_STRUCT_SIZE : Z := 28.
Definition KERNEL_HEAP_START : Z := 0x4000.
Definition KERNEL_HEAP_SIZE : Z := PAGE_SIZE * 17.
Definition sizeof_t_block : Z := 32.

Definition align4 (x : Z) : Z := uint32 (Z.shiftl (Z.shiftr (uint32 (x - 1)) 2) 2 + 4).

Record t_block := mkBlock { b_size : Z; b_next : Z; b_prev : Z; b_free : Z }.

Definition dataStart (b : Z) : Z := b + BLOCK_STRUCT_SIZE.

Section malloc.
Context {W : Type} `{WorldHeap W}.

Record HeapState := mkHeap {
  heapBase : Z;
  kernelBase : Z;
  h_blocks : gmap Z t_block;
  h_world : W;
}.
Implicit Types s : HeapState.

Definition set_heapBase v s := mkHeap v (kernelBase s) (h_blocks s) (h_world s).
Definition set_kernelBase v s := mkHeap (heapBase s) v (h_blocks s) (h_world s).
Definition set_blocks v s := mkHeap (heapBase s) (kernelBase s) v (h_world s).
Definition set_hworld v s := mkHeap (heapBase s) (kernelBase s) (h_blocks s) v.

Definition blk (b : Z) s : option t_block := h_blocks s !! b.
Definition put_blk (b : Z) (v : t_block) s : HeapState := set_blocks (<[b := v]> (h_blocks s)) s.
Definition set_free (v b : Z) s : option HeapState :=
  h ← blk b s; Some (put_blk b (mkBlock (b_size h) (b_next h) (b_prev h) v) s).

(** ** Allocation *)

Fixpoint findFirstFreeBlock (fuel : nat) (current size : Z) s : option Z :=
  if current =? NULL then Some NULL
  else
    h ← blk current s;
    if negb (b_free h =? 0) && (size <? b_size h) then Some current
    else match fuel with O => None | S fuel' => findFirstFreeBlock fuel' (b_next h) size s end.

Definition split_block (block size : Z) s : option HeapState :=
  h ← blk block s;
  if b_size h <? size then Some s
  else
    let newBlock := dataStart block + size in
    let s := put_blk newBlock
      (mkBlock (uint32 (b_size h - (size + BLOCK_STRUCT_SIZE))) (b_next h) block 1) s in
    h ← blk block s;
    Some (put_blk block (mkBlock size newBlock (b_prev h) (b_free h)) s).

(** What [kmalloc] and [mallock] do with the block they found. *)
Definition take_block (freeBlock size : Z) s : option (Z * HeapState) :=
  h ← blk freeBlock s;
  s ← (if uint32 (size + 4 + BLOCK_STRUCT_SIZE) <? b_size h then split_block freeBlock size s else Some s);
  s ← set_free 0 freeBlock s;
  Some (dataStart freeBlock, s).

Definition kmalloc (fuel : nat) (size : Z) s : option (Z * HeapState) :=
  if kernelBase s =? NULL then Some (KERNEL_HEAP_START, s)
  else if size =? 0 then Some (NULL, s)
  else
    let sz := align4 size in
    freeBlock ← findFirstFreeBlock fuel (kernelBase s) sz s;
    if freeBlock =? NULL then Some (NULL, s) else take_block freeBlock sz s.

Definition initializeKernelHeap s : HeapState :=
  put_blk KERNEL_HEAP_START (mkBlock KERNEL_HEAP_SIZE NULL NULL 1) (set_kernelBase KERNEL_HEAP_START s).

Fixpoint last_loop (fuel : nat) (current : Z) s : option Z :=
  h ← blk current s;
  if b_next h =? NULL then Some current
  else match fuel with O => None | S fuel' => last_loop fuel' (b_next h) s end.

Definition findLastInHeap (fuel : nat) s : option Z := last_loop fuel (heapBase s) s.

(** [newBlock->prev] keeps its old value until it is written. *)
Definition extendHeap (fuel : nat) (size p : Z) s : option (Z * HeapState) :=
  let numberOfPages := int32 (NUMBER_OF_PAGES_TO_ALLOC (uint32 (size + BLOCK_STRUCT_SIZE))) in
  '(newBlock, w) ← w_allocPage numberOfPages (h_world s);
  let s := set_hworld w s in
  let new prev := mkBlock (uint32 (numberOfPages * PAGE_SIZE - BLOCK_STRUCT_SIZE)) NULL prev 1 in
  s ← (if heapBase s =? NULL then
         w ← w_set_heap p newBlock (h_world s);
         Some (set_hworld w (set_heapBase newBlock (put_blk newBlock (new NULL) s)))
       else
         last ← findLastInHeap fuel s;
         h ← blk last s;
         let s := put_blk last (mkBlock (b_size h) newBlock (b_prev h) (b_free h)) s in
         Some (put_blk newBlock (new last) s));
  pid ← w_procPid (h_world s) p;
  w ← w_addPagesToProcess newBlock pid (h_world s);
  Some (newBlock, set_hworld w s).

(** The second call of [extendHeap] passes one argument only: [junk] is what happens to be
    in the register of the other. *)
Definition mallock (fuel : nat) (junk size : Z) s : option (Z * HeapState) :=
  p ← w_currentProcess (h_world s);
  if p =? NULL then
    Some (kernelBase s, set_kernelBase (uint64 (kernelBase s + size * sizeof_t_block)) s)
  else
    heap ← w_heap (h_world s) p;
    let s := set_heapBase heap s in
    if size =? 0 then Some (NULL, s)
    else
      let sz := align4 size in
      s ← (if heapBase s =? NULL then '(_, s) ← extendHeap fuel size p s; Some s else Some s);
      freeBlock ← findFirstFreeBlock fuel (heapBase s) sz s;
      '(freeBlock, s) ← (if freeBlock =? NULL then extendHeap fuel size junk s else Some (freeBlock, s));
      take_block freeBlock sz s.

(** ** Release *)

Definition isValidAddress (p : Z) s : bool := negb ((p =? NULL) || (p <? dataStart (heapBase s))).

(** The last block has no next one, which counts as an address below every [p]. *)
Fixpoint getBlock_loop (fuel : nat) (current p : Z) s : option Z :=
  if current =? NULL then Some NULL
  else
    h ← blk current s;
    if b_next h <? p
    then match fuel with O => None | S fuel' => getBlock_loop fuel' (b_next h) p s end
    else Some current.

Definition getBlock (fuel : nat) (p : Z) s : option Z := getBlock_loop fuel (heapBase s) p s.

Definition mergeBlocks (firstBlock : Z) s : option HeapState :=
  h ← blk firstBlock s;
  n ← blk (b_next h) s;
  Some (put_blk firstBlock
    (mkBlock (uint32 (b_size h + uint32 (b_size n + BLOCK_STRUCT_SIZE))) (b_next n) (b_prev h) (b_free h)) s).

Definition is_free (b : Z) s : option bool :=
  if b =? NULL then Some false else h ← blk b s; Some (b_free h =? 1).

Definition free (fuel : nat) (p : Z) s : option HeapState :=
  if isValidAddress p s then
    blockForFree ← getBlock fuel p s;
    if blockForFree =? NULL then Some s
    else
      s ← set_free 1 blockForFree s;
      h ← blk blockForFree s;
      f ← is_free (b_next h) s;
      s ← (if (f : bool) then mergeBlocks blockForFree s else Some s);
      h ← blk blockForFree s;
      f ← is_free (b_prev h) s;
      if (f : bool) then mergeBlocks (b_prev h) s else Some s
  else Some s.
End malloc.
Arguments HeapState : clear implicits.
