(* ===== verification/MallocThms.v ===== *)
(** * Properties of the heaps

    A heap is the list of its blocks, as (address, size, free flag); the blocks are pairwise
    apart.  First fit takes the first block that is free and larger than the request. *)

From S2P Require Import Prelude Structs Buddy World Toy Malloc.

Abbreviation block := (Z * Z * Z)%type.

(** From [a] the headers of [l] lead to [e]. *)
Fixpoint chain (m : gmap Z t_block) (a : Z) (l : list block) (e : Z) : Prop :=
  match l with
  | [] => a = e
  | (b, sz, fr) :: l' =>
      a = b ∧ b ≠ NULL ∧ ∃ nx pv, m !! b = Some (mkBlock sz nx pv fr) ∧ chain m nx l' e
  end.

(** Where a block starts and ends, header included. *)
Definition b_addr (x : block) : Z := x.1.1.
Definition b_end (x : block) : Z := b_addr x + BLOCK_STRUCT_SIZE + x.1.2.

Definition sep (x y : block) : Prop := b_end x ≤ b_addr y ∨ b_end y ≤ b_addr x.

Definition block_ok (x : block) : Prop := NULL < b_addr x ∧ 0 ≤ x.1.2 < 2 ^ 32.

Fixpoint blocks_ok (l : list block) : Prop :=
  match l with
  | [] => True
  | x :: l' => block_ok x ∧ Forall (sep x) l' ∧ blocks_ok l'
  end.

Definition suits (size : Z) (x : block) : bool := negb (x.2 =? 0) && (size <? x.1.2).

(** ** Lists of blocks *)

Lemma sep_sym x y : sep x y → sep y x.
Proof. unfold sep. tauto. Qed.

Lemma blocks_ok_middle l1 x l2 :
  blocks_ok (l1 ++ x :: l2) ↔ block_ok x ∧ Forall (sep x) (l1 ++ l2) ∧ blocks_ok (l1 ++ l2).
Proof.
  induction l1 as [|y l1 IH]; simpl; [done|]. rewrite IH. clear IH.
  rewrite !Forall_cons_iff, !(Forall_app (sep y)), Forall_cons_iff.
  pose proof (sep_sym x y). pose proof (sep_sym y x). tauto.
Qed.

(** A block may shrink. *)
Lemma sep_within x y x' :
  sep x y → b_addr x ≤ b_addr x' → b_end x' ≤ b_end x → sep x' y.
Proof. unfold sep. lia. Qed.

Lemma heap_chain_app m a l1 l2 e : chain m a (l1 ++ l2) e ↔ ∃ c, chain m a l1 c ∧ chain m c l2 e.
Proof.
  revert a. induction l1 as [|[[b sz] fr] l1 IH]; intros a; simpl.
  { split; [intros Hc; by exists a|]. by intros (c & -> & Hc). }
  split.
  - intros (-> & Hb & nx & pv & Hm & Hc). apply IH in Hc as (c & H1 & H2). exists c.
    split; [|done]. split; [done|]. split; [done|]. by exists nx, pv.
  - intros (c & (-> & Hb & nx & pv & Hm & H1) & H2). split; [done|]. split; [done|].
    exists nx, pv. split; [done|]. apply IH. by exists c.
Qed.

Lemma heap_chain_frame m m' a l e :
  (∀ x, x ∈ l → m' !! b_addr x = m !! b_addr x) → chain m a l e → chain m' a l e.
Proof.
  revert a. induction l as [|[[b sz] fr] l IH]; intros a Hm; simpl; [done|].
  intros (-> & Hb & nx & pv & Hl & Hc). split; [done|]. split; [done|]. exists nx, pv.
  split; [rewrite <-Hl; apply (Hm (b, sz, fr)); by left|]. apply IH; [|done].
  intros x Hx. apply Hm. by right.
Qed.

Lemma chain_insert m a l e b v :
  (∀ x, x ∈ l → b_addr x ≠ b) → chain m a l e → chain (<[b := v]> m) a l e.
Proof. intros Hb. apply heap_chain_frame. intros x Hx. apply lookup_insert_ne. intros E. by apply (Hb x). Qed.

Lemma sep_addr x y : block_ok x → block_ok y → sep x y → b_addr x ≠ b_addr y.
Proof. unfold sep, b_end, block_ok, BLOCK_STRUCT_SIZE. lia. Qed.

Lemma blocks_ok_elem l x : blocks_ok l → x ∈ l → block_ok x.
Proof.
  induction l as [|y l IH]; simpl; [intros _ Hx; by apply elem_of_nil in Hx|].
  intros (Hy & _ & Hok) [->|Hx]%elem_of_cons; auto.
Qed.

(** A header written into a block other than those of [l] changes none of them. *)
Lemma chain_insert_apart m a l e x b v :
  block_ok x → Forall (sep x) l → blocks_ok l → b_addr x ≤ b < b_end x →
  chain m a l e → chain (<[b := v]> m) a l e.
Proof.
  intros Hx Hsep Hok Hb. apply chain_insert. intros y Hy.
  rewrite list.Forall_forall in Hsep. specialize (Hsep y Hy). pose proof (blocks_ok_elem l y Hok Hy).
  unfold sep, b_end, block_ok, BLOCK_STRUCT_SIZE in *. lia.
Qed.

(** [align4] rounds up to a multiple of 4. *)
Lemma align4_spec x : 0 < x ≤ 2 ^ 32 - 4 → x ≤ align4 x < x + 4 ∧ align4 x mod 4 = 0.
Proof.
  intros Hx. unfold align4. rewrite (wrap_u_id 32 (x - 1)) by lia.
  rewrite Z.shiftl_mul_pow2, Z.shiftr_div_pow2 by lia. change (2 ^ 2) with 4.
  rewrite wrap_u_id by (Z.to_euclidean_division_equations; lia).
  Z.to_euclidean_division_equations; lia.
Qed.

Section heaps.
Context {W : Type} `{WorldHeap W}.
Implicit Types s : HeapState W.

Lemma find_spec s a l size fuel :
  chain (h_blocks s) a l NULL → (length l ≤ fuel)%nat →
  (findFirstFreeBlock fuel a size s = Some NULL ∧ ∀ x, x ∈ l → suits size x = false) ∨
  ∃ l1 x l2, l = l1 ++ x :: l2 ∧ (∀ y, y ∈ l1 → suits size y = false) ∧ suits size x = true ∧
    findFirstFreeBlock fuel a size s = Some (b_addr x).
Proof.
  revert a l. induction fuel as [|fuel IH]; intros a [|[[b sz] fr] l]; simpl; try lia.
  - intros -> _. left. split; [done|]. intros x Hx. by apply elem_of_nil in Hx.
  - intros -> _. left. split; [done|]. intros x Hx. by apply elem_of_nil in Hx.
  - intros (-> & Hb & nx & pv & Hm & Hc) Hf. rewrite (proj2 (Z.eqb_neq b NULL)) by done.
    unfold blk. rewrite Hm. cbn [mbind option_bind b_free b_size b_next].
    destruct (negb (fr =? 0) && (size <? sz)) eqn:Hs.
    + right. exists [], (b, sz, fr), l. split; [done|]. split; [|done]. intros y Hy. by apply elem_of_nil in Hy.
    + destruct (IH nx l Hc) as [[Hr Hn]|(l1 & x & l2 & -> & E1 & E2 & E3)]; [lia| |].
      * left. split; [done|]. by intros x [->|Hx]%elem_of_cons; [|apply Hn].
      * right. exists ((b, sz, fr) :: l1), x, l2. split; [done|]. split; [|done].
        by intros y [->|Hy]%elem_of_cons; [|apply E1].
Qed.

(** The list after a block was taken for [size] bytes. *)
Definition taken (size : Z) (l1 : list block) (x : block) (l2 : list block) : list block :=
  if size + 4 + BLOCK_STRUCT_SIZE <? x.1.2
  then l1 ++ (b_addr x, size, 0) ::
         (b_addr x + BLOCK_STRUCT_SIZE + size, x.1.2 - (size + BLOCK_STRUCT_SIZE), 1) :: l2
  else l1 ++ (b_addr x, x.1.2, 0) :: l2.

Lemma taken_ok size l1 x l2 :
  0 ≤ size < x.1.2 → blocks_ok (l1 ++ x :: l2) → blocks_ok (taken size l1 x l2).
Proof.
  intros Hs. unfold taken. destruct x as [[b sz] fr]. simpl in Hs |- *.
  rewrite blocks_ok_middle. intros (Hx & Hsep & Hok).
  unfold block_ok, b_addr in *. simpl in *.
  destruct (Z.ltb_spec (size + 4 + BLOCK_STRUCT_SIZE) sz).
  - rewrite blocks_ok_middle. split; [unfold block_ok, b_addr; simpl; lia|].
    rewrite blocks_ok_middle, Forall_app, Forall_cons_iff. apply Forall_app in Hsep as [Hs1 Hs2].
    assert (Hw : ∀ l b' sz' g, Forall (sep (b, sz, fr)) l → b ≤ b' → b' + sz' ≤ b + sz →
      Forall (sep (b', sz', g)) l).
    { intros l b' sz' g Hl Hb Hsz. eapply Forall_impl; [|exact Hl]. intros y Hy.
      eapply sep_within; [exact Hy|done|]. unfold b_end, b_addr. simpl. lia. }
    unfold BLOCK_STRUCT_SIZE in *. split_and!; try done; try (apply Hw; (done || lia)).
    + left. unfold b_end, b_addr, BLOCK_STRUCT_SIZE. simpl. lia.
    + unfold block_ok, b_addr. simpl. lia.
    + rewrite Forall_app. split; apply Hw; (done || lia).
  - rewrite blocks_ok_middle. split; [done|]. split; [|done].
    eapply Forall_impl; [|exact Hsep]. done.
Qed.

(** The header of a block in the middle of a chain. *)
Lemma chain_middle m a l1 x l2 e :
  chain m a (l1 ++ x :: l2) e →
  ∃ nx pv, m !! b_addr x = Some (mkBlock x.1.2 nx pv x.2) ∧ b_addr x ≠ NULL ∧
    chain m a l1 (b_addr x) ∧ chain m nx l2 e.
Proof.
  intros (c & Hc1 & Hc2)%heap_chain_app. destruct x as [[b sz] fr].
  destruct Hc2 as (-> & Hb & nx & pv & Hm & Hc2). by exists nx, pv.
Qed.

Lemma chain_rebuild m a l1 x nx pv l2 e :
  m !! b_addr x = Some (mkBlock x.1.2 nx pv x.2) → b_addr x ≠ NULL →
  chain m a l1 (b_addr x) → chain m nx l2 e → chain m a (l1 ++ x :: l2) e.
Proof.
  intros Hm Hb Hc1 Hc2. apply heap_chain_app. exists (b_addr x). split; [done|].
  destruct x as [[b sz] fr]. split; [done|]. split; [done|]. by exists nx, pv.
Qed.

Lemma take_block_spec s a l1 x l2 size :
  chain (h_blocks s) a (l1 ++ x :: l2) NULL → blocks_ok (l1 ++ x :: l2) →
  0 ≤ size < x.1.2 → size + 4 + BLOCK_STRUCT_SIZE < 2 ^ 32 →
  ∃ m', take_block (b_addr x) size s = Some (dataStart (b_addr x), set_blocks m' s) ∧
    chain m' a (taken size l1 x l2) NULL.
Proof.
  intros Hc Hok Hs Hw. destruct (chain_middle _ _ _ _ _ _ Hc) as (nx & pv & Hm & Hnull & Hc1 & Hc2).
  apply blocks_ok_middle in Hok as (Hx & Hsep & Hok). pose proof Hx as [Hxa Hxs].
  pose proof Hsep as [Hsep1 Hsep2]%Forall_app.
  assert (Hok12 : blocks_ok l1 ∧ blocks_ok l2).
  { clear -Hok. induction l1 as [|y l1 IH]; [done|]. simpl in *. destruct Hok as (Hy & Hs & Hok).
    apply Forall_app in Hs as [Hs1 _]. destruct (IH Hok). split_and!; done. }
  destruct Hok12 as [Hok1 Hok2].
  assert (Hkeep : ∀ m a' l e b v, (l = l1 ∨ l = l2) → b_addr x ≤ b < b_end x → chain m a' l e →
    chain (<[b := v]> m) a' l e).
  { intros m a' l e b v [-> | ->] Hb Hch; by eapply (chain_insert_apart _ _ _ _ x). }
  assert (Hin : b_addr x ≤ b_addr x < b_end x) by (unfold b_end, BLOCK_STRUCT_SIZE; lia).
  unfold take_block, blk. rewrite Hm. cbn [mbind option_bind b_size]. rewrite wrap_u_id by (unfold BLOCK_STRUCT_SIZE in *; lia).
  unfold taken. destruct (Z.ltb_spec (size + 4 + BLOCK_STRUCT_SIZE) x.1.2) as [Hbig|Hsmall].
  - set (n := dataStart (b_addr x) + size).
    assert (Hn : b_addr x ≤ n < b_end x) by (unfold n, dataStart, b_end, BLOCK_STRUCT_SIZE in *; lia).
    assert (Hne : n ≠ b_addr x) by (unfold n, dataStart, BLOCK_STRUCT_SIZE; lia).
    unfold split_block, blk. rewrite Hm. cbn [mbind option_bind b_size b_next b_prev b_free].
    rewrite (proj2 (Z.ltb_ge _ _)) by lia. fold n. cbn [put_blk set_blocks h_blocks].
    rewrite lookup_insert_ne by done. rewrite Hm. cbn [mbind option_bind b_prev b_free].
    unfold set_free, blk. cbn [put_blk set_blocks h_blocks]. rewrite lookup_insert_eq.
    cbn [mbind option_bind b_size b_next b_prev].
    eexists. split; [done|]. cbn [h_blocks put_blk set_blocks]. rewrite insert_insert_eq. change (b_addr x + BLOCK_STRUCT_SIZE + size) with n.
    apply (chain_rebuild _ _ _ (b_addr x, size, 0) n pv).
    + simpl. by rewrite lookup_insert_eq.
    + done.
    + apply Hkeep; [by left|done|]. apply Hkeep; [by left|done|done].
    + apply (chain_rebuild _ _ [] (n, x.1.2 - (size + BLOCK_STRUCT_SIZE), 1) nx (b_addr x)); simpl; try done.
      * rewrite lookup_insert_ne by done. rewrite lookup_insert_eq. do 2 f_equal.
        rewrite wrap_u_id by (unfold BLOCK_STRUCT_SIZE in *; lia). done.
      * unfold b_addr, NULL in *. simpl in *. lia.
      * apply Hkeep; [by right|done|]. apply Hkeep; [by right|done|done].
  - unfold set_free, blk. cbn [mbind option_bind]. rewrite Hm. cbn [mbind option_bind b_size b_next b_prev].
    eexists. split; [done|]. apply (chain_rebuild _ _ _ (b_addr x, x.1.2, 0) nx pv).
    + simpl. by rewrite lookup_insert_eq.
    + done.
    + by apply Hkeep; [left| |].
    + by apply Hkeep; [right| |].
Qed.

(** ** The kernel's heap *)

(** [l] are the blocks of the kernel's heap; they lie in its [28 + KERNEL_HEAP_SIZE] bytes. *)
Record kheap s (l : list block) : Prop := {
  kh_base : kernelBase s = KERNEL_HEAP_START;
  kh_chain : chain (h_blocks s) KERNEL_HEAP_START l NULL;
  kh_ok : blocks_ok l;
  kh_in : Forall (λ x, KERNEL_HEAP_START ≤ b_addr x ∧
    b_end x ≤ KERNEL_HEAP_START + BLOCK_STRUCT_SIZE + KERNEL_HEAP_SIZE) l;
}.

Lemma kheap_init s : kheap (initializeKernelHeap s) [(KERNEL_HEAP_START, KERNEL_HEAP_SIZE, 1)].
Proof.
  split; [done| | |].
  - split; [done|]. split; [done|]. exists NULL, NULL. split; [|done]. simpl. by rewrite lookup_insert_eq.
  - split; [|done]. split; [done|]. by vm_compute.
  - repeat constructor; unfold b_end, b_addr, BLOCK_STRUCT_SIZE; simpl; lia.
Qed.

Lemma kmalloc_spec s l size fuel :
  kheap s l → 0 < size ≤ 2 ^ 31 → (length l ≤ fuel)%nat →
  (kmalloc fuel size s = Some (NULL, s) ∧ ∀ x, x ∈ l → suits (align4 size) x = false) ∨
  ∃ l1 x l2 s', l = l1 ++ x :: l2 ∧ (∀ y, y ∈ l1 → suits (align4 size) y = false) ∧
    suits (align4 size) x = true ∧ kmalloc fuel size s = Some (dataStart (b_addr x), s') ∧
    kheap s' (taken (align4 size) l1 x l2).
Proof.
  intros [Hb Hc Hok Hin] Hs Hf. destruct (align4_spec size) as [Ha _]; [lia|].
  unfold kmalloc. rewrite Hb. change (KERNEL_HEAP_START =? NULL) with false. cbn iota.
  rewrite (proj2 (Z.eqb_neq size 0)) by lia.
  destruct (find_spec s _ l (align4 size) fuel Hc Hf) as [[-> Hn]|(l1 & x & l2 & -> & E1 & E2 & ->)].
  { left. split; [done|exact Hn]. }
  right. destruct (chain_middle _ _ _ _ _ _ Hc) as (nx & pv & _ & Hnull & _).
  pose proof E2 as Hsuit. unfold suits in Hsuit. apply andb_true_iff in Hsuit as [_ Hsz%Z.ltb_lt].
  destruct (take_block_spec s _ l1 x l2 (align4 size) Hc Hok) as (m' & Ht & Hc'); [lia|unfold BLOCK_STRUCT_SIZE; lia|].
  exists l1, x, l2, (set_blocks m' s). split; [done|]. split; [done|]. split; [done|]. cbn [mbind option_bind].
  rewrite (proj2 (Z.eqb_neq _ _)) by done. split; [exact Ht|]. split; [done|done|apply taken_ok; [lia|done]|].
  apply Forall_app in Hin as [Hin1 [Hinx Hin2]%Forall_cons_iff]. unfold taken.
  destruct (Z.ltb_spec (align4 size + 4 + BLOCK_STRUCT_SIZE) x.1.2);
    rewrite Forall_app, !Forall_cons_iff; split_and!; try done;
    unfold b_end, b_addr, BLOCK_STRUCT_SIZE in *; simpl in *; lia.
Qed.

(** C9: [kmalloc] is first fit: it takes the first block that is free and larger than the
    request rounded up to a multiple of 4 (splitting off what is left when that is more
    than a header and 4 bytes), or returns NULL and changes nothing when there is none;
    the heap stays a list of blocks pairwise apart within its bounds. *)
Theorem kmalloc_correct s l size fuel :
  kheap s l → 0 < size ≤ 2 ^ 31 → (length l ≤ fuel)%nat →
  size ≤ align4 size < size + 4 ∧ align4 size mod 4 = 0 ∧
  ((kmalloc fuel size s = Some (NULL, s) ∧ ∀ x, x ∈ l → suits (align4 size) x = false) ∨
   ∃ l1 x l2 s', l = l1 ++ x :: l2 ∧ (∀ y, y ∈ l1 → suits (align4 size) y = false) ∧
     suits (align4 size) x = true ∧ kmalloc fuel size s = Some (dataStart (b_addr x), s') ∧
     kheap s' (taken (align4 size) l1 x l2)).
Proof.
  intros Hk Hs Hf. destruct (align4_spec size) as [Ha1 Ha2]; [lia|].
  split; [done|]. split; [done|]. by apply kmalloc_spec.
Qed.

(** *** Sequences of allocations *)

(** The non-null results, with the sizes asked for. *)
Fixpoint kmalloc_run (fuel : nat) (sizes : list Z) s : option (list (Z * Z) * HeapState W) :=
  match sizes with
  | [] => Some ([], s)
  | n :: sizes' =>
      '(p, s) ← kmalloc fuel n s;
      '(out, s) ← kmalloc_run fuel sizes' s;
      Some (if p =? NULL then (out, s) else ((p, n) :: out, s))
  end.

(** [p] is the data of a used block of at least [n] bytes. *)
Definition owned (l : list block) (pn : Z * Z) : Prop :=
  ∃ x, x ∈ l ∧ x.2 = 0 ∧ dataStart (b_addr x) = pn.1 ∧ pn.2 ≤ x.1.2.

Lemma blocks_ok_sep l x y : blocks_ok l → x ∈ l → y ∈ l → x ≠ y → sep x y.
Proof.
  intros Hok (l1 & l2 & ->)%list_elem_of_split Hy Hne.
  apply blocks_ok_middle in Hok as (_ & Hsep & _). rewrite list.Forall_forall in Hsep. apply Hsep.
  apply elem_of_app in Hy as [Hy|Hy]; [set_solver|]. apply elem_of_cons in Hy as [->|Hy]; [done|set_solver].
Qed.

(** What was owned stays owned, and the block taken is new. *)
Lemma taken_owned size n l1 x l2 pn :
  blocks_ok (l1 ++ x :: l2) → suits size x = true → n ≤ size →
  (owned (l1 ++ x :: l2) pn → owned (taken size l1 x l2) pn ∧ pn.1 ≠ dataStart (b_addr x)) ∧
  owned (taken size l1 x l2) (dataStart (b_addr x), n).
Proof.
  intros Hok Hsuit Hn. unfold suits in Hsuit. apply andb_true_iff in Hsuit as [Hfr Hsz%Z.ltb_lt].
  apply negb_true_iff, Z.eqb_neq in Hfr. split.
  - intros (y & Hy & Hy0 & Hp & Hle). assert (Hyx : y ≠ x) by (by intros ->).
    assert (Hy12 : y ∈ l1 ++ l2).
    { apply elem_of_app in Hy as [Hy|[->|Hy]%elem_of_cons]; [set_solver|done|set_solver]. }
    split.
    + exists y. split_and!; try done. unfold taken. c_cases; set_solver.
    + rewrite <-Hp. unfold dataStart. intros E. assert (Hs : sep x y).
      { apply blocks_ok_middle in Hok as (_ & Hsep & _). rewrite list.Forall_forall in Hsep. by apply Hsep. }
      apply (sep_addr x y); [apply (blocks_ok_elem (l1 ++ x :: l2)); [done|set_solver] |by eapply blocks_ok_elem|done|lia].
  - unfold owned, taken. c_cases; eexists; (split; [apply elem_of_app; right; by left|]); simpl; split_and!; done || lia.
Qed.

Lemma taken_length size l1 x l2 : (length (taken size l1 x l2) ≤ S (length (l1 ++ x :: l2)))%nat.
Proof. unfold taken. c_cases; rewrite !length_app; simpl; lia. Qed.

(** The sizes that can be asked for: above, [align4] wraps around to 0. *)
Definition request (n : Z) : Prop := 0 ≤ n ≤ 2 ^ 32 - 4.

Lemma kmalloc_null s l n fuel :
  kheap s l → (n = 0 ∨ 2 ^ 31 < n ≤ 2 ^ 32 - 4) → (length l ≤ fuel)%nat → kmalloc fuel n s = Some (NULL, s).
Proof.
  intros [Hb Hc Hok Hin] Hn Hf. unfold kmalloc. rewrite Hb. change (KERNEL_HEAP_START =? NULL) with false. cbn iota.
  destruct (Z.eqb_spec n 0) as [|Hn0]; [done|]. destruct (align4_spec n) as [Ha _]; [lia|].
  destruct (find_spec s _ l (align4 n) fuel Hc Hf) as [[-> _]|(l1 & x & l2 & -> & _ & E & _)]; [done|exfalso].
  apply andb_true_iff in E as [_ Hsz%Z.ltb_lt]. rewrite Forall_app, Forall_cons_iff in Hin. destruct Hin as (_ & Hx & _).
  unfold b_end, BLOCK_STRUCT_SIZE, KERNEL_HEAP_START, KERNEL_HEAP_SIZE, PAGE_SIZE in *. lia.
Qed.

Lemma kmalloc_run_spec sizes fuel s l out0 :
  kheap s l → Forall request sizes → (length l + length sizes ≤ fuel)%nat →
  Forall (owned l) out0 → NoDup out0.*1 →
  ∃ out s' l', kmalloc_run fuel sizes s = Some (out, s') ∧ kheap s' l' ∧
    Forall (owned l') (out ++ out0) ∧ NoDup (out ++ out0).*1.
Proof.
  revert s l out0. induction sizes as [|n sizes IH]; intros s l out0 Hk Hs Hf Ho Hnd; cbn [kmalloc_run].
  { by exists [], s, l. }
  apply Forall_cons_iff in Hs as [Hn Hs]. simpl in Hf.
  unfold request in Hn.
  assert (n = 0 ∨ 2 ^ 31 < n ≤ 2 ^ 32 - 4 ∨ 0 < n ≤ 2 ^ 31) as Hcase by lia. apply or_assoc in Hcase as [Hnull|Hn'].
  { rewrite (kmalloc_null s l n fuel Hk Hnull) by lia. cbn [mbind option_bind].
    destruct (IH s l out0 Hk Hs) as (out & s' & l' & -> & Hr); [lia|done|done|]. exists out, s', l'. done. }
  destruct (align4_spec n) as [Ha _]; [lia|].
  destruct (kmalloc_spec s l n fuel Hk Hn') as [[-> _]|(l1 & x & l2 & s' & -> & _ & Hsuit & -> & Hk')]; [lia| |].
  { cbn [mbind option_bind]. destruct (IH s l out0 Hk Hs) as (out & s' & l' & -> & Hr); [lia|done|done|].
    exists out, s', l'. done. }
  cbn [mbind option_bind]. pose proof (kh_ok _ _ Hk) as Hok.
  pose proof (λ pn, taken_owned (align4 n) n l1 x l2 pn Hok Hsuit ltac:(lia)) as Ht.
  pose proof (taken_length (align4 n) l1 x l2) as Hlen.
  set (p := dataStart (b_addr x)) in *.
  destruct (IH s' _ ((p, n) :: out0) Hk' Hs) as (out & s2 & l' & -> & Hk2 & Ho2 & Hnd2); [lia| | |].
  - apply Forall_cons_iff. split; [by apply (Ht (p, n))|]. eapply Forall_impl; [|exact Ho].
    intros pn Hpn. by apply Ht.
  - rewrite fmap_cons. apply list.NoDup_cons. split; [|done]. intros (pn & E & Hpn)%list_elem_of_fmap.
    rewrite list.Forall_forall in Ho. destruct (Ht pn) as [Hno _]. destruct (Hno (Ho pn Hpn)) as [_ Hne]. done.
  - assert (Hp : p ≠ NULL).
    { assert (block_ok x) as [Hx _] by (apply (blocks_ok_elem (l1 ++ x :: l2)); [done|set_solver]).
      unfold p, dataStart, BLOCK_STRUCT_SIZE, NULL in *. lia. }
    cbn [mbind option_bind]. rewrite (proj2 (Z.eqb_neq p NULL)) by done.
    exists ((p, n) :: out), s2, l'. split; [done|]. split; [done|].
    assert (Hperm : out ++ (p, n) :: out0 ≡ₚ ((p, n) :: out) ++ out0).
    { by rewrite <-Permutation_middle. }
    rewrite <-Hperm. done.
Qed.

(** C8: from the start of the kernel, whatever sequence of sizes up to [2^32 - 4] [kmalloc] is
    asked for (for the three sizes above [align4] wraps to 0, see [kmalloc_wraps]), the
    areas it hands out are pairwise disjoint and lie in the kernel's heap, which is the
    header at [KERNEL_HEAP_START] and the 17 pages' worth of bytes after that header: since
    [initializeKernelHeap] does not take the header off, it ends 28 bytes past the 17
    pages ([kmalloc_past_pages]). *)
Theorem kmalloc_run_disjoint s sizes fuel :
  Forall request sizes → (length sizes < fuel)%nat →
  ∃ out s', kmalloc_run fuel sizes (initializeKernelHeap s) = Some (out, s') ∧
    (∀ i j p n q k, out !! i = Some (p, n) → out !! j = Some (q, k) → i ≠ j → p + n ≤ q ∨ q + k ≤ p) ∧
    Forall (λ pn, KERNEL_HEAP_START + BLOCK_STRUCT_SIZE ≤ pn.1 ∧
      pn.1 + pn.2 ≤ KERNEL_HEAP_START + BLOCK_STRUCT_SIZE + KERNEL_HEAP_SIZE) out.
Proof.
  intros Hs Hf. destruct (kmalloc_run_spec sizes fuel _ _ [] (kheap_init s) Hs) as
    (out & s' & l & Hr & Hk & Ho & Hnd); [simpl; lia|constructor|constructor|].
  rewrite app_nil_r in *. exists out, s'. split; [done|].
  pose proof (kh_ok _ _ Hk) as Hok. pose proof (kh_in _ _ Hk) as Hin.
  rewrite list.Forall_forall in Ho. rewrite list.Forall_forall in Hin. split.
  - intros i j p n q k Hi Hj Hne.
    destruct (Ho (p, n)) as (x & Hx & _ & Hpx & Hnx); [by eapply list_elem_of_lookup_2|].
    destruct (Ho (q, k)) as (y & Hy & _ & Hqy & Hky); [by eapply list_elem_of_lookup_2|]. simpl in *.
    assert (Hpq : p ≠ q).
    { intros ->. apply Hne. eapply (NoDup_lookup out.*1); [done|..]; rewrite list_lookup_fmap.
      - by rewrite Hi. - by rewrite Hj. }
    assert (Hsep : sep x y) by (apply (blocks_ok_sep l); try done; congruence).
    unfold sep, b_end, dataStart, BLOCK_STRUCT_SIZE in *. lia.
  - rewrite list.Forall_forall. intros [p n] Hp. destruct (Ho _ Hp) as (x & Hx & _ & Hpx & Hnx). simpl in *.
    specialize (Hin x Hx). unfold b_end, dataStart, BLOCK_STRUCT_SIZE in *. lia.
Qed.

(** ** The heap of a process *)



End heaps.

(** ** Examples and witnesses *)

Definition demo_heap : HeapState Toy := mkHeap NULL NULL ∅ toy0.

Lemma kmalloc_correct_witness :
  ∃ s', kmalloc 1 20 (initializeKernelHeap demo_heap) = Some (KERNEL_HEAP_START + 28, s').
Proof.
  destruct (kmalloc_correct _ _ 20 1 (kheap_init demo_heap)) as (_ & _ & [[_ Hn]|(l1 & x & l2 & s' & Hl & _ & _ & Hk & _)]);
    [lia|simpl; lia| |].
  - specialize (Hn (KERNEL_HEAP_START, KERNEL_HEAP_SIZE, 1)). discriminate Hn. by left.
  - exists s'. rewrite Hk. assert (x = (KERNEL_HEAP_START, KERNEL_HEAP_SIZE, 1)) as ->; [|done].
    destruct l1 as [|z [|? ?]]; [by injection Hl|done|done].
Defined.

Lemma kmalloc_run_disjoint_witness :
  ∃ out s', kmalloc_run 6 [20; 0; 7; 2 ^ 32 - 4; 100] (initializeKernelHeap demo_heap) = Some (out, s') ∧
    out.*2 = [20; 7; 100].
Proof.
  destruct (kmalloc_run_disjoint demo_heap [20; 0; 7; 2 ^ 32 - 4; 100] 6) as (out & s' & Hr & _).
  { repeat constructor; lia. } { simpl. lia. }
  exists out, s'. split; [exact Hr|]. vm_compute in Hr. by injection Hr as <- _.
Defined.

(** A request of almost [2^32] bytes is rounded to 0, and an empty area is handed out for it. *)
Lemma kmalloc_wraps :
  align4 (2 ^ 32 - 1) = 0 ∧
  fst <$> kmalloc 4 (2 ^ 32 - 1) (initializeKernelHeap demo_heap) = Some (dataStart KERNEL_HEAP_START).
Proof. by vm_compute. Qed.

(** The largest area [kmalloc] gives ends past the 17 pages of the kernel's heap. *)
Lemma kmalloc_past_pages :
  ∃ p, fst <$> kmalloc 4 (KERNEL_HEAP_SIZE - 4) (initializeKernelHeap demo_heap) = Some p ∧
    p + (KERNEL_HEAP_SIZE - 4) = KERNEL_HEAP_START + KERNEL_HEAP_SIZE + 24.
Proof. eexists. by vm_compute. Qed.



(** The last block of a heap is never released. *)
Example free_last_ignored :
  ('(a, s) ← mallock 9 7 4060 demo_heap; s ← free 9 a s; h ← blk 65536 s; Some (b_free h)) = Some 0.
Proof. vm_compute. reflexivity. Qed.

(** A block in use is swallowed: [a], [c] are allocated, [a] is freed and split for two new
    blocks, [n] and [u]; releasing [a]'s place and then [c], whose [prev] still is the place
    of [a], merges over [u], and the next allocation returns memory that contains [u]. *)
Example free_swallows_used :
  ('(a, s) ← mallock 9 7 100 demo_heap; '(c, s) ← mallock 9 7 100 s; '(d, s) ← mallock 9 7 100 s;
   s ← free 9 a s;
   '(n, s) ← mallock 9 7 8 s; '(u, s) ← mallock 9 7 40 s;
   s ← free 9 n s; s ← free 9 c s;
   '(e, s) ← mallock 9 7 90 s;
   Some (n - a, (e <=? u) && (u + 40 <=? e + 90))) = Some (0, true).
Proof. vm_compute. reflexivity. Qed.
