(* ===== verification/Pipes.v ===== *)
(** * Pipes between processes ([Kernel/IPC.c])

    A table of up to 50 named pipes.  A pipe is a ring of ten bytes in the pages of the
    process that created it, guarded by a mutex of the mutex table; the [Pipe] structs are
    a typed store, the bytes and the arrays of pids live in the world's memory. *)

From S2P Require Import Prelude KMonad CString Structs World Mutex.

Definition NO_SPACE_LEFT : Z := -1.
Definition PIPE_NOT_FOUND : Z := -2.

Definition pi_set_ring (position endp flag : Z) (p : Pipe) : Pipe :=
  mkPipe (pi_name p) position endp (pi_creator p) (pi_pipePids p) (pi_blocked p)
    (pi_cardinalBlocked p) (pi_connected p) (pi_pipe p) flag (pi_mutex p).
Definition pi_set_cardinal (n : Z) (p : Pipe) : Pipe :=
  mkPipe (pi_name p) (pi_position p) (pi_end p) (pi_creator p) (pi_pipePids p) (pi_blocked p)
    n (pi_connected p) (pi_pipe p) (pi_readFlag p) (pi_mutex p).
Definition pi_set_connected (n : Z) (p : Pipe) : Pipe :=
  mkPipe (pi_name p) (pi_position p) (pi_end p) (pi_creator p) (pi_pipePids p) (pi_blocked p)
    (pi_cardinalBlocked p) n (pi_pipe p) (pi_readFlag p) (pi_mutex p).
Definition pi_set_mutex (n : Z) (p : Pipe) : Pipe :=
  mkPipe (pi_name p) (pi_position p) (pi_end p) (pi_creator p) (pi_pipePids p) (pi_blocked p)
    (pi_cardinalBlocked p) (pi_connected p) (pi_pipe p) (pi_readFlag p) n.

(** ** The ring *)

Definition next (aux : Z) (pipe : Pipe) : Z :=
  if aux + 1 =? pi_pipe pipe + PIPE_LENGTH then pi_pipe pipe else aux + 1.

(** The loop of [write]; [n] bounds the iterations. *)
Fixpoint write_loop (n : nat) (p : Pipe) (aux current bytes : Z) (m : mem) : option (Z * mem) :=
  if negb (char_at m current =? 0) &&
     (negb (Z.rem (pi_end p + bytes) PIPE_LENGTH =? pi_position p) || (bytes =? 0))
  then match n with
       | O => None
       | S n' => write_loop n' p (next aux p) (current + 1) (bytes + 1)
                   (store8 m aux (char_at m current))
       end
  else Some (bytes, m).

(** The loop of [read]. *)
Fixpoint read_loop (n : nat) (p : Pipe) (result bytes aux i : Z) (m : mem) : option (Z * mem) :=
  if (i <? bytes) && (negb (Z.rem (i + pi_position p) PIPE_LENGTH =? pi_end p) || (i =? 0))
  then match n with
       | O => None
       | S n' => read_loop n' p result bytes (next aux p) (i + 1)
                   (store8 m (result + i) (char_at m aux))
       end
  else Some (i, m).

Section pipes.
Context {W : Type} `{WorldMem W, !WorldPipes W}.

Record IPCState := mkIPC {
  pipeNames : list Z;
  pipes : list Z;
  lastPipeName : Z;
  ipcAdminMutex : Z;
  ipc_structs : gmap Z Pipe;
  ipc_mutexes : MutexState W;
}.
Implicit Types s : IPCState.

(** The tables before [initializePipes] runs. *)
Definition ipc_bss (ms : MutexState W) : IPCState :=
  mkIPC (replicate (Z.to_nat MAX_PIPES) NULL) (replicate (Z.to_nat MAX_PIPES) NULL) 0 0 ∅ ms.

Definition ipc_world s : W := m_world (ipc_mutexes s).
Definition ipc_mem s : mem := w_memory (ipc_world s).
Definition set_ipc_mutexes ms s : IPCState :=
  mkIPC (pipeNames s) (pipes s) (lastPipeName s) (ipcAdminMutex s) (ipc_structs s) ms.
Definition set_ipc_world w s : IPCState :=
  set_ipc_mutexes (mkMS (mutexes (ipc_mutexes s)) (adminMutex (ipc_mutexes s)) w) s.
Definition set_ipc_mem m s : IPCState := set_ipc_world (w_set_memory m (ipc_world s)) s.
Definition set_tables names ps last s : IPCState :=
  mkIPC names ps last (ipcAdminMutex s) (ipc_structs s) (ipc_mutexes s).

Definition ipc_pipe (p : Z) s : option Pipe := ipc_structs s !! p.
Definition upd_pipe (p : Z) (f : Pipe → Pipe) s : option IPCState :=
  pi ← ipc_pipe p s;
  Some (mkIPC (pipeNames s) (pipes s) (lastPipeName s) (ipcAdminMutex s)
          (<[p := f pi]> (ipc_structs s)) (ipc_mutexes s)).

Definition ipc_changeState (pid : Z) (st : processState) s : option IPCState :=
  w ← w_changeState pid st (ipc_world s); Some (set_ipc_world w s).

Definition ipc_lock (i : Z) : M IPCState unit := zoom ipc_mutexes set_ipc_mutexes (lockMutex i).
Definition ipc_free (i : Z) s : option IPCState :=
  ms ← freeMutex i (ipc_mutexes s); Some (set_ipc_mutexes ms s).

(** An [int] of an array. *)
Definition load_int (m : mem) (a i : Z) : Z := int32 (load32 m (a + sizeof_int * i)).
Definition store_int (m : mem) (a i v : Z) : mem := store32 m (a + sizeof_int * i) v.

(** The string literals of the file. *)
Context (str_n str_ipcAdminMutex : Z).

Definition initializePipes (fuel : nat) : M IPCState unit :=
  _ ← modify (set_tables (replicate (Z.to_nat MAX_PIPES) str_n) (replicate (Z.to_nat MAX_PIPES) NULL) 0);
  i ← zoom ipc_mutexes set_ipc_mutexes (getMutex fuel str_ipcAdminMutex);
  modify (λ s, mkIPC (pipeNames s) (pipes s) (lastPipeName s) i (ipc_structs s) (ipc_mutexes s)).

Definition getPipeNameIndex (fuel : nat) (name : Z) s : option Z :=
  r ← scan_for (Z.to_nat MAX_PIPES) 0
    (λ i, n ← aget (pipeNames s) i; c ← strcmp fuel (ipc_mem s) n name; Some (c =? 0));
  Some (default PIPE_NOT_FOUND r).

Definition openPipe (fuel : nat) (name : Z) : M IPCState Z :=
  admin ← asks ipcAdminMutex;
  _ ← ipc_lock admin;
  i ← asksO (getPipeNameIndex fuel name);
  if i =? PIPE_NOT_FOUND then mret NULL
  else
    p ← asksO (λ s, aget (pipes s) i);
    pi ← asksO (ipc_pipe p);
    pid ← asksO (λ s, w_currentPid (ipc_world s));
    _ ← modify (λ s, set_ipc_mem (store_int (ipc_mem s) (pi_pipePids pi) (pi_connected pi) pid) s);
    _ ← modifyO (upd_pipe p (pi_set_connected (int32 (pi_connected pi + 1))));
    admin ← asks ipcAdminMutex;
    _ ← modifyO (ipc_free admin);
    asksO (λ s, aget (pipes s) i).

(** [for (j = 0; j < pi->cardinalBlocked; j++) changeProcessState(pi->blocked[j], READY);] *)
Definition unlock_blocked (pi : Pipe) s : option IPCState :=
  for_range (Z.to_nat (pi_cardinalBlocked pi)) 0
    (λ j s, ipc_changeState (load_int (ipc_mem s) (pi_blocked pi) j) READY s) s.

Fixpoint unlock_loop (n : nat) (fuel : nat) (i name : Z) s : option IPCState :=
  match n with
  | O => Some s
  | S n' =>
      nm ← aget (pipeNames s) i;
      c ← strcmp fuel (ipc_mem s) nm name;
      if c =? 0 then
        p ← aget (pipes s) i;
        pi ← ipc_pipe p s;
        s ← unlock_blocked pi s;
        upd_pipe p (pi_set_cardinal 0) s
      else unlock_loop n' fuel (i + 1) name s
  end.

Definition unlockProcesses (fuel : nat) (name : Z) s : option IPCState :=
  unlock_loop (Z.to_nat (lastPipeName s)) fuel 0 name s.

(** What [write] does between locking and freeing the mutex. *)
Definition write_body (fuel : nat) (p aux message : Z) s : option (Z * IPCState) :=
  pi ← ipc_pipe p s;
  '(bytes, m) ← write_loop (Z.to_nat PIPE_LENGTH) pi aux message 0 (ipc_mem s);
  let s := set_ipc_mem m s in
  let e := int32 (Z.rem (pi_end pi + bytes) PIPE_LENGTH) in
  let flag := if e =? pi_position pi then 1 else pi_readFlag pi in
  s ← upd_pipe p (pi_set_ring (pi_position pi) e flag) s;
  s ← unlockProcesses fuel (pi_name pi) s;
  Some (bytes, s).

(** The address where to write is computed before the mutex is locked. *)
Definition write (fuel : nat) (p message : Z) : M IPCState Z :=
  pi ← asksO (ipc_pipe p);
  let aux := pi_pipe pi + pi_end pi in
  _ ← ipc_lock (pi_mutex pi);
  pi ← asksO (ipc_pipe p);
  if (pi_position pi =? pi_end pi) && (pi_readFlag pi =? 1) then
    pid ← asksO (λ s, w_currentPid (ipc_world s));
    _ ← modifyO (ipc_changeState pid BLOCKED);
    _ ← modifyO (ipc_free (pi_mutex pi));
    mret 0
  else
    bytes ← calls (write_body fuel p aux message);
    _ ← modifyO (ipc_free (pi_mutex pi));
    mret bytes.

Definition read_body (p aux result bytes : Z) s : option (Z * IPCState) :=
  pi ← ipc_pipe p s;
  let bytes := if bytes =? -1 then PIPE_LENGTH else bytes in
  '(i, m) ← read_loop (Z.to_nat PIPE_LENGTH) pi result bytes aux 0 (ipc_mem s);
  let s := set_ipc_mem m s in
  s ← upd_pipe p (pi_set_ring (Z.rem (pi_position pi + i) PIPE_LENGTH) (pi_end pi) 0) s;
  Some (i, s).

Definition read (p result bytes : Z) : M IPCState Z :=
  pi ← asksO (ipc_pipe p);
  let aux := pi_pipe pi + pi_position pi in
  _ ← ipc_lock (pi_mutex pi);
  pi ← asksO (ipc_pipe p);
  if (pi_position pi =? pi_end pi) && (pi_readFlag pi =? 0) then
    currentPid ← asksO (λ s, w_currentPid (ipc_world s));
    _ ← modifyO (ipc_changeState currentPid BLOCKED);
    _ ← modify (λ s, set_ipc_mem
          (store_int (ipc_mem s) (pi_blocked pi) (pi_cardinalBlocked pi) currentPid) s);
    _ ← modifyO (upd_pipe p (pi_set_cardinal (int32 (pi_cardinalBlocked pi + 1))));
    _ ← modifyO (ipc_free (pi_mutex pi));
    _ ← _yield;
    mret 0
  else
    i ← calls (read_body p aux result bytes);
    _ ← modifyO (ipc_free (pi_mutex pi));
    mret i.

(** ** Creation *)

Definition getMiddleSpace s : option Z :=
  r ← scan_for (Z.to_nat MAX_PIPES) 0 (λ i, n ← aget (pipeNames s) i; Some (n =? NULL));
  Some (default NO_SPACE_LEFT r).

(** [while (strcmp(pro->pipesStruct[i].name, name) != 0) i++;] *)
Fixpoint freeSpace_loop (n fuel : nat) (i name : Z) (pro : Process) s : option Z :=
  pi ← ipc_pipe (p_pipesStruct pro + sizeof_Pipe * i) s;
  c ← strcmp fuel (ipc_mem s) (pi_name pi) name;
  if c =? 0 then Some i
  else match n with O => None | S n' => freeSpace_loop n' fuel (i + 1) name pro s end.

Definition freeSpace (fuel : nat) (name pro : Z) s : option IPCState :=
  pr ← w_process (ipc_world s) pro;
  i ← freeSpace_loop fuel fuel 0 name pr s;
  Some (set_ipc_mem (store_int (ipc_mem s) (p_occupiedPosition pr) i 0) s).

Definition closePipe (fuel : nat) (pipe : Z) s : option IPCState :=
  currentPid ← w_currentPid (ipc_world s);
  pi ← ipc_pipe pipe s;
  i ← getPipeNameIndex fuel (pi_name pi) s;
  if i =? PIPE_NOT_FOUND then Some s
  else
    pro ← w_getProcessById (pi_creator pi) (ipc_world s);
    pr ← w_process (ipc_world s) pro;
    if p_pid pr =? currentPid then
      q ← aget (pipes s) i;
      pq ← ipc_pipe q s;
      ps ← aset (pipes s) i NULL;
      freeSpace fuel (pi_name pq) pro (set_tables (pipeNames s) ps (lastPipeName s) s)
    else Some s.

Definition ipc_set_pipesOpened (pro n : Z) s : option IPCState :=
  w ← w_set_pipesOpened pro n (ipc_world s); Some (set_ipc_world w s).

Definition getIndexForPipeStructure (pro : Z) s : option (Z * IPCState) :=
  pr ← w_process (ipc_world s) pro;
  let current := p_pipesOpened pr in
  let occupied i := load_int (ipc_mem s) (p_occupiedPosition pr) i in
  if (MAX_PROCESS_PIPES <? current) || (occupied current =? 1) then
    r ← scan_for (Z.to_nat MAX_PROCESS_PIPES) 0 (λ i, Some (occupied i =? 0));
    match r with
    | Some i => s ← ipc_set_pipesOpened pro (i + 1) s; Some (i, s)
    | None => Some (NO_SPACE_LEFT, s)
    end
  else s ← ipc_set_pipesOpened pro (int32 (current + 1)) s; Some (current, s).

(** The arrays of pids of pipe [index] start only [3 * index] bytes into the process's. *)
Definition createPipeStruct (pro name : Z) s : option (Z * IPCState) :=
  '(index, s) ← getIndexForPipeStructure pro s;
  if index =? NO_SPACE_LEFT then Some (NULL, s)
  else
    pr ← w_process (ipc_world s) pro;
    let s := set_ipc_mem (store_int (ipc_mem s) (p_occupiedPosition pr) index 1) s in
    let p := p_pipesStruct pr + sizeof_Pipe * index in
    let old := default (mkPipe 0 0 0 0 0 0 0 0 0 0 0) (ipc_pipe p s) in
    let pi := {|
      pi_name := name; pi_position := 0; pi_end := 0; pi_creator := p_pid pr;
      pi_pipePids := p_pipePids pr + index * MAX_PROCESS_PIPES;
      pi_blocked := p_blocked pr + index * MAX_PROCESS_PIPES;
      pi_cardinalBlocked := 0; pi_connected := 1;
      pi_pipe := p_pipes pr + index * PIPE_LENGTH; pi_readFlag := 0; pi_mutex := pi_mutex old |} in
    let s := set_ipc_mem (store_int (ipc_mem s) (pi_pipePids pi) 0 (p_pid pr)) s in
    let s := mkIPC (pipeNames s) (pipes s) (lastPipeName s) (ipcAdminMutex s)
               (<[p := pi]> (ipc_structs s)) (ipc_mutexes s) in
    s ← ipc_set_pipesOpened pro 0 s;
    Some (p, s).

(** The place for the new name: [lastPipeName], or the first that is [NULL]. *)
Definition createPipe_place s : option Z :=
  taken ← (if MAX_PIPES <=? lastPipeName s then Some true
           else n ← aget (pipeNames s) (lastPipeName s); Some (negb (n =? NULL)));
  if (taken : bool) then getMiddleSpace s else Some (lastPipeName s).

Definition createPipe (fuel : nat) (name : Z) : M IPCState Z :=
  admin ← asks ipcAdminMutex;
  _ ← ipc_lock admin;
  pid ← asksO (λ s, w_currentPid (ipc_world s));
  place ← asksO createPipe_place;
  _ ← modify (λ s, set_tables (pipeNames s) (pipes s) place s);
  if place =? NO_SPACE_LEFT then mret NULL
  else if name =? NULL then mret NULL
  else
    p ← asksO (λ s, w_getProcessById pid (ipc_world s));
    if p =? NULL then mret NULL
    else
      pipe ← calls (createPipeStruct p name);
      mutex ← zoom ipc_mutexes set_ipc_mutexes (getMutex fuel name);
      _ ← modifyO (upd_pipe pipe (pi_set_mutex mutex));
      _ ← modifyO (λ s,
        names ← aset (pipeNames s) (lastPipeName s) name;
        ps ← aset (pipes s) (lastPipeName s) pipe;
        Some (set_tables names ps (int32 (lastPipeName s + 1)) s));
      admin ← asks ipcAdminMutex;
      _ ← modifyO (ipc_free admin);
      mret pipe.
End pipes.
Arguments IPCState : clear implicits.
