(* ===== verification/PipesThms.v ===== *)
(** * Properties of the pipes

    [pipe_holds] reads the ring of a pipe as the list of bytes in it; [write] appends to
    that list and [read] takes from its front. *)

From S2P Require Import Prelude KMonad CString Structs World Toy Mutex MutexThms Pipes.

(** ** The ring *)

(** The address of the [j]-th byte in the pipe. *)
Definition ring_addr (p : Pipe) (j : Z) : Z := pi_pipe p + (pi_position p + j) mod PIPE_LENGTH.

Abbreviation len l := (Z.of_nat (length l)).

Record pipe_holds (m : mem) (p : Pipe) (l : list Z) : Prop := {
  ph_pos : 0 ≤ pi_position p < PIPE_LENGTH;
  ph_len : len l ≤ PIPE_LENGTH;
  ph_end : pi_end p = (pi_position p + len l) mod PIPE_LENGTH;
  ph_flag : pi_readFlag p = c_bool (len l =? PIPE_LENGTH);
  ph_data : ∀ (j : nat) c, l !! j = Some c → load8 m (ring_addr p (Z.of_nat j)) = c;
}.

(** [k] bytes at [a] that the ring does not contain. *)
Definition off_ring (p : Pipe) (a k : Z) : Prop := a + k ≤ pi_pipe p ∨ pi_pipe p + PIPE_LENGTH ≤ a.

Ltac ring_arith := unfold ring_addr, off_ring, PIPE_LENGTH in *; Z.to_euclidean_division_equations; lia.

Lemma ring_addr_next p j : next (ring_addr p j) p = ring_addr p (j + 1).
Proof.
  unfold next. destruct (Z.eqb_spec (ring_addr p j + 1) (pi_pipe p + PIPE_LENGTH)); ring_arith.
Qed.


Lemma ring_addr_off p a k i j : off_ring p a k → 0 ≤ i < k → ring_addr p j ≠ a + i.
Proof. intros. ring_arith. Qed.


Lemma read_cond p n i :
  0 ≤ pi_position p < PIPE_LENGTH → pi_end p = (pi_position p + n) mod PIPE_LENGTH →
  0 < n ≤ PIPE_LENGTH → 0 ≤ i ≤ n →
  negb (Z.rem (i + pi_position p) PIPE_LENGTH =? pi_end p) || (i =? 0) = (i <? n).
Proof.
  intros Hp He Hn Hi. rewrite Z.rem_mod_nonneg by ring_arith. rewrite He. apply eq_bool_prop_intro.
  rewrite !Is_true_true, orb_true_iff, negb_true_iff, Z.eqb_neq, Z.eqb_eq, Z.ltb_lt. ring_arith.
Qed.


(** From byte [i] on, the loop copies what is in the pipe, up to [bytes]. *)
Lemma read_loop_spec (p : Pipe) (n bytes result : Z) (fuel : nat) m i :
  0 ≤ pi_position p < PIPE_LENGTH → pi_end p = (pi_position p + n) mod PIPE_LENGTH →
  0 < n ≤ PIPE_LENGTH → 0 ≤ bytes → 0 ≤ i ≤ Z.min n bytes → Z.min n bytes - i ≤ Z.of_nat fuel →
  off_ring p result (Z.min n bytes) →
  ∃ m', read_loop fuel p result bytes (ring_addr p i) i m = Some (Z.min n bytes, m') ∧
    (∀ j, i ≤ j < Z.min n bytes → load8 m' (result + j) = load8 m (ring_addr p j)) ∧
    (∀ a, a < result + i ∨ result + Z.min n bytes ≤ a → load8 m' a = load8 m a).
Proof.
  intros Hp He Hn Hb. revert m i. induction fuel as [|fuel IH]; intros m i Hi Hf Hoff.
  - assert (i = Z.min n bytes) as -> by lia. exists m. split; [|split; [lia|done]]. cbn [read_loop].
    rewrite (read_cond p n) by (done || lia).
    destruct (Z.ltb_spec (Z.min n bytes) bytes), (Z.ltb_spec (Z.min n bytes) n); done || lia.
  - cbn [read_loop]. rewrite (read_cond p n) by (done || lia).
    destruct (decide (i = Z.min n bytes)) as [->|Hlt].
    { exists m. split; [|split; [lia|done]].
      destruct (Z.ltb_spec (Z.min n bytes) bytes), (Z.ltb_spec (Z.min n bytes) n); done || lia. }
    rewrite !(proj2 (Z.ltb_lt _ _)) by lia. cbn [andb]. rewrite ring_addr_next.
    set (m1 := store8 m (result + i) _).
    destruct (IH m1 (i + 1)) as (m' & Hr & Hin & Hout); [lia|lia|done|].
    exists m'. split; [done|]. split.
    + intros j Hj. destruct (decide (j = i)) as [->|Hne].
      * rewrite Hout by lia. unfold m1. rewrite store8_load, Z.eqb_refl. apply uint8_char.
      * rewrite Hin by lia. unfold m1. rewrite store8_load.
        destruct (Z.eqb_spec (ring_addr p j) (result + i)) as [E|]; [|done].
        exfalso. apply (ring_addr_off p result (Z.min n bytes) i j); [done|lia|done].
    + intros a Ha. rewrite Hout by lia. unfold m1. rewrite store8_load.
      destruct (Z.eqb_spec a (result + i)); [lia|done].
Qed.


(** Dropping the bytes the loop read. *)
Lemma pipe_holds_read m m' p l k :
  pipe_holds m p l → 0 < k ≤ len l →
  (∀ j, 0 ≤ j < PIPE_LENGTH → load8 m' (ring_addr p j) = load8 m (ring_addr p j)) →
  pipe_holds m' (pi_set_ring (Z.rem (pi_position p + k) PIPE_LENGTH) (pi_end p) 0 p)
    (drop (Z.to_nat k) l).
Proof.
  intros [Hp Hl He Hf Hd] Hk Hm. rewrite Z.rem_mod_nonneg by ring_arith. split; simpl.
  - ring_arith.
  - rewrite length_drop. lia.
  - rewrite He, length_drop. replace (Z.of_nat (length l - Z.to_nat k)) with (len l - k) by lia.
    ring_arith.
  - rewrite length_drop. rewrite (proj2 (Z.eqb_neq _ _)); [done|lia].
  - intros j c. rewrite lookup_drop. intros Hj. pose proof (lookup_lt_Some _ _ _ Hj) as Hlt.
    rewrite <-(Hd _ _ Hj), <-Hm by lia. f_equal. unfold ring_addr. simpl. f_equal.
    replace (Z.of_nat (Z.to_nat k + j)) with (k + Z.of_nat j) by lia. ring_arith.
Qed.

(** ** [read] and [write] *)

Section operations.
Context {W : Type} `{WorldMemLaws W, !WorldPipes W}.
Implicit Types s : IPCState W.

(** The pipe at [p] is [pi], holds [l], and its mutex is free. *)
Record pipe_at s (p : Z) (pi : Pipe) (l : list Z) : Prop := {
  pa_get : ipc_structs s !! p = Some pi;
  pa_holds : pipe_holds (ipc_mem s) pi l;
  pa_free : ∃ mx, mutex_at (ipc_mutexes s) (pi_mutex pi) mx ∧ m_mutex mx = 0;
  pa_ok : w_ok (ipc_world s);
}.

(** Only the world, and in it the memory and some process states, and the pipe at [p]
    have changed. *)
Definition same_tables s s' : Prop :=
  pipeNames s' = pipeNames s ∧ pipes s' = pipes s ∧ lastPipeName s' = lastPipeName s ∧
  ipcAdminMutex s' = ipcAdminMutex s ∧ mutexes (ipc_mutexes s') = mutexes (ipc_mutexes s).

Lemma ipc_lock_done i s ms :
  lockMutex i (ipc_mutexes s) = Done tt ms → ipc_lock i s = Done tt (set_ipc_mutexes ms s).
Proof. intros Hl. unfold ipc_lock, zoom. by rewrite Hl. Qed.

(** Locking the free mutex of a pipe, and freeing it later in another state. *)
Lemma pipe_lock s p pi l :
  pipe_at s p pi l → ∃ ms, lockMutex (pi_mutex pi) (ipc_mutexes s) = Done tt ms ∧
    m_world ms = ipc_world s ∧ adminMutex ms = adminMutex (ipc_mutexes s) ∧
    ∀ w, freeMutex (pi_mutex pi) (mkMS (mutexes ms) (adminMutex ms) w) =
      Some (mkMS (mutexes (ipc_mutexes s)) (adminMutex (ipc_mutexes s)) w).
Proof.
  intros [_ _ (mx & Hat & Hfree) _].
  destruct (lock_free _ _ _ Hat Hfree) as (_ & m1 & Hl & Hwf & Hu & _ & Hwt & Hback).
  eexists. split; [exact Hl|]. split; [done|]. split; [done|]. intros w.
  assert (Hat1 : mutex_at (put_mutex (pi_mutex pi) m1 w (ipc_mutexes s)) (pi_mutex pi) m1).
  { destruct Hat as [Hg Hm Hus Hw]. split; [by apply (put_get _ _ _ _ mx)|done|congruence|done]. }
  etransitivity; [exact (free_restores _ _ _ _ Hat1 Hwt Hback)|]. f_equal. unfold put_mutex. simpl.
  f_equal. unfold aput. rewrite list_insert_insert_eq. apply aput_id, (at_get _ _ _ Hat).
Qed.








(** The state with other records of pipes and another world. *)
Definition with_pipes (ps : gmap Z Pipe) (ms : MutexState W) (w : W) s : IPCState W :=
  mkIPC (pipeNames s) (pipes s) (lastPipeName s) (ipcAdminMutex s) ps
    (mkMS (mutexes ms) (adminMutex ms) w).





Lemma read_body_spec s p pi l result bytes ms :
  let b := if bytes =? -1 then PIPE_LENGTH else bytes in
  let k := Z.min (len l) b in
  pipe_at s p pi l → 0 < b → l ≠ [] → off_ring pi result k → m_world ms = ipc_world s →
  ∃ pi' w, read_body p (pi_pipe pi + pi_position pi) result bytes (set_ipc_mutexes ms s) =
      Some (k, with_pipes (<[p := pi']> (ipc_structs s)) ms w s) ∧
    pipe_holds (w_memory w) pi' (drop (Z.to_nat k) l) ∧
    pi_cardinalBlocked pi' = pi_cardinalBlocked pi ∧ pi_mutex pi' = pi_mutex pi ∧ w_ok w ∧
    (∀ (j : nat) c, take (Z.to_nat k) l !! j = Some c → load8 (w_memory w) (result + Z.of_nat j) = c) ∧
    (∀ a, a < result ∨ result + k ≤ a → load8 (w_memory w) a = load8 (ipc_mem s) a) ∧
    ∀ q, w_procs w q = w_procs (ipc_world s) q.
Proof.
  intros b k Hat Hb Hne Hoff Hmsw. pose proof Hat as [Hget Hholds _ Hok]. pose proof Hholds as [Hp Hl He Hf Hd].
  assert (Hn : 0 < len l) by (destruct l; [done|simpl; lia]).
  destruct (read_loop_spec pi (len l) b result (Z.to_nat PIPE_LENGTH) (ipc_mem s) 0)
    as (m' & Hr & Hin & Hout); try (done || lia). fold k in Hr, Hin, Hout.
  set (w := w_set_memory m' (ipc_world s)).
  destruct (w_set_memory_law (ipc_world s) m' Hok) as (Hok2 & _ & Hmem2 & Hpr2).
  exists (pi_set_ring (Z.rem (pi_position pi + k) PIPE_LENGTH) (pi_end pi) 0 pi), w. split.
  - unfold read_body, ipc_pipe. cbn [set_ipc_mutexes ipc_structs]. rewrite Hget. cbn [mbind option_bind]. fold b.
    unfold ipc_mem, ipc_world. cbn [ipc_mutexes set_ipc_mutexes]. rewrite Hmsw.
    replace (pi_pipe pi + pi_position pi) with (ring_addr pi 0) by (clear -Hp; ring_arith).
    change (w_memory (ipc_world s)) with (ipc_mem s). rewrite Hr. cbn [mbind option_bind]. unfold upd_pipe, ipc_pipe.
    cbn [set_ipc_mem set_ipc_world set_ipc_mutexes ipc_structs]. rewrite Hget. cbn [mbind option_bind].
    unfold set_ipc_mem, set_ipc_world, ipc_world. cbn [set_ipc_mutexes ipc_mutexes]. rewrite Hmsw. done.
  - unfold w. rewrite Hmem2. split_and!; try done.
    + apply (pipe_holds_read (ipc_mem s)); [done|lia|]. intros j Hj. apply Hout. clear -Hoff Hp. ring_arith.
    + intros j c Hj. pose proof (lookup_lt_Some _ _ _ Hj) as Hlt. rewrite length_take in Hlt.
      rewrite lookup_take_lt in Hj by lia. rewrite Hin by lia. by apply Hd.
    + intros a Ha. apply Hout. lia.
Qed.

(** C31: a read of at least one byte ([-1] asks for ten; [read_nothing_empties] is the case of
    none) from a pipe that is not empty and whose mutex is free takes its first bytes, as
    many as asked for or all there are, in order, and leaves the others; it touches no byte
    outside the part of the result it fills, and no process. *)
Theorem read_correct s p pi l result bytes :
  let b := if bytes =? -1 then PIPE_LENGTH else bytes in
  let k := Z.min (len l) b in
  pipe_at s p pi l → 0 < b → l ≠ [] → off_ring pi result k →
  ∃ s' pi', read p result bytes s = Done k s' ∧ same_tables s s' ∧
    pipe_at s' p pi' (drop (Z.to_nat k) l) ∧ pi_cardinalBlocked pi' = pi_cardinalBlocked pi ∧
    (∀ (j : nat) c, take (Z.to_nat k) l !! j = Some c → load8 (ipc_mem s') (result + Z.of_nat j) = c) ∧
    (∀ a, a < result ∨ result + k ≤ a → load8 (ipc_mem s') a = load8 (ipc_mem s) a) ∧
    ∀ q, w_procs (ipc_world s') q = w_procs (ipc_world s) q.
Proof.
  intros b k Hat Hb Hne Hoff.
  destruct (pipe_lock _ _ _ _ Hat) as (ms & Hlock & Hmsw & _ & Hfree).
  destruct (read_body_spec s p pi l result bytes ms) as
    (pi' & w & Hbody & Hholds & Hcard & Hmut & Hok & Hdata & Hframe & Hpr); [done..|].
  pose proof Hat as [Hget [Hp Hl He Hf _] (mx & Hmat & Hm0) _].
  exists (with_pipes (<[p := pi']> (ipc_structs s)) (ipc_mutexes s) w s), pi'. split.
  { unfold read. rewrite (asksO_bind (ipc_pipe p) _ s pi Hget).
    rewrite (bind_done _ _ _ _ _ (ipc_lock_done _ _ _ Hlock)).
    rewrite (asksO_bind (ipc_pipe p) _ (set_ipc_mutexes ms s) pi Hget).
    assert (Hfl : (pi_position pi =? pi_end pi) && (pi_readFlag pi =? 0) = false).
    { rewrite Hf, He. destruct (Z.eqb_spec (len l) PIPE_LENGTH) as [|n]; [apply andb_false_r|].
      rewrite (proj2 (Z.eqb_neq _ _)); [done|]. assert (0 < len l) as Hn by (destruct l; [done|simpl; lia]).
      clear -Hp Hl Hn n. ring_arith. }
    rewrite Hfl, (calls_bind (read_body p _ result bytes) _ (set_ipc_mutexes ms s) _ _ Hbody).
    erewrite modifyO_bind; [done|]. unfold ipc_free, with_pipes. cbn [ipc_mutexes]. by rewrite Hfree. }
  split; [by split_and!|]. split; [|by split_and!]. split; simpl; try done.
  - by rewrite lookup_insert_eq.
  - exists mx. rewrite Hmut. split; [|done]. by destruct Hmat.
Qed.
End operations.

(** ** [createPipe] *)

Section creation.
Context {W : Type} `{WorldMemLaws W, !WorldPipes W, !WorldPipesLaws W}.
Implicit Types s : IPCState W.

(** Building the record of a pipe touches no mutex. *)
Lemma createPipeStruct_spec s pro pr name :
  w_ok (ipc_world s) → w_process (ipc_world s) pro = Some pr → p_pipesOpened pr = 0 →
  load_int (ipc_mem s) (p_occupiedPosition pr) 0 = 0 →
  ∃ a ps w, createPipeStruct pro name s = Some (a, with_pipes ps (ipc_mutexes s) w s) ∧ w_ok w ∧
    w_currentPid w = w_currentPid (ipc_world s) ∧ ps !! a ≠ None ∧
    ∀ q, w_procs w q = w_procs (ipc_world s) q.
Proof.
  intros Hok Hpr Hopen Hocc. unfold createPipeStruct, getIndexForPipeStructure.
  rewrite Hpr. cbn [mbind option_bind]. rewrite Hopen, Hocc. simpl orb. cbn iota.
  unfold ipc_set_pipesOpened.
  destruct (wp_set_law (ipc_world s) pro pr (int32 (0 + 1)) Hok Hpr) as (w1 & -> & Hok1 & Hc1 & Hq1 & pr1 & Hpr1).
  cbn [mbind option_bind]. change (0 =? NO_SPACE_LEFT) with false. cbn iota.
  change (ipc_world (set_ipc_world w1 s)) with w1. rewrite Hpr1. cbn [mbind option_bind].
  match goal with |- context [w_set_pipesOpened pro 0 ?x] => set (w3 := x) end.
  assert (∃ m1 m2, w3 = w_set_memory m2 (w_set_memory m1 w1)) as (m1 & m2 & Hw3) by (by eexists _, _).
  destruct (w_set_memory_law w1 m1 Hok1) as (Hok2 & Hc2 & _ & Hq2).
  destruct (w_set_memory_law (w_set_memory m1 w1) m2 Hok2) as (Hok3 & Hc3 & _ & Hq3). rewrite <-Hw3 in *.
  assert (Hpr3 : w_process w3 pro = Some pr1) by (by rewrite Hw3, !wp_mem_law).
  destruct (wp_set_law w3 pro pr1 0 Hok3 Hpr3) as (w4 & -> & Hok4 & Hc4 & Hq4 & _).
  cbn [mbind option_bind]. eexists _, _, w4. split; [done|]. split; [done|]. split; [congruence|].
  split; [simpl; by rewrite lookup_insert_eq|]. intros q. by rewrite Hq4, Hq3, Hq2, Hq1.
Qed.

(** The kernel never calls [initializePipes], so the mutex of the table is number 0,
    the one [getMutex] locks too: the first [createPipe] of any process stops in the call
    of [getMutex], blocked behind the mutex it holds, alone in its queue, and any other
    process that calls [createPipe] or [getMutex] queues up behind it. *)
Theorem createPipe_deadlock s mx pid pro pr name fuel :
  ipcAdminMutex s = 0 → adminMutex (ipc_mutexes s) = 0 →
  mutex_at (ipc_mutexes s) 0 mx → m_mutex mx = 0 → w_ok (ipc_world s) →
  w_currentPid (ipc_world s) = Some pid → pid ≠ -1 → name ≠ NULL →
  0 ≤ lastPipeName s < MAX_PIPES → aget (pipeNames s) (lastPipeName s) = Some NULL →
  w_getProcessById pid (ipc_world s) = Some pro → pro ≠ NULL →
  w_process (ipc_world s) pro = Some pr → p_pipesOpened pr = 0 →
  load_int (ipc_mem s) (p_occupiedPosition pr) 0 = 0 →
  ∃ s' k mx', createPipe fuel name s = Yield s' k ∧
    w_procs (ipc_world s') pid = Some BLOCKED ∧
    mutex_at (ipc_mutexes s') 0 mx' ∧ m_mutex mx' = 1 ∧ waiters mx' = [pid].
Proof.
  intros Hipc Hadm Hat Hm0 Hok Hcur Hpid Hname Hlast Hnull Hget Hpro Hpr Hopen Hocc.
  destruct (lock_free _ _ _ Hat Hm0) as (_ & m1 & Hl & Hwf1 & Hu1 & Hv1 & Hwt1 & _).
  set (ms1 := put_mutex 0 m1 (ipc_world s) (ipc_mutexes s)) in *.
  set (s2 := set_tables (pipeNames s) (pipes s) (lastPipeName s) (set_ipc_mutexes ms1 s)).
  destruct (createPipeStruct_spec s2 pro pr name Hok Hpr Hopen Hocc) as (a & ps & w & Hs & Hokw & Hcw & Ha & Hqw).
  set (s3 := with_pipes ps ms1 w s2) in *.
  assert (Hat3 : mutex_at (ipc_mutexes s3) 0 m1).
  { destruct Hat as [Hg Hmax Hus _]. split; [|done|congruence|done].
    change (aget (mutexes (put_mutex 0 m1 w (ipc_mutexes s))) 0 = Some m1). by apply (put_get _ _ _ _ mx). }
  destruct (lock_held (ipc_mutexes s3) 0 m1 pid Hat3 Hv1) as (m2 & w' & l1 & l2 & Hlock & Hwf2 & Hu2 & Hv2 & Hl12 & Hwt2 & Hc);
    [rewrite Hwt1; simpl; lia|done|exact (eq_trans Hcw Hcur)|done|].
  rewrite Hwt1 in Hl12. symmetry in Hl12. apply app_eq_nil in Hl12 as [-> ->].
  destruct (w_change_law w pid BLOCKED Hokw) as (w2 & Hw2 & _ & _ & _ & Hq2).
  assert (w2 = w') as -> by (change (m_world (ipc_mutexes s3)) with w in Hc; congruence).
  exists (set_ipc_mutexes (put_mutex 0 m2 w' (ipc_mutexes s3)) s3). eexists _, m2. split; [|split; [|split; [|done]]].
  - unfold createPipe. rewrite asks_bind, Hipc, (bind_done _ _ _ _ _ (ipc_lock_done _ _ _ Hl)).
    rewrite (asksO_bind (λ s, w_currentPid (ipc_world s)) _ _ pid) by done.
    rewrite (asksO_bind createPipe_place _ _ (lastPipeName s)).
    2: { unfold createPipe_place. simpl. rewrite (proj2 (Z.leb_gt _ _)) by lia. by rewrite Hnull. }
    rewrite modify_bind. rewrite !(proj2 (Z.eqb_neq _ _)) by (done || unfold NO_SPACE_LEFT; lia).
    fold s2. rewrite (asksO_bind (λ s, w_getProcessById pid (ipc_world s)) _ s2 pro) by done.
    rewrite (proj2 (Z.eqb_neq _ _)) by done.
    rewrite (calls_bind (createPipeStruct pro name) _ s2 _ _ Hs).
    apply bind_yield. unfold zoom, getMutex. rewrite asks_bind.
    assert (Hadm3 : adminMutex (ipc_mutexes s3) = 0) by exact Hadm.
    change (with_pipes ps (ipc_mutexes s2) w s2) with s3. rewrite Hadm3.
    by rewrite (bind_yield _ _ _ _ _ Hlock).
  - change (w_procs w' pid = Some BLOCKED). rewrite Hq2, decide_True by done.
    destruct (w_current_law _ Hok) as (pid' & Hpid' & Hsome). assert (pid' = pid) as -> by congruence.
    destruct Hsome as [|[st Hst]]; [done|]. rewrite Hqw. change (ipc_world s2) with (ipc_world s). by rewrite Hst.
  - destruct Hat3 as [Hg3 Hmax3 Hus3 _]. split; [|done|congruence|done]. by apply (put_get _ _ _ _ m1).
Qed.
End creation.

(** ** Examples and witnesses *)

(** Pipe "a" has its record at 512 and its ring at 1000; "hi" is at 100, the empty string
    at 200, 60 is free; process 7 waits for data. *)
Definition demo_memory : mem := λ a,
  if a =? 8 then 97 else if a =? 100 then 104 else if a =? 101 then 105
  else if a =? 1000 then 120 else if a =? 2000 then 7 else 0.

Definition demo_pipe (e card : Z) : Pipe := mkPipe 8 0 e 1 3000 2000 card 1 1000 0 1.

Definition demo_ipc (e card : Z) : IPCState Toy :=
  mkIPC (8 :: replicate 49 NULL) (512 :: replicate 49 NULL) 1 0 {[ 512 := demo_pipe e card ]}
    (mkMS (used_mutex :: used_mutex :: replicate 126 (cleaned mutex_bss)) 0
       (mkToy 1 (λ _, BLOCKED) demo_memory [])).

Lemma demo_mutex1 e card :
  ∃ mx, mutex_at (ipc_mutexes (demo_ipc e card)) (pi_mutex (demo_pipe e card)) mx ∧ m_mutex mx = 0.
Proof.
  exists used_mutex. split; [|done]. split; [done|done|done|].
  exact (at_wf _ _ _ (toy_at 1 (or_intror eq_refl))).
Qed.

(** It holds one byte. *)
Lemma demo_pipe_at card : pipe_at (demo_ipc 1 card) 512 (demo_pipe 1 card) [120].
Proof.
  split; [done| |apply demo_mutex1|done].
  split; [done|done|done|done|]. intros [|j] c Hj; [|done]. injection Hj as <-. done.
Qed.


Lemma read_correct_witness :
  ∃ s' pi', read 512 60 (-1) (demo_ipc 1 0) = Done 1 s' ∧ pipe_at s' 512 pi' [] ∧
    load8 (ipc_mem s') 60 = 120.
Proof.
  destruct (read_correct (demo_ipc 1 0) 512 (demo_pipe 1 0) [120] 60 (-1))
    as (s' & pi' & Hr & _ & Hat & _ & Hd & _); [apply demo_pipe_at|done|done|by left|].
  exists s', pi'. split; [exact Hr|]. split; [exact Hat|]. exact (Hd 0%nat 120 eq_refl).
Defined.

Lemma createPipe_deadlock_witness :
  ∃ s' k mx', createPipe 2 8 (ipc_bss toy_state) = Yield s' k ∧
    w_procs (ipc_world s') 1 = Some BLOCKED ∧ mutex_at (ipc_mutexes s') 0 mx' ∧
    m_mutex mx' = 1 ∧ waiters mx' = [1].
Proof.
  eapply (createPipe_deadlock (ipc_bss toy_state) used_mutex 1 3); try done.
  exact (toy_at 0 (or_introl eq_refl)).
Defined.

(** Writing the empty message to an empty pipe makes it look full: the next write blocks. *)
Example write_empty_fills :
  (s ← res_state (write 2 512 200 (demo_ipc 0 0)); pi ← ipc_pipe 512 s; Some (pi_readFlag pi)) = Some 1.
Proof. reflexivity. Qed.

(** Reading nothing from a full pipe empties it. *)
Example read_nothing_empties :
  (s ← res_state (write 2 512 200 (demo_ipc 0 0)); s ← res_state (read 512 60 0 s);
   pi ← ipc_pipe 512 s; Some (pi_position pi, pi_end pi, pi_readFlag pi)) = Some (0, 0, 0).
Proof. reflexivity. Qed.

(** A write to a full pipe blocks the writer without recording it anywhere. *)
Example write_full_blocks :
  (s ← res_state (write 2 512 200 (demo_ipc 0 0));
   s ← res_state (write 2 512 100 (set_ipc_world (mkToy 3 (λ _, READY) demo_memory []) s));
   pi ← ipc_pipe 512 s; Some (w_procs (ipc_world s) 3, pi_cardinalBlocked pi)) = Some (Some BLOCKED, 0).
Proof. reflexivity. Qed.
