(* ===== verification/Semaphores.v ===== *)
(** * Semaphores ([Kernel/semaphores.c])

    A table of named counting semaphores over the mutexes of [Mutex]: each has a counter,
    an array of blocked pids and a mutex.  The header defines [MAX_SEMAPHORES] as
    [MAX_MUTEXES/2] with the 100 of [mutex.h]. *)

From S2P Require Import Prelude KMonad CString Structs World Mutex.

Definition MAX_SEMAPHORES : Z := 50.
Definition SEMAPHORE_NOT_FOUND : Z := -1.

Record Semaphore := mkSem {
  sem_used : Z;
  sem_name : Z;
  sem_queue : list Z;
  sem_semaphore : Z;
  sem_cardinalBlocked : Z;
  sem_mutex : Z;
  sem_pidCreator : Z;
}.

Definition sem_set_used v x := mkSem v (sem_name x) (sem_queue x) (sem_semaphore x)
  (sem_cardinalBlocked x) (sem_mutex x) (sem_pidCreator x).
Definition sem_set_name v x := mkSem (sem_used x) v (sem_queue x) (sem_semaphore x)
  (sem_cardinalBlocked x) (sem_mutex x) (sem_pidCreator x).
Definition sem_set_queue v x := mkSem (sem_used x) (sem_name x) v (sem_semaphore x)
  (sem_cardinalBlocked x) (sem_mutex x) (sem_pidCreator x).
Definition sem_set_value v x := mkSem (sem_used x) (sem_name x) (sem_queue x) v
  (sem_cardinalBlocked x) (sem_mutex x) (sem_pidCreator x).
Definition sem_set_card v x := mkSem (sem_used x) (sem_name x) (sem_queue x) (sem_semaphore x)
  v (sem_mutex x) (sem_pidCreator x).
Definition sem_set_mutex v x := mkSem (sem_used x) (sem_name x) (sem_queue x) (sem_semaphore x)
  (sem_cardinalBlocked x) v (sem_pidCreator x).
Definition sem_set_creator v x := mkSem (sem_used x) (sem_name x) (sem_queue x) (sem_semaphore x)
  (sem_cardinalBlocked x) (sem_mutex x) v.

Definition sem_bss : Semaphore :=
  mkSem 0 NULL (replicate (Z.to_nat MAX_BLOCKED_QUEUE_SIZE) 0) 0 0 0 0.

Section semaphores.
Context {W : Type} `{World W}.

Record SemState := mkSS {
  semaphores : list Semaphore;
  semaphoreMutex : Z;
  s_mutexes : MutexState W;
}.
Implicit Types s : SemState.

Definition set_mutexes (ms : MutexState W) s : SemState := mkSS (semaphores s) (semaphoreMutex s) ms.
Definition on_mutexes {A} (c : M (MutexState W) A) : M SemState A := zoom s_mutexes set_mutexes c.
Definition s_world s : W := m_world (s_mutexes s).

Definition with_sem (i : Z) (f : Semaphore → option Semaphore) s : option SemState :=
  x ← aget (semaphores s) i; x' ← f x; l ← aset (semaphores s) i x';
  Some (mkSS l (semaphoreMutex s) (s_mutexes s)).
Definition with_mutexes (f : MutexState W → option (MutexState W)) s : option SemState :=
  ms ← f (s_mutexes s); Some (set_mutexes ms s).

Definition cleanSemaphore (i : Z) : SemState → option SemState :=
  with_sem i (λ x,
    let x := sem_set_card 0 (sem_set_value 0 (sem_set_used FALSE x)) in
    q ← clearArray (sem_queue x) MAX_BLOCKED_QUEUE_SIZE NO_BLOCKED_QUEUE_VALUE;
    Some (sem_set_queue q x)).

(** The literal ["semaphoreMutex"] is at the address [name]. *)
Definition initializeSemaphores (fuel : nat) (name : Z) : M SemState unit :=
  modifyO (for_range (Z.to_nat MAX_SEMAPHORES) 0 cleanSemaphore) ;;
  i ← on_mutexes (getMutex fuel name);
  modify (λ s, mkSS (semaphores s) i (s_mutexes s)).

Definition isValidSemaphore (index : Z) s : option Z :=
  if MAX_SEMAPHORES <=? index then Some FALSE else sem_used <$> aget (semaphores s) index.

Definition isSemaphoreQueueFull (index : Z) s : option bool :=
  x ← aget (semaphores s) index; Some (MAX_BLOCKED_QUEUE_SIZE <=? sem_cardinalBlocked x).

Definition s_print (o : output) : SemState → option SemState :=
  with_mutexes (with_world (λ w, Some (w_print o w))).

Definition addToSemBlocked (i pid : Z) s : option SemState :=
  x ← aget (semaphores s) i;
  index ← getFreeSpotInBlockedQueue (sem_queue x) MAX_BLOCKED_QUEUE_SIZE;
  if index =? NO_SPACE_LEFT_M then s_print (OStr "MUERTE3") s
  else with_sem i (λ x,
    q ← aset (sem_queue x) index pid;
    Some (sem_set_card (int32 (sem_cardinalBlocked x + 1)) (sem_set_queue q x))) s.

(** The same code a second time, with its own message. *)
Definition addToBlockedQueueSemaphore (i pid : Z) s : option SemState :=
  x ← aget (semaphores s) i;
  index ← getFreeSpotInBlockedQueue (sem_queue x) MAX_BLOCKED_QUEUE_SIZE;
  if index =? NO_SPACE_LEFT_M then s_print (OStr "MUERTE2") s
  else with_sem i (λ x,
    q ← aset (sem_queue x) index pid;
    Some (sem_set_card (int32 (sem_cardinalBlocked x + 1)) (sem_set_queue q x))) s.

Definition getSemIndex (fuel : nat) (mutexName : Z) s : option Z :=
  r ← scan_for (Z.to_nat MAX_SEMAPHORES) 0 (λ i,
    x ← aget (semaphores s) i;
    c ← strcmp fuel (w_memory (s_world s)) (sem_name x) mutexName;
    Some ((c =? 0) && (sem_used x =? TRUE)));
  Some (default SEMAPHORE_NOT_FOUND r).

Definition semOpen (fuel : nat) (name : Z) s : option Z :=
  index ← getSemIndex fuel name s;
  if index =? MUTEX_NOT_FOUND then Some ERROR else Some index.

Definition semClose (index : Z) s : option SemState :=
  valid ← isValidSemaphore index s;
  if valid =? 0 then Some s
  else
    pid ← w_currentPid (s_world s);
    x ← aget (semaphores s) index;
    if pid =? sem_pidCreator x then with_sem index (λ x, Some (sem_set_used FALSE x)) s else Some s.

Definition getFreePositionSemaphores s : option Z :=
  r ← scan_for (Z.to_nat MAX_SEMAPHORES) 0 (λ i, x ← aget (semaphores s) i; Some (sem_used x =? FALSE));
  Some (default NO_SPACE_LEFT_M r).

Definition createSemaphore (fuel : nat) (semName start : Z) : M SemState Z :=
  pid ← asksO (λ s, w_currentPid (s_world s));
  index ← asksO getFreePositionSemaphores;
  if index =? NO_SPACE_LEFT_M then mret ERROR
  else
    modifyO (with_sem index (λ x, Some (sem_set_name semName (sem_set_used TRUE x)))) ;;
    mu ← on_mutexes (getMutex fuel semName);
    modifyO (with_sem index (λ x,
      Some (sem_set_creator pid (sem_set_value start (sem_set_mutex mu x))))) ;;
    mret index.

(** When the name is taken the function returns with [semaphoreMutex] locked. *)
Definition semCreate (fuel : nat) (name start : Z) : M SemState Z :=
  lockm ← asks semaphoreMutex;
  on_mutexes (lockMutex lockm) ;;
  index ← asksO (getSemIndex fuel name);
  if negb (index =? MUTEX_NOT_FOUND) then mret ERROR
  else
    index ← createSemaphore fuel name start;
    lockm ← asks semaphoreMutex;
    modifyO (with_mutexes (freeMutex lockm)) ;;
    mret index.

Definition wait (semaphore : Z) : M SemState unit :=
  valid ← asksO (isValidSemaphore semaphore);
  if valid =? 0 then mret tt
  else
    sem ← asksO (λ s, aget (semaphores s) semaphore);
    on_mutexes (lockMutex (sem_mutex sem)) ;;
    modifyO (with_sem semaphore (λ x, Some (sem_set_value (int32 (sem_semaphore x - 1)) x))) ;;
    sem ← asksO (λ s, aget (semaphores s) semaphore);
    if 0 <=? sem_semaphore sem then modifyO (with_mutexes (freeMutex (sem_mutex sem)))
    else
      pid ← asksO (λ s, w_currentPid (s_world s));
      modifyO (addToSemBlocked semaphore pid) ;;
      modifyO (with_mutexes (m_changeState pid BLOCKED)) ;;
      sem ← asksO (λ s, aget (semaphores s) semaphore);
      modifyO (with_mutexes (freeMutex (sem_mutex sem))) ;;
      _yield.

Definition unblockProcessSemaphore (sem : Z) s : option SemState :=
  x ← aget (semaphores s) sem;
  r ← scan_for (Z.to_nat MAX_BLOCKED_QUEUE_SIZE) 0
        (λ i, v ← aget (sem_queue x) i; Some (negb (v =? NO_BLOCKED_QUEUE_VALUE)));
  match r with
  | None => Some s
  | Some i =>
      v ← aget (sem_queue x) i;
      s ← with_mutexes (m_changeState v READY) s;
      with_sem sem (λ x, q ← aset (sem_queue x) i NO_BLOCKED_QUEUE_VALUE; Some (sem_set_queue q x)) s
  end.

Definition signal (semaphore : Z) s : option SemState :=
  valid ← isValidSemaphore semaphore s;
  if valid =? 0 then Some s
  else
    x ← aget (semaphores s) semaphore;
    s ← (if 0 <? sem_cardinalBlocked x then
           s ← unblockProcessSemaphore semaphore s;
           with_sem semaphore (λ x, Some (sem_set_card (int32 (sem_cardinalBlocked x - 1)) x)) s
         else Some s);
    with_sem semaphore (λ x, Some (sem_set_value (int32 (sem_semaphore x + 1)) x)) s.
End semaphores.
Arguments SemState : clear implicits.
