(* ===== verification/SemaphoresThms.v ===== *)
(** * Properties of the semaphores

    [sem_system] is the transition system of any number of processes that wait for and
    signal one semaphore: no more waits return than the initial value and the signals
    allow, and no signal is lost but to processes that waited while the array of 20 was full:
    those are blocked, counted and not recorded. *)

From S2P Require Import Prelude KMonad CString Structs World Toy Mutex MutexThms Semaphores.

Definition sem_waiters (x : Semaphore) : list Z :=
  filter (λ v, v ≠ NO_BLOCKED_QUEUE_VALUE) (sem_queue x).

Record sem_wf (x : Semaphore) : Prop := {
  swf_queue : length (sem_queue x) = Z.to_nat MAX_BLOCKED_QUEUE_SIZE;
  swf_card : sem_cardinalBlocked x = Z.of_nat (length (sem_waiters x));
  swf_value : Z.of_nat (length (sem_waiters x)) ≤ Z.max 0 (- sem_semaphore x);
}.

Section operations.
Context {W : Type} `{WorldLaws W}.
Implicit Types s : SemState W.

(** Semaphore [i] is in use, is [x], and its mutex is free. *)
Record sem_at s (i : Z) (x : Semaphore) : Prop := {
  sat_get : aget (semaphores s) i = Some x;
  sat_max : i < MAX_SEMAPHORES;
  sat_used : sem_used x ≠ 0;
  sat_wf : sem_wf x;
  sat_mutex : ∃ m, mutex_at (s_mutexes s) (sem_mutex x) m ∧ m_mutex m = 0;
}.

Definition put_sem (i : Z) (x : Semaphore) (w : W) s : SemState W :=
  mkSS (aput (semaphores s) i x) (semaphoreMutex s)
    (mkMS (mutexes (s_mutexes s)) (adminMutex (s_mutexes s)) w).

Lemma with_sem_some s i x f x' :
  aget (semaphores s) i = Some x → f x = Some x' →
  with_sem i f s = Some (mkSS (aput (semaphores s) i x') (semaphoreMutex s) (s_mutexes s)).
Proof.
  intros Hx Hf. unfold with_sem. rewrite Hx. simpl. rewrite Hf. simpl.
  by rewrite aset_some by (by eapply aget_inv).
Qed.

Lemma sem_valid s i x : sem_at s i x → isValidSemaphore i s = Some (sem_used x).
Proof.
  intros [Hx Hi _ _ _]. unfold isValidSemaphore. rewrite (proj2 (Z.leb_gt _ _)) by done.
  by rewrite Hx.
Qed.

(** Taking and releasing a free mutex around a change of world and semaphores. *)
Lemma sem_lock s mi m :
  mutex_at (s_mutexes s) mi m → m_mutex m = 0 →
  ∃ m1, on_mutexes (lockMutex mi) s =
      Done tt (set_mutexes (put_mutex mi m1 (m_world (s_mutexes s)) (s_mutexes s)) s) ∧
    ∀ ms, mutexes ms = aput (mutexes (s_mutexes s)) mi m1 →
      freeMutex mi ms = Some (mkMS (mutexes (s_mutexes s)) (adminMutex ms) (m_world ms)).
Proof.
  intros Hat Hv. destruct (lock_free _ _ _ Hat Hv) as (Hw0 & m1 & Hl & Hwf1 & Hu1 & Hv1 & Hw1 & Hb).
  exists m1. split; [unfold on_mutexes, zoom; by rewrite Hl|]. intros ms Hms.
  pose proof (at_get _ _ _ Hat) as Hg. pose proof (aget_inv _ _ _ Hg).
  rewrite (free_restores ms mi m m1); [|split| |done].
  - unfold put_mutex. rewrite Hms. f_equal. f_equal. unfold aput.
    rewrite list_insert_insert_eq. apply (aput_id _ _ _ Hg).
  - rewrite Hms. by apply aget_aput_eq.
  - apply (at_max _ _ _ Hat).
  - rewrite Hu1. apply (at_used _ _ _ Hat).
  - done.
  - done.
Qed.

Lemma wait_pass s i x :
  sem_at s i x → 0 < sem_semaphore x ≤ INT_MAX →
  wait i s = Done tt (put_sem i (sem_set_value (sem_semaphore x - 1) x) (s_world s) s).
Proof.
  intros Hat Hpos. destruct (sat_mutex _ _ _ Hat) as (m & Hm & Hv).
  destruct (sem_lock s _ m Hm Hv) as (m1 & Hl & Hfree). pose proof (sat_get _ _ _ Hat) as Hx.
  unfold wait. rewrite (asksO_bind _ _ _ _ (sem_valid _ _ _ Hat)).
  rewrite (proj2 (Z.eqb_neq _ _)) by apply (sat_used _ _ _ Hat).
  rewrite (asksO_bind (λ s, aget (semaphores s) i) _ _ _ Hx), (bind_done _ _ _ _ _ Hl).
  erewrite modifyO_bind.
  2: { apply (with_sem_some _ _ x _ (sem_set_value (sem_semaphore x - 1) x)); [exact Hx|].
       rewrite int32_id; [done|]. unfold INT_MIN. lia. }
  rewrite (asksO_bind (λ s, aget (semaphores s) i) _ _ (sem_set_value (sem_semaphore x - 1) x))
    by (apply aget_aput_eq; by eapply aget_inv).
  cbn [sem_semaphore sem_set_value sem_mutex]. rewrite (proj2 (Z.leb_le _ _)) by lia.
  unfold modifyO, with_mutexes. rewrite Hfree by done. done.
Qed.

Lemma wait_block s i x p :
  sem_at s i x → INT_MIN < sem_semaphore x ≤ 0 → (length (sem_waiters x) < 20)%nat → w_ok (s_world s) →
  w_currentPid (s_world s) = Some p → p ≠ -1 →
  ∃ x' w' l1 l2, wait i s = Yield (put_sem i x' w' s) (Done tt) ∧ sem_wf x' ∧
    sem_used x' = sem_used x ∧ sem_mutex x' = sem_mutex x ∧
    sem_semaphore x' = sem_semaphore x - 1 ∧
    sem_waiters x = l1 ++ l2 ∧ sem_waiters x' = l1 ++ p :: l2 ∧
    w_changeState p BLOCKED (s_world s) = Some w'.
Proof.
  intros Hat Hneg Hroom Hok Hcur Hp. destruct (sat_mutex _ _ _ Hat) as (m & Hm & Hv).
  destruct (sem_lock s _ m Hm Hv) as (m1 & Hl & Hfree). pose proof (sat_get _ _ _ Hat) as Hx.
  destruct (sat_wf _ _ _ Hat) as [Hq Hc Hval].
  destruct (free_spot_spec (sem_queue x) Hq) as (r & Hspot & [[-> Hfull]|(Hr & Hfr & _)]);
    [unfold sem_waiters in Hroom; lia|].
  destruct (filter_insert_free (sem_queue x) (Z.to_nat r) p Hfr Hp) as (l1 & l2 & Hl12 & Hl12').
  destruct (w_change_law (s_world s) p BLOCKED Hok) as (w' & Hw' & _).
  set (x1 := sem_set_value (sem_semaphore x - 1) x).
  set (x2 := sem_set_card (int32 (sem_cardinalBlocked x + 1)) (sem_set_queue (aput (sem_queue x) r p) x1)).
  exists x2, w', l1, l2. split; [|split_and!; try done].
  - unfold wait. rewrite (asksO_bind _ _ _ _ (sem_valid _ _ _ Hat)).
    rewrite (proj2 (Z.eqb_neq _ _)) by apply (sat_used _ _ _ Hat).
    rewrite (asksO_bind (λ s, aget (semaphores s) i) _ _ _ Hx), (bind_done _ _ _ _ _ Hl).
    pose proof (aget_inv _ _ _ Hx) as Hi.
    erewrite modifyO_bind.
    2: { apply (with_sem_some _ _ x _ x1); [exact Hx|].
         rewrite int32_id; [done|]. unfold INT_MIN, INT_MAX in *. lia. }
    rewrite (asksO_bind (λ s, aget (semaphores s) i) _ _ x1) by (by apply aget_aput_eq).
    cbn [sem_semaphore sem_set_value sem_mutex x1]. rewrite (proj2 (Z.leb_gt _ _)) by lia.
    rewrite (asksO_bind _ _ _ p) by done.
    erewrite modifyO_bind.
    2: { unfold addToSemBlocked. cbn [semaphores]. rewrite (aget_aput_eq _ _ _ Hi).
         cbn [mbind option_bind sem_queue x1 sem_set_value]. rewrite Hspot. cbn [mbind option_bind].
         rewrite (proj2 (Z.eqb_neq _ _)) by (unfold NO_SPACE_LEFT_M; lia).
         apply (with_sem_some _ _ x1 _ x2); [by apply aget_aput_eq|].
         cbn [sem_queue x1 sem_set_value].
         rewrite aset_some by (rewrite Hq; unfold MAX_BLOCKED_QUEUE_SIZE in *; lia). done. }
    erewrite modifyO_bind.
    2: { unfold with_mutexes, m_changeState, with_world. simpl. unfold s_world in Hw'. rewrite Hw'. done. }
    rewrite (asksO_bind (λ s, aget (semaphores s) i) _ _ x2) by (simpl; apply aget_aput_eq; by rewrite length_aput).
    erewrite modifyO_bind.
    2: { unfold with_mutexes. cbn [sem_mutex x2 x1 sem_set_card sem_set_queue sem_set_value].
         rewrite Hfree by done. done. }
    unfold _yield, put_sem. simpl. unfold aput. by rewrite list_insert_insert_eq.
  - assert (Hw2 : sem_waiters x2 = l1 ++ p :: l2) by done.
    assert (Hw1 : sem_waiters x = l1 ++ l2) by done.
    assert (Hlen : length (sem_waiters x2) = S (length (sem_waiters x)))
      by (rewrite Hw1, Hw2, !length_app; simpl; lia).
    split.
    + simpl. by rewrite length_aput.
    + rewrite Hlen. simpl. rewrite Hc, int32_id; unfold INT_MIN, INT_MAX; lia.
    + rewrite Hlen. simpl. lia.
Qed.

Lemma signal_nobody s i x :
  sem_at s i x → sem_waiters x = [] → INT_MIN ≤ sem_semaphore x < INT_MAX →
  signal i s = Some (put_sem i (sem_set_value (sem_semaphore x + 1) x) (s_world s) s).
Proof.
  intros Hat Hw Hval. pose proof (sat_get _ _ _ Hat) as Hx. destruct (sat_wf _ _ _ Hat) as [Hq Hc _].
  unfold signal. rewrite (sem_valid _ _ _ Hat). cbn [mbind option_bind].
  rewrite (proj2 (Z.eqb_neq _ _)) by apply (sat_used _ _ _ Hat). rewrite Hx. cbn [mbind option_bind].
  rewrite (proj2 (Z.ltb_ge _ _)) by (rewrite Hc, Hw; done). cbn [mbind option_bind].
  rewrite (with_sem_some _ _ x _ (sem_set_value (sem_semaphore x + 1) x) Hx).
  - unfold put_sem, s_world. by destruct (s_mutexes s).
  - rewrite int32_id; [done|lia].
Qed.

Lemma signal_wake s i x p l :
  sem_at s i x → sem_waiters x = p :: l → INT_MIN ≤ sem_semaphore x → w_ok (s_world s) →
  ∃ x' w', signal i s = Some (put_sem i x' w' s) ∧ sem_wf x' ∧
    sem_used x' = sem_used x ∧ sem_mutex x' = sem_mutex x ∧
    sem_semaphore x' = sem_semaphore x + 1 ∧ sem_waiters x' = l ∧
    w_changeState p READY (s_world s) = Some w'.
Proof.
  intros Hat Hw Hmin Hok. pose proof (sat_get _ _ _ Hat) as Hx. destruct (sat_wf _ _ _ Hat) as [Hq Hc Hv].
  pose proof (aget_inv _ _ _ Hx) as Hi. rewrite Hw in Hc, Hv. simpl in Hc, Hv.
  destruct (first_waiter_spec (sem_queue x) Hq) as (j & v & l' & Hscan & Hj & Hvj & Hl & Hl');
    [unfold sem_waiters in Hw; by rewrite Hw|].
  assert (v = p ∧ l' = l) as [-> ->] by (unfold sem_waiters in Hw; split; congruence).
  destruct (w_change_law (s_world s) p READY Hok) as (w' & Hw' & _).
  set (x1 := sem_set_queue (aput (sem_queue x) j NO_BLOCKED_QUEUE_VALUE) x).
  set (x2 := sem_set_card (int32 (sem_cardinalBlocked x - 1)) x1).
  set (x3 := sem_set_value (sem_semaphore x + 1) x2).
  assert (Hlen : Z.of_nat (length l) < 20).
  { pose proof (length_filter (λ v, v ≠ NO_BLOCKED_QUEUE_VALUE) (sem_queue x)) as Hle.
    rewrite Hq in Hle. unfold sem_waiters in Hw. rewrite Hw in Hle.
    change (Z.to_nat MAX_BLOCKED_QUEUE_SIZE) with 20%nat in Hle. simpl in Hle. lia. }
  exists x3, w'. split; [|split_and!; try done].
  - unfold signal. rewrite (sem_valid _ _ _ Hat). cbn [mbind option_bind].
    rewrite (proj2 (Z.eqb_neq _ _)) by apply (sat_used _ _ _ Hat). rewrite Hx. cbn [mbind option_bind].
    rewrite (proj2 (Z.ltb_lt _ _)) by lia.
    unfold unblockProcessSemaphore. rewrite Hx. cbn [mbind option_bind]. rewrite Hscan.
    cbn [mbind option_bind]. rewrite Hvj. cbn [mbind option_bind].
    unfold with_mutexes at 1, m_changeState, with_world. unfold s_world in Hw'. rewrite Hw'.
    cbn [mbind option_bind].
    rewrite (with_sem_some _ _ x _ x1); [|exact Hx|].
    2: { rewrite aset_some by (rewrite Hq; unfold MAX_BLOCKED_QUEUE_SIZE in *; lia). done. }
    cbn [mbind option_bind].
    rewrite (with_sem_some _ _ x1 _ x2); [|by apply aget_aput_eq|done].
    cbn [mbind option_bind].
    rewrite (with_sem_some _ _ x2 _ x3); [|apply aget_aput_eq; simpl; by rewrite length_aput|].
    + unfold put_sem. simpl. unfold aput. by rewrite !list_insert_insert_eq.
    + rewrite int32_id; [done|]. simpl. unfold INT_MIN, INT_MAX in *. lia.
  - assert (Hw2 : sem_waiters x3 = l) by done. split.
    + simpl. by rewrite length_aput.
    + rewrite Hw2. simpl. rewrite Hc, int32_id; unfold INT_MIN, INT_MAX; lia.
    + rewrite Hw2. simpl. lia.
Qed.

(** A computation that can only fault or yield. *)
Definition never_done {A} (c : M (SemState W) A) : Prop := ∀ s a s', c s ≠ Done a s'.

Lemma never_done_asksO {A B} (g : SemState W → option A) (f : A → M (SemState W) B) :
  (∀ a, never_done (f a)) → never_done (asksO g ≫= f).
Proof.
  intros Hf s a s'. unfold mbind, M_bind, asksO. destruct (g s); [apply Hf|done].
Qed.

Lemma never_done_modifyO {B} (g : SemState W → option (SemState W)) (f : unit → M (SemState W) B) :
  never_done (f tt) → never_done (modifyO g ≫= f).
Proof.
  intros Hf s a s'. unfold mbind, M_bind, modifyO. destruct (g s); [apply Hf|done].
Qed.

Lemma wait_not_done s i x s' :
  sem_at s i x → INT_MIN < sem_semaphore x ≤ 0 → wait i s ≠ Done tt s'.
Proof.
  intros Hat Hneg. destruct (sat_mutex _ _ _ Hat) as (m & Hm & Hv).
  destruct (sem_lock s _ m Hm Hv) as (m1 & Hl & _). pose proof (sat_get _ _ _ Hat) as Hx.
  pose proof (aget_inv _ _ _ Hx) as Hi.
  unfold wait. rewrite (asksO_bind _ _ _ _ (sem_valid _ _ _ Hat)).
  rewrite (proj2 (Z.eqb_neq _ _)) by apply (sat_used _ _ _ Hat).
  rewrite (asksO_bind (λ s, aget (semaphores s) i) _ _ _ Hx), (bind_done _ _ _ _ _ Hl).
  erewrite modifyO_bind.
  2: { apply (with_sem_some _ _ x _ (sem_set_value (sem_semaphore x - 1) x)); [exact Hx|].
       rewrite int32_id; [done|]. unfold INT_MIN, INT_MAX in *. lia. }
  rewrite (asksO_bind (λ s, aget (semaphores s) i) _ _ (sem_set_value (sem_semaphore x - 1) x))
    by (by apply aget_aput_eq).
  cbn [sem_semaphore sem_set_value]. rewrite (proj2 (Z.leb_gt _ _)) by lia.
  apply never_done_asksO. intros p. do 2 apply never_done_modifyO.
  apply never_done_asksO. intros y. by apply never_done_modifyO.
Qed.

(** A process that waits while the array is full is blocked, and the counter counts it, but it is
    not recorded. *)
Lemma wait_block_full s i x p :
  sem_at s i x → INT_MIN < sem_semaphore x ≤ 0 → length (sem_waiters x) = 20%nat → w_ok (s_world s) →
  w_currentPid (s_world s) = Some p →
  ∃ w', wait i s = Yield (put_sem i (sem_set_value (sem_semaphore x - 1) x) w' s) (Done tt) ∧ w_ok w' ∧
    ∀ q, w_procs w' q = if decide (q = p) then (λ _, BLOCKED) <$> w_procs (s_world s) q else w_procs (s_world s) q.
Proof.
  intros Hat Hneg Hlen Hok Hcur. destruct (sat_mutex _ _ _ Hat) as (m & Hm & Hv).
  destruct (sem_lock s _ m Hm Hv) as (m1 & Hl & Hfree). pose proof (sat_get _ _ _ Hat) as Hx.
  destruct (sat_wf _ _ _ Hat) as [Hq Hc Hval]. pose proof (aget_inv _ _ _ Hx) as Hi.
  destruct (free_spot_spec (sem_queue x) Hq) as (r & Hspot & Hr).
  assert (r = NO_SPACE_LEFT_M) as ->.
  { destruct Hr as [[-> _]|(Hr & Hfr & _)]; [done|]. exfalso.
    pose proof (length_filter_lt (λ v, v ≠ NO_BLOCKED_QUEUE_VALUE) (sem_queue x) NO_BLOCKED_QUEUE_VALUE) as Hlt.
    unfold sem_waiters in Hlen. rewrite Hq, Hlen in Hlt. change (Z.to_nat MAX_BLOCKED_QUEUE_SIZE) with 20%nat in Hlt.
    specialize (Hlt (list_elem_of_lookup_2 _ _ _ Hfr) ltac:(tauto)). lia. }
  set (x1 := sem_set_value (sem_semaphore x - 1) x).
  destruct (w_print_law (s_world s) (OStr "MUERTE3") Hok) as (Hok1 & _ & _ & Hproc1).
  destruct (w_change_law _ p BLOCKED Hok1) as (w' & Hw' & Hok' & _ & _ & Hproc).
  exists w'. split; [|split; [done|intros q; by rewrite Hproc, Hproc1]].
  unfold wait. rewrite (asksO_bind _ _ _ _ (sem_valid _ _ _ Hat)).
  rewrite (proj2 (Z.eqb_neq _ _)) by apply (sat_used _ _ _ Hat).
  rewrite (asksO_bind (λ s, aget (semaphores s) i) _ _ _ Hx), (bind_done _ _ _ _ _ Hl).
  erewrite modifyO_bind.
  2: { apply (with_sem_some _ _ x _ x1); [exact Hx|]. rewrite int32_id; [done|]. unfold INT_MIN, INT_MAX in *. lia. }
  rewrite (asksO_bind (λ s, aget (semaphores s) i) _ _ x1) by (by apply aget_aput_eq).
  cbn [sem_semaphore sem_set_value sem_mutex x1]. rewrite (proj2 (Z.leb_gt _ _)) by lia.
  rewrite (asksO_bind _ _ _ p) by done.
  erewrite modifyO_bind.
  2: { unfold addToSemBlocked. cbn [semaphores]. rewrite (aget_aput_eq _ _ _ Hi).
       cbn [mbind option_bind sem_queue x1 sem_set_value]. rewrite Hspot. cbn [mbind option_bind].
       rewrite Z.eqb_refl. reflexivity. }
  erewrite modifyO_bind.
  2: { unfold with_mutexes, m_changeState, with_world. simpl. unfold s_world in Hw'. rewrite Hw'. done. }
  rewrite (asksO_bind (λ s, aget (semaphores s) i) _ _ x1) by (by apply aget_aput_eq).
  erewrite modifyO_bind.
  2: { unfold with_mutexes. cbn [sem_mutex x1 sem_set_value]. rewrite Hfree by done. done. }
  done.
Qed.

(** A twenty-first process that waits: the array still holds the other twenty. *)
Theorem wait_queue_full s i x p :
  sem_at s i x → sem_semaphore x = -20 → length (sem_waiters x) = 20%nat → w_ok (s_world s) →
  w_currentPid (s_world s) = Some p → p ∉ sem_waiters x → is_Some (w_procs (s_world s) p) →
  ∃ s' x', wait i s = Yield s' (Done tt) ∧ aget (semaphores s') i = Some x' ∧
    sem_semaphore x' = -21 ∧ sem_waiters x' = sem_waiters x ∧ p ∉ sem_waiters x' ∧
    w_procs (s_world s') p = Some BLOCKED.
Proof.
  intros Hat Hneg Hlen Hok Hcur Hp Hsome.
  destruct (wait_block_full s i x p Hat) as (w' & Hw' & _ & Hproc); [unfold INT_MIN; lia|done..|].
  eexists _, _. split; [exact Hw'|]. split; [apply aget_aput_eq; eapply aget_inv; apply (sat_get _ _ _ Hat)|].
  split; [simpl; lia|]. split; [done|]. split; [done|]. unfold s_world. simpl. rewrite Hproc, decide_True by done.
  by destruct Hsome as [? ->].
Qed.
End operations.

(** ** Many processes and one semaphore *)

(** [callers]: the processes that may call [wait]; fewer than an [int] counts. *)
Section sem_system.
Context {W : Type} `{WorldLaws W} (i start : Z) (callers : list Z).
Implicit Types s : SemState W.

Inductive sphase :=
| SIdle
| SWaiting (k : SemState W → res (SemState W) unit).

(** The processes' phases, how many waits returned and how many signals were made, and the processes whose [wait] found the
    array full. *)
Record sconfig := mkSC {
  sc_state : SemState W;
  sc_phase : Z → sphase;
  sc_completed : Z;
  sc_signalled : Z;
  sc_lost : list Z;
}.
Implicit Types ph : Z → sphase.

Definition s_at (p : Z) (v : sphase) ph : Z → sphase := λ q, if decide (q = p) then v else ph q.
Definition s_waiting ph (q : Z) : Prop := ∃ k, ph q = SWaiting k.
Definition s_blocked s (q : Z) : Prop := w_procs (s_world s) q = Some BLOCKED.

(** The current process waits, with the array full or not, or returns from its [_yield]; anybody, an interrupt handler as
    well, signals; everything else may change the state, but not this semaphore nor who of those who wait is blocked. *)
Inductive sem_step : sconfig → sconfig → Prop :=
| sstep_pass p s s' ph c n lost :
    w_currentPid (s_world s) = Some p → p ≠ -1 → p ∈ callers → ph p = SIdle → wait i s = Done tt s' →
    sem_step (mkSC s ph c n lost) (mkSC s' ph (c + 1) n lost)
| sstep_block p full s s' k ph c n lost :
    w_currentPid (s_world s) = Some p → p ≠ -1 → p ∈ callers → ph p = SIdle →
    isSemaphoreQueueFull i s = Some full → wait i s = Yield s' k →
    sem_step (mkSC s ph c n lost) (mkSC s' (s_at p (SWaiting k) ph) c n (if full then p :: lost else lost))
| sstep_resume p s s' k ph c n lost :
    w_currentPid (s_world s) = Some p → p ≠ -1 → ph p = SWaiting k → ¬ s_blocked s p →
    k s = Done tt s' → sem_step (mkSC s ph c n lost) (mkSC s' (s_at p SIdle ph) (c + 1) n lost)
| sstep_signal s s' ph c n lost :
    signal i s = Some s' → sem_step (mkSC s ph c n lost) (mkSC s' ph c (n + 1) lost)
| sstep_rest s s' ph c n lost :
    (∀ x, sem_at s i x → sem_at s' i x) → w_ok (s_world s') →
    (∀ q, s_waiting ph q → s_blocked s' q ↔ s_blocked s q) →
    sem_step (mkSC s ph c n lost) (mkSC s' ph c n lost).

Record sem_inv (c : sconfig) (x : Semaphore) (woken : list Z) : Prop := {
  si_at : sem_at (sc_state c) i x;
  si_ok : w_ok (s_world (sc_state c));
  si_nodup : NoDup (sem_waiters x ++ sc_lost c);
  si_value : sem_semaphore x = start + sc_signalled c - sc_completed c
    - Z.of_nat (length woken) - Z.of_nat (length (sem_waiters x ++ sc_lost c));
  si_low : - Z.of_nat (length (sem_waiters x ++ sc_lost c)) ≤ sem_semaphore x;
  si_waiters : ∀ q, q ∈ sem_waiters x ++ sc_lost c → s_waiting (sc_phase c) q ∧ s_blocked (sc_state c) q;
  si_wnodup : NoDup woken;
  si_woken : ∀ q, q ∈ woken ↔ s_waiting (sc_phase c) q ∧ q ∉ sem_waiters x ++ sc_lost c;
  si_run : ∀ q, q ∈ woken → ¬ s_blocked (sc_state c) q;
  si_cont : ∀ q k, sc_phase c q = SWaiting k → k = Done tt;
  si_pos : 0 ≤ sc_completed c;
  si_callers : ∀ q, s_waiting (sc_phase c) q → q ∈ callers;
}.

Lemma s_at_eq p v ph : s_at p v ph p = v.
Proof. unfold s_at. by rewrite decide_True. Qed.

Lemma s_at_ne p q v ph : q ≠ p → s_at p v ph q = ph q.
Proof. intros Hne. unfold s_at. by rewrite decide_False. Qed.

Lemma s_waiting_ne p q v ph : q ≠ p → s_waiting (s_at p v ph) q ↔ s_waiting ph q.
Proof. intros Hne. unfold s_waiting. by rewrite s_at_ne. Qed.

Lemma put_sem_at s x x' w' :
  sem_at s i x → sem_used x' = sem_used x → sem_mutex x' = sem_mutex x → sem_wf x' →
  sem_at (put_sem i x' w' s) i x'.
Proof.
  intros [Hx Hi Hu Hwf (m & [Hm Hmm Hmu Hmw] & Hv)] Hu' Hmx Hwf'. split; [|done|congruence|done|].
  - apply aget_aput_eq. by eapply aget_inv.
  - exists m. rewrite Hmx. split; [|done]. by split.
Qed.

Lemma s_blocked_change s p st w' x' q :
  w_ok (s_world s) → w_changeState p st (s_world s) = Some w' →
  w_ok w' ∧ (q ≠ p → s_blocked (put_sem i x' w' s) q ↔ s_blocked s q) ∧
  (s_blocked (put_sem i x' w' s) p → st = BLOCKED) ∧
  (is_Some (w_procs (s_world s) p) → st = BLOCKED → s_blocked (put_sem i x' w' s) p).
Proof.
  intros Hok Hw. destruct (w_change_law (s_world s) p st Hok) as (w2 & Hw2 & Hok2 & _ & _ & Hp).
  assert (w2 = w') as -> by congruence. unfold s_blocked. simpl. split; [done|]. split_and!.
  - intros Hne. by rewrite Hp, decide_False.
  - rewrite Hp, decide_True by done. destruct (w_procs _ p); simpl; congruence.
  - rewrite Hp, decide_True by done. intros [y ->] ->. done.
Qed.

Lemma wf_set_value x v :
  sem_wf x → sem_waiters x = [] → sem_wf (sem_set_value v x).
Proof.
  intros [Hq Hc Hv] Hw. split; [done|done|]. unfold sem_waiters in *. simpl. rewrite Hw in *.
  simpl. lia.
Qed.

Lemma waiters_nil x : sem_wf x → 0 ≤ sem_semaphore x → sem_waiters x = [].
Proof. intros [_ _ Hv] H0x. destruct (sem_waiters x); [done|]. simpl in Hv. lia. Qed.

Lemma sem_waiters_le x : sem_wf x → (length (sem_waiters x) ≤ 20)%nat.
Proof.
  intros [Hq _ _]. change 20%nat with (Z.to_nat MAX_BLOCKED_QUEUE_SIZE). rewrite <-Hq.
  apply length_filter.
Qed.

Context (Hcallers : Z.of_nat (length callers) ≤ 2 ^ 31).

(** The value of the semaphore is an [int]. *)
Lemma value_range c x woken : sem_inv c x woken → start + sc_signalled c ≤ INT_MAX → INT_MIN ≤ sem_semaphore x ≤ INT_MAX.
Proof.
  intros [_ _ Hnd Hv Hlow Hw _ _ _ _ H0c Hcs] Hmax. split; [|lia].
  assert (Hle : (length (sem_waiters x ++ sc_lost c) ≤ length callers)%nat).
  { apply submseteq_length, NoDup_submseteq; [done|]. intros q Hq. by apply Hcs, Hw. }
  unfold INT_MIN. lia.
Qed.

Lemma caller_range c x woken p : sem_inv c x woken → p ∈ callers → sc_phase c p = SIdle → INT_MIN < sem_semaphore x.
Proof.
  intros [_ _ Hnd Hv Hlow Hw _ _ _ _ H0c Hcs] Hp Hidle.
  assert (Hle : (length (p :: sem_waiters x ++ sc_lost c) ≤ length callers)%nat).
  { apply submseteq_length, NoDup_submseteq.
    - apply list.NoDup_cons. split; [|done]. intros Hin. destruct (Hw p Hin) as [[k Hk] _]. congruence.
    - intros q [->|Hq]%elem_of_cons; [done|]. by apply Hcs, Hw. }
  simpl in Hle. unfold INT_MIN. lia.
Qed.

Lemma sem_inv_pass p s s' ph c n lost x woken :
  sem_inv (mkSC s ph c n lost) x woken → w_currentPid (s_world s) = Some p → p ≠ -1 → p ∈ callers → ph p = SIdle →
  start + n ≤ INT_MAX → wait i s = Done tt s' →
  ∃ x', sem_inv (mkSC s' ph (c + 1) n lost) x' woken.
Proof.
  intros Hinv Hcur Hp Hpc Hidle Hmax Hwait.
  pose proof (value_range _ _ _ Hinv Hmax) as Hrange. pose proof (caller_range _ _ _ p Hinv Hpc Hidle) as Hmin.
  destruct Hinv as [Hat Hok Hnd Hv Hlow Hw Hwn Hwk Hr Hk H0c Hcs]. simpl in *. pose proof (sat_wf _ _ _ Hat) as Hwf.
  destruct (decide (0 < sem_semaphore x)) as [Hpos|Hneg].
  - rewrite (wait_pass s i x Hat) in Hwait by lia. injection Hwait as <-.
    pose proof (waiters_nil x Hwf ltac:(lia)) as Hnil.
    exists (sem_set_value (sem_semaphore x - 1) x).
    assert (Hsame : sem_waiters (sem_set_value (sem_semaphore x - 1) x) = sem_waiters x) by done.
    split; simpl; rewrite ?Hsame; try done.
    + apply (put_sem_at _ x); try done. by apply wf_set_value.
    + lia.
    + lia.
    + lia.
  - exfalso. by apply (wait_not_done s i x s' Hat ltac:(lia)).
Qed.

(** A process more is blocked, in the array or behind it. *)
Lemma sem_inv_blocked p s w' x x' k ph c n lost lost' woken :
  sem_inv (mkSC s ph c n lost) x woken → w_currentPid (s_world s) = Some p → p ≠ -1 → p ∈ callers → ph p = SIdle →
  k = Done tt → sem_wf x' → sem_used x' = sem_used x → sem_mutex x' = sem_mutex x → sem_semaphore x' = sem_semaphore x - 1 →
  w_ok w' → (∀ q, w_procs w' q = if decide (q = p) then (λ _, BLOCKED) <$> w_procs (s_world s) q else w_procs (s_world s) q) →
  sem_waiters x' ++ lost' ≡ₚ p :: sem_waiters x ++ lost →
  sem_inv (mkSC (put_sem i x' w' s) (s_at p (SWaiting k) ph) c n lost') x' woken.
Proof.
  intros [Hat Hok Hnd Hv Hlow Hw Hwn Hwk Hr Hk H0c Hcs] Hcur Hp Hpc Hidle -> Hwf' Hu' Hm' Hv' Hok' Hproc Hperm. simpl in *.
  assert (Hpn : p ∉ sem_waiters x ++ lost) by (intros Hin; destruct (Hw p Hin) as [[k Hk'] _]; congruence).
  assert (Hmem : ∀ q, q ∈ sem_waiters x' ++ lost' ↔ q = p ∨ q ∈ sem_waiters x ++ lost) by (intros q; by rewrite Hperm, elem_of_cons).
  assert (Hlen : length (sem_waiters x' ++ lost') = S (length (sem_waiters x ++ lost))) by (by rewrite Hperm).
  destruct (w_current_law _ Hok) as (p' & Hp' & Hsome). assert (p' = p) as -> by congruence. destruct Hsome as [|[st Hst]]; [done|].
  assert (Hblk : ∀ q, s_blocked (put_sem i x' w' s) q ↔ q = p ∨ s_blocked s q).
  { intros q. unfold s_blocked. change (s_world (put_sem i x' w' s)) with w'. rewrite Hproc. case_decide as Hq; [|tauto]. subst q. rewrite Hst. naive_solver. }
  split; simpl; rewrite ?Hlen; try done.
  - by apply (put_sem_at _ x).
  - rewrite Hperm. by apply list.NoDup_cons.
  - lia.
  - lia.
  - intros q. rewrite Hmem, Hblk. destruct (decide (q = p)) as [->|Hne].
    + intros _. split; [exists (Done tt); apply s_at_eq|by left].
    + intros [?|Hq]; [done|]. destruct (Hw q Hq) as [H1w H2w]. rewrite s_waiting_ne by done. split; [done|by right].
  - intros q. rewrite Hwk, Hmem. destruct (decide (q = p)) as [->|Hne].
    + split; [intros [[k Hk'] _]; congruence|tauto].
    + rewrite s_waiting_ne by done. tauto.
  - intros q Hq. rewrite Hblk. intros [->|Hb]; [|by apply (Hr q)]. apply Hwk in Hq as [[k Hk'] _]. congruence.
  - intros q k Hq. destruct (decide (q = p)) as [->|Hne].
    + rewrite s_at_eq in Hq. congruence.
    + rewrite s_at_ne in Hq by done. by apply (Hk q).
  - intros q Hq. destruct (decide (q = p)) as [->|Hne]; [done|]. rewrite s_waiting_ne in Hq by done. by apply Hcs.
Qed.

Lemma sem_inv_block p full s s' k ph c n lost x woken :
  sem_inv (mkSC s ph c n lost) x woken → w_currentPid (s_world s) = Some p → p ≠ -1 → p ∈ callers → ph p = SIdle →
  isSemaphoreQueueFull i s = Some full → start + n ≤ INT_MAX → wait i s = Yield s' k →
  ∃ x', sem_inv (mkSC s' (s_at p (SWaiting k) ph) c n (if full then p :: lost else lost)) x' woken.
Proof.
  intros Hinv Hcur Hp Hpc Hidle Hfull Hmax Hwait.
  pose proof (value_range _ _ _ Hinv Hmax) as Hrange. pose proof (caller_range _ _ _ p Hinv Hpc Hidle) as Hmin.
  pose proof (si_at _ _ _ Hinv) as Hat. pose proof (si_ok _ _ _ Hinv) as Hok. simpl in Hat, Hok.
  pose proof (sat_wf _ _ _ Hat) as Hwf. pose proof (sem_waiters_le _ Hwf) as Hle.
  unfold isSemaphoreQueueFull in Hfull. rewrite (sat_get _ _ _ Hat) in Hfull. simpl in Hfull.
  rewrite (swf_card _ Hwf) in Hfull. unfold MAX_BLOCKED_QUEUE_SIZE in Hfull.
  destruct (decide (0 < sem_semaphore x)) as [Hpos|Hneg].
  { rewrite (wait_pass s i x Hat) in Hwait by lia. done. }
  destruct full; injection Hfull as Hfull.
  - apply Z.leb_le in Hfull. destruct (wait_block_full s i x p Hat ltac:(lia) ltac:(lia) Hok Hcur) as (w' & Hb & Hok' & Hproc).
    rewrite Hb in Hwait. injection Hwait as <- <-. eexists. eapply sem_inv_blocked; try done.
    + destruct Hwf as [W1 W2 W3]. split; [done|done|]. unfold sem_waiters in *. simpl. lia.
    + change (sem_waiters (sem_set_value (sem_semaphore x - 1) x)) with (sem_waiters x). symmetry. apply Permutation_middle.
  - apply Z.leb_gt in Hfull.
    destruct (wait_block s i x p Hat ltac:(lia) ltac:(lia) Hok Hcur Hp)
      as (x' & w' & l1 & l2 & Hb & Hwf' & Hu' & Hm' & Hv' & Hl & Hl' & Hc).
    rewrite Hb in Hwait. injection Hwait as <- <-. exists x'.
    destruct (w_change_law (s_world s) p BLOCKED Hok) as (w2 & Hw2 & Hok2 & _ & _ & Hproc). assert (w2 = w') as -> by congruence.
    eapply sem_inv_blocked; try done. rewrite Hl, Hl', <-!app_assoc. symmetry. apply (Permutation_middle l1).
Qed.

Lemma sem_inv_resume p s s' k ph c n lost x woken :
  sem_inv (mkSC s ph c n lost) x woken → ph p = SWaiting k → ¬ s_blocked s p → k s = Done tt s' →
  sem_inv (mkSC s' (s_at p SIdle ph) (c + 1) n lost) x (filter (λ q, q ≠ p) woken).
Proof.
  intros [Hat Hok Hnd Hv Hlow Hw Hwn Hwk Hr Hk H0c Hcs] Hph Hnb Hks. simpl in *.
  rewrite (Hk _ _ Hph) in Hks. injection Hks as <-.
  assert (Hpn : p ∉ sem_waiters x ++ lost) by (intros Hin; by apply Hnb, (Hw p Hin)).
  assert (Hpw : p ∈ woken) by (apply Hwk; split; [by exists k|done]).
  split; simpl; try done.
  - apply list_elem_of_split in Hpw as (l1 & l2 & ->). 
    apply list.NoDup_app in Hwn as (Hn1 & Hout & Hn2). apply list.NoDup_cons in Hn2 as [Hp2 Hn2].
    rewrite list.filter_app, filter_cons_False by tauto.
    rewrite !filter_all; [rewrite !length_app in *; simpl in *; lia| |].
    + intros q Hq ->. done.
    + intros q Hq ->. apply (Hout p Hq). by left.
  - intros q Hq. assert (Hne : q ≠ p) by congruence. rewrite s_waiting_ne by done. by apply Hw.
  - by apply list.NoDup_filter.
  - intros q. rewrite list_elem_of_filter, Hwk. destruct (decide (q = p)) as [->|Hne].
    + split; [tauto|]. intros [[k' Hk'] _]. by rewrite s_at_eq in Hk'.
    + rewrite s_waiting_ne by done. tauto.
  - intros q [_ Hq]%list_elem_of_filter. by apply Hr.
  - intros q k' Hq. destruct (decide (q = p)) as [->|Hne].
    + by rewrite s_at_eq in Hq.
    + rewrite s_at_ne in Hq by done. by apply (Hk q).
  - lia.
  - intros q Hq. destruct (decide (q = p)) as [->|Hne]; [apply Hcs; by exists k|].
    rewrite s_waiting_ne in Hq by done. by apply Hcs.
Qed.

Lemma sem_inv_signal s s' ph c n lost x woken :
  sem_inv (mkSC s ph c n lost) x woken → start + (n + 1) ≤ INT_MAX → signal i s = Some s' →
  ∃ x' woken', sem_inv (mkSC s' ph c (n + 1) lost) x' woken'.
Proof.
  intros Hinv Hmax Hsig. pose proof (value_range _ _ _ Hinv ltac:(simpl; lia)) as Hrange.
  destruct Hinv as [Hat Hok Hnd Hv Hlow Hw Hwn Hwk Hr Hk H0c Hcs]. simpl in *.
  pose proof (sat_wf _ _ _ Hat) as Hwf. pose proof (swf_value _ Hwf) as Hval.
  destruct (sem_waiters x) as [|p l] eqn:Hwt.
  - rewrite (signal_nobody s i x Hat Hwt) in Hsig by (simpl in *; lia).
    injection Hsig as <-. exists (sem_set_value (sem_semaphore x + 1) x), woken.
    assert (Hnil : sem_waiters (sem_set_value (sem_semaphore x + 1) x) = []) by done.
    split; simpl; try done; rewrite ?Hnil; try done.
    + apply (put_sem_at _ x); try done. by apply wf_set_value.
    + simpl in *. lia.
    + simpl in *. lia.
  - destruct (signal_wake s i x p l Hat Hwt ltac:(lia) Hok)
      as (x' & w' & Hsg & Hwf' & Hu' & Hm' & Hv' & Hl' & Hc).
    rewrite Hsg in Hsig. injection Hsig as <-. exists x', (p :: woken).
    simpl in Hnd. apply list.NoDup_cons in Hnd as [Hpl Hnd]. destruct (Hw p) as [Hpw Hpb]; [by left|].
    assert (Hpn : p ∉ woken) by (intros Hin; by apply (Hr p Hin)).
    split; simpl; rewrite ?Hl'; try done.
    + by apply (put_sem_at _ x).
    + by destruct (s_blocked_change s p READY w' x' p Hok Hc).
    + simpl in *. lia.
    + simpl in *. lia.
    + intros q Hq. assert (Hne : q ≠ p) by congruence. destruct (Hw q) as [H1w H2w]; [by right|].
      split; [done|]. destruct (s_blocked_change s p READY w' x' q Hok Hc) as (_ & Hbl & _).
      by apply Hbl.
    + by apply list.NoDup_cons.
    + intros q. rewrite elem_of_cons, Hwk. simpl. rewrite not_elem_of_cons.
      destruct (decide (q = p)) as [->|Hne]; tauto.
    + intros q [->|Hq]%elem_of_cons.
      * destruct (s_blocked_change s p READY w' x' p Hok Hc) as (_ & _ & Hbl & _).
        intros Hx. by apply Hbl in Hx.
      * assert (Hne : q ≠ p) by congruence.
        destruct (s_blocked_change s p READY w' x' q Hok Hc) as (_ & Hbl & _). rewrite Hbl by done.
        by apply Hr.
Qed.

Lemma sem_step_signalled c c' : sem_step c c' → sc_signalled c ≤ sc_signalled c'.
Proof. inversion 1; simpl; lia. Qed.

Lemma sem_inv_step c c' :
  sem_step c c' → start + sc_signalled c' ≤ INT_MAX →
  (∃ x l, sem_inv c x l) → ∃ x l, sem_inv c' x l.
Proof.
  intros Hstep Hmax (x & l & Hinv). inversion Hstep; subst; simpl in *.
  - destruct (sem_inv_pass p s s' ph c0 n lost x l) as [x' Hx']; eauto.
  - destruct (sem_inv_block p full s s' k ph c0 n lost x l) as [x' Hx']; eauto.
  - eauto using sem_inv_resume.
  - eauto using sem_inv_signal.
  - match goal with Hx : ∀ x, sem_at s i x → _ |- _ => rename Hx into Hsame end.
    match goal with Hx : ∀ q, s_waiting ph q → _ |- _ => rename Hx into Hbl end.
    destruct Hinv as [Hat Hok Hnd Hv Hlow Hw Hwn Hwk Hr Hk H0c Hcs]. simpl in *. exists x, l.
    split; simpl; try done.
    + by apply Hsame.
    + intros q Hq. destruct (Hw q Hq) as [Hq1 Hq2]. split; [done|]. by apply Hbl.
    + intros q Hq. rewrite Hbl; [by apply Hr|]. by apply Hwk.
Qed.

(** The semaphore was just created with the value [start]; nobody has called yet. *)
Definition sem_start (c : sconfig) : Prop :=
  ∃ x, sem_at (sc_state c) i x ∧ w_ok (s_world (sc_state c)) ∧ sem_semaphore x = start ∧
    0 ≤ start ∧ sc_completed c = 0 ∧ sc_signalled c = 0 ∧ sc_lost c = [] ∧ ∀ q, sc_phase c q = SIdle.

Lemma sem_reachable c c' :
  sem_start c → rtc sem_step c c' → start + sc_signalled c' ≤ INT_MAX →
  ∃ x l, sem_inv c' x l.
Proof.
  intros Hs. revert c'.
  refine (rtc_ind_r (λ c', start + sc_signalled c' ≤ INT_MAX → ∃ x l, sem_inv c' x l) c _ _).
  - intros Hmax. destruct Hs as (x & Hat & Hok & Hv & H0s & Hc & Hn & Hlost & Hph). exists x, [].
    pose proof (waiters_nil x (sat_wf _ _ _ Hat) ltac:(lia)) as Hnil.
    split; rewrite ?Hnil, ?Hlost; try done.
    + constructor.
    + rewrite Hc, Hn. simpl. lia.
    + simpl. lia.
    + intros q Hq. by apply elem_of_nil in Hq.
    + constructor.
    + intros q. rewrite elem_of_nil. split; [done|]. intros [[k Hk] _]. by rewrite Hph in Hk.
    + intros q Hq. by apply elem_of_nil in Hq.
    + intros q k Hq. by rewrite Hph in Hq.
    + lia.
    + intros q [k Hq]. by rewrite Hph in Hq.
  - intros c1 c2 _ Hstep IH Hmax. pose proof (sem_step_signalled _ _ Hstep).
    eapply sem_inv_step; [done|done|]. apply IH. lia.
Qed.

(** Whatever the interleaving, the waits that returned are never more than the initial
    value plus the signals made. *)
Theorem semaphore_safety c c' :
  sem_start c → rtc sem_step c c' → start + sc_signalled c' ≤ INT_MAX →
  sc_completed c' ≤ start + sc_signalled c'.
Proof.
  intros Hs Hr Hmax. destruct (sem_reachable _ _ Hs Hr Hmax) as (x & l & Hinv).
  pose proof (si_value _ _ _ Hinv). pose proof (si_low _ _ _ Hinv). lia.
Qed.

(** C4: no signal is lost: while a process that was recorded is blocked on the semaphore, every unit of the
    initial value and of the signals has been used by a wait that returned or has been
    given to a waiting process that is no longer blocked, but for at most as many units as there were
    waits that found the array of 20 full ([sc_lost]); those processes stay blocked.  There are at most 2^31 processes and
    the initial value and the signals together fit an [int]. *)
Theorem semaphore_no_lost_signal c c' p :
  sem_start c → rtc sem_step c c' → start + sc_signalled c' ≤ INT_MAX →
  s_waiting (sc_phase c') p → s_blocked (sc_state c') p → p ∉ sc_lost c' →
  ∃ woken, NoDup woken ∧
    (∀ q, q ∈ woken → s_waiting (sc_phase c') q ∧ ¬ s_blocked (sc_state c') q) ∧
    (∀ q, q ∈ sc_lost c' → s_waiting (sc_phase c') q ∧ s_blocked (sc_state c') q) ∧
    sc_completed c' + Z.of_nat (length woken) ≤ start + sc_signalled c'
      ≤ sc_completed c' + Z.of_nat (length woken) + Z.of_nat (length (sc_lost c')).
Proof.
  intros Hs Hr Hmax Hp Hb Hpl. destruct (sem_reachable _ _ Hs Hr Hmax) as (x & l & Hinv).
  destruct Hinv as [Hat Hok Hnd Hv Hlow Hw Hwn Hwk Hrun Hk H0c Hcs].
  exists l. split; [done|]. split; [intros q Hq; split; [by apply Hwk|by apply Hrun]|].
  split; [intros q Hq; apply Hw, elem_of_app; by right|].
  pose proof (swf_value _ (sat_wf _ _ _ Hat)) as Hval.
  assert (Hin : p ∈ sem_waiters x ++ sc_lost c').
  { destruct (decide (p ∈ sem_waiters x ++ sc_lost c')) as [|Hn]; [done|]. exfalso.
    by apply (Hrun p); [apply Hwk|]. }
  apply elem_of_app in Hin as [Hin|Hin]; [|done]. rewrite length_app in *.
  destruct (sem_waiters x) as [|y ys]; [by apply elem_of_nil in Hin|]. simpl in *. lia.
Qed.

(** *** The counter that it implements *)

(** The calls that return with a step. *)
Definition returned (c c' : sconfig) : list sem_event :=
  if sc_completed c <? sc_completed c' then [E_wait] else if sc_signalled c <? sc_signalled c' then [E_signal] else [].
Inductive sem_run : sconfig → list sem_event → sconfig → Prop :=
| run_start c : sem_run c [] c
| run_step c tr c1 c2 : sem_run c tr c1 → sem_step c1 c2 → sem_run c (tr ++ returned c1 c2) c2.

Lemma sem_run_reachable c tr c' : sem_run c tr c' → rtc sem_step c c'.
Proof. induction 1; [done|]. by eapply rtc_r. Qed.

(** The value of the counter after the calls that returned. *)
Definition sem_count (c : sconfig) : Z := start + sc_signalled c - sc_completed c.

Lemma returned_counts c c' :
  sem_step c c' → 0 ≤ sem_count c' → counter_run (sem_count c) (returned c c') = Some (sem_count c').
Proof.
  intros Hstep Hpos. unfold counter_run, sem_count, returned in *. inversion Hstep; subst; cbn [sc_completed sc_signalled] in *.
  1,3: (rewrite (proj2 (Z.ltb_lt _ _)) by lia; cbn [foldl mbind option_bind counter]; rewrite (proj2 (Z.ltb_lt 0 _)) by lia; f_equal; lia).
  - by rewrite !Z.ltb_irrefl.
  - rewrite Z.ltb_irrefl, (proj2 (Z.ltb_lt _ _)) by lia. cbn [foldl mbind option_bind counter]. f_equal. lia.
  - by rewrite !Z.ltb_irrefl.
Qed.

(** C3: The semaphores of the kernel refine counters: whatever the processes (at most 2^31, more than 20 of them may wait at a
    time), their interleaving and what the rest of the
    kernel does in between, as long as the initial value and the number of signals fit an [int], the calls of [wait] and [signal] in the
    order in which they return are a run of the
    counter from the initial value: no [wait] returns when the counter is 0. *)
Theorem semaphore_refines_counter c tr c' :
  sem_start c → sem_run c tr c' → start + sc_signalled c' ≤ INT_MAX → counter_run start tr = Some (sem_count c').
Proof.
  intros Hs Hr. induction Hr as [c|c tr c1 c2 Hr IH Hstep]; intros Hmax.
  - destruct Hs as (x & _ & _ & _ & _ & Hc & Hn & _). unfold counter_run, sem_count. simpl. f_equal. lia.
  - pose proof (sem_step_signalled _ _ Hstep) as Hle. rewrite counter_run_app, IH by (done || lia).
    apply returned_counts; [done|].
    destruct (sem_reachable c c2 Hs) as (x & l & Hinv); [eapply rtc_r; [by eapply sem_run_reachable|done]|done|].
    pose proof (si_value _ _ _ Hinv). pose proof (si_low _ _ _ Hinv). unfold sem_count. lia.
Qed.
End sem_system.

(** ** A name that is taken *)

Section creation.
Context {W : Type} `{WorldLaws W}.
Implicit Types s : SemState W.

(** Creating a semaphore whose name is in use returns the error with the table's mutex
    locked; every later creation blocks its process. *)
Theorem semCreate_taken_leaks_mutex fuel name start s m r p :
  mutex_at (s_mutexes s) (semaphoreMutex s) m → m_mutex m = 0 → w_ok (s_world s) →
  getSemIndex fuel name s = Some r → r ≠ MUTEX_NOT_FOUND →
  w_currentPid (s_world s) = Some p → p ≠ -1 →
  ∃ s', semCreate fuel name start s = Done ERROR s' ∧ semaphores s' = semaphores s ∧
    ∀ fuel' name' start', ∃ s2 k, semCreate fuel' name' start' s' = Yield s2 k ∧
      (is_Some (w_procs (s_world s) p) → w_procs (s_world s2) p = Some BLOCKED).
Proof.
  intros Hat Hv Hok Hidx Hr Hcur Hp.
  destruct (lock_free _ _ _ Hat Hv) as (Hw0 & m1 & Hl & Hwf1 & Hu1 & Hv1 & Hw1 & _).
  set (ms := put_mutex (semaphoreMutex s) m1 (m_world (s_mutexes s)) (s_mutexes s)) in *.
  exists (set_mutexes ms s). split; [|split; [done|]].
  - unfold semCreate. rewrite asks_bind.
    rewrite (bind_done _ _ _ tt (set_mutexes ms s)) by (unfold on_mutexes, zoom; by rewrite Hl).
    rewrite (asksO_bind _ _ _ r) by done. by rewrite (proj2 (Z.eqb_neq _ _)).
  - intros fuel' name' start'.
    assert (Hat1 : mutex_at ms (semaphoreMutex s) m1).
    { split; [|apply (at_max _ _ _ Hat)| |done].
      - apply (put_get _ _ _ _ m), (at_get _ _ _ Hat).
      - rewrite Hu1. apply (at_used _ _ _ Hat). }
    destruct (lock_held ms (semaphoreMutex s) m1 p Hat1 Hv1) as (m' & w' & l1 & l2 & Hy & _ & _ & _ & _ & _ & Hc);
      [rewrite Hw1; simpl; lia|done..|].
    eexists _, _. split.
    + unfold semCreate. rewrite asks_bind. apply bind_yield. unfold on_mutexes, zoom.
      cbn [s_mutexes set_mutexes semaphoreMutex]. rewrite Hy. done.
    + intros [st Hst]. unfold s_world. simpl.
      destruct (w_change_law (s_world s) p BLOCKED Hok) as (w2 & Hw2 & _ & _ & _ & Hpr).
      assert (w2 = w') as -> by (unfold s_world in Hw2; change (m_world ms) with (m_world (s_mutexes s)) in Hc; congruence).
      rewrite Hpr, decide_True by done. by rewrite Hst.
Qed.
End creation.

(** ** Witnesses *)

(** Semaphore 0 with the value [v] and the mutex 1; semaphore mutex 0. *)
Definition demo_sem (v : Z) : Semaphore := mkSem TRUE 8 clean_queue v 0 1 1.
Definition sem_free : Semaphore := mkSem FALSE NULL clean_queue 0 0 0 0.
Definition demo_sems (v : Z) : SemState Toy := mkSS (demo_sem v :: replicate 49 sem_free) 0 toy_state.

Lemma demo_sem_at v : 0 ≤ v → sem_at (demo_sems v) 0 (demo_sem v).
Proof.
  intros Hv. split; [done|done|done| |].
  - split; [done|done|]. change (sem_waiters (demo_sem v)) with (@nil Z). simpl. lia.
  - exists used_mutex. split; [apply toy_at; by right|done].
Qed.

Definition sem_idle : Z → @sphase Toy := λ _, SIdle.
Definition demo_config (v : Z) : @sconfig Toy := mkSC (demo_sems v) sem_idle 0 0 [].

Lemma demo_sem_start v : 0 ≤ v → sem_start 0 v (demo_config v).
Proof. intros Hv. exists (demo_sem v). split; [by apply demo_sem_at|]. done. Qed.

(** The semaphore has the value 1: process 1 takes it, process 2 waits, somebody signals, process 2 goes on. *)
Definition demo_as (p : Z) (s : SemState Toy) : SemState Toy := set_mutexes (toy_as p (s_mutexes s)) s.
Definition demo1 : SemState Toy := default (demo_sems 1) (res_state (wait 0 (demo_sems 1))).
Definition demo2 : SemState Toy := demo_as 2 demo1.
Definition demo3 : SemState Toy := default demo2 (res_state (wait 0 demo2)).
Definition demo4 : SemState Toy := default demo3 (signal 0 demo3).
Definition demo_waits : Z → @sphase Toy := s_at 2 (SWaiting (Done tt)) sem_idle.
Definition demo_end : @sconfig Toy := mkSC demo4 (s_at 2 SIdle demo_waits) 2 1 [].

Lemma demo_as_at p s x : sem_at s 0 x → sem_at (demo_as p s) 0 x.
Proof. intros [H1 H2 H3 H4 (m & Hm & Hv)]. split; [done..|]. exists m. split; [by apply toy_as_at|done]. Qed.

Lemma demo_steps :
  sem_step 0 [1; 2] (demo_config 1) (mkSC demo1 sem_idle 1 0 []) ∧
  sem_step 0 [1; 2] (mkSC demo1 sem_idle 1 0 []) (mkSC demo2 sem_idle 1 0 []) ∧
  sem_step 0 [1; 2] (mkSC demo2 sem_idle 1 0 []) (mkSC demo3 demo_waits 1 0 []) ∧
  sem_step 0 [1; 2] (mkSC demo3 demo_waits 1 0 []) (mkSC demo4 demo_waits 1 1 []) ∧
  sem_step 0 [1; 2] (mkSC demo4 demo_waits 1 1 []) demo_end.
Proof.
  split; [|split; [|split; [|split]]].
  - apply (sstep_pass 0 _ 1); [done|done|by left|done|reflexivity].
  - apply sstep_rest; [intros x; apply demo_as_at|exact I|done].
  - apply (sstep_block 0 _ 2 false); [done|done|by right; left|done|reflexivity|reflexivity].
  - apply (sstep_signal 0). reflexivity.
  - apply (sstep_resume 0 _ 2 _ _ (Done tt)); [done|done|done|by vm_compute|done].
Qed.

Lemma semaphore_safety_witness :
  ∃ c, rtc (sem_step 0 [1; 2]) (demo_config 1) c ∧ sc_completed c = 2 ∧ 2 ≤ 1 + sc_signalled c.
Proof.
  assert (Hr : rtc (sem_step 0 [1; 2]) (demo_config 1) demo_end).
  { destruct demo_steps as (H1 & H2 & H3 & H4 & H5).
    eapply rtc_l; [exact H1|]. eapply rtc_l; [exact H2|]. eapply rtc_l; [exact H3|]. eapply rtc_l; [exact H4|]. by apply rtc_once. }
  exists demo_end. split; [exact Hr|]. split; [done|].
  exact (semaphore_safety 0 1 [1; 2] ltac:(done) _ _ (demo_sem_start 1 ltac:(lia)) Hr ltac:(by vm_compute)).
Defined.

Lemma semaphore_refines_counter_witness :
  sem_run 0 [1; 2] (demo_config 1) [E_wait; E_signal; E_wait] demo_end ∧
  counter_run 1 [E_wait; E_signal; E_wait] = Some (sem_count 1 demo_end).
Proof.
  assert (Hrun : sem_run 0 [1; 2] (demo_config 1) [E_wait; E_signal; E_wait] demo_end).
  { destruct demo_steps as (H1 & H2 & H3 & H4 & H5).
    exact (run_step _ _ _ _ _ _ (run_step _ _ _ _ _ _ (run_step _ _ _ _ _ _ (run_step _ _ _ _ _ _
      (run_step _ _ _ _ _ _ (run_start _ _ (demo_config 1)) H1) H2) H3) H4) H5). }
  split; [exact Hrun|].
  exact (semaphore_refines_counter 0 1 [1; 2] ltac:(done) _ _ _ (demo_sem_start 1 ltac:(lia)) Hrun ltac:(by vm_compute)).
Defined.

(** Before the signal process 2 is blocked. *)
Lemma semaphore_no_lost_signal_witness :
  ∃ c, rtc (sem_step 0 [1; 2]) (demo_config 1) c ∧ s_blocked (sc_state c) 2 ∧
    ∃ woken, NoDup woken ∧
    (∀ q, q ∈ woken → s_waiting (sc_phase c) q ∧ ¬ s_blocked (sc_state c) q) ∧
    (∀ q, q ∈ sc_lost c → s_waiting (sc_phase c) q ∧ s_blocked (sc_state c) q) ∧
    sc_completed c + Z.of_nat (length woken) ≤ 1 + sc_signalled c ≤ sc_completed c + Z.of_nat (length woken) + Z.of_nat (length (sc_lost c)).
Proof.
  assert (Hr : rtc (sem_step 0 [1; 2]) (demo_config 1) (mkSC demo3 demo_waits 1 0 [])).
  { destruct demo_steps as (H1 & H2 & H3 & _).
    eapply rtc_l; [exact H1|]. eapply rtc_l; [exact H2|]. by apply rtc_once. }
  exists (mkSC demo3 demo_waits 1 0 []). split; [exact Hr|]. split; [by vm_compute|].
  refine (semaphore_no_lost_signal 0 1 [1; 2] ltac:(done) _ _ 2 (demo_sem_start 1 ltac:(lia)) Hr ltac:(by vm_compute) _ _ _).
  - by exists (Done tt).
  - by vm_compute.
  - by intros ?%elem_of_nil.
Defined.

Lemma semCreate_taken_leaks_mutex_witness :
  ∃ s', semCreate 3 8 5 (demo_sems 0) = Done ERROR s'.
Proof.
  destruct (semCreate_taken_leaks_mutex 3 8 5 (demo_sems 0) used_mutex 0 1) as (s' & Hs & _);
    [apply toy_at; by left|done..|exists s'; exact Hs].
Defined.

(** Twenty processes wait: 101 to 120. *)
Definition full_sem : Semaphore :=
  mkSem TRUE 8 (Z.of_nat <$> seq 101 20) (-20) 20 1 1.

Lemma wait_queue_full_witness :
  ∃ s' x', wait 0 (mkSS [full_sem] 0 toy_state) = Yield s' (Done tt) ∧
    aget (semaphores s') 0 = Some x' ∧ sem_semaphore x' = -21 ∧ 1 ∉ sem_waiters x' ∧
    w_procs (s_world s') 1 = Some BLOCKED.
Proof.
  destruct (wait_queue_full (mkSS [full_sem] 0 toy_state) 0 full_sem 1)
    as (s' & x' & H1 & H2 & H3 & _ & H4 & H5).
  - split; [done|done|done|split; [done|done|done]|].
    exists used_mutex. split; [apply (toy_at 1); by right|done].
  - done.
  - done.
  - done.
  - done.
  - apply (bool_decide_unpack _). by vm_compute.
  - by exists READY.
  - by exists s', x'.
Defined.
