(* ===== verification/Sleep.v ===== *)
(** * The timer and sleeping processes; the interrupt table ([Kernel/interrupts.c])

    The timer keeps three parallel arrays: the pid that sleeps, the ticks it has slept
    and the ticks it asked for.  A tick walks over them and removes the entries that are
    due by moving the last entry into their place.  [setIDTEntry] packs a handler's
    address into the fields of an interrupt gate. *)

From S2P Require Import Prelude KMonad CString Structs World.

Definition MAX_LISTENERS : Z := 50.

Section sleep.
Context {W : Type} `{World W}.

Record SleepState := mkSl {
  sleepListeners : Z;
  auxj : Z;
  sleepPIDS : list Z;
  sleepCounter : list Z;
  alarmSleep : list Z;
  sl_world : W;
}.
Implicit Types s : SleepState.

Definition sl_set_world w s := mkSl (sleepListeners s) (auxj s) (sleepPIDS s) (sleepCounter s) (alarmSleep s) w.
Definition sl_set_auxj j s := mkSl (sleepListeners s) j (sleepPIDS s) (sleepCounter s) (alarmSleep s) (sl_world s).
Definition sl_set_counter c s := mkSl (sleepListeners s) (auxj s) (sleepPIDS s) c (alarmSleep s) (sl_world s).

Definition sl_changeState (pid : Z) (st : processState) s : option SleepState :=
  w ← w_changeState pid st (sl_world s); Some (sl_set_world w s).

Definition deleteSleep (index : Z) s : option SleepState :=
  if sleepListeners s <=? index then Some s
  else
    a ← aget (alarmSleep s) (sleepListeners s - 1);
    alarms ← aset (alarmSleep s) index a;
    p ← aget (sleepPIDS s) (sleepListeners s - 1);
    pids ← aset (sleepPIDS s) index p;
    c ← aget (sleepCounter s) (sleepListeners s - 1);
    counters ← aset (sleepCounter s) index c;
    Some (mkSl (sleepListeners s - 1) (auxj s) pids counters alarms (sl_world s)).

Definition addSleep (pid interval : Z) s : option SleepState :=
  if MAX_LISTENERS <=? sleepListeners s
  then Some (sl_set_world (w_print (OStr "_______________") (sl_world s)) s)
  else
    alarms ← aset (alarmSleep s) (sleepListeners s) interval;
    pids ← aset (sleepPIDS s) (sleepListeners s) pid;
    counters ← aset (sleepCounter s) (sleepListeners s) 0;
    Some (mkSl (sleepListeners s + 1) (auxj s) pids counters alarms (sl_world s)).

Definition doneSleeping (index : Z) s : option SleepState :=
  pid ← aget (sleepPIDS s) index;
  s ← sl_changeState pid READY s;
  deleteSleep index s.

(** [for(auxj=0; auxj < sleepListeners; auxj++)], the index being decremented when the
    entry is removed; [fuel] bounds the iterations. *)
Fixpoint tick_loop (fuel : nat) s : option SleepState :=
  if auxj s <? sleepListeners s then
    match fuel with
    | O => None
    | S fuel' =>
        c ← aget (sleepCounter s) (auxj s);
        counters ← aset (sleepCounter s) (auxj s) (int32 (c + 1));
        let s := sl_set_counter counters s in
        c ← aget (sleepCounter s) (auxj s);
        a ← aget (alarmSleep s) (auxj s);
        s ← (if c =? a then s ← doneSleeping (auxj s) s; Some (sl_set_auxj (auxj s - 1) s)
             else Some s);
        tick_loop fuel' (sl_set_auxj (auxj s + 1) s)
    end
  else Some s.

(** [getTime(time); printMsg(2,0,time,0x20);] writes the clock on the screen. *)
Context (showTime : W → W).

Definition timerTickHandlerC (fuel : nat) s : option SleepState :=
  let s := sl_set_world (showTime (sl_world s)) s in
  tick_loop fuel (sl_set_auxj 0 s).

Definition sleep (time : Z) : M SleepState unit :=
  myPid ← asksO (λ s, w_currentPid (sl_world s));
  modifyO (addSleep myPid time) ;;
  modifyO (sl_changeState myPid SLEEPING) ;;
  _yield.
End sleep.
Arguments SleepState : clear implicits.

(** ** The interrupt descriptor table *)

Record IDT_Entry := mkIDT {
  offset_l : Z;
  selector : Z;
  zero_l : Z;
  attrs : Z;
  offset_m : Z;
  offset_h : Z;
  zero_h : Z;
}.

(** The casts to [uint16_t] come before the masks. *)
Definition IDT_gate (offset : Z) : IDT_Entry := {|
  offset_l := Z.land (uint16 offset) 0xFFFF;
  offset_m := Z.land (uint16 (Z.shiftr offset 16)) 0xFFFF;
  offset_h := Z.land (uint16 (Z.shiftr offset 32)) 0xFFFFFFFF;
  zero_l := 0;
  zero_h := 0;
  attrs := 0x8E;
  selector := 0x08;
|}.

Definition setIDTEntry (offset entry : Z) (IDT : gmap Z IDT_Entry) : gmap Z IDT_Entry :=
  <[entry := IDT_gate offset]> IDT.

(** The addresses of the assembly handlers. *)
Record Handlers := mkHandlers {
  h_timerTick : Z; h_master : Z; h_slave : Z; h_generalProtection : Z; h_pageFault : Z;
  h_sys_call : Z; h_keyboard : Z; h_mouse : Z;
}.

Definition loadIDT (h : Handlers) (IDT : gmap Z IDT_Entry) : gmap Z IDT_Entry :=
  let IDT := setIDTEntry (h_timerTick h) 0x20 IDT in
  let IDT := setIDTEntry (h_master h) 0x23 IDT in
  let IDT := setIDTEntry (h_master h) 0x24 IDT in
  let IDT := setIDTEntry (h_master h) 0x25 IDT in
  let IDT := setIDTEntry (h_master h) 0x26 IDT in
  let IDT := setIDTEntry (h_master h) 0x27 IDT in
  let IDT := setIDTEntry (h_slave h) 0x28 IDT in
  let IDT := setIDTEntry (h_slave h) 0x29 IDT in
  let IDT := setIDTEntry (h_master h) 0x2A IDT in
  let IDT := setIDTEntry (h_master h) 0x2B IDT in
  let IDT := setIDTEntry (h_master h) 0x2D IDT in
  let IDT := setIDTEntry (h_master h) 0x2E IDT in
  let IDT := setIDTEntry (h_generalProtection h) 0x0D IDT in
  let IDT := setIDTEntry (h_pageFault h) 0x0E IDT in
  let IDT := setIDTEntry (h_sys_call h) 0x80 IDT in
  let IDT := setIDTEntry (h_keyboard h) 0x21 IDT in
  setIDTEntry (h_mouse h) 0x2C IDT.

(** The address the processor takes from a gate. *)
Definition gate_target (e : IDT_Entry) : Z :=
  offset_l e + 65536 * (offset_m e + 65536 * offset_h e).

(** [int time = 100000; while(time--);] leaves -1. *)
Fixpoint io_wait_loop (fuel : nat) (time : Z) : option Z :=
  match fuel with
  | O => None
  | S fuel' => if time =? 0 then Some (time - 1) else io_wait_loop fuel' (time - 1)
  end.

Definition io_wait (fuel : nat) : option Z := io_wait_loop fuel 100000.
