(* ===== verification/SleepThms.v ===== *)
(** * Properties of the timer

    A tick counts for every sleeping process exactly once and wakes exactly those that
    are due, whatever order the removals leave the arrays in. *)

From S2P Require Import Prelude KMonad CString Structs World Toy Mutex MutexThms Sleep.

(** A sleeping process: pid, ticks slept, ticks asked for. *)
Record listener := mkL { l_pid : Z; l_count : Z; l_alarm : Z }.

Definition l_tick (e : listener) : listener := mkL (l_pid e) (int32 (l_count e + 1)) (l_alarm e).
Definition l_due (e : listener) : Prop := int32 (l_count e + 1) = l_alarm e.
#[export] Instance l_due_dec e : Decision (l_due e).
Proof. unfold l_due. apply _. Defined.

Section tick.
Context {W : Type} `{WorldLaws W}.
Implicit Types s : SleepState W.

(** The arrays hold the listeners [l]. *)
Record listeners s (l : list listener) : Prop := {
  ls_count : sleepListeners s = Z.of_nat (length l);
  ls_max : (length l ≤ 50)%nat;
  ls_pids : length (sleepPIDS s) = Z.to_nat MAX_LISTENERS;
  ls_counters : length (sleepCounter s) = Z.to_nat MAX_LISTENERS;
  ls_alarms : length (alarmSleep s) = Z.to_nat MAX_LISTENERS;
  ls_get : ∀ (i : nat) e, l !! i = Some e →
    sleepPIDS s !! i = Some (l_pid e) ∧ sleepCounter s !! i = Some (l_count e) ∧
    alarmSleep s !! i = Some (l_alarm e);
}.

(** [listeners] with element [i] replaced. *)
Lemma listeners_set s l (i : nat) e n pids counters alarms w j :
  listeners s l → (i < length l)%nat →
  pids = <[i := l_pid e]> (sleepPIDS s) → counters = <[i := l_count e]> (sleepCounter s) →
  alarms = <[i := l_alarm e]> (alarmSleep s) → n = sleepListeners s →
  listeners (mkSl n j pids counters alarms w) (<[i := e]> l).
Proof.
  intros [Hc Hm Hp Hcn Ha Hg] Hi -> -> -> ->. change (Z.to_nat MAX_LISTENERS) with 50%nat in *.
  split; simpl; rewrite ?length_insert; try done.
  intros i' e' He'. apply list_lookup_insert_Some in He' as [(<- & <- & _)|[Hne He']].
  - rewrite !list_lookup_insert_eq by lia. done.
  - rewrite !list_lookup_insert_ne by done. by apply Hg.
Qed.

Lemma listeners_drop s l e j w :
  listeners s (l ++ [e]) →
  listeners (mkSl (sleepListeners s - 1) j (sleepPIDS s) (sleepCounter s) (alarmSleep s) w) l.
Proof.
  intros [Hc Hm Hp Hcn Ha Hg]. rewrite length_app in Hm, Hc. simpl in Hm, Hc.
  split; simpl; try done; [lia|lia|]. intros i e' He'. apply Hg.
  rewrite lookup_app_l; [done|]. by eapply lookup_lt_Some.
Qed.

Lemma listeners_aget s l i e : listeners s l → 0 ≤ i → l !! Z.to_nat i = Some e →
  aget (sleepPIDS s) i = Some (l_pid e) ∧ aget (sleepCounter s) i = Some (l_count e) ∧
  aget (alarmSleep s) i = Some (l_alarm e).
Proof. intros Hl Hi He. rewrite !aget_nat by done. by apply (ls_get _ _ Hl). Qed.

(** [deleteSleep]: the last entry moves into the place. *)
Lemma deleteSleep_spec s l (i : nat) e :
  listeners s (l ++ [e]) → (i < length (l ++ [e]))%nat →
  ∃ s', deleteSleep (Z.of_nat i) s = Some s' ∧
    listeners s' (take (length l) (<[i := e]> (l ++ [e]))) ∧ auxj s' = auxj s ∧ sl_world s' = sl_world s.
Proof.
  intros Hl Hi. pose proof (ls_count _ _ Hl) as Hc. pose proof (ls_max _ _ Hl) as Hm.
  unfold deleteSleep. rewrite (proj2 (Z.leb_gt _ _)) by lia.
  rewrite length_app in Hc, Hm, Hi. simpl in Hc, Hm, Hi.
  destruct (listeners_aget s _ (sleepListeners s - 1) e Hl) as (Hp & Hcn & Ha); [lia| |].
  { rewrite Hc. replace (Z.to_nat _) with (length l) by lia. by apply list_lookup_middle. }
  pose proof (ls_pids _ _ Hl) as L1. pose proof (ls_counters _ _ Hl) as L2.
  pose proof (ls_alarms _ _ Hl) as L3. change (Z.to_nat MAX_LISTENERS) with 50%nat in *.
  rewrite Ha. cbn [mbind option_bind]. rewrite aset_some by lia. cbn [mbind option_bind].
  rewrite Hp. cbn [mbind option_bind]. rewrite aset_some by lia. cbn [mbind option_bind].
  rewrite Hcn. cbn [mbind option_bind]. rewrite aset_some by lia. cbn [mbind option_bind].
  eexists. split; [done|]. split; [|done]. unfold aput. rewrite Nat2Z.id.
  pose proof (listeners_set s (l ++ [e]) i e (sleepListeners s) _ _ _ (sl_world s) (auxj s) Hl
    ltac:(rewrite length_app; simpl; lia) eq_refl eq_refl eq_refl eq_refl) as Hset.
  rewrite <-(take_drop (length l) (<[i:=e]> (l ++ [e]))) in Hset.
  assert (Hd : ∃ y, drop (length l) (<[i:=e]> (l ++ [e])) = [y]).
  { assert (Hlen : length (drop (length l) (<[i:=e]> (l ++ [e]))) = 1%nat)
      by (rewrite length_drop, length_insert, length_app; simpl; lia).
    destruct (drop _ _) as [|y [|]]; [done|by exists y|done]. }
  destruct Hd as [y Hd]. rewrite Hd in Hset. exact (listeners_drop _ _ _ _ _ Hset).
Qed.

(** What removing element [length l1] of [l1 ++ x :: l2] leaves. *)
Lemma take_insert_last {A} (l1 l2 : list A) (x : A) :
  ∃ l2' l e, l1 ++ x :: l2 = l ++ [e] ∧
    take (length l) (<[length l1 := e]> (l ++ [e])) = l1 ++ l2' ∧ l2' ≡ₚ l2.
Proof.
  destruct l2 as [|y l2'] using rev_ind.
  - exists [], l1, x. split; [done|]. rewrite app_nil_r. split; [|done].
    rewrite take_insert_ge by lia. rewrite take_app_length. done.
  - clear IHl2'. exists (y :: l2'), (l1 ++ x :: l2'), y. split; [by rewrite <-app_assoc|].
    rewrite <-app_assoc. simpl. rewrite insert_app_r_alt by lia. rewrite Nat.sub_diag. simpl.
    rewrite length_app. simpl.
    rewrite app_comm_cons, app_assoc. rewrite take_app_le by (rewrite length_app; simpl; lia).
    rewrite take_ge by (rewrite length_app; simpl; lia). split; [done|].
    by rewrite Permutation_app_comm.
Qed.

Definition woken_state (woken : list listener) (w w' : W) : Prop :=
  ∀ q, w_procs w' q =
    if decide (q ∈ l_pid <$> woken) then (λ _, READY) <$> w_procs w q else w_procs w q.

Lemma tick_loop_spec fuel s l1 l2 :
  listeners s (l1 ++ l2) → auxj s = Z.of_nat (length l1) → w_ok (sl_world s) →
  (length l2 ≤ fuel)%nat →
  ∃ s' l', tick_loop fuel s = Some s' ∧ listeners s' (l1 ++ l') ∧ w_ok (sl_world s') ∧
    l' ≡ₚ l_tick <$> filter (λ e, ¬ l_due e) l2 ∧
    woken_state (filter l_due l2) (sl_world s) (sl_world s').
Proof.
  revert s l1 l2. induction fuel as [|fuel IH]; intros s l1 l2 Hl Hj Hok Hf.
  { destruct l2; [|simpl in Hf; lia]. exists s, [].
    unfold tick_loop. rewrite (ls_count _ _ Hl), Hj, app_nil_r, Z.ltb_irrefl.
    split_and!; try done. by rewrite app_nil_r in Hl. }
  cbn [tick_loop]. destruct l2 as [|e l2].
  { exists s, []. rewrite (ls_count _ _ Hl), Hj, app_nil_r, Z.ltb_irrefl.
    split_and!; try done. by rewrite app_nil_r in Hl. }
  pose proof (ls_max _ _ Hl) as Hmax. pose proof (ls_counters _ _ Hl) as L2.
  change (Z.to_nat MAX_LISTENERS) with 50%nat in *. rewrite length_app in Hmax. simpl in Hmax.
  rewrite (proj2 (Z.ltb_lt _ _)) by (rewrite (ls_count _ _ Hl), length_app; simpl; lia).
  destruct (listeners_aget s _ (auxj s) e Hl) as (Hp & Hc & Ha); [lia| |].
  { rewrite Hj, Nat2Z.id. by apply list_lookup_middle. }
  rewrite Hc. cbn [mbind option_bind]. rewrite aset_some by lia.
  cbn [mbind option_bind sleepCounter sl_set_counter auxj alarmSleep].
  rewrite aget_aput_eq by lia. cbn [mbind option_bind]. rewrite Ha. cbn [mbind option_bind].
  set (s1 := sl_set_counter _ s).
  assert (Hl1 : listeners s1 (l1 ++ l_tick e :: l2)).
  { replace (l1 ++ l_tick e :: l2) with (<[length l1 := l_tick e]> (l1 ++ e :: l2))
      by (rewrite insert_app_r_alt by lia; by rewrite Nat.sub_diag).
    destruct (ls_get _ _ Hl (length l1) e) as (G1 & G2 & G3); [by apply list_lookup_middle|].
    apply (listeners_set s); [done|rewrite length_app; simpl; lia|..]; simpl.
    - by rewrite list_insert_id.
    - unfold aput. by rewrite Hj, Nat2Z.id.
    - by rewrite list_insert_id.
    - done. }
  destruct (Z.eqb_spec (int32 (l_count e + 1)) (l_alarm e)) as [Hdue|Hnot].
  - (* due: the last entry takes its place *)
    destruct (w_change_law (sl_world s) (l_pid e) READY Hok) as (w1 & Hw1 & Hok1 & _ & _ & Hpr).
    destruct (take_insert_last l1 l2 (l_tick e)) as (l2' & l & last & Heq & Htake & Hperm).
    rewrite Heq in Hl1.
    assert (Hl1w : listeners (sl_set_world w1 s1) (l ++ [last])) by (destruct Hl1; by split).
    destruct (deleteSleep_spec (sl_set_world w1 s1) l (length l1) last Hl1w)
      as (s2 & Hdel & Hl2 & Hj2 & Hw2).
    { rewrite <-Heq, length_app. simpl. lia. }
    rewrite Htake in Hl2. unfold doneSleeping. cbn [sleepPIDS s1 sl_set_counter].
    rewrite Hp. cbn [mbind option_bind]. unfold sl_changeState. cbn [sl_world s1 sl_set_counter].
    rewrite Hw1. cbn [mbind option_bind]. fold s1. rewrite Hj. rewrite Hdel. cbn [mbind option_bind].
    set (s3 := sl_set_auxj _ _).
    destruct (IH s3 l1 l2') as (s' & l' & Ht & Hl' & Hok' & Hl'2 & Hwk).
    + destruct Hl2. by split.
    + unfold s3. simpl. rewrite Hj2. simpl. lia.
    + unfold s3. simpl. by rewrite Hw2.
    + rewrite Hperm. simpl in Hf. lia.
    + exists s', l'. split_and!; try done.
      * rewrite filter_cons_False by tauto. rewrite Hl'2. by rewrite Hperm.
      * intros q. rewrite Hwk. unfold s3. simpl. rewrite Hw2. simpl. rewrite Hpr.
        rewrite filter_cons_True by done. rewrite fmap_cons.
        assert (Hin : q ∈ l_pid <$> filter l_due l2' ↔ q ∈ l_pid <$> filter l_due l2) by by rewrite Hperm.
        destruct (decide (q = l_pid e)) as [->|Hne].
        -- rewrite (decide_True (P := _ ∈ _ :: _)) by by left.
           by case_decide; destruct (w_procs (sl_world s) _).
        -- repeat case_decide; set_solver.
  - cbn [mbind option_bind]. set (s3 := sl_set_auxj _ _).
    destruct (IH s3 (l1 ++ [l_tick e]) l2) as (s' & l' & Ht & Hl' & Hok' & Hl'2 & Hwk).
    + rewrite <-app_assoc. destruct Hl1. by split.
    + unfold s3. simpl. rewrite Hj, length_app. simpl. lia.
    + done.
    + simpl in Hf. lia.
    + exists s', (l_tick e :: l'). rewrite <-app_assoc in Hl'. split_and!; try done.
      * rewrite filter_cons_True by done. rewrite fmap_cons. by rewrite Hl'2.
      * intros q. rewrite Hwk. by rewrite filter_cons_False.
Qed.
End tick.

Section properties.
Context {W : Type} `{WorldLaws W} (showTime : W → W).
Implicit Types s : SleepState W.

(** Writing the clock changes no process. *)
Context (showTime_ok : ∀ w, w_ok w → w_ok (showTime w) ∧ ∀ q, w_procs (showTime w) q = w_procs w q).

Lemma tick_spec fuel s l :
  listeners s l → w_ok (sl_world s) → (length l ≤ fuel)%nat →
  ∃ s' l', timerTickHandlerC showTime fuel s = Some s' ∧ listeners s' l' ∧ w_ok (sl_world s') ∧
    l' ≡ₚ l_tick <$> filter (λ e, ¬ l_due e) l ∧
    woken_state (filter l_due l) (sl_world s) (sl_world s').
Proof.
  intros Hl Hok Hf. destruct (showTime_ok _ Hok) as [Hok1 Hpr].
  destruct (tick_loop_spec fuel (sl_set_auxj 0 (sl_set_world (showTime (sl_world s)) s)) [] l)
    as (s' & l' & Ht & Hl' & Hok' & Hp & Hw); try done; [by destruct Hl|].
  exists s', l'. split_and!; try done. intros q. rewrite Hw. simpl. by rewrite Hpr.
Qed.

(** A tick of the timer ends; every sleeping process has then slept one tick more,
    except those that slept as long as they asked for, which are gone from the arrays
    and ready; no other process changes. *)
Theorem timerTick_correct fuel s l :
  listeners s l → w_ok (sl_world s) → (length l ≤ fuel)%nat →
  ∃ s' l', timerTickHandlerC showTime fuel s = Some s' ∧ listeners s' l' ∧
    l' ≡ₚ l_tick <$> filter (λ e, ¬ l_due e) l ∧
    ∀ q, w_procs (sl_world s') q =
      if decide (q ∈ l_pid <$> filter l_due l) then (λ _, READY) <$> w_procs (sl_world s) q
      else w_procs (sl_world s) q.
Proof.
  intros Hl Hok Hf. destruct (tick_spec fuel s l Hl Hok Hf) as (s' & l' & ? & ? & _ & ? & ?).
  by exists s', l'.
Qed.

(** Process [pid] has one listener, which has slept [c] of [t] ticks. *)
Definition listens s (pid c t : Z) : Prop :=
  ∃ l, listeners s l ∧ mkL pid c t ∈ l ∧ ∀ e, e ∈ l → l_pid e = pid → e = mkL pid c t.

(** Process [pid] has no listener. *)
Definition silent s (pid : Z) : Prop := ∃ l, listeners s l ∧ pid ∉ l_pid <$> l.

Lemma tick_listens fuel s pid c t :
  listens s pid c t → w_ok (sl_world s) → (50 ≤ fuel)%nat → 0 ≤ c → c < t ≤ INT_MAX →
  ∃ s', timerTickHandlerC showTime fuel s = Some s' ∧ w_ok (sl_world s') ∧
    (c + 1 = t → silent s' pid ∧ w_procs (sl_world s') pid = (λ _, READY) <$> w_procs (sl_world s) pid) ∧
    (c + 1 < t → listens s' pid (c + 1) t ∧ w_procs (sl_world s') pid = w_procs (sl_world s) pid).
Proof.
  intros (l & Hl & Hin & Huniq) Hok Hf H0c Hct. pose proof (ls_max _ _ Hl).
  destruct (tick_spec fuel s l Hl Hok) as (s' & l' & Ht & Hl' & Hok' & Hp & Hw); [lia|].
  assert (Hinc : int32 (c + 1) = c + 1) by (apply int32_id; unfold INT_MIN; lia).
  assert (Hafter : ∀ e, e ∈ l' → l_pid e = pid → ¬ l_due (mkL pid c t) ∧ e = mkL pid (c + 1) t).
  { intros e He Hpid. rewrite Hp in He. apply list_elem_of_fmap in He as (e0 & -> & [Hnd He0]%list_elem_of_filter).
    rewrite (Huniq e0 He0 Hpid) in *. split; [done|]. unfold l_tick. simpl. by rewrite Hinc. }
  exists s'. split; [done|]. split; [done|]. split.
  - intros Heq. assert (Hdue : l_due (mkL pid c t)) by (unfold l_due; simpl; congruence). split.
    + exists l'. split; [done|]. intros (e & Hpid & He)%list_elem_of_fmap. by destruct (Hafter e He).
    + rewrite Hw, decide_True; [done|]. by apply (list_elem_of_fmap_2 l_pid _ (mkL pid c t)), list_elem_of_filter.
  - intros Hlt. assert (Hnot : ¬ l_due (mkL pid c t)) by (unfold l_due; simpl; lia). split.
    + exists l'. split; [done|]. split; [|by intros e He Hpid; apply Hafter].
      rewrite Hp. replace (mkL pid (c + 1) t) with (l_tick (mkL pid c t)) by (unfold l_tick; simpl; by rewrite Hinc).
      apply list_elem_of_fmap_2, list_elem_of_filter. done.
    + rewrite Hw, decide_False; [done|].
      intros (e & Heq & [Hdue He]%list_elem_of_filter)%list_elem_of_fmap. apply Hnot.
      by rewrite <-(Huniq e He).
Qed.

(** [sleep] puts the calling process to sleep and yields; it is registered with the
    ticks it asked for if fewer than 50 processes sleep, and otherwise sleeps without
    being registered, so that no tick will wake it. *)
Theorem sleep_correct s l pid t :
  listeners s l → w_ok (sl_world s) → w_currentPid (sl_world s) = Some pid →
  is_Some (w_procs (sl_world s) pid) →
  ∃ s', sleep t s = Yield s' (Done tt) ∧
    w_ok (sl_world s') ∧ w_procs (sl_world s') pid = Some SLEEPING ∧
    (∀ q, q ≠ pid → w_procs (sl_world s') q = w_procs (sl_world s) q) ∧
    ((length l < 50)%nat ∧ listeners s' (l ++ [mkL pid 0 t]) ∨
     length l = 50%nat ∧ listeners s' l).
Proof.
  intros Hl Hok Hcur [st Hst]. unfold sleep. rewrite (asksO_bind _ _ _ pid) by done.
  pose proof (ls_count _ _ Hl) as Hc. pose proof (ls_max _ _ Hl) as Hm.
  destruct (decide (length l = 50%nat)) as [Hfull|Hnot].
  - destruct (w_print_law (sl_world s) (OStr "_______________") Hok) as (Hok1 & _ & _ & Hpr1).
    destruct (w_change_law _ pid SLEEPING Hok1) as (w2 & Hw2 & Hok2 & _ & _ & Hpr2).
    eexists (sl_set_world w2 s). split; [|split_and!].
    + erewrite modifyO_bind.
      2: { unfold addSleep. rewrite (proj2 (Z.leb_le _ _)) by (unfold MAX_LISTENERS; lia). done. }
      erewrite modifyO_bind; [reflexivity|]. unfold sl_changeState. simpl. by rewrite Hw2.
    + exact Hok2.
    + simpl. rewrite Hpr2, decide_True, Hpr1, Hst by done. done.
    + intros q Hq. simpl. by rewrite Hpr2, decide_False, Hpr1.
    + right. split; [done|]. destruct Hl. by split.
  - destruct (w_change_law _ pid SLEEPING Hok) as (w2 & Hw2 & Hok2 & _ & _ & Hpr2).
    destruct Hl as [_ _ L1 L2 L3 Hg]. change (Z.to_nat MAX_LISTENERS) with 50%nat in *.
    eexists (mkSl (sleepListeners s + 1) (auxj s) (aput (sleepPIDS s) (sleepListeners s) pid)
      (aput (sleepCounter s) (sleepListeners s) 0) (aput (alarmSleep s) (sleepListeners s) t) w2).
    split; [|split_and!].
    + erewrite modifyO_bind.
      2: { unfold addSleep. rewrite (proj2 (Z.leb_gt _ _)) by (unfold MAX_LISTENERS; lia).
           rewrite !aset_some by lia. reflexivity. }
      erewrite modifyO_bind; [reflexivity|]. unfold sl_changeState. simpl. by rewrite Hw2.
    + exact Hok2.
    + simpl. rewrite Hpr2, decide_True, Hst by done. done.
    + intros q Hq. simpl. by rewrite Hpr2, decide_False.
    + left. split; [lia|]. split; simpl; rewrite ?length_aput, ?length_app; simpl; try done; try lia.
      intros i e He. unfold aput. rewrite Hc, Nat2Z.id.
      apply lookup_app_Some in He as [He|[Hge He]].
      * pose proof (lookup_lt_Some _ _ _ He). rewrite !list_lookup_insert_ne by lia. by apply Hg.
      * apply list_lookup_singleton_Some in He as [Hi <-].
        assert (i = length l) as -> by lia. rewrite !list_lookup_insert_eq by lia. done.
Qed.
(** What happens to the timer after [s0] while process [pid] does not run: ticks, which are
    counted, other processes that go to sleep for any time, and anything else that leaves
    the state of [pid] in the process table as it is. *)
Inductive passes (fuel : nat) (pid : Z) (s0 : SleepState W) : nat → SleepState W → Prop :=
  | passes_none : passes fuel pid s0 0 s0
  | passes_tick n s s' : passes fuel pid s0 n s → timerTickHandlerC showTime fuel s = Some s' →
      passes fuel pid s0 (S n) s'
  | passes_sleep n s q time s' : passes fuel pid s0 n s → q ≠ pid →
      w_currentPid (sl_world s) = Some q → is_Some (w_procs (sl_world s) q) →
      sleep time s = Yield s' (Done tt) → passes fuel pid s0 n s'
  | passes_other n s w : passes fuel pid s0 n s → w_ok w → w_procs w pid = w_procs (sl_world s) pid →
      passes fuel pid s0 n (sl_set_world w s).

(** Where process [pid] is after [n] of its [t] ticks. *)
Definition on_time (pid t : Z) (n : nat) s : Prop :=
  w_ok (sl_world s) ∧
  if Z.of_nat n =? t then silent s pid ∧ w_procs (sl_world s) pid = Some READY
  else listens s pid (Z.of_nat n) t ∧ w_procs (sl_world s) pid = Some SLEEPING.

Lemma on_time_sleep pid t n s q time s' :
  on_time pid t n s → q ≠ pid → w_currentPid (sl_world s) = Some q → is_Some (w_procs (sl_world s) q) →
  sleep time s = Yield s' (Done tt) → on_time pid t n s'.
Proof.
  intros [Hok Ho] Hq Hcur Hlive Hs. unfold on_time in *.
  assert (Hkey : ∀ l, listeners s l → w_ok (sl_world s') ∧ w_procs (sl_world s') pid = w_procs (sl_world s) pid ∧
    (listeners s' (l ++ [mkL q 0 time]) ∨ listeners s' l)).
  { intros l Hl. destruct (sleep_correct s l q time Hl Hok Hcur Hlive) as (s2 & Hs2 & Hok2 & _ & Hpr & Hl2).
    rewrite Hs in Hs2. injection Hs2 as <-. split; [done|]. split; [by apply Hpr|]. tauto. }
  destruct (Z.of_nat n =? t).
  - destruct Ho as [(l & Hl & Hno) Hp]. destruct (Hkey l Hl) as (Hok2 & -> & Hl2). split; [done|]. split; [|done].
    destruct Hl2 as [Hl2|Hl2]; eexists; (split; [exact Hl2|]); [|done].
    rewrite fmap_app, elem_of_app. simpl. rewrite list_elem_of_singleton. intros [?|?]; congruence.
  - destruct Ho as [(l & Hl & Hin & Hu) Hp]. destruct (Hkey l Hl) as (Hok2 & -> & Hl2). split; [done|]. split; [|done].
    destruct Hl2 as [Hl2|Hl2]; eexists; (split; [exact Hl2|]); [|done]. split; [apply elem_of_app; by left|].
    intros e [He|He]%elem_of_app Hpid; [by apply Hu|]. apply list_elem_of_singleton in He as ->. done.
Qed.

Lemma passes_on_time fuel pid s0 t n s :
  on_time pid t 0 s0 → 0 < t ≤ INT_MAX → (50 ≤ fuel)%nat →
  passes fuel pid s0 n s → Z.of_nat n ≤ t → on_time pid t n s.
Proof.
  intros Hstart Ht Hf Hp. induction Hp as [|n s s' Hp IH Hs|n s q time s' Hp IH Hq Hcur Hlive Hs|n s w Hp IH Hw Hpr];
    intros Hn; [done|..].
  - destruct IH as [Hok IH]; [lia|]. rewrite (proj2 (Z.eqb_neq _ _)) in IH by lia. destruct IH as [Hl Hst].
    destruct (tick_listens fuel s pid (Z.of_nat n) t Hl Hok Hf) as (s2 & Hs2 & Hok2 & Hdue & Hnot); [lia|lia|].
    rewrite Hs in Hs2. injection Hs2 as <-. split; [done|].
    replace (Z.of_nat (S n)) with (Z.of_nat n + 1) by lia. destruct (Z.eqb_spec (Z.of_nat n + 1) t) as [E|E].
    + destruct (Hdue E) as [? ->]. by rewrite Hst.
    + destruct Hnot as [? ->]; [lia|done].
  - by eapply on_time_sleep; [apply IH|..].
  - destruct (IH Hn) as [_ Ho]. split; [done|]. simpl. rewrite Hpr. destruct (Z.of_nat n =? t);
      destruct Ho as [(l & Hl & Hr) Hst]; (split; [exists l|done]); (split; [destruct Hl; by split|done]).
Qed.

(** C29: a process that calls [sleep] for [t] ticks, [t] at least 1, while fewer than 50
    processes sleep is put to sleep, and from then on, whatever other processes go to
    sleep and whatever else happens between the ticks that leaves its state alone, it is
    asleep until [t] ticks have passed and ready when they have; no tick before fails. *)
Theorem sleep_wakes_on_time fuel s l pid t :
  listeners s l → (length l < 50)%nat → pid ∉ l_pid <$> l → 1 ≤ t ≤ INT_MAX → (50 ≤ fuel)%nat →
  w_ok (sl_world s) → w_currentPid (sl_world s) = Some pid → is_Some (w_procs (sl_world s) pid) →
  ∃ s0, sleep t s = Yield s0 (Done tt) ∧
    ∀ n s', passes fuel pid s0 n s' → Z.of_nat n ≤ t →
      w_procs (sl_world s') pid = Some (if Z.of_nat n =? t then READY else SLEEPING) ∧
      (Z.of_nat n < t → is_Some (timerTickHandlerC showTime fuel s')).
Proof.
  intros Hl Hlen Hno Ht Hf Hok Hcur Hlive.
  destruct (sleep_correct s l pid t Hl Hok Hcur Hlive) as (s0 & Hs & Hok0 & Hst & _ & [[_ Hl0]|[? _]]); [|lia].
  exists s0. split; [exact Hs|]. intros n s' Hp Hn.
  destruct (passes_on_time fuel pid s0 t n s') as [Hok' Ho]; [|lia|done..|].
  - split; [done|]. rewrite (proj2 (Z.eqb_neq _ _)) by lia. split; [|done]. exists (l ++ [mkL pid 0 t]).
    split; [done|]. split; [apply elem_of_app; right; by left|].
    intros e [He|He]%elem_of_app Hpid; [|by apply list_elem_of_singleton in He].
    destruct Hno. rewrite <-Hpid. by apply list_elem_of_fmap_2.
  - destruct (Z.eqb_spec (Z.of_nat n) t) as [E|E]; destruct Ho as [Hx Hp']; (split; [done|]); intros Hlt; [lia|].
    destruct (tick_listens fuel s' pid (Z.of_nat n) t Hx Hok' Hf) as (s2 & -> & _); [lia|lia|by eexists].
Qed.
End properties.

(** ** The interrupt table *)

(** A gate built by [setIDTEntry] leads to the handler's address modulo 2^48, the width
    of the three fields it fills: the cast in [offset_h] drops the top 16 bits. *)
Theorem setIDTEntry_target offset entry IDT :
  0 ≤ offset < 2 ^ 64 →
  ∃ e, setIDTEntry offset entry IDT !! entry = Some e ∧ gate_target e = offset mod 2 ^ 48 ∧
    (offset < 2 ^ 48 → gate_target e = offset) ∧ attrs e = 0x8E ∧ selector e = 0x08 ∧
    ∀ j, j ≠ entry → setIDTEntry offset entry IDT !! j = IDT !! j.
Proof.
  intros Ho. eexists. split; [apply lookup_insert_eq|].
  assert (Ht : gate_target (IDT_gate offset) = offset mod 2 ^ 48).
  { unfold gate_target, IDT_gate, wrap_u. cbn [offset_l offset_m offset_h].
    change 0xFFFF with (Z.ones 16). change 0xFFFFFFFF with (Z.ones 32).
    rewrite !Z.land_ones, !Z.shiftr_div_pow2 by lia.
    change (2 ^ 16) with 65536. change (2 ^ 32) with 4294967296. change (2 ^ 48) with 281474976710656.
    Z.to_euclidean_division_equations; lia. }
  split; [exact Ht|]. split; [intros Hs; rewrite Ht; apply Z.mod_small; lia|]. split; [done|].
  split; [done|]. intros j Hj. by apply lookup_insert_ne.
Qed.

(** The delay loop of [io_wait] ends. *)
Lemma io_wait_loop_ends n : io_wait_loop (S n) (Z.of_nat n) = Some (-1).
Proof.
  induction n as [|n IH]; [done|]. cbn [io_wait_loop]. rewrite (proj2 (Z.eqb_neq _ _)) by lia.
  replace (Z.of_nat (S n) - 1) with (Z.of_nat n) by lia. exact IH.
Qed.

(** ** Witnesses *)

(** Processes 1 and 2 sleep; 1 is due at the next tick. *)
Definition demo_sleep : SleepState Toy :=
  mkSl 2 0 (1 :: 2 :: replicate 48 0) (4 :: 0 :: replicate 48 0) (5 :: 3 :: replicate 48 0) toy0.

Lemma demo_listeners : listeners demo_sleep [mkL 1 4 5; mkL 2 0 3].
Proof.
  split; [done|simpl; lia|done..|]. intros [|[|i]] e He; [by injection He as <-..|done].
Qed.

Lemma timerTick_correct_witness :
  ∃ s' l', timerTickHandlerC (λ w, w) 2 demo_sleep = Some s' ∧ listeners s' l' ∧
    l' ≡ₚ [mkL 2 1 3].
Proof.
  destruct (timerTick_correct (λ w : Toy, w) (λ w Hw, conj Hw (λ q, eq_refl)) 2 demo_sleep _ demo_listeners (toy_ok _))
    as (s' & l' & H1 & H2 & H3 & _); [simpl; lia|].
  exists s', l'. split; [exact H1|]. split; [exact H2|exact H3].
Defined.

(** Process 1 goes to sleep for two ticks while process 2 sleeps: it is asleep after one tick
    and ready after the second. *)
Definition one_sleeper : SleepState Toy :=
  mkSl 1 0 (2 :: replicate 49 0) (0 :: replicate 49 0) (3 :: replicate 49 0) toy0.

Lemma one_listener : listeners one_sleeper [mkL 2 0 3].
Proof. split; [done|simpl; lia|done..|]. intros [|i] e He; [by injection He as <-|done]. Qed.

Lemma sleep_wakes_on_time_witness :
  ∃ s0 s1 s2, sleep 2 one_sleeper = Yield s0 (Done tt) ∧
    timerTickHandlerC (λ w : Toy, w) 50 s0 = Some s1 ∧ timerTickHandlerC (λ w : Toy, w) 50 s1 = Some s2 ∧
    w_procs (sl_world s1) 1 = Some SLEEPING ∧ w_procs (sl_world s2) 1 = Some READY.
Proof.
  destruct (sleep_wakes_on_time (λ w : Toy, w) (λ w Hw, conj Hw (λ q, eq_refl)) 50 one_sleeper _ 1 2 one_listener)
    as (s0 & Hs & Ht); [simpl; lia| |unfold INT_MAX; lia|lia|exact (toy_ok _)|done|by eexists|].
  { apply (bool_decide_unpack _). by vm_compute. }
  destruct (Ht 0%nat s0 (passes_none _ _ _ _)) as [_ R0]; [lia|]. destruct R0 as [s1 H1]; [lia|].
  pose proof (passes_tick (λ w : Toy, w) 50 1 s0 0 s0 s1 (passes_none _ _ _ _) H1) as P1.
  destruct (Ht 1%nat s1 P1) as [Q1 R1]; [lia|]. destruct R1 as [s2 H2]; [lia|].
  destruct (Ht 2%nat s2 (passes_tick (λ w : Toy, w) 50 1 s0 1 s1 s2 P1 H2)) as [Q2 _]; [lia|].
  exists s0, s1, s2. split; [exact Hs|]. split; [exact H1|]. split; [exact H2|]. split; [exact Q1|exact Q2].
Defined.

Lemma sleep_correct_witness :
  ∃ s', sleep 7 demo_sleep = Yield s' (Done tt) ∧ w_procs (sl_world s') 1 = Some SLEEPING.
Proof.
  destruct (sleep_correct demo_sleep _ 1 7 demo_listeners (toy_ok _) eq_refl) as (s' & H1 & _ & H2 & _);
    [by eexists|]. exists s'. split; [exact H1|exact H2].
Defined.

Lemma setIDTEntry_target_witness :
  ∃ e, setIDTEntry 0x123456789A 0x20 ∅ !! 0x20 = Some e ∧ gate_target e = 0x123456789A.
Proof.
  destruct (setIDTEntry_target 0x123456789A 0x20 ∅) as (e & H1 & _ & H2 & _); [lia|].
  exists e. split; [exact H1|]. apply H2. lia.
Defined.
