(* ===== verification/Video.v ===== *)
(** * The text screen ([Kernel/video.c])

    A copy of the 25 by 80 characters of the screen with their attributes, a cursor, and
    the text memory at 0xB8000, two bytes for each character, which [updateScreen] fills
    from the copy. *)

From S2P Require Import Prelude CString.

Definition BLACK : Z := 0x00.
Definition SPACE : Z := 0x20.
Definition DEFAULT : Z := 0x0F.
Definition WIDTH : Z := 80.
Definition HEIGHT : Z := 25.

(** ** Arrays of rows *)

Section arrays2.
Context {A : Type}.
Implicit Types v : list (list A).

Definition vget v (f c : Z) : option A := row ← aget v f; aget row c.
Definition vset v (f c : Z) (x : A) : option (list (list A)) :=
  row ← aget v f; row' ← aset row c x; aset v f row'.
End arrays2.

Record Video := mkVideo {
  video : list (list Z);
  attributes : list (list Z);
  cur_i : Z;
  cur_j : Z;
  mouseSelect : list Z;
  size : Z;
  iStartModule : Z;
  jStartModule : Z;
  stopBackWards : Z;
  screen : list Z;
}.
Implicit Types s : Video.

(** The static initial values; the text memory holds what the boot loader left. *)
Definition video_bss (text : list Z) : Video :=
  mkVideo (replicate (Z.to_nat HEIGHT) (replicate (Z.to_nat WIDTH) 0))
    (replicate (Z.to_nat HEIGHT) (replicate (Z.to_nat WIDTH) 0)) 0 3
    (replicate (Z.to_nat (HEIGHT * WIDTH)) 0) 0 0 3 (-1) text.

Definition set_video v s := mkVideo v (attributes s) (cur_i s) (cur_j s) (mouseSelect s) (size s)
  (iStartModule s) (jStartModule s) (stopBackWards s) (screen s).
Definition set_attributes v s := mkVideo (video s) v (cur_i s) (cur_j s) (mouseSelect s) (size s)
  (iStartModule s) (jStartModule s) (stopBackWards s) (screen s).
Definition set_cursor i j s := mkVideo (video s) (attributes s) i j (mouseSelect s) (size s)
  (iStartModule s) (jStartModule s) (stopBackWards s) (screen s).
Definition set_select v n s := mkVideo (video s) (attributes s) (cur_i s) (cur_j s) v n
  (iStartModule s) (jStartModule s) (stopBackWards s) (screen s).
Definition set_start i j s := mkVideo (video s) (attributes s) (cur_i s) (cur_j s) (mouseSelect s) (size s)
  i j (stopBackWards s) (screen s).
Definition set_stop v s := mkVideo (video s) (attributes s) (cur_i s) (cur_j s) (mouseSelect s) (size s)
  (iStartModule s) (jStartModule s) v (screen s).
Definition set_screen v s := mkVideo (video s) (attributes s) (cur_i s) (cur_j s) (mouseSelect s) (size s)
  (iStartModule s) (jStartModule s) (stopBackWards s) v.

Definition validPosition (f c : Z) : bool :=
  negb ((HEIGHT <=? f) || (WIDTH <=? c) || (f <? 0) || (c <? 0)).

(** ** The copy and the text memory *)

Definition updateScreen_cell (f c : Z) s : option Video :=
  x ← vget (video s) f c; a ← vget (attributes s) f c;
  t ← aset (screen s) (f * WIDTH * 2 + c * 2) x;
  t ← aset t (f * WIDTH * 2 + c * 2 + 1) a;
  Some (set_screen t s).

Definition updateScreen s : option Video :=
  for_range (Z.to_nat WIDTH) 0 (λ c,
    for_range (Z.to_nat HEIGHT) 0 (λ f, updateScreen_cell f c)) s.

Definition changeColor (f c color : Z) s : option Video :=
  t ← aset (screen s) (f * WIDTH * 2 + c * 2 + 1) (int8 color); Some (set_screen t s).

Definition getScreen (f c : Z) s : option Z :=
  if negb (validPosition f c) then Some (-1) else vget (video s) f c.

Definition printChar (f c a color : Z) s : option Video :=
  if negb (validPosition f c) then Some s
  else v ← vset (video s) f c a; updateScreen (set_video v s).

Definition clearPosition (f c : Z) s : option Video :=
  if negb (validPosition f c) then Some s
  else v ← vset (video s) f c SPACE; Some (set_video v s).

Definition clearRow (f : Z) s : option Video :=
  for_range (Z.to_nat WIDTH) 0 (λ k, clearPosition f k) s.

Definition copyRow (from to : Z) s : option Video :=
  for_range (Z.to_nat WIDTH) 0 (λ k s,
    x ← vget (video s) from k; v ← vset (video s) to k x;
    clearPosition from k (set_video v s)) s.

Definition clear s : option Video :=
  s ← for_range (Z.to_nat HEIGHT) 0 (λ f,
    for_range (Z.to_nat WIDTH) 0 (λ c s,
      v ← vset (video s) f c SPACE; a ← vset (attributes s) f c DEFAULT;
      Some (set_attributes a (set_video v s)))) s;
  updateScreen s.

(** ** The cursor *)

Definition changeStartModule (f c : Z) s : Video :=
  if (f <? 0) || (WIDTH <? f) || (c <? 3) || (HEIGHT <? c) then s
  else set_cursor f (cur_j s) (set_start f c s).

Definition changeStopBackwards (from : Z) s : Video := set_stop from s.

Definition isBackwardsOn s : Z :=
  if stopBackWards s =? -1 then 1 else c_bool (stopBackWards s <=? cur_i s).

Definition setCursor (f c : Z) s : Video :=
  if negb (validPosition f c) then s else set_cursor c f s.

Definition scroll s : option Video :=
  s ← for_range (Z.to_nat (HEIGHT - (jStartModule s + 1))) (jStartModule s + 1)
        (λ auxf, copyRow auxf (auxf - 1)) s;
  s ← clearRow (HEIGHT - 1) s;
  Some (set_cursor (iStartModule s) (HEIGHT - 1) s).

Definition forwardCursor s : option Video :=
  if cur_i s =? WIDTH - 1 then
    if cur_j s =? HEIGHT - 1 then s ← scroll s; updateScreen s
    else Some (set_cursor (iStartModule s) (cur_j s + 1) s)
  else Some (set_cursor (int32 (cur_i s + 1)) (cur_j s) s).

(** [while (j != aux) forwardCursor();] *)
Fixpoint lineJump_loop (fuel : nat) (aux : Z) s : option Video :=
  if cur_j s =? aux then Some s
  else match fuel with O => None | S fuel' => s ← forwardCursor s; lineJump_loop fuel' aux s end.

Definition lineJump (fuel : nat) s : option Video :=
  if cur_j s =? HEIGHT - 1 then scroll s else lineJump_loop fuel (cur_j s + 1) s.

Definition backwardCursor s : Video :=
  if cur_i s =? iStartModule s then
    if negb (cur_j s =? jStartModule s) then set_cursor (WIDTH - 1) (cur_j s - 1) s else s
  else set_cursor (cur_i s - 1) (cur_j s) s.

Definition backInLine s : Video :=
  if cur_i s =? iStartModule s then s else set_cursor (cur_i s - 1) (cur_j s) s.

Definition putChar (a : Z) s : option Video :=
  s ← printChar (cur_j s) (cur_i s) a DEFAULT s; forwardCursor s.

(** ** Messages *)

Fixpoint printMsg_loop (fuel : nat) (m : mem) (i msg : Z) s : option Video :=
  if char_at m msg =? 0 then Some s
  else if negb (validPosition (Z.quot i WIDTH) (Z.rem i WIDTH)) then Some s
  else match fuel with
       | O => None
       | S fuel' =>
           s ← printChar (Z.quot i WIDTH) (Z.rem i WIDTH) (char_at m msg) 0x20 s;
           printMsg_loop fuel' m (i + 1) (msg + 1) s
       end.

Definition printMsg (fuel : nat) (m : mem) (f c msg color : Z) s : option Video :=
  if negb (validPosition f c) then Some s else printMsg_loop fuel m (f * WIDTH + c) msg s.

Fixpoint printMsgCursor (fuel : nat) (m : mem) (msg : Z) s : option Video :=
  if char_at m msg =? 0 then Some s
  else match fuel with
       | O => None
       | S fuel' => s ← putChar (char_at m msg) s; printMsgCursor fuel' m (msg + 1) s
       end.

(** ** The selection of the mouse *)

Definition drawMouse (f c : Z) s : option Video :=
  if negb (validPosition f c) then Some s
  else a ← vset (attributes s) f c 0x30; Some (set_attributes a s).

Definition udrawMouse (f c : Z) s : option Video :=
  if negb (validPosition f c) then Some s
  else a ← vset (attributes s) f c DEFAULT; Some (set_attributes a s).

Definition copyMouse (initial end_ : Z) s : option Video :=
  let n := end_ - initial + 1 in
  for_range (Z.to_nat n) 0 (λ h s,
    c ← getScreen (Z.quot (h + initial) WIDTH) (Z.rem (h + initial) WIDTH) s;
    let c := if int8 c =? 0 then SPACE else int8 c in
    l ← aset (mouseSelect s) h c;
    Some (set_select l (size s) s)) (set_select (mouseSelect s) n s).

(** [while (validPosition(i / WIDTH, i % WIDTH) && i <= fin) draw(..), i++;] *)
Fixpoint draw_loop (fuel : nat) (draw : Z → Z → Video → option Video) (i fin : Z) s : option Video :=
  if validPosition (Z.quot i WIDTH) (Z.rem i WIDTH) && (i <=? fin)
  then match fuel with
       | O => None
       | S fuel' => s ← draw (Z.quot i WIDTH) (Z.rem i WIDTH) s; draw_loop fuel' draw (i + 1) fin s
       end
  else Some s.

(** At most [HEIGHT * WIDTH] positions are valid. *)
Definition draw_fuel : nat := Z.to_nat (HEIGHT * WIDTH).

Definition selection (finit cinit ffin cfin : Z) s : option Video :=
  let i := finit * WIDTH + cinit in
  let fin := ffin * WIDTH + cfin in
  s ← copyMouse i fin s;
  draw_loop draw_fuel drawMouse i fin s.

Definition undoSelection (finit cinit ffin cfin : Z) s : option Video :=
  draw_loop draw_fuel udrawMouse (finit * WIDTH + cinit) (ffin * WIDTH + cfin) s.
