(* ===== verification/VideoThms.v ===== *)
(** * Properties of the screen

    On a screen whose arrays have their declared sizes and whose cursor is inside, nothing
    is read or written out of bounds; scrolling is a list operation on the rows, and the
    text memory shows the copy after every character. *)

From S2P Require Import Prelude CString Video.

Abbreviation len l := (Z.of_nat (length l)).

(** ** Two-dimensional arrays *)

Definition shape {A} (v : list (list A)) : Prop :=
  length v = Z.to_nat HEIGHT ∧ ∀ row, row ∈ v → length row = Z.to_nat WIDTH.

Definition inside (f c : Z) : Prop := 0 ≤ f < HEIGHT ∧ 0 ≤ c < WIDTH.

Lemma validPosition_spec f c : validPosition f c = true ↔ inside f c.
Proof.
  unfold validPosition, inside. rewrite negb_true_iff, !orb_false_iff, !Z.leb_gt, !Z.ltb_ge. lia.
Qed.

Lemma validPosition_inside f c : inside f c → validPosition f c = true.
Proof. apply validPosition_spec. Qed.

Lemma aget_elem {A} (l : list A) i x : aget l i = Some x → x ∈ l.
Proof. unfold aget. case_match; [|done]. apply list_elem_of_lookup_2. Qed.

Lemma shape_row {A} (v : list (list A)) f :
  shape v → 0 ≤ f < HEIGHT → ∃ row, aget v f = Some row ∧ length row = Z.to_nat WIDTH.
Proof.
  intros [Hl Hr] Hf. destruct (aget_some v f) as [row Hrow]; [rewrite Hl; unfold HEIGHT in *; lia|].
  exists row. split; [done|]. apply Hr. by eapply aget_elem.
Qed.

Lemma vget_some {A} (v : list (list A)) f c : shape v → inside f c → ∃ x, vget v f c = Some x.
Proof.
  intros Hv [Hf Hc]. destruct (shape_row v f Hv Hf) as (row & Hrow & Hlen). unfold vget. rewrite Hrow.
  apply aget_some. rewrite Hlen. unfold WIDTH in *. lia.
Qed.

Lemma vset_spec {A} (v : list (list A)) f c x :
  shape v → inside f c →
  ∃ v', vset v f c x = Some v' ∧ shape v' ∧
    ∀ f' c', 0 ≤ f' → 0 ≤ c' → vget v' f' c' = if (f' =? f) && (c' =? c) then Some x else vget v f' c'.
Proof.
  intros Hv [Hf Hc]. pose proof Hv as [Hl Hr]. destruct (shape_row v f Hv Hf) as (row & Hrow & Hlen).
  unfold vset. rewrite Hrow. cbn [mbind option_bind]. rewrite aset_some by (rewrite Hlen; unfold WIDTH in *; lia).
  cbn [mbind option_bind]. rewrite aset_some by (rewrite Hl; unfold HEIGHT in *; lia).
  eexists. split; [done|]. split.
  - split; [by rewrite length_aput|]. intros r Hr'. unfold aput in Hr' at 1.
    apply list_elem_of_lookup in Hr' as [k Hk]. apply list_lookup_insert_Some in Hk as [(_ & <- & _)|[_ Hk]].
    + by rewrite length_aput.
    + apply Hr. by eapply list_elem_of_lookup_2.
  - intros f' c' Hf' Hc'. unfold vget. destruct (Z.eqb_spec f' f) as [->|Hne].
    + rewrite aget_aput_eq by (rewrite Hl; unfold HEIGHT in *; lia). rewrite Hrow. simpl.
      destruct (Z.eqb_spec c' c) as [->|Hnc].
      * apply aget_aput_eq. rewrite Hlen. unfold WIDTH in *. lia.
      * by rewrite aget_aput_ne by lia.
    + by rewrite aget_aput_ne by lia.
Qed.

(** Arrays of this shape that agree everywhere are equal. *)
Lemma shape_ext {A} (v w : list (list A)) :
  shape v → shape w → (∀ f c, inside f c → vget v f c = vget w f c) → v = w.
Proof.
  intros Hv Hw Heq. pose proof (proj1 Hv) as Hlv. pose proof (proj1 Hw) as Hlw.
  apply arr_ext; [congruence|]. intros f Hf. rewrite Hlv in Hf.
  assert (Hf' : 0 ≤ f < HEIGHT) by (unfold HEIGHT in *; lia).
  destruct (shape_row v f Hv Hf') as (r1 & Hr1 & Hl1). destruct (shape_row w f Hw Hf') as (r2 & Hr2 & Hl2).
  rewrite Hr1, Hr2. f_equal. apply arr_ext; [congruence|]. intros c Hc. rewrite Hl1 in Hc.
  specialize (Heq f c). unfold vget in Heq. rewrite Hr1, Hr2 in Heq. apply Heq.
  split; [done|]. unfold WIDTH in *. lia.
Qed.

(** ** Well-formed screens *)

Record video_ok s : Prop := {
  vo_video : shape (video s);
  vo_attr : shape (attributes s);
  vo_select : length (mouseSelect s) = Z.to_nat (HEIGHT * WIDTH);
  vo_screen : length (screen s) = Z.to_nat (HEIGHT * WIDTH * 2);
  vo_i : 0 ≤ iStartModule s ≤ cur_i s;
  vo_i' : cur_i s < WIDTH;
  vo_j : 3 ≤ jStartModule s ≤ cur_j s;
  vo_j' : cur_j s < HEIGHT;
}.

(** All but the copy, the attributes and the text memory is the same. *)
Definition same_frame s s' : Prop :=
  cur_i s' = cur_i s ∧ cur_j s' = cur_j s ∧ mouseSelect s' = mouseSelect s ∧ size s' = size s ∧
  iStartModule s' = iStartModule s ∧ jStartModule s' = jStartModule s ∧ stopBackWards s' = stopBackWards s.

(** The text memory shows the copy. *)
Definition shown s : Prop := ∀ f c, inside f c →
  aget (screen s) (f * WIDTH * 2 + c * 2) = vget (video s) f c ∧
  aget (screen s) (f * WIDTH * 2 + c * 2 + 1) = vget (attributes s) f c.

Lemma updateScreen_cell_spec f c s :
  shape (video s) → shape (attributes s) → length (screen s) = Z.to_nat (HEIGHT * WIDTH * 2) → inside f c →
  ∃ t x a, updateScreen_cell f c s = Some (set_screen t s) ∧ length t = length (screen s) ∧
    vget (video s) f c = Some x ∧ vget (attributes s) f c = Some a ∧
    ∀ k, 0 ≤ k → aget t k = if k =? f * WIDTH * 2 + c * 2 then Some x
      else if k =? f * WIDTH * 2 + c * 2 + 1 then Some a else aget (screen s) k.
Proof.
  intros Hv Ha Hl Hin. unfold updateScreen_cell.
  destruct (vget_some _ _ _ Hv Hin) as [x Hx]. destruct (vget_some _ _ _ Ha Hin) as [a Hat]. rewrite Hx, Hat.
  unfold inside, WIDTH, HEIGHT in *. cbn [mbind option_bind]. rewrite aset_some by lia.
  cbn [mbind option_bind]. rewrite aset_some by c_len.
  eexists _, x, a. split; [done|]. split; [by rewrite !length_aput|]. split; [done|]. split; [done|].
  intros k Hk. destruct (Z.eqb_spec k (f * 80 * 2 + c * 2)) as [->|Hn1].
  - rewrite aget_aput_ne by lia. apply aget_aput_eq. lia.
  - destruct (Z.eqb_spec k (f * 80 * 2 + c * 2 + 1)) as [->|Hn2].
    + apply aget_aput_eq. c_len.
    + by rewrite !aget_aput_ne by lia.
Qed.

(** The cells [updateScreen] has copied once columns below [c] and, in column [c], rows
    below [f] are done. *)
Definition shown_upto (c f : Z) s s' : Prop :=
  ∃ t, s' = set_screen t s ∧ length t = Z.to_nat (HEIGHT * WIDTH * 2) ∧
  ∀ f' c', inside f' c' → c' < c ∨ (c' = c ∧ f' < f) →
    aget t (f' * WIDTH * 2 + c' * 2) = vget (video s) f' c' ∧
    aget t (f' * WIDTH * 2 + c' * 2 + 1) = vget (attributes s) f' c'.

Lemma updateScreen_spec s :
  shape (video s) → shape (attributes s) → length (screen s) = Z.to_nat (HEIGHT * WIDTH * 2) →
  ∃ t, updateScreen s = Some (set_screen t s) ∧ length t = length (screen s) ∧ shown (set_screen t s).
Proof.
  intros Hv Ha Hl. unfold updateScreen.
  destruct (for_range_ind (λ c s', shown_upto c 0 s s') (Z.to_nat WIDTH) 0 (λ c,
    for_range (Z.to_nat HEIGHT) 0 (λ f, updateScreen_cell f c)) s) as (s' & Hs' & t & -> & Hlt & Ht).
  - exists (screen s). split; [by destruct s|]. split; [done|]. unfold inside. lia.
  - intros c s1 Hc H1.
    destruct (for_range_ind (λ f s', shown_upto c f s s') (Z.to_nat HEIGHT) 0 (λ f, updateScreen_cell f c) s1 H1)
      as (s2 & Hs2 & t & -> & Hlt & Ht).
    + intros f s2 Hf (t & -> & Hlt & Ht). assert (Hin : inside f c) by (unfold inside, WIDTH, HEIGHT in *; lia).
      destruct (updateScreen_cell_spec f c (set_screen t s)) as (t2 & x & a & Hu & Hl2 & Hx & Hat & Hk); try done.
      exists (set_screen t2 s). split; [exact Hu|]. exists t2. split; [done|]. split; [simpl in Hl2; congruence|].
      intros f' c' Hin' Hor. unfold inside, WIDTH, HEIGHT in *. simpl in Hk.
      rewrite !Hk by lia. destruct (decide (c' = c ∧ f' = f)) as [[-> ->]|Hne].
      * rewrite Z.eqb_refl. rewrite (proj2 (Z.eqb_neq (f * 80 * 2 + c * 2 + 1) (f * 80 * 2 + c * 2))) by lia.
        by rewrite Z.eqb_refl.
      * rewrite !(proj2 (Z.eqb_neq _ _)) by lia. apply Ht; [done|]. lia.
    + exists (set_screen t s). split; [exact Hs2|]. exists t. split; [done|]. split; [done|].
      intros f' c' Hin Hor. apply Ht; [done|]. unfold inside, HEIGHT in *. lia.
  - exists t. split; [exact Hs'|]. split; [congruence|]. intros f c Hin. apply Ht; [done|].
    unfold inside, WIDTH in *. lia.
Qed.

(** ** Rows and scrolling *)

Lemma clearPosition_spec f c s :
  shape (video s) → inside f c →
  ∃ v, clearPosition f c s = Some (set_video v s) ∧ shape v ∧
    ∀ f' c', 0 ≤ f' → 0 ≤ c' → vget v f' c' = if (f' =? f) && (c' =? c) then Some SPACE else vget (video s) f' c'.
Proof.
  intros Hv Hin. unfold clearPosition. rewrite validPosition_inside by done. simpl.
  destruct (vset_spec (video s) f c SPACE Hv Hin) as (v & -> & Hs & Hg). by exists v.
Qed.

(** A loop over the columns that changes one cell at a time. *)
Lemma for_columns (body : Z → Video → option Video) s (g : Z → Z → Z → option Z) :
  shape (video s) →
  (∀ f c, 0 ≤ f → 0 ≤ c → g 0 f c = vget (video s) f c) →
  (∀ k v, 0 ≤ k < WIDTH → shape v → (∀ f c, 0 ≤ f → 0 ≤ c → vget v f c = g k f c) →
    ∃ v', body k (set_video v s) = Some (set_video v' s) ∧ shape v' ∧
      ∀ f c, 0 ≤ f → 0 ≤ c → vget v' f c = g (k + 1) f c) →
  ∃ v', for_range (Z.to_nat WIDTH) 0 body s = Some (set_video v' s) ∧ shape v' ∧
    ∀ f c, 0 ≤ f → 0 ≤ c → vget v' f c = g WIDTH f c.
Proof.
  intros Hv H0g Hbody.
  destruct (for_range_ind (λ k s', ∃ v, s' = set_video v s ∧ shape v ∧ ∀ f c, 0 ≤ f → 0 ≤ c → vget v f c = g k f c)
    (Z.to_nat WIDTH) 0 body s) as (s' & Hs' & v & -> & Hsv & Hgv).
  - exists (video s). split; [by destruct s|]. split; [done|]. intros f c Hf Hc. by rewrite H0g.
  - intros k s1 Hk (v & -> & Hsv & Hgv). destruct (Hbody k v) as (v' & Hb & Hr); [unfold WIDTH in *; lia|done|done|].
    exists (set_video v' s). split; [exact Hb|]. by exists v'.
  - by exists v.
Qed.

Lemma clearRow_spec f0 s :
  shape (video s) → 0 ≤ f0 < HEIGHT →
  ∃ v, clearRow f0 s = Some (set_video v s) ∧ shape v ∧
    ∀ f c, inside f c → vget v f c = if f =? f0 then Some SPACE else vget (video s) f c.
Proof.
  intros Hv Hf0. unfold clearRow.
  destruct (for_columns (λ k, clearPosition f0 k) s
    (λ k f c, if (f =? f0) && (c <? k) then Some SPACE else vget (video s) f c) Hv) as (v & Hr & Hs & Hg).
  - intros f c Hf Hc. rewrite (proj2 (Z.ltb_ge c 0)) by lia. by rewrite andb_false_r.
  - intros k v Hk Hsv Hgv. destruct (clearPosition_spec f0 k (set_video v s) Hsv) as (v' & Hc & Hs' & Hg'); [by split|].
    exists v'. split; [exact Hc|]. split; [done|]. intros f c Hf Hc'. rewrite Hg' by done. simpl. rewrite Hgv by done.
    destruct (Z.eqb_spec f f0), (Z.eqb_spec c k), (Z.ltb_spec c k), (Z.ltb_spec c (k + 1)); simpl; done || lia.
  - exists v. split; [exact Hr|]. split; [done|]. intros f c [Hf Hc]. rewrite Hg by lia.
    rewrite (proj2 (Z.ltb_lt c WIDTH)) by lia. by rewrite andb_true_r.
Qed.

Lemma copyRow_spec from to s :
  shape (video s) → 0 ≤ from < HEIGHT → 0 ≤ to < HEIGHT → from ≠ to →
  ∃ v, copyRow from to s = Some (set_video v s) ∧ shape v ∧
    ∀ f c, inside f c → vget v f c = if f =? to then vget (video s) from c
      else if f =? from then Some SPACE else vget (video s) f c.
Proof.
  intros Hv Hfrom Hto Hne. unfold copyRow.
  set (g := λ k f c, if (f =? to) && (c <? k) then vget (video s) from c
      else if (f =? from) && (c <? k) then Some SPACE else vget (video s) f c).
  destruct (for_columns (λ k s, x ← vget (video s) from k; v ← vset (video s) to k x;
    clearPosition from k (set_video v s)) s g Hv) as (v & Hr & Hs & Hg).
  - intros f c Hf Hc. unfold g. rewrite (proj2 (Z.ltb_ge c 0)) by lia. by rewrite !andb_false_r.
  - intros k v Hk Hsv Hgv. cbn [video set_video].
    destruct (vget_some v from k Hsv) as [x Hx]; [by split|]. rewrite Hx. cbn [mbind option_bind].
    destruct (vset_spec v to k x Hsv) as (v1 & -> & Hs1 & Hg1); [by split|]. cbn [mbind option_bind].
    destruct (clearPosition_spec from k (set_video v1 s) Hs1) as (v2 & Hc2 & Hs2 & Hg2); [by split|].
    exists v2. split; [exact Hc2|]. split; [done|]. intros f c Hf Hc. rewrite Hg2 by done. simpl. rewrite Hg1, Hgv by done.
    rewrite Hgv in Hx by lia. unfold g in *. rewrite Z.ltb_irrefl, !andb_false_r in Hx.
    destruct (Z.eqb_spec f from), (Z.eqb_spec c k), (Z.eqb_spec f to), (Z.ltb_spec c k), (Z.ltb_spec c (k + 1));
      simpl; subst; done || lia.
  - exists v. split; [exact Hr|]. split; [done|]. intros f c [Hf Hc]. rewrite Hg by lia. unfold g.
    rewrite (proj2 (Z.ltb_lt c WIDTH)) by lia. by rewrite !andb_true_r.
Qed.

(** The rows of the screen after it scrolled: those above row [start] stay, row [start] goes,
    the others move up and the last one is blank. *)
Definition scrolled (start : Z) (v : list (list Z)) : list (list Z) :=
  take (Z.to_nat start) v ++ drop (Z.to_nat (start + 1)) v ++ [replicate (Z.to_nat WIDTH) SPACE].

Lemma scrolled_shape start v : 0 ≤ start < HEIGHT → shape v → shape (scrolled start v).
Proof.
  intros Hs [Hl Hr]. unfold scrolled. split.
  - rewrite !length_app, length_take, length_drop, Hl. unfold HEIGHT in *. simpl. lia.
  - intros row Hrow. rewrite !elem_of_app in Hrow. destruct Hrow as [Hrow|[Hrow|Hrow]].
    + apply elem_of_take in Hrow as (i & Hi & _). apply Hr. by eapply list_elem_of_lookup_2.
    + apply list_elem_of_lookup in Hrow as [i Hi]. rewrite lookup_drop in Hi. apply Hr. by eapply list_elem_of_lookup_2.
    + apply list_elem_of_singleton in Hrow as ->. by rewrite length_replicate.
Qed.

Lemma scrolled_get start v f c :
  0 ≤ start < HEIGHT → shape v → inside f c →
  vget (scrolled start v) f c = if f <? start then vget v f c
    else if f <? HEIGHT - 1 then vget v (f + 1) c else Some SPACE.
Proof.
  intros Hs [Hl Hr] [Hf Hc]. unfold vget, scrolled. rewrite !(aget_nat _ f), (aget_nat v (f + 1)) by lia.
  unfold HEIGHT in *. destruct (Z.ltb_spec f start).
  - rewrite lookup_app_l by (rewrite length_take; lia). by rewrite lookup_take_lt by lia.
  - rewrite lookup_app_r by (rewrite length_take; lia). rewrite length_take, Hl.
    destruct (Z.ltb_spec f (25 - 1)).
    + rewrite lookup_app_l by (rewrite length_drop; lia). rewrite lookup_drop.
      replace (Z.to_nat (start + 1) + (Z.to_nat f - Z.to_nat start `min` Z.to_nat 25))%nat with (Z.to_nat (f + 1)) by lia. done.
    + rewrite lookup_app_r by (rewrite length_drop; lia). rewrite length_drop, Hl.
      replace (Z.to_nat f - Z.to_nat start `min` Z.to_nat 25 - (Z.to_nat 25 - Z.to_nat (start + 1)))%nat with 0%nat by lia.
      cbn [lookup list_lookup mbind option_bind]. apply aget_replicate. unfold WIDTH in *. lia.
Qed.

Lemma scroll_spec s :
  shape (video s) → 0 ≤ jStartModule s < HEIGHT →
  scroll s = Some (set_cursor (iStartModule s) (HEIGHT - 1) (set_video (scrolled (jStartModule s) (video s)) s)).
Proof.
  intros Hv Hj. unfold scroll. set (st := jStartModule s).
  destruct (for_range_ind (λ a s', ∃ v, s' = set_video v s ∧ shape v ∧ ∀ f c, inside f c →
      vget v f c = if (st <=? f) && (f <? a - 1) then vget (video s) (f + 1) c
        else if (f =? a - 1) && (st <? f) then Some SPACE else vget (video s) f c)
    (Z.to_nat (HEIGHT - (st + 1))) (st + 1) (λ auxf, copyRow auxf (auxf - 1)) s) as (s1 & -> & v & -> & Hsv & Hgv).
  - exists (video s). split; [by destruct s|]. split; [done|]. intros f c _.
    destruct (Z.leb_spec st f), (Z.ltb_spec f (st + 1 - 1)), (Z.eqb_spec f (st + 1 - 1)), (Z.ltb_spec st f); simpl; done || lia.
  - intros a s1 Ha (v & -> & Hsv & Hgv).
    destruct (copyRow_spec a (a - 1) (set_video v s) Hsv) as (v' & Hc & Hs' & Hg'); [lia..|].
    exists (set_video v' s). split; [exact Hc|]. exists v'. split; [done|]. split; [done|].
    intros f c Hin. rewrite Hg' by done. simpl. unfold inside in Hin. rewrite !Hgv by (unfold inside; lia).
    destruct (decide (f = a - 1)) as [->|]; [c_tests; f_equal; lia|].
    destruct (decide (f = a)) as [->|]; [by c_tests|].
    destruct (decide (f < a - 1)); [destruct (decide (st ≤ f)); by c_tests|by c_tests].
  - cbn [mbind option_bind]. destruct (clearRow_spec (HEIGHT - 1) (set_video v s) Hsv) as (w & -> & Hsw & Hgw);
      [unfold HEIGHT; lia|]. cbn [mbind option_bind].
    assert (w = scrolled st (video s)) as ->; [|done].
    apply shape_ext; [done|by apply scrolled_shape|]. intros f c Hin. rewrite Hgw, scrolled_get by done. simpl.
    unfold inside in Hin. destruct (Z.eqb_spec f (HEIGHT - 1)) as [->|Hne].
    + rewrite !(proj2 (Z.ltb_ge _ _)) by (unfold HEIGHT in *; lia). done.
    + rewrite Hgv by done. unfold HEIGHT in *. destruct (decide (st ≤ f)); by c_tests.
Qed.

(** ** The cursor *)

Lemma video_ok_cursor s i j :
  video_ok s → iStartModule s ≤ i < WIDTH → jStartModule s ≤ j < HEIGHT → video_ok (set_cursor i j s).
Proof. intros [H1 H2 H3 H4 H5 H6 H7 H8] Hi Hj. split; simpl; try done; lia. Qed.

Lemma video_ok_arrays s v a t :
  video_ok s → shape v → shape a → length t = length (screen s) →
  video_ok (set_screen t (set_attributes a (set_video v s))).
Proof. intros [H1 H2 H3 H4 H5 H6 H7 H8] Hv Ha Ht. split; simpl; try done; congruence. Qed.

Lemma video_ok_update s :
  video_ok s → ∃ t, updateScreen s = Some (set_screen t s) ∧ video_ok (set_screen t s) ∧ shown (set_screen t s).
Proof.
  intros Hok. destruct (updateScreen_spec s) as (t & Hu & Hl & Hs); [apply Hok..|]. exists t. split; [done|].
  split; [|done]. replace (set_screen t s) with (set_screen t (set_attributes (attributes s) (set_video (video s) s)))
    by (by destruct s). apply video_ok_arrays; [done|apply Hok|apply Hok|done].
Qed.

Lemma video_ok_scroll s :
  video_ok s → scroll s = Some (set_cursor (iStartModule s) (HEIGHT - 1) (set_video (scrolled (jStartModule s) (video s)) s)) ∧
  video_ok (set_cursor (iStartModule s) (HEIGHT - 1) (set_video (scrolled (jStartModule s) (video s)) s)).
Proof.
  intros Hok. pose proof Hok as [Hv Ha Hm Hs Hi Hi' Hj Hj'].
  split; [apply scroll_spec; [done|lia]|].
  apply video_ok_cursor; [|simpl; lia|simpl; unfold HEIGHT in *; lia].
  split; simpl; try done; apply scrolled_shape; (done || lia).
Qed.

(** Where the cursor goes after a character. *)
Definition at_end s : Prop := cur_i s = WIDTH - 1 ∧ cur_j s = HEIGHT - 1.

Lemma forwardCursor_spec s :
  video_ok s →
  ∃ s', forwardCursor s = Some s' ∧ video_ok s' ∧
    ((cur_i s < WIDTH - 1 ∧ s' = set_cursor (cur_i s + 1) (cur_j s) s) ∨
     (cur_i s = WIDTH - 1 ∧ cur_j s < HEIGHT - 1 ∧ s' = set_cursor (iStartModule s) (cur_j s + 1) s) ∨
     (at_end s ∧ shown s' ∧ video s' = scrolled (jStartModule s) (video s) ∧ attributes s' = attributes s ∧
      cur_i s' = iStartModule s ∧ cur_j s' = HEIGHT - 1)).
Proof.
  intros Hok. pose proof Hok as [Hv Ha Hm Hs Hi Hi' Hj Hj']. unfold forwardCursor.
  destruct (Z.eqb_spec (cur_i s) (WIDTH - 1)) as [Ei|Ei].
  - destruct (Z.eqb_spec (cur_j s) (HEIGHT - 1)) as [Ej|Ej].
    + destruct (video_ok_scroll s Hok) as [-> Hok2]. cbn [mbind option_bind].
      destruct (video_ok_update _ Hok2) as (t & -> & Hok3 & Hsh). eexists. split; [done|]. split; [done|].
      right. right. by split_and!.
    + eexists. split; [done|]. split; [apply video_ok_cursor; [done|lia|lia]|]. right. left. split_and!; done || lia.
  - rewrite int32_id by (unfold INT_MIN, INT_MAX, WIDTH in *; lia).
    eexists. split; [done|]. split; [apply video_ok_cursor; [done|lia|lia]|]. left. split; [lia|done].
Qed.

Lemma printChar_spec f c a color s :
  video_ok s → inside f c →
  ∃ v t, printChar f c a color s = Some (set_screen t (set_video v s)) ∧
    video_ok (set_screen t (set_video v s)) ∧ shown (set_screen t (set_video v s)) ∧
    ∀ f' c', inside f' c' → vget v f' c' = if (f' =? f) && (c' =? c) then Some a else vget (video s) f' c'.
Proof.
  intros Hok Hin. unfold printChar. rewrite validPosition_inside by done. simpl.
  destruct (vset_spec (video s) f c a (vo_video _ Hok) Hin) as (v & -> & Hsv & Hg). simpl.
  assert (Hok2 : video_ok (set_video v s)) by (destruct Hok; by split).
  destruct (video_ok_update _ Hok2) as (t & -> & Hok3 & Hsh). exists v, t. split; [done|]. split; [done|].
  split; [done|]. intros f' c' [Hf Hc]. apply Hg; lia.
Qed.

(** On a well-formed screen [putChar] never goes out of bounds: the character appears at
    the cursor and nowhere else, and the text memory shows the copy; the cursor advances,
    to the next row at the end of a row, and at the end of the last row the rows from the
    start of the window on move up by one. *)
Theorem putChar_correct a s :
  video_ok s →
  ∃ s', putChar a s = Some s' ∧ video_ok s' ∧ shown s' ∧
    ∃ v, (∀ f c, inside f c → vget v f c =
            if (f =? cur_j s) && (c =? cur_i s) then Some a else vget (video s) f c) ∧
    ((cur_i s < WIDTH - 1 ∧ video s' = v ∧ cur_i s' = cur_i s + 1 ∧ cur_j s' = cur_j s) ∨
     (cur_i s = WIDTH - 1 ∧ cur_j s < HEIGHT - 1 ∧ video s' = v ∧
        cur_i s' = iStartModule s ∧ cur_j s' = cur_j s + 1) ∨
     (at_end s ∧ video s' = scrolled (jStartModule s) v ∧
        cur_i s' = iStartModule s ∧ cur_j s' = HEIGHT - 1)).
Proof.
  intros Hok. pose proof Hok as [Hv Ha Hm Hs Hi Hi' Hj Hj'].
  assert (Hin : inside (cur_j s) (cur_i s)) by (unfold inside; lia).
  unfold putChar. destruct (printChar_spec _ _ a DEFAULT s Hok Hin) as (v & t & -> & Hok2 & Hsh & Hg).
  cbn [mbind option_bind]. destruct (forwardCursor_spec _ Hok2) as (s' & Hf & Hok3 & Hc).
  exists s'. split; [done|]. split; [done|].
  destruct Hc as [[Hlt ->]|[(Heq & Hlt & ->)|(He & Hsh' & Hvid & _ & Hci & Hcj)]].
  - split; [exact Hsh|]. exists v. split; [done|]. left. by split_and!.
  - split; [exact Hsh|]. exists v. split; [done|]. right. left. by split_and!.
  - split; [done|]. exists v. split; [done|]. right. right. by split_and!.
Qed.

Lemma lineJump_loop_spec (n : nat) fuel s :
  video_ok s → cur_j s < HEIGHT - 1 → Z.of_nat n = WIDTH - cur_i s → (n ≤ fuel)%nat →
  lineJump_loop fuel (cur_j s + 1) s = Some (set_cursor (iStartModule s) (cur_j s + 1) s).
Proof.
  revert fuel s. induction n as [|n IH]; intros fuel s Hok Hj Hn Hf; pose proof Hok as [_ _ _ _ Hi Hi' Hjj _]; [lia|].
  destruct fuel as [|fuel]; [lia|]. cbn [lineJump_loop]. c_tests.
  destruct (forwardCursor_spec s Hok) as (s' & -> & Hok' & [[Hlt ->]|[(Heq & Hlt & ->)|[[_ He] _]]]); [| |lia]; cbn [mbind option_bind].
  - change (cur_j s + 1) with (cur_j (set_cursor (cur_i s + 1) (cur_j s) s) + 1).
    rewrite (IH fuel) by (simpl; done || lia). done.
  - destruct fuel; cbn [lineJump_loop]; simpl; by rewrite Z.eqb_refl.
Qed.

(** C34: [lineJump] ends: with at most [WIDTH] steps of the cursor it is at the start of the
    next row, or the window has scrolled when it was in the last one. *)
Theorem lineJump_correct s fuel :
  video_ok s → (Z.to_nat WIDTH ≤ fuel)%nat →
  ∃ s', lineJump fuel s = Some s' ∧ video_ok s' ∧ cur_i s' = iStartModule s ∧
    if cur_j s =? HEIGHT - 1
    then cur_j s' = HEIGHT - 1 ∧ video s' = scrolled (jStartModule s) (video s)
    else cur_j s' = cur_j s + 1 ∧ video s' = video s.
Proof.
  intros Hok Hf. pose proof Hok as [Hv Ha Hm Hs Hi Hi' Hj Hj']. unfold lineJump.
  destruct (Z.eqb_spec (cur_j s) (HEIGHT - 1)) as [E|E].
  - destruct (video_ok_scroll s Hok) as [-> Hok2]. eexists. split; [done|]. done.
  - rewrite (lineJump_loop_spec (Z.to_nat (WIDTH - cur_i s))) by (done || lia).
    eexists. split; [done|]. split; [apply video_ok_cursor; [done|lia|lia]|]. done.
Qed.

(** *** Scrolling against its specification *)

(** C33: [scroll] is the list operation: for any start of the window the rows above it stay,
    its first row is dropped, the others move up and a blank row is added; the cursor goes
    to the start of the last row. *)
Theorem scroll_equiv s :
  shape (video s) → 0 ≤ jStartModule s < HEIGHT →
  ∃ s', scroll s = Some s' ∧
    video s' = take (Z.to_nat (jStartModule s)) (video s) ++ drop (Z.to_nat (jStartModule s + 1)) (video s) ++
      [replicate (Z.to_nat WIDTH) SPACE] ∧
    cur_i s' = iStartModule s ∧ cur_j s' = HEIGHT - 1 ∧ attributes s' = attributes s ∧ screen s' = screen s.
Proof. intros Hv Hj. rewrite scroll_spec by done. by eexists. Qed.

(** *** The other operations keep the screen well-formed *)

Lemma backInLine_ok s : video_ok s → video_ok (backInLine s).
Proof.
  intros Hok. pose proof Hok as [_ _ _ _ Hi Hi' Hj Hj']. unfold backInLine.
  destruct (Z.eqb_spec (cur_i s) (iStartModule s)); [done|]. apply video_ok_cursor; [done|lia|lia].
Qed.

Lemma backwardCursor_ok s : video_ok s → video_ok (backwardCursor s).
Proof.
  intros Hok. pose proof Hok as [_ _ _ _ Hi Hi' Hj Hj']. unfold backwardCursor.
  destruct (Z.eqb_spec (cur_i s) (iStartModule s)); [destruct (Z.eqb_spec (cur_j s) (jStartModule s)); simpl; [done|]|];
    apply video_ok_cursor; done || lia.
Qed.

Lemma attr_draw f c x s :
  video_ok s → ∃ a, (if negb (validPosition f c) then Some s else a ← vset (attributes s) f c x; Some (set_attributes a s))
    = Some (set_attributes a s) ∧ video_ok (set_attributes a s).
Proof.
  intros Hok. destruct (validPosition f c) eqn:Hv; simpl.
  - apply validPosition_spec in Hv. destruct (vset_spec (attributes s) f c x (vo_attr _ Hok) Hv) as (a & -> & Hs & _).
    exists a. split; [done|]. destruct Hok. by split.
  - exists (attributes s). split; [by destruct s|]. by destruct Hok.
Qed.

Lemma drawMouse_ok f c s : video_ok s → ∃ a, drawMouse f c s = Some (set_attributes a s) ∧ video_ok (set_attributes a s).
Proof. apply attr_draw. Qed.

Lemma udrawMouse_ok f c s : video_ok s → ∃ a, udrawMouse f c s = Some (set_attributes a s) ∧ video_ok (set_attributes a s).
Proof. apply attr_draw. Qed.

(** A position of a linear index. *)
Lemma linear_inside i : 0 ≤ i → validPosition (Z.quot i WIDTH) (Z.rem i WIDTH) = (i <? HEIGHT * WIDTH).
Proof.
  intros Hi. rewrite Z.quot_div_nonneg, Z.rem_mod_nonneg by (unfold WIDTH; lia). apply eq_bool_prop_intro.
  rewrite !Is_true_true, validPosition_spec, Z.ltb_lt. unfold inside, WIDTH, HEIGHT. Z.to_euclidean_division_equations. lia.
Qed.

Lemma draw_loop_ok draw (n : nat) fuel i fin s :
  (∀ f c s, video_ok s → ∃ a, draw f c s = Some (set_attributes a s) ∧ video_ok (set_attributes a s)) →
  video_ok s → 0 ≤ i → Z.of_nat n = HEIGHT * WIDTH - i ∨ HEIGHT * WIDTH ≤ i → (n ≤ fuel)%nat →
  ∃ a, draw_loop fuel draw i fin s = Some (set_attributes a s) ∧ video_ok (set_attributes a s).
Proof.
  intros Hd. revert n i s. induction fuel as [|fuel IH]; intros n i s Hok Hi Hn Hf; cbn [draw_loop];
    rewrite linear_inside by done.
  - c_tests. exists (attributes s). split; [by destruct s|]. by destruct Hok.
  - destruct ((i <? HEIGHT * WIDTH) && (i <=? fin)) eqn:E.
    + apply andb_true_iff in E as [E%Z.ltb_lt _]. destruct (Hd (Z.quot i WIDTH) (Z.rem i WIDTH) s Hok) as (a & -> & Hok2).
      cbn [mbind option_bind]. destruct (IH (n - 1)%nat (i + 1) _ Hok2) as (a' & -> & Hok3); [lia|lia|lia|].
      exists a'. done.
    + exists (attributes s). split; [by destruct s|]. by destruct Hok.
Qed.

Lemma undoSelection_ok f1 c1 f2 c2 s :
  video_ok s → inside f1 c1 →
  ∃ a, undoSelection f1 c1 f2 c2 s = Some (set_attributes a s) ∧ video_ok (set_attributes a s).
Proof.
  intros Hok [Hf Hc]. unfold undoSelection. apply (draw_loop_ok _ (Z.to_nat (HEIGHT * WIDTH - (f1 * WIDTH + c1))));
    [apply udrawMouse_ok|done|unfold WIDTH in *; lia|unfold WIDTH, HEIGHT in *; lia|unfold draw_fuel, WIDTH, HEIGHT in *; lia].
Qed.

(** The selected characters fit in [mouseSelect] when both ends are on the screen. *)
Lemma copyMouse_ok initial end_ s :
  video_ok s → 0 ≤ initial → end_ < HEIGHT * WIDTH →
  ∃ l, copyMouse initial end_ s = Some (set_select l (end_ - initial + 1) s) ∧
    video_ok (set_select l (end_ - initial + 1) s).
Proof.
  intros Hok Hi He. unfold copyMouse. set (n := end_ - initial + 1).
  destruct (for_range_ind (λ h s', ∃ l, s' = set_select l n s ∧ length l = length (mouseSelect s)) (Z.to_nat n) 0
    (λ h s, c ← getScreen (Z.quot (h + initial) WIDTH) (Z.rem (h + initial) WIDTH) s;
       let c := if int8 c =? 0 then SPACE else int8 c in
       l ← aset (mouseSelect s) h c; Some (set_select l (size s) s)) (set_select (mouseSelect s) n s))
    as (s' & Hs' & l & -> & Hl).
  - by exists (mouseSelect s).
  - intros h s1 Hh (l & -> & Hl). unfold getScreen. rewrite linear_inside by lia.
    rewrite (proj2 (Z.ltb_lt (h + initial) _)) by lia. simpl.
    destruct (vget_some (video s) (Z.quot (h + initial) WIDTH) (Z.rem (h + initial) WIDTH) (vo_video _ Hok)) as [x ->].
    { apply validPosition_spec. rewrite linear_inside by lia. apply Z.ltb_lt. lia. }
    simpl. rewrite aset_some.
    2: { rewrite Hl, (vo_select _ Hok). unfold WIDTH, HEIGHT in *. lia. }
    eexists. split; [done|]. eexists. split; [done|]. by rewrite length_aput.
  - exists l. split; [exact Hs'|]. destruct Hok. split; simpl; try done. congruence.
Qed.

Lemma selection_ok f1 c1 f2 c2 s :
  video_ok s → inside f1 c1 → inside f2 c2 →
  ∃ s', selection f1 c1 f2 c2 s = Some s' ∧ video_ok s' ∧ size s' ≤ HEIGHT * WIDTH.
Proof.
  intros Hok [Hf1 Hc1] [Hf2 Hc2]. unfold selection.
  destruct (copyMouse_ok (f1 * WIDTH + c1) (f2 * WIDTH + c2) s Hok) as (l & -> & Hok2);
    [unfold WIDTH in *; lia|unfold WIDTH, HEIGHT in *; lia|]. cbn [mbind option_bind].
  destruct (draw_loop_ok drawMouse (Z.to_nat (HEIGHT * WIDTH - (f1 * WIDTH + c1))) draw_fuel (f1 * WIDTH + c1)
    (f2 * WIDTH + c2) _ drawMouse_ok Hok2) as (a & -> & Hok3);
    [unfold WIDTH in *; lia|unfold WIDTH, HEIGHT in *; lia|unfold draw_fuel, WIDTH, HEIGHT in *; lia|].
  eexists. split; [done|]. split; [done|]. simpl. unfold WIDTH, HEIGHT in *. lia.
Qed.

(** *** Clearing and messages *)

Lemma clear_spec s :
  video_ok s →
  ∃ s', clear s = Some s' ∧ video_ok s' ∧ shown s' ∧ same_frame s s' ∧
    ∀ f c, inside f c → vget (video s') f c = Some SPACE ∧ vget (attributes s') f c = Some DEFAULT.
Proof.
  intros Hok. unfold clear.
  set (cell := λ (f c : Z) (s : Video), v ← vset (video s) f c SPACE; a ← vset (attributes s) f c DEFAULT;
    Some (set_attributes a (set_video v s))).
  set (I := λ (n : Z) (s' : Video), ∃ v a, s' = set_attributes a (set_video v s) ∧ shape v ∧ shape a ∧
    ∀ f c, inside f c → f * WIDTH + c < n → vget v f c = Some SPACE ∧ vget a f c = Some DEFAULT).
  assert (Hcell : ∀ f c s', inside f c → I (f * WIDTH + c) s' → ∃ s2, cell f c s' = Some s2 ∧ I (f * WIDTH + c + 1) s2).
  { intros f c s' Hin (v & a & -> & Hv & Ha & Hva). unfold cell. simpl.
    destruct (vset_spec v f c SPACE Hv Hin) as (v' & -> & Hv' & Hgv). simpl.
    destruct (vset_spec a f c DEFAULT Ha Hin) as (a' & -> & Ha' & Hga). simpl. eexists. split; [done|].
    exists v', a'. split; [done|]. split; [done|]. split; [done|]. intros f' c' Hin' Hlt. pose proof Hin' as [? ?].
    rewrite Hgv, Hga by lia. destruct (Z.eqb_spec f' f), (Z.eqb_spec c' c); simpl; try done; apply Hva; try done;
      unfold inside, WIDTH in *; nia. }
  destruct (for_range_ind (λ f s', I (f * WIDTH) s') (Z.to_nat HEIGHT) 0
    (λ f, for_range (Z.to_nat WIDTH) 0 (cell f)) s) as (s1 & Hs1 & v & a & -> & Hv & Ha & Hva).
  - exists (video s), (attributes s). split; [by destruct s|]. split; [apply Hok|]. split; [apply Hok|].
    unfold inside, WIDTH. lia.
  - intros f s' Hf HI. destruct (for_range_ind (λ c s', I (f * WIDTH + c) s') (Z.to_nat WIDTH) 0 (cell f) s')
      as (s2 & Hs2 & HI2); [by rewrite Z.add_0_r| |].
    + intros c s2 Hc HI2. rewrite Z.add_assoc. apply Hcell; [|done]. unfold inside, WIDTH, HEIGHT in *. lia.
    + exists s2. split; [exact Hs2|]. replace ((f + 1) * WIDTH) with (f * WIDTH + (0 + Z.of_nat (Z.to_nat WIDTH)))
        by (unfold WIDTH; lia). exact HI2.
  - unfold cell in Hs1. rewrite Hs1. cbn [mbind option_bind]. destruct (video_ok_update (set_attributes a (set_video v s))) as (t & -> & Hok' & Hsh).
    { destruct Hok. by split. }
    eexists. split; [done|]. split; [done|]. split; [done|]. split; [done|]. intros f c Hin. apply Hva; [done|].
    unfold inside, WIDTH, HEIGHT in *. lia.
Qed.

(** The message ends with the first zero in memory or at the end of the screen. *)
Lemma printMsg_loop_spec (l : list Z) fuel m i p s :
  video_ok s → (∀ (k : nat) c, l !! k = Some c → char_at m (p + Z.of_nat k) = c ∧ c ≠ 0) →
  char_at m (p + len l) = 0 → 0 ≤ i → i + len l ≤ HEIGHT * WIDTH → (length l ≤ fuel)%nat →
  ∃ s', printMsg_loop fuel m i p s = Some s' ∧ video_ok s' ∧ same_frame s s' ∧ attributes s' = attributes s ∧
    ∀ f c, inside f c → vget (video s') f c =
      if (i <=? f * WIDTH + c) && (f * WIDTH + c <? i + len l)
      then l !! Z.to_nat (f * WIDTH + c - i) else vget (video s) f c.
Proof.
  revert fuel i p s. induction l as [|x l IH]; intros fuel i p s Hok Hl H0' Hi Hlen Hf; cbn [length] in *.
  - assert (Hz : char_at m p = 0) by (rewrite <-H0'; f_equal; lia).
    exists s. split; [destruct fuel; cbn [printMsg_loop]; by rewrite Hz|]. split; [done|]. split; [done|]. split; [done|].
    intros f c _. destruct (Z.leb_spec i (f * WIDTH + c)), (Z.ltb_spec (f * WIDTH + c) (i + Z.of_nat 0)); done || lia.
  - destruct fuel as [|fuel]; [lia|]. cbn [printMsg_loop].
    destruct (Hl 0%nat x eq_refl) as [Hx Hx0]. rewrite Z.add_0_r in Hx. rewrite Hx, (proj2 (Z.eqb_neq x 0)) by done.
    assert (Hval : validPosition (Z.quot i WIDTH) (Z.rem i WIDTH) = true) by (rewrite linear_inside by done; apply Z.ltb_lt; lia).
    rewrite Hval. cbn [negb]. apply validPosition_spec in Hval.
    destruct (printChar_spec _ _ x 0x20 s Hok Hval) as (v & t & -> & Hok2 & _ & Hg). cbn [mbind option_bind].
    destruct (IH fuel (i + 1) (p + 1) _ Hok2) as (s' & -> & Hok' & Hfr & Hat & Hv); [| |lia|lia|lia|].
    + intros k c Hk. destruct (Hl (S k) c Hk) as [<- ?]. split; [f_equal; lia|done].
    + rewrite <-H0'. f_equal. lia.
    + exists s'. split; [done|]. split; [done|]. split; [exact Hfr|]. split; [exact Hat|]. intros f c Hin. rewrite Hv, Hg by done.
      clear -Hin Hi Hlen. rewrite Z.quot_div_nonneg, Z.rem_mod_nonneg by (unfold WIDTH; lia).
      assert (Hpos : (f =? i / WIDTH) && (c =? i mod WIDTH) = (f * WIDTH + c =? i)).
      { apply eq_bool_prop_intro. rewrite !Is_true_true, andb_true_iff, !Z.eqb_eq.
        unfold inside, WIDTH in *. Z.to_euclidean_division_equations. lia. }
      rewrite Hpos. destruct (decide (f * WIDTH + c = i)) as [E|E].
      * rewrite E. c_tests. by rewrite Z.sub_diag.
      * destruct (decide (i ≤ f * WIDTH + c < i + Z.of_nat (S (length l)))).
        -- c_tests. replace (Z.to_nat (f * WIDTH + c - i)) with (S (Z.to_nat (f * WIDTH + c - (i + 1)))) by lia. done.
        -- destruct (decide (f * WIDTH + c < i)); by c_tests.
Qed.

(** *** Well-formedness as a type of the screen *)

(** The calls that the rest of the kernel makes, with their arguments. *)
Inductive screen_call :=
| PutChar (a : Z) | PrintChar (f c a color : Z) | LineJump | ForwardCursor | BackwardCursor | BackInLine | Scroll | Clear
| UpdateScreen | SetCursor (f c : Z) | ChangeStartModule (f c : Z) | ChangeStopBackwards (from : Z)
| DrawMouse (f c : Z) | UdrawMouse (f c : Z) | Selection (f1 c1 f2 c2 : Z) | UndoSelection (f1 c1 f2 c2 : Z).

Definition screen_run (k : screen_call) s : option Video :=
  match k with
  | PutChar a => putChar a s
  | PrintChar f c a color => printChar f c a color s
  | LineJump => lineJump (Z.to_nat WIDTH) s
  | ForwardCursor => forwardCursor s
  | BackwardCursor => Some (backwardCursor s)
  | BackInLine => Some (backInLine s)
  | Scroll => scroll s
  | Clear => clear s
  | UpdateScreen => updateScreen s
  | SetCursor f c => Some (setCursor f c s)
  | ChangeStartModule f c => Some (changeStartModule f c s)
  | ChangeStopBackwards from => Some (changeStopBackwards from s)
  | DrawMouse f c => drawMouse f c s
  | UdrawMouse f c => udrawMouse f c s
  | Selection f1 c1 f2 c2 => selection f1 c1 f2 c2 s
  | UndoSelection f1 c1 f2 c2 => undoSelection f1 c1 f2 c2 s
  end.

(** Three calls trust their arguments: the cursor stays in the window, a new window has
    the cursor in it and its first column on the screen, a selection starts and ends on the screen. *)
Definition screen_call_ok (k : screen_call) s : Prop :=
  match k with
  | SetCursor f c => jStartModule s ≤ f ∧ iStartModule s ≤ c
  | ChangeStartModule f c => f < WIDTH ∧ c ≤ cur_j s
  | Selection f1 c1 f2 c2 => inside f1 c1 ∧ inside f2 c2
  | UndoSelection f1 c1 f2 c2 => inside f1 c1
  | _ => True
  end.

Lemma printChar_ok f c a color s : video_ok s → ∃ s', printChar f c a color s = Some s' ∧ video_ok s'.
Proof.
  intros Hok. destruct (validPosition f c) eqn:E.
  - apply validPosition_spec in E. destruct (printChar_spec f c a color s Hok E) as (v & t & -> & Hok' & _). by eexists.
  - exists s. unfold printChar. by rewrite E.
Qed.

Lemma lineJump_ok s : video_ok s → ∃ s', lineJump (Z.to_nat WIDTH) s = Some s' ∧ video_ok s'.
Proof.
  intros Hok. pose proof Hok as [Hv Ha Hm Hs Hi Hi' Hj Hj']. unfold lineJump.
  destruct (Z.eqb_spec (cur_j s) (HEIGHT - 1)) as [E|E].
  - destruct (video_ok_scroll s Hok) as [-> Hok2]. by eexists.
  - rewrite (lineJump_loop_spec (Z.to_nat (WIDTH - cur_i s))) by (done || lia).
    eexists. split; [done|]. apply video_ok_cursor; [done|lia|lia].
Qed.

(** C39: Well-formedness is the type of the screen: every call, with arguments as
    [screen_call_ok] wants them, succeeds (no access is out of an array, no loop goes on for ever) and leaves the
    screen well-formed: the arrays have their sizes and the cursor is in the window. *)
Theorem screen_calls_typed k s :
  video_ok s → screen_call_ok k s → ∃ s', screen_run k s = Some s' ∧ video_ok s'.
Proof.
  intros Hok Hk. pose proof Hok as [_ _ _ _ Hi Hi' Hj Hj']. destruct k; cbn [screen_run screen_call_ok] in *.
  - unfold putChar. destruct (printChar_ok (cur_j s) (cur_i s) a DEFAULT s Hok) as (s1 & -> & Hok1). cbn [mbind option_bind].
    destruct (forwardCursor_spec s1 Hok1) as (s2 & -> & Hok2 & _). by eexists.
  - by apply printChar_ok.
  - by apply lineJump_ok.
  - destruct (forwardCursor_spec s Hok) as (s2 & -> & Hok2 & _). by eexists.
  - eexists. split; [done|]. by apply backwardCursor_ok.
  - eexists. split; [done|]. by apply backInLine_ok.
  - destruct (video_ok_scroll s Hok) as [-> Hok2]. by eexists.
  - destruct (clear_spec s Hok) as (s' & -> & Hok' & _). by eexists.
  - destruct (video_ok_update s Hok) as (t & -> & Hok' & _). by eexists.
  - eexists. split; [done|]. unfold setCursor. destruct (validPosition f c) eqn:E; [|done]. apply validPosition_spec in E as [? ?].
    apply video_ok_cursor; [done|lia|lia].
  - eexists. split; [done|]. unfold changeStartModule. case_match eqn:E; [done|].
    rewrite !orb_false_iff, !Z.ltb_ge in E. destruct Hok. split; simpl; try done; lia.
  - eexists. split; [done|]. destruct Hok. by split.
  - destruct (drawMouse_ok f c s Hok) as (a & -> & Hok'). by eexists.
  - destruct (udrawMouse_ok f c s Hok) as (a & -> & Hok'). by eexists.
  - destruct Hk. destruct (selection_ok f1 c1 f2 c2 s) as (s' & -> & Hok' & _); [done..|]. by eexists.
  - destruct (undoSelection_ok f1 c1 f2 c2 s Hok Hk) as (a & -> & Hok'). by eexists.
Qed.

(** ** Witnesses *)

(** The screen as the kernel starts, after [clear]. *)
Definition demo_video : Video := video_bss (replicate (Z.to_nat (HEIGHT * WIDTH * 2)) 0).

Lemma demo_video_ok : video_ok demo_video.
Proof.
  assert (Hs : shape (replicate (Z.to_nat HEIGHT) (replicate (Z.to_nat WIDTH) 0))).
  { split; [apply length_replicate|]. intros row Hr. apply elem_of_replicate in Hr as [-> _]. apply length_replicate. }
  split; try exact Hs; try apply length_replicate; unfold WIDTH, HEIGHT; simpl; lia.
Qed.

Lemma putChar_correct_witness : ∃ s', putChar 65 demo_video = Some s' ∧ video_ok s' ∧ shown s'.
Proof. destruct (putChar_correct 65 demo_video demo_video_ok) as (s' & E & Hok & Hsh & _).
  exact (ex_intro _ s' (conj E (conj Hok Hsh))).
Defined.

Lemma lineJump_correct_witness :
  ∃ s', lineJump 80 demo_video = Some s' ∧ cur_i s' = 0 ∧ cur_j s' = 4.
Proof.
  destruct (lineJump_correct demo_video 80 demo_video_ok) as (s' & E & _ & Hi & Hj & _); [by apply Nat.leb_le|].
  exact (ex_intro _ s' (conj E (conj Hi Hj))).
Defined.

Lemma scroll_equiv_witness : ∃ s', scroll demo_video = Some s' ∧ cur_j s' = 24.
Proof.
  destruct (scroll_equiv demo_video (vo_video _ demo_video_ok)) as (s' & E & _ & _ & Hj & _); [simpl; unfold HEIGHT; lia|].
  exact (ex_intro _ s' (conj E Hj)).
Defined.

Lemma screen_calls_typed_witness : ∃ s', screen_run (ChangeStartModule 6 3) demo_video = Some s' ∧ video_ok s'.
Proof. apply (screen_calls_typed (ChangeStartModule 6 3) demo_video demo_video_ok). split; vm_compute; congruence. Defined.

(** [changeStartModule] accepts column 80; [lineJump] then walks on for ever. *)
Example lineJump_column_80 : lineJump 300 (changeStartModule 80 3 demo_video) = None.
Proof. vm_compute. reflexivity. Qed.
