(* ===== verification/Terminal.v ===== *)
(** * The terminal's input buffer ([Kernel/terminal.c])

    A ring of 2500 characters between the keyboard and the readers, echoed on the screen.
    The pointers into [Buffer] are offsets from it, as [terminalInitializeC] leaves them;
    [interrupts] is the flag that [cli] and [sti] clear and set. *)

From S2P Require Import Prelude CString Video.

Definition BUFFERSIZE : Z := 2500.

Record Terminal := mkTerm {
  Buffer : list Z;
  bufferConsume : Z;
  bufferPosition : Z;
  bufferStart : Z;
  bufferSize : Z;
  isEcho : Z;
  interrupts : bool;
  t_video : Video;
}.
Implicit Types t : Terminal.

Definition set_if b t := mkTerm (Buffer t) (bufferConsume t) (bufferPosition t) (bufferStart t)
  (bufferSize t) (isEcho t) b (t_video t).
Definition t_set_video v t := mkTerm (Buffer t) (bufferConsume t) (bufferPosition t) (bufferStart t)
  (bufferSize t) (isEcho t) (interrupts t) v.
Definition set_position p t := mkTerm (Buffer t) (bufferConsume t) p (bufferStart t)
  (bufferSize t) (isEcho t) (interrupts t) (t_video t).
Definition set_consume c t := mkTerm (Buffer t) c (bufferPosition t) (bufferStart t)
  (bufferSize t) (isEcho t) (interrupts t) (t_video t).
Definition set_buffer l t := mkTerm l (bufferConsume t) (bufferPosition t) (bufferStart t)
  (bufferSize t) (isEcho t) (interrupts t) (t_video t).
Definition set_echo e t := mkTerm (Buffer t) (bufferConsume t) (bufferPosition t) (bufferStart t)
  (bufferSize t) e (interrupts t) (t_video t).

Definition cli t : Terminal := set_if false t.
Definition sti t : Terminal := set_if true t.
Definition with_video (f : Video → option Video) t : option Terminal :=
  v ← f (t_video t); Some (t_set_video v t).

(** Both return before they reach their [sti]. *)
Definition isBufferFull t : bool * Terminal :=
  ((bufferConsume t =? bufferPosition t + 1) ||
   ((bufferConsume t =? bufferStart t + bufferSize t) && (bufferPosition t =? bufferStart t)), cli t).
Definition isBufferEmpty t : bool * Terminal := (bufferConsume t =? bufferPosition t, cli t).

Definition echoON t : Terminal := set_echo 1 t.
Definition echoOF t : Terminal := set_echo 0 t.

Definition terminalInitializeC t : Terminal :=
  mkTerm (Buffer t) 0 0 0 BUFFERSIZE 1 (interrupts t) (t_video t).

(** What the screen shows of the character [c]; the cursor jumps at most [WIDTH] places. *)
Definition echo_char (c : Z) t : option Terminal :=
  if c =? 8 then
    let t := t_set_video (backInLine (t_video t)) t in
    t ← with_video (putChar 32) t;
    Some (t_set_video (backInLine (t_video t)) t)
  else if c =? 10 then with_video (lineJump (Z.to_nat WIDTH)) t
  else if negb (isEcho t =? 0) then
    x ← aget (Buffer t) (bufferPosition t); with_video (putChar x) t
  else Some t.

Definition putTerminalBuffer (c : Z) t : option Terminal :=
  let '(full, t) := isBufferFull t in
  if full then Some (sti t)
  else
    let t := cli t in
    l ← aset (Buffer t) (bufferPosition t) c;
    t ← echo_char c (set_buffer l t);
    let t := set_position (bufferPosition t + 1) t in
    let t := if bufferPosition t =? bufferStart t + bufferSize t then set_position (bufferStart t) t else t in
    Some (sti t).

(** [while (length != 0) ..]: the number of characters, written from [buffer] on in [m]. *)
Fixpoint get_loop (length : nat) (buffer charsConsume : Z) (m : mem) t : option (Z * mem * Terminal) :=
  match length with
  | O => Some (charsConsume, m, sti t)
  | S length' =>
      let '(empty, t) := isBufferEmpty t in
      if empty then Some (charsConsume, m, sti t)
      else
        c ← aget (Buffer t) (bufferConsume t);
        let t := set_consume (bufferConsume t + 1) t in
        let t := if bufferConsume t =? bufferStart t + bufferSize t then set_consume (bufferStart t) t else t in
        get_loop length' (buffer + 1) (charsConsume + 1) (store8 m buffer c) t
  end.

(** [length] counts down to 0 as a 32-bit number. *)
Definition getTerminalBuffer (buffer length : Z) (m : mem) t : option (Z * mem * Terminal) :=
  get_loop (Z.to_nat (uint32 length)) buffer 0 m (cli t).

Definition resetBuffer t : Terminal := set_consume (bufferStart t) (set_position (bufferStart t) t).

(** ** [video.c]: what the mouse selected is typed again *)

Definition paste t : option Terminal :=
  for_range (Z.to_nat (size (t_video t))) 0
    (λ h t, c ← aget (mouseSelect (t_video t)) h; putTerminalBuffer c t) t.
