(* ===== verification/TerminalThms.v ===== *)
(** * Properties of the terminal

    The ring is a queue of at most 2499 characters; the buffer's own test for a full ring
    misses one position, and there the queue is lost. *)

From S2P Require Import Prelude CString Video VideoThms Terminal.

(** The ring of [t] holds the characters [l], oldest first. *)
Record term_holds t (l : list Z) : Prop := {
  th_start : bufferStart t = 0;
  th_size : bufferSize t = BUFFERSIZE;
  th_buffer : length (Buffer t) = Z.to_nat BUFFERSIZE;
  th_consume : 0 ≤ bufferConsume t < BUFFERSIZE;
  th_len : len l < BUFFERSIZE;
  th_position : bufferPosition t = (bufferConsume t + len l) mod BUFFERSIZE;
  th_data : ∀ (j : nat) c, l !! j = Some c →
    aget (Buffer t) ((bufferConsume t + Z.of_nat j) mod BUFFERSIZE) = Some c;
}.

Ltac term_arith := unfold BUFFERSIZE in *; Z.to_euclidean_division_equations; lia.

Lemma position_range t l : term_holds t l → 0 ≤ bufferPosition t < BUFFERSIZE.
Proof. intros Ht. rewrite (th_position _ _ Ht). by apply Z.mod_pos_bound. Qed.

(** The ring after [c] was stored at the position. *)
Lemma term_holds_put t l c :
  term_holds t l → len l + 1 < BUFFERSIZE →
  term_holds (set_position ((bufferPosition t + 1) mod BUFFERSIZE)
    (set_buffer (aput (Buffer t) (bufferPosition t) c) t)) (l ++ [c]).
Proof.
  intros Ht Hlt. pose proof (position_range _ _ Ht) as Hpos. destruct Ht as [Hs Hz Hb Hc Hl Hp Hd].
  split; simpl; rewrite ?length_aput, ?length_app; simpl; try (done || lia).
  - rewrite Hp. term_arith.
  - intros j x Hj. apply lookup_app_Some in Hj as [Hj|[Hjl Hj]].
    + rewrite aget_aput_ne; [by apply Hd|lia|]. apply lookup_lt_Some in Hj. rewrite Hp. term_arith.
    + apply list_lookup_singleton_Some in Hj as [Hj <-].
      replace (Z.of_nat j) with (len l) by lia. rewrite <-Hp. apply aget_aput_eq. rewrite Hb. unfold BUFFERSIZE in *. lia.
Qed.

(** The echo changes the screen only. *)
Lemma echo_ok c t :
  video_ok (t_video t) → is_Some (aget (Buffer t) (bufferPosition t)) →
  ∃ v, echo_char c t = Some (t_set_video v t) ∧ video_ok v.
Proof.
  intros Hok [x Hx]. unfold echo_char. destruct (Z.eqb_spec c 8).
  - unfold with_video. simpl. 
    destruct (forwardCursor_spec (t_video t) Hok) as (? & _ & _ & _).
    assert (Hput : ∀ v, video_ok v → ∃ v', putChar 32 v = Some v' ∧ video_ok v').
    { intros v Hv. pose proof Hv as [_ _ _ _ ? ? ? ?]. unfold putChar.
      destruct (printChar_spec (cur_j v) (cur_i v) 32 DEFAULT v Hv) as (? & ? & -> & Hok2 & _); [unfold inside; lia|].
      cbn [mbind option_bind]. destruct (forwardCursor_spec _ Hok2) as (v' & -> & Hok3 & _). by exists v'. }
    destruct (Hput _ (backInLine_ok _ Hok)) as (v & -> & Hv). simpl. eexists. split; [done|]. by apply backInLine_ok.
  - destruct (Z.eqb_spec c 10).
    + unfold with_video, lineJump. pose proof Hok as [_ _ _ _ ? ? ? ?].
      destruct (Z.eqb_spec (cur_j (t_video t)) (HEIGHT - 1)).
      * destruct (video_ok_scroll _ Hok) as [-> Hok2]. by eexists.
      * rewrite (lineJump_loop_spec (Z.to_nat (WIDTH - cur_i (t_video t)))) by (done || unfold WIDTH in *; lia).
        eexists. split; [done|]. apply video_ok_cursor; [done|lia|lia].
    + destruct (isEcho t =? 0); simpl.
      * exists (t_video t). split; [by destruct t|done].
      * rewrite Hx. unfold with_video. simpl. pose proof Hok as [_ _ _ _ ? ? ? ?]. unfold putChar.
        destruct (printChar_spec (cur_j (t_video t)) (cur_i (t_video t)) x DEFAULT _ Hok) as (? & ? & -> & Hok2 & _);
          [unfold inside; lia|].
        cbn [mbind option_bind]. destruct (forwardCursor_spec _ Hok2) as (v' & -> & Hok3 & _). by exists v'.
Qed.

Lemma putTerminalBuffer_spec c t l :
  term_holds t l → video_ok (t_video t) →
  ∃ t', putTerminalBuffer c t = Some t' ∧ video_ok (t_video t') ∧ interrupts t' = true ∧ isEcho t' = isEcho t ∧
    term_holds t' (if len l + 1 <? BUFFERSIZE then l ++ [c] else if bufferConsume t =? 0 then [] else l) ∧
    (bufferConsume t ≠ 0 → len l + 1 = BUFFERSIZE → t_video t' = t_video t).
Proof.
  intros Ht Hok. pose proof (position_range _ _ Ht) as Hpos. pose proof Ht as [Hs Hz Hb Hc Hl Hp Hd].
  unfold putTerminalBuffer, isBufferFull. rewrite Hs, Hz.
  destruct (decide (len l + 1 = BUFFERSIZE ∧ bufferConsume t ≠ 0)) as [[Hfull Hc0]|Hnf].
  - assert (E : bufferConsume t =? bufferPosition t + 1 = true) by (apply Z.eqb_eq; term_arith).
    rewrite E. cbn [orb]. cbn iota. exists (sti (cli t)). split; [done|]. split; [done|]. split; [done|]. split; [done|].
    split; [|done]. c_tests. by split.
  - assert (E : (bufferConsume t =? bufferPosition t + 1) ||
      ((bufferConsume t =? 0 + BUFFERSIZE) && (bufferPosition t =? 0)) = false).
    { apply orb_false_iff. rewrite andb_false_iff, !Z.eqb_neq. split; [|left; lia].
      rewrite Hp. intros E. apply Hnf. term_arith. }
    rewrite E. cbn [Buffer cli set_if bufferPosition].
    rewrite aset_some by (rewrite Hb; unfold BUFFERSIZE in *; lia). cbn [mbind option_bind].
    set (b := aput (Buffer t) (bufferPosition t) c).
    destruct (echo_ok c (set_buffer b (cli (cli t))) Hok) as (v & -> & Hv).
    { simpl. unfold b. rewrite aget_aput_eq by (rewrite Hb; unfold BUFFERSIZE in *; lia). by eexists. }
    cbn [mbind option_bind]. eexists. split; [done|].
    assert (Hnext : ∀ t0, bufferPosition t0 = bufferPosition t + 1 → bufferStart t0 = 0 → bufferSize t0 = BUFFERSIZE →
      (if bufferPosition t0 =? bufferStart t0 + bufferSize t0 then set_position (bufferStart t0) t0 else t0) =
      set_position ((bufferPosition t + 1) mod BUFFERSIZE) t0).
    { intros t0 E1 E2 E3. rewrite E1, E2, E3. destruct (Z.eqb_spec (bufferPosition t + 1) (0 + BUFFERSIZE)) as [Ew|Ew].
      - rewrite Ew. done.
      - rewrite Z.mod_small by lia. rewrite <-E1. by destruct t0. }
    rewrite Hnext by done. split; [done|]. split; [done|]. split; [done|]. split.
    + destruct (Z.ltb_spec (len l + 1) BUFFERSIZE) as [Hlt|Hge].
      * destruct (term_holds_put t l c Ht Hlt). by split.
      * assert (bufferConsume t = 0) as Hz0 by lia. rewrite (proj2 (Z.eqb_eq _ _) Hz0).
        split; simpl; try done.
        -- unfold b. by rewrite length_aput.
        -- rewrite Hp. term_arith.
    + intros Hne Hfull. exfalso. apply Hnf. done.
Qed.

Lemma get_loop_spec (n : nat) buffer k m t l :
  term_holds t l →
  ∃ m' t', get_loop n buffer k m t = Some (k + Z.min (Z.of_nat n) (len l), m', t') ∧
    term_holds t' (drop n l) ∧ interrupts t' = true ∧ t_video t' = t_video t ∧
    (∀ (j : nat) c, take n l !! j = Some c → load8 m' (buffer + Z.of_nat j) = uint8 c) ∧
    (∀ a, a < buffer ∨ buffer + Z.min (Z.of_nat n) (len l) ≤ a → load8 m' a = load8 m a).
Proof.
  revert buffer k m t l. induction n as [|n IH]; intros buffer k m t l Ht; cbn [get_loop].
  { exists m, (sti t). rewrite Z.min_l, Z.add_0_r by lia. rewrite drop_0. split_and!; try done. by destruct Ht. }
  pose proof Ht as [Hs Hz Hb Hc Hl Hp Hd]. unfold isBufferEmpty. cbn [fst snd].
  destruct l as [|c l].
  - assert (E : bufferConsume t =? bufferPosition t = true) by (apply Z.eqb_eq; rewrite Hp; simpl; term_arith).
    rewrite E. exists m, (sti (cli t)). simpl length. rewrite Z.min_r, Z.add_0_r by lia.
    split_and!; try done; by destruct Ht.
  - assert (E : bufferConsume t =? bufferPosition t = false) by (apply Z.eqb_neq; rewrite Hp; simpl in *; term_arith).
    rewrite E. cbn [bufferConsume Buffer cli set_if].
    assert (Hx : aget (Buffer t) (bufferConsume t) = Some c).
    { specialize (Hd 0%nat c eq_refl). by rewrite Z.add_0_r, Z.mod_small in Hd by lia. }
    rewrite Hx. cbn [mbind option_bind].
    match goal with |- context [get_loop n _ _ _ ?x] => set (t2 := x) end.
    assert (Ht2 : t2 = set_consume ((bufferConsume t + 1) mod BUFFERSIZE) (cli t)).
    { unfold t2. cbn [bufferConsume bufferStart bufferSize set_consume cli set_if]. rewrite Hs, Hz.
      destruct (Z.eqb_spec (bufferConsume t + 1) (0 + BUFFERSIZE)) as [Ew|Ew].
      - by rewrite Ew.
      - by rewrite Z.mod_small by lia. }
    assert (Hh2 : term_holds t2 l).
    { rewrite Ht2. simpl in Hl. split; simpl; try done.
      - by apply Z.mod_pos_bound.
      - lia.
      - rewrite Hp. simpl. rewrite Zplus_mod_idemp_l. f_equal. lia.
      - intros j x Hj. rewrite <-(Hd (S j) x Hj). rewrite Zplus_mod_idemp_l. do 2 f_equal. lia. }
    destruct (IH (buffer + 1) (k + 1) (store8 m buffer c) t2 l Hh2) as (m' & t' & Hg & Hh & Hif & Hv & Hin & Hout).
    exists m', t'. split; [rewrite Hg; do 3 f_equal; simpl length; lia|]. split; [done|]. split; [done|].
    split; [rewrite Hv, Ht2; done|]. split.
    + intros [|j] x; simpl; intros Hj.
      * injection Hj as <-. rewrite Hout by lia. by rewrite store8_load, Z.add_0_r, Z.eqb_refl.
      * specialize (Hin j x Hj). rewrite <-Hin. f_equal. lia.
    + intros a Ha. simpl in Ha. rewrite Hout by lia. rewrite store8_load.
      destruct (Z.eqb_spec a buffer); [lia|done].
Qed.

(** A character typed is appended to the queue of pending ones and echoed inside the
    screen; with 2499 pending it is ignored, except when they start at the front of the
    buffer: then the ring wraps onto itself and all of them are lost.  Interrupts are on
    afterwards. *)
Theorem putTerminalBuffer_correct c t l :
  term_holds t l → video_ok (t_video t) →
  ∃ t', putTerminalBuffer c t = Some t' ∧ video_ok (t_video t') ∧ interrupts t' = true ∧
    term_holds t' (if len l + 1 <? BUFFERSIZE then l ++ [c] else if bufferConsume t =? 0 then [] else l) ∧
    (bufferConsume t ≠ 0 → len l + 1 = BUFFERSIZE → t_video t' = t_video t).
Proof.
  intros Ht Hok. destruct (putTerminalBuffer_spec c t l Ht Hok) as (t' & Hp & Hv & Hi & _ & Hh & Hf).
  by exists t'.
Qed.

(** A reader gets the oldest pending characters, as many as it asked for or all there
    are, in the order they were typed; the others stay, no other byte of memory changes
    and interrupts are on afterwards. *)
Theorem getTerminalBuffer_correct buffer n m t l :
  term_holds t l → 0 ≤ n ≤ INT_MAX →
  ∃ m' t', getTerminalBuffer buffer n m t = Some (Z.min n (len l), m', t') ∧
    term_holds t' (drop (Z.to_nat n) l) ∧ interrupts t' = true ∧ t_video t' = t_video t ∧
    (∀ (j : nat) c, take (Z.to_nat n) l !! j = Some c → load8 m' (buffer + Z.of_nat j) = uint8 c) ∧
    (∀ a, a < buffer ∨ buffer + Z.min n (len l) ≤ a → load8 m' a = load8 m a).
Proof.
  intros Ht Hn. assert (Ht' : term_holds (cli t) l) by (destruct Ht; by split).
  destruct (get_loop_spec (Z.to_nat n) buffer 0 m (cli t) l Ht') as (m' & t' & Hg & Hr).
  rewrite Z2Nat.id, Z.add_0_l in * by lia. exists m', t'. unfold getTerminalBuffer.
  rewrite wrap_u_id by (unfold INT_MAX in *; lia). split; [exact Hg|exact Hr].
Qed.

(** ** Witnesses *)

(** The terminal after [terminalInitializeC], with [l] typed. *)
Definition demo_term : Terminal :=
  terminalInitializeC (mkTerm (replicate (Z.to_nat BUFFERSIZE) 0) 0 0 0 0 0 true demo_video).

Lemma initial_holds t :
  length (Buffer t) = Z.to_nat BUFFERSIZE → term_holds (terminalInitializeC t) [].
Proof. intros Hb. split; simpl; try done. Qed.

Lemma demo_term_holds : term_holds demo_term [].
Proof. apply initial_holds. apply length_replicate. Qed.

Lemma putTerminalBuffer_correct_witness :
  ∃ t', putTerminalBuffer 65 demo_term = Some t' ∧ term_holds t' [65].
Proof.
  destruct (putTerminalBuffer_correct 65 demo_term [] demo_term_holds demo_video_ok) as (t' & E & _ & _ & Hh & _).
  exact (ex_intro _ t' (conj E Hh)).
Defined.

(** A terminal with two characters typed. *)
Definition demo_term2 : Terminal :=
  set_position 2 (set_buffer (72 :: 73 :: replicate (Z.to_nat (BUFFERSIZE - 2)) 0) demo_term).

Lemma getTerminalBuffer_correct_witness :
  ∃ m' t', getTerminalBuffer 100 5 (λ _, 0) demo_term2 = Some (2, m', t') ∧ term_holds t' [] ∧ load8 m' 101 = 73.
Proof.
  assert (Hh : term_holds demo_term2 [72; 73]).
  { split; simpl; try done; try lia. intros [|[|j]] c Hj; simpl in Hj; simplify_eq; done. }
  destruct (getTerminalBuffer_correct 100 5 (λ _, 0) demo_term2 [72; 73] Hh) as (m' & t' & E & Hr & _ & _ & Hin & _); [unfold INT_MAX; lia|].
  exact (ex_intro _ m' (ex_intro _ t' (conj E (conj Hr (Hin 1%nat 73 eq_refl))))).
Defined.
