(* ===== verification/Ports.v ===== *)
(** * The I/O ports and the clock ([Kernel/rtc.c], [intToString] of [Kernel/lib.c])

    The devices behind the ports are not part of the program: [Ports] is any device that
    answers a read and takes a write.  [inputb] returns what [in al, dx] leaves in [al]. *)

From S2P Require Import Prelude KMonad CString.

Class Ports (D : Type) := {
  dev_in : Z → D → Z * D;
  dev_out : Z → Z → D → D;
}.

(** A device together with the writes it got, oldest first. *)
#[export] Instance Logged_ports {D} `{Ports D} : Ports (D * list (Z * Z)) := {|
  dev_in p d := let '(v, d') := dev_in p (fst d) in (v, (d', snd d));
  dev_out p v d := (dev_out p v (fst d), snd d ++ [(p, v)]);
|}.

(** Registers behind port 0x71 that a write to port 0x70 selects. *)
Record Clock := mkClock { clk_selected : Z; clk_register : Z → Z }.

#[export] Instance Clock_ports : Ports Clock := {|
  dev_in p d := (if p =? 0x71 then clk_register d (clk_selected d) else 0, d);
  dev_out p v d := if p =? 0x70 then mkClock v (clk_register d) else d;
|}.

(** A port 0x60 that gives the bytes of a list, then 0. *)
#[export] Instance Bytes_ports : Ports (list Z) := {|
  dev_in p d := if p =? 0x60 then (List.hd 0 d, List.tl d) else (0, d);
  dev_out p v d := d;
|}.

Section ports.
Context {D : Type} `{Ports D}.
Implicit Types d : D.

Definition inputb (portid : Z) d : Z * D :=
  let '(v, d) := dev_in (uint16 portid) d in (uint8 v, d).
Definition outputb (portid value : Z) d : D := dev_out (uint16 portid) (uint8 value) d.

(** ** The time *)

Definition intToString (n buffer digits : Z) (m : mem) : mem :=
  let m := store8 m buffer (int8 (Z.rem (Z.quot n 10) 10 + 48)) in
  let m := store8 m (buffer + 1) (int8 (Z.rem n 10 + 48)) in
  store8 m (buffer + 2) 0.

Definition getTime (buffer : Z) (m : mem) d : mem * D :=
  let d := outputb 0x70 0x04 d in
  let '(h, d) := inputb 0x71 d in
  let h := int8 h in
  let h := int8 (Z.lor (Z.land h 0x0F + Z.quot (Z.land h 0x70) 16 * 10) (Z.land h 0x80)) in
  let d := outputb 0x70 0x02 d in
  let '(m', d) := inputb 0x71 d in
  let m' := int8 m' in
  let m' := int8 (Z.land m' 0x0F + Z.quot m' 16 * 10) in
  let d := outputb 0x70 0x00 d in
  let '(s, d) := inputb 0x71 d in
  let s := int8 s in
  let s := int8 (Z.land s 0x0F + Z.quot s 16 * 10) in
  let m := intToString h buffer 2 m in
  let m := store8 m (buffer + 2) 58 in
  let m := intToString m' (buffer + 3) 2 m in
  let m := store8 m (buffer + 5) 58 in
  let m := intToString s (buffer + 6) 2 m in
  (m, d).
End ports.

(** ** The clock shows the time *)

Definition bcd (n : Z) : Z := n / 10 * 16 + n mod 10.
Definition digits2 (n : Z) : list Z := [48 + n / 10; 48 + n mod 10].

(** What the conversion makes of a register that holds [n] in BCD. *)
Definition from_bcd (v : Z) : Z := int8 (Z.land (int8 v) 0x0F + Z.quot (int8 v) 16 * 10).
Definition from_bcd_hour (v : Z) : Z :=
  int8 (Z.lor (Z.land (int8 v) 0x0F + Z.quot (Z.land (int8 v) 0x70) 16 * 10) (Z.land (int8 v) 0x80)).

Lemma all_below (P : Z → bool) (n : nat) :
  forallb P (seqZ 0 (Z.of_nat n)) = true → ∀ v, 0 ≤ v < Z.of_nat n → P v = true.
Proof. rewrite List.forallb_forall. intros HP v Hv. apply HP, list_elem_of_In, elem_of_seqZ. lia. Qed.

Lemma from_bcd_ok n : 0 ≤ n < 80 → from_bcd (uint8 (bcd n)) = n ∧ from_bcd_hour (uint8 (bcd n)) = n.
Proof.
  intros Hn. rewrite <-!Z.eqb_eq, <-andb_true_iff.
  apply (all_below (λ n, (from_bcd (uint8 (bcd n)) =? n) && (from_bcd_hour (uint8 (bcd n)) =? n)) 80); [|done].
  vm_compute. reflexivity.
Qed.

(** The three bytes that [intToString] writes. *)
Lemma intToString_load n buffer digits m a :
  0 ≤ n < 100 →
  load8 (intToString n buffer digits m) a =
    if a =? buffer then 48 + n / 10 else if a =? buffer + 1 then 48 + n mod 10
    else if a =? buffer + 2 then 0 else load8 m a.
Proof.
  intros Hn. unfold intToString. rewrite !store8_load.
  rewrite !Z.quot_div_nonneg, !Z.rem_mod_nonneg by (Z.to_euclidean_division_equations; lia).
  rewrite (Z.mod_small (n / 10)) by (Z.to_euclidean_division_equations; lia).
  rewrite !wrap_s_id by (Z.to_euclidean_division_equations; lia).
  rewrite !wrap_u_id by (Z.to_euclidean_division_equations; lia).
  destruct (Z.eqb_spec a (buffer + 2)), (Z.eqb_spec a (buffer + 1)), (Z.eqb_spec a buffer); lia.
Qed.

(** [getTime] writes the clock's time as [hh:mm:ss] with its terminator, nine bytes as
    the caller's buffer has, when the registers hold it in BCD with 24 hours. *)
Theorem getTime_correct (buffer : Z) (m : mem) (d : Clock) h mi sec :
  0 ≤ h < 24 → 0 ≤ mi < 60 → 0 ≤ sec < 60 →
  clk_register d 0x04 = bcd h → clk_register d 0x02 = bcd mi → clk_register d 0x00 = bcd sec →
  let m' := fst (getTime buffer m d) in
  (∀ (j : nat) c, (digits2 h ++ [58] ++ digits2 mi ++ [58] ++ digits2 sec ++ [0]) !! j = Some c →
     load8 m' (buffer + Z.of_nat j) = c) ∧
  ∀ a, a < buffer ∨ buffer + 9 ≤ a → load8 m' a = load8 m a.
Proof.
  intros Hh Hm Hs Eh Em Es m'.
  assert (E : m' = intToString sec (buffer + 6) 2 (store8 (intToString mi (buffer + 3) 2
    (store8 (intToString h buffer 2 m) (buffer + 2) 58)) (buffer + 5) 58)).
  { unfold m', getTime, inputb, outputb. simpl.
    change (uint8 4) with 4. change (uint8 2) with 2. change (uint8 0) with 0. rewrite Eh, Em, Es.
    fold (from_bcd (uint8 (bcd mi))) (from_bcd (uint8 (bcd sec))) (from_bcd_hour (uint8 (bcd h))).
    rewrite (proj1 (from_bcd_ok mi ltac:(lia))), (proj1 (from_bcd_ok sec ltac:(lia))), (proj2 (from_bcd_ok h ltac:(lia))).
    done. }
  rewrite E. clear E m'. split.
  - intros j c Hj. rewrite !intToString_load, !store8_load, !intToString_load, store8_load, intToString_load by lia.
    do 9 (destruct j as [|j]; [simpl in Hj; injection Hj as <-; c_tests; done|]). by destruct j.
  - intros a Ha. rewrite !intToString_load, !store8_load, !intToString_load, store8_load, intToString_load by lia.
    by c_tests.
Qed.

Lemma getTime_correct_witness :
  ∃ d : Clock, load8 (fst (getTime 100 (λ _, 0) d)) 101 = 51.
Proof.
  exists (mkClock 0 (λ r, if r =? 4 then 0x23 else if r =? 2 then 0x59 else 0x07)).
  destruct (getTime_correct 100 (λ _, 0) (mkClock 0 (λ r, if r =? 4 then 0x23 else if r =? 2 then 0x59 else 0x07))
    23 59 7) as [Hb _]; [lia..|reflexivity|reflexivity|reflexivity|]. exact (Hb 1%nat 51 eq_refl).
Defined.

(** With 12 hours the clock sets bit 7 in the afternoon: the hour is then no digit. *)
Example getTime_afternoon :
  char_at (fst (getTime 100 (λ _, 0) (mkClock 0 (λ r, if r =? 4 then 0x81 else 0)))) 100 = 46.
Proof. reflexivity. Qed.
