(* ===== verification/Keyboard.v ===== *)
(** * The keyboard ([Kernel/keyboard.c])

    The table of characters by scan code and the handler of the keyboard's interrupt.  The
    handler runs over any state with the keyboard's two flags, a terminal and a device. *)

From Stdlib Require Import Ascii.
From S2P Require Import Prelude KMonad CString Video Terminal Ports.

Definition LEFT_SHIFT_MAKE : Z := int8 0x2A.
Definition RIGHT_SHIFT_MAKE : Z := int8 0x36.
Definition CAPS_LOCK : Z := int8 0x3A.
Definition LEFT_SHIFT_BREAK : Z := int8 0xAA.
Definition RIGHT_SHIFT_BREAK : Z := int8 0xB6.
Definition NOCHAR : Z := -1.
Definition ON : Z := 1.
Definition OFF : Z := 0.

(** A character literal, and a row of four of them. *)
Definition ch (a : Ascii.ascii) : Z := Z.of_nat (Ascii.nat_of_ascii a).
Arguments ch a%_char.
Definition key (code : Z) (s : string) : list Z := code :: (ch <$> String.list_ascii_of_string s).

Definition kbd_EN : list (list Z) := [
  [0x00; NOCHAR; NOCHAR; NOCHAR; NOCHAR];
  [0x01; NOCHAR; NOCHAR; NOCHAR; NOCHAR];
  key 0x02 "1!1!";
  key 0x03 "2@2@";
  key 0x04 "3#3#";
  key 0x05 "4$4$";
  key 0x06 "5%5%";
  key 0x07 "6^6^";
  key 0x08 "7&7&";
  key 0x09 "8*8*";
  key 0x0a "9(9(";
  key 0x0b "0)0)";
  key 0x0c "-_-_";
  key 0x0d "=+=+";
  [0x0e; 8; 8; 8; 8];
  [0x0f; 9; 9; 9; 9];
  key 0x10 "qQQq";
  key 0x11 "wWWw";
  key 0x12 "eEEe";
  key 0x13 "rRRr";
  key 0x14 "tTTt";
  key 0x15 "yYYy";
  key 0x16 "uUUu";
  key 0x17 "iIIi";
  key 0x18 "oOOo";
  key 0x19 "pPPp";
  key 0x1a "[{[{";
  key 0x1b "]}]}";
  [0x1c; 10; 10; 10; 10];
  [0x1d; NOCHAR; NOCHAR; NOCHAR; NOCHAR];
  key 0x1e "aAAa";
  key 0x1f "sSSs";
  key 0x20 "dDDd";
  key 0x21 "fFFf";
  key 0x22 "gGGg";
  key 0x23 "hHHh";
  key 0x24 "jJJj";
  key 0x25 "kKKk";
  key 0x26 "lLLl";
  key 0x27 ";:;:";
  [0x28; 39; 34; 39; 34];
  key 0x29 "`~`~";
  [0x2a; LEFT_SHIFT_MAKE; LEFT_SHIFT_MAKE; LEFT_SHIFT_MAKE; LEFT_SHIFT_MAKE];
  [0x2b; 92; ch "|"; NOCHAR; ch "|"];
  key 0x2c "zZZz";
  key 0x2d "xXXx";
  key 0x2e "cCCc";
  key 0x2f "vVVv";
  key 0x30 "bBBb";
  key 0x31 "nNNn";
  key 0x32 "mMMm";
  key 0x33 ",<,<";
  key 0x34 ".>.>";
  key 0x35 "/?/?";
  [0x36; RIGHT_SHIFT_MAKE; RIGHT_SHIFT_MAKE; RIGHT_SHIFT_MAKE; RIGHT_SHIFT_MAKE];
  [0x37; ch "*"; NOCHAR; NOCHAR; NOCHAR];
  [0x38; NOCHAR; NOCHAR; NOCHAR; NOCHAR];
  [0x39; 32; 32; 32; 32];
  [0x3a; CAPS_LOCK; CAPS_LOCK; CAPS_LOCK; CAPS_LOCK];
  [0x3b; NOCHAR; NOCHAR; NOCHAR; NOCHAR];
  [0x3c; NOCHAR; NOCHAR; NOCHAR; NOCHAR];
  [0x3d; NOCHAR; NOCHAR; NOCHAR; NOCHAR];
  [0x3e; NOCHAR; NOCHAR; NOCHAR; NOCHAR];
  [0x3f; NOCHAR; NOCHAR; NOCHAR; NOCHAR];
  [0x40; NOCHAR; NOCHAR; NOCHAR; NOCHAR];
  [0x41; NOCHAR; NOCHAR; NOCHAR; NOCHAR];
  [0x42; NOCHAR; NOCHAR; NOCHAR; NOCHAR];
  [0x43; NOCHAR; NOCHAR; NOCHAR; NOCHAR];
  [0x44; NOCHAR; NOCHAR; NOCHAR; NOCHAR];
  [0x45; NOCHAR; NOCHAR; NOCHAR; NOCHAR];
  [0x46; NOCHAR; NOCHAR; NOCHAR; NOCHAR];
  [0x47; ch "7"; NOCHAR; NOCHAR; NOCHAR];
  [0x48; NOCHAR; NOCHAR; NOCHAR; NOCHAR];
  [0x49; ch "9"; NOCHAR; NOCHAR; NOCHAR];
  [0x4a; ch "-"; NOCHAR; NOCHAR; NOCHAR];
  [0x4b; NOCHAR; NOCHAR; NOCHAR; NOCHAR];
  [0x4c; ch "5"; NOCHAR; NOCHAR; NOCHAR];
  [0x4d; NOCHAR; NOCHAR; NOCHAR; NOCHAR];
  [0x4e; ch "+"; NOCHAR; NOCHAR; NOCHAR];
  [0x4f; ch "1"; NOCHAR; NOCHAR; NOCHAR];
  [0x50; NOCHAR; NOCHAR; NOCHAR; NOCHAR];
  [0x51; ch "3"; NOCHAR; NOCHAR; NOCHAR];
  [0x52; ch "0"; NOCHAR; NOCHAR; NOCHAR];
  [0x53; ch "."; NOCHAR; NOCHAR; NOCHAR];
  [0x57; NOCHAR; NOCHAR; NOCHAR; NOCHAR];
  [0x58; NOCHAR; NOCHAR; NOCHAR; NOCHAR]
].

Record Keyboard := mkKeyboard { shift : Z; caps : Z }.

Section keyboard.
Context {S D : Type} `{Field S Keyboard, Field S Terminal, Field S D, Ports D}.

(** The shell's restart, in the whole machine. *)
Context (restartSHELL : M S unit).

(** The bytes around the table, by their distance from its start. *)
Context (outside : Z → Z).

Definition kbd_get (c k : Z) : Z :=
  match row ← aget kbd_EN c; aget row k with
  | Some x => x
  | None => int8 (outside (c * 5 + k))
  end.

Definition read_port (portid : Z) : M S Z := call_field (λ d : D, Some (inputb portid d)).
Definition set_kbd (sh ca : Z) : M S unit := modify (fset (mkKeyboard sh ca)).
Definition type_char (c : Z) : M S unit := on_field (putTerminalBuffer c).

Definition keyboardHandlerC : M S unit :=
  c ← read_port 0x60;
  let c := int8 c in
  kb ← asks fget;
  let '(mkKeyboard sh ca) := kb in
  if c =? CAPS_LOCK then set_kbd sh (if ca =? ON then OFF else ON)
  else if (c =? LEFT_SHIFT_MAKE) || (c =? RIGHT_SHIFT_MAKE) then set_kbd ON ca
  else if (c =? LEFT_SHIFT_BREAK) || (c =? RIGHT_SHIFT_BREAK) then set_kbd OFF ca
  else
    let toSend := kbd_get c 1 in
    when ((sh =? ON) && (c =? 0x3b)) restartSHELL ;;
    kb ← asks fget;
    let '(mkKeyboard sh ca) := kb in
    if (Z.land c 0x80 =? 0) && negb (toSend =? NOCHAR) then
      if (ca =? ON) && (sh =? ON) then type_char (kbd_get c 4)
      else if ca =? ON then type_char (kbd_get c 3)
      else if sh =? ON then type_char (kbd_get c 2)
      else type_char (kbd_get c 1)
    else mret tt.
End keyboard.
