(* ===== verification/Mouse.v ===== *)
(** * The mouse ([Kernel/mouse.c])

    The handshake with the controller, and the handler of the mouse's interrupt: it
    collects packets of three bytes across interrupts, selects and copies a region of the
    screen with the left button and types it again with the right one.  [mx] and [my] are
    the statics [x] and [y]. *)

From S2P Require Import Prelude CString Video Terminal Ports.

Record Mouse := mkMouse {
  mouse_cycle : Z;
  mouse_byte : list Z;
  flag : Z;
  mx : Z;
  my : Z;
  xinit : Z;
  yinit : Z;
  xfin : Z;
  yfin : Z;
  selecting : Z;
}.
Implicit Types o : Mouse.

Definition mouse_static : Mouse := mkMouse 0 [0; 0; 0] 0 10 10 0 0 0 0 0.

Definition set_cycle c o := mkMouse c (mouse_byte o) (flag o) (mx o) (my o) (xinit o) (yinit o) (xfin o) (yfin o) (selecting o).
Definition set_byte l o := mkMouse (mouse_cycle o) l (flag o) (mx o) (my o) (xinit o) (yinit o) (xfin o) (yfin o) (selecting o).
Definition set_flag f o := mkMouse (mouse_cycle o) (mouse_byte o) f (mx o) (my o) (xinit o) (yinit o) (xfin o) (yfin o) (selecting o).
Definition set_xy x y o := mkMouse (mouse_cycle o) (mouse_byte o) (flag o) x y (xinit o) (yinit o) (xfin o) (yfin o) (selecting o).
Definition set_init x y o := mkMouse (mouse_cycle o) (mouse_byte o) (flag o) (mx o) (my o) x y (xfin o) (yfin o) (selecting o).
Definition set_fin x y o := mkMouse (mouse_cycle o) (mouse_byte o) (flag o) (mx o) (my o) (xinit o) (yinit o) x y (selecting o).
Definition set_selecting s o := mkMouse (mouse_cycle o) (mouse_byte o) (flag o) (mx o) (my o) (xinit o) (yinit o) (xfin o) (yfin o) s.

(** ** The controller *)

Section controller.
Context {D : Type} `{Ports D}.
Implicit Types d : D.

(** [while(--timeout) if (..) return;] *)
Fixpoint mouse_wait_loop (timeout : nat) (type : Z) d : D :=
  match timeout with
  | O => d
  | S timeout' =>
      let '(v, d) := inputb 0x64 d in
      if (if type =? 0 then Z.land v 0x01 =? 1 else Z.land v 0x02 =? 0) then d
      else mouse_wait_loop timeout' type d
  end.

Definition mouse_wait (type : Z) d : D := mouse_wait_loop (Z.to_nat 99999) type d.

Definition mouse_write (write : Z) d : D :=
  let d := mouse_wait 1 d in
  let d := outputb 0x64 0xD4 d in
  let d := mouse_wait 1 d in
  outputb 0x60 write d.

Definition mouse_read d : Z * D :=
  let d := mouse_wait 0 d in
  let '(t, d) := inputb 0x60 d in (uint8 (int8 t), d).

Definition detect_ps2_mouse d : Z * D :=
  let '(tmp, d) := mouse_read d in (c_bool (tmp =? 0xFA), d).

Definition mouse_init d : D :=
  let d := mouse_wait 1 d in
  let d := outputb 0x64 0xA8 d in
  let d := mouse_wait 1 d in
  let d := outputb 0x64 0x20 d in
  let d := mouse_wait 0 d in
  let '(v, d) := inputb 0x60 d in
  let status_byte := uint8 (Z.lor v 2) in
  let d := mouse_wait 1 d in
  let d := outputb 0x64 0x60 d in
  let d := mouse_wait 1 d in
  let d := outputb 0x60 status_byte d in
  let d := mouse_write 0xF6 d in
  let '(_, d) := mouse_read d in
  let d := mouse_write 0xF4 d in
  let '(_, d) := mouse_read d in
  d.
End controller.

(** ** A packet *)

(** The handler works on the mouse's variables and the terminal with its screen. *)
Definition Desk : Type := Mouse * Terminal.

Definition on_video (f : Video → option Video) (s : Desk) : option Desk :=
  t ← with_video f (snd s); Some (fst s, t).

(** The two ends of the selection in order. *)
Definition on_selection (draw : Z → Z → Z → Z → Video → option Video) (s : Desk) : option Desk :=
  let o := fst s in
  on_video
    (if (yfin o <? yinit o) || ((yfin o =? yinit o) && (xfin o <? xinit o))
     then draw (yfin o) (xfin o) (yinit o) (xinit o)
     else draw (yinit o) (xinit o) (yfin o) (xfin o)) s.

Definition left_button (byte0 : Z) (s : Desk) : option Desk :=
  if negb (Z.land byte0 0x01 =? 0) then
    s ← (if negb (selecting (fst s) =? 0) then
           s ← on_selection undoSelection s;
           Some (set_fin (mx (fst s)) (my (fst s)) (fst s), snd s)
         else
           let o := set_selecting 1 (fst s) in
           Some (set_fin (mx o) (my o) (set_init (mx o) (my o) o), snd s));
    on_selection selection s
  else if negb (selecting (fst s) =? 0) then
    s ← on_selection undoSelection s;
    on_video updateScreen (set_selecting 0 (fst s), snd s)
  else Some s.

Definition right_button (byte0 : Z) (s : Desk) : option Desk :=
  if negb (Z.land byte0 0x02 =? 0) then Some (set_flag 1 (fst s), snd s)
  else if flag (fst s) =? 1 then
    t ← paste (snd s); Some (set_flag 0 (fst s), t)
  else Some s.

(** [(byte | 0xFFFFFF00)] is an [unsigned int], stored in an [int]. *)
Definition relative (byte0 sign byte : Z) : Z :=
  if Z.land byte0 sign =? sign then int32 (Z.lor (uint32 byte) 0xFFFFFF00) else byte.

Definition move (byte0 byte1 byte2 : Z) (s : Desk) : option Desk :=
  let o := fst s in
  let rel_x := relative byte0 0x10 byte1 in
  let rel_y := relative byte0 0x20 byte2 in
  s ← on_video (udrawMouse (my o) (mx o)) s;
  let nx := int32 (mx o + Z.quot rel_x 10) in
  let x := if (nx <? 80) && (0 <=? nx) then nx else mx o in
  let ny := int32 (my o - Z.quot rel_y 10) in
  let y := if (ny <? 25) && (0 <=? ny) then ny else my o in
  s ← on_video (drawMouse y x) (set_xy x y (fst s), snd s);
  on_video updateScreen s.

(** [case 2] once its byte is stored. *)
Definition mouse_packet (s : Desk) : option Desk :=
  b0 ← aget (mouse_byte (fst s)) 0;
  if negb (Z.land b0 0x80 =? 0) || negb (Z.land b0 0x40 =? 0) then Some (set_cycle 4 (fst s), snd s)
  else
    b1 ← aget (mouse_byte (fst s)) 1; b2 ← aget (mouse_byte (fst s)) 2;
    s ← left_button b0 s;
    s ← right_button b0 s;
    s ← move b0 b1 b2 s;
    Some (set_cycle 4 (fst s), snd s).

(** The [switch]; the boolean says that the handler returns from inside. *)
Definition mouse_byte_in (mouse_in : Z) (s : Desk) : option (bool * Desk) :=
  let o := fst s in
  if mouse_cycle o =? 0 then
    l ← aset (mouse_byte o) 0 mouse_in;
    if Z.land mouse_in 0x08 =? 0 then Some (true, (set_byte l o, snd s))
    else Some (false, (set_cycle (uint8 (mouse_cycle o + 1)) (set_byte l o), snd s))
  else if mouse_cycle o =? 1 then
    l ← aset (mouse_byte o) 1 mouse_in;
    Some (false, (set_cycle (uint8 (mouse_cycle o + 1)) (set_byte l o), snd s))
  else if mouse_cycle o =? 2 then
    l ← aset (mouse_byte o) 2 mouse_in;
    s ← mouse_packet (set_byte l o, snd s); Some (false, s)
  else Some (false, s).

(** ** The handler *)

Section handler.
Context {D : Type} `{Ports D}.

Fixpoint mouse_loop (fuel : nat) (status : Z) (s : Desk) (d : D) : option (Desk * D) :=
  if Z.land status 0x01 =? 0 then Some (s, d)
  else match fuel with
       | O => None
       | S fuel' =>
           let '(mouse_in, d) := inputb 0x60 d in
           '(ret, s) ← (if negb (Z.land status 0x20 =? 0) then mouse_byte_in (int8 mouse_in) s else Some (false, s));
           if (ret : bool) then Some (s, d)
           else
             let '(status, d) := inputb 0x64 d in
             if 4 <=? mouse_cycle (fst s) then Some ((set_cycle 0 (fst s), snd s), d)
             else mouse_loop fuel' status s d
       end.

Definition mouse_handlerC (fuel : nat) (s : Desk) (d : D) : option (Desk * D) :=
  let '(status, d) := inputb 0x64 d in mouse_loop fuel status s d.
End handler.
