(* ===== verification/KeyboardThms.v ===== *)
(** * Properties of the keyboard

    From the scan codes to the reader: the keys that the table gives for a text put that
    text, in order, in the memory of the process that reads. *)

From S2P Require Import Prelude KMonad CString Video VideoThms Terminal TerminalThms Ports Keyboard.

(** A keyboard with a terminal; the scan codes to come are a list. *)
Record Console := mkConsole { co_kbd : Keyboard; co_term : Terminal; co_keys : list Z }.

#[export] Instance Console_kbd : Field Console Keyboard :=
  {| fget := co_kbd; fset k s := mkConsole k (co_term s) (co_keys s) |}.
#[export] Instance Console_term : Field Console Terminal :=
  {| fget := co_term; fset t s := mkConsole (co_kbd s) t (co_keys s) |}.
#[export] Instance Console_keys : Field Console (list Z) :=
  {| fget := co_keys; fset l s := mkConsole (co_kbd s) (co_term s) l |}.

(** ** The keys for a character *)

Definition table_get (c k : Z) : option Z := row ← aget kbd_EN c; aget row k.

Definition column (sh ca : Z) : Z :=
  if (ca =? ON) && (sh =? ON) then 4 else if ca =? ON then 3 else if sh =? ON then 2 else 1.

Definition modifier (k : Z) : bool :=
  (k =? CAPS_LOCK) || (k =? LEFT_SHIFT_MAKE) || (k =? RIGHT_SHIFT_MAKE).

(** The key [k] types [c]. *)
Definition types (sh ca c k : Z) : bool :=
  negb (modifier k) && negb (k =? 0x3b) && bool_decide (table_get k (column sh ca) = Some c) &&
  match table_get k 1 with Some x => negb (x =? NOCHAR) | None => false end.

Definition find_key (sh ca c : Z) : option Z := List.find (types sh ca c) (seqZ 0 86).

(** The scan codes that type [c]: one key, with the left shift key around it if needed. *)
Definition keys_for (ca c : Z) : list Z :=
  match find_key OFF ca c with
  | Some k => [k]
  | None => match find_key ON ca c with Some k => [0x2A; k; 0xAA] | None => [] end
  end.

(** Backspace, tab, newline and the printable characters of ASCII. *)
Definition typable (c : Z) : Prop := 8 ≤ c ≤ 10 ∨ 32 ≤ c ≤ 126.

(** *** Every such character has its keys *)

Definition has_key (ca c : Z) : bool :=
  match find_key OFF ca c with
  | Some _ => true
  | None => match find_key ON ca c with Some _ => true | None => false end
  end.

Lemma has_key_spec ca c :
  ca = OFF ∨ ca = ON → typable c → (ca = ON → c ≠ 92) → has_key ca c = true.
Proof.
  intros Hca Hc H92.
  set (P := λ ca c, negb (((8 <=? c) && (c <=? 10)) || ((32 <=? c) && (c <=? 126))) ||
    ((ca =? ON) && (c =? 92)) || has_key ca c).
  assert (HP : P ca c = true).
  { assert (Hr : 0 ≤ c < Z.of_nat 127) by (unfold typable in Hc; lia). clear Hc H92. revert c Hr.
    apply all_below. destruct Hca as [-> | ->]; vm_compute; reflexivity. }
  unfold P in HP. rewrite !orb_true_iff in HP. destruct HP as [[HP|HP]|HP]; [| |done].
  - rewrite negb_true_iff, orb_false_iff, !andb_false_iff, !Z.leb_gt in HP. unfold typable in Hc. lia.
  - rewrite andb_true_iff, !Z.eqb_eq in HP. destruct HP as [E1 E2]. by destruct (H92 E1).
Qed.

Lemma find_key_spec sh ca c k : find_key sh ca c = Some k → 0 ≤ k < 86 ∧ types sh ca c k = true.
Proof.
  intros E. apply List.find_some in E as [Hin Ht]. split; [|done].
  apply list_elem_of_In, elem_of_seqZ in Hin. lia.
Qed.

(** ** The handler *)

Lemma kbd_get_table outside c k x : table_get c k = Some x → kbd_get outside c k = x.
Proof. unfold kbd_get, table_get. by intros ->. Qed.

(** A key that types [c] puts it into the terminal, in any state with the parts. *)
Lemma key_types {S D} `{Field S Keyboard, Field S Terminal, Field S D, Ports D} (restartSHELL : M S unit) outside sh ca c k t' (s : S) (d : D) :
  0 ≤ k < 86 → types sh ca c k = true →
  inputb 0x60 (fget s) = (k, d) → fget (fset d s) = mkKeyboard sh ca → putTerminalBuffer c (fget (fset d s)) = Some t' →
  keyboardHandlerC (D := D) restartSHELL outside s = Done tt (fset t' (fset d s)).
Proof.
  intros Hk Ht Hin Hkb Hp. unfold types in Ht. rewrite !andb_true_iff, !negb_true_iff, bool_decide_eq_true in Ht.
  destruct Ht as [[[Hm H3b] Hc] Hn]. unfold modifier in Hm. rewrite !orb_false_iff in Hm. destruct Hm as [[Hm1 Hm2] Hm3].
  destruct (table_get k 1) as [x|] eqn:Hx; [|done].
  unfold keyboardHandlerC, read_port. erewrite call_field_bind by (by rewrite Hin). rewrite (wrap_s_id 8 k) by lia.
  rewrite asks_bind, Hkb. rewrite Hm1, Hm2, Hm3, H3b. cbn [orb].
  change LEFT_SHIFT_BREAK with (-86). change RIGHT_SHIFT_BREAK with (-74).
  rewrite (proj2 (Z.eqb_neq k (-86))), (proj2 (Z.eqb_neq k (-74))) by lia. cbn [orb]. rewrite andb_false_r. cbn [when].
  erewrite bind_done by reflexivity. rewrite asks_bind, Hkb.
  assert (Z.land k 0x80 = 0) as ->.
  { apply Z.bits_inj'. intros n Hn'. rewrite Z.land_spec, Z.bits_0. change 0x80 with (2 ^ 7).
    rewrite Z.pow2_bits_eqb by lia. destruct (Z.eqb_spec 7 n) as [<-|]; [|by rewrite andb_false_r].
    rewrite Z.testbit_odd, Z.shiftr_div_pow2 by lia. rewrite Z.div_small by lia. done. }
  rewrite <-(kbd_get_table outside k 1 x Hx) in Hn. rewrite Hn. cbn [Z.eqb andb].
  unfold column in Hc.
  assert (Hdone : ∀ j, table_get k j = Some c → type_char (kbd_get outside k j) (fset d s) = Done tt (fset t' (fset d s))).
  { intros j Hj. unfold type_char, on_field, modifyO. rewrite (kbd_get_table outside k j c Hj), Hp. done. }
  destruct ((ca =? ON) && (sh =? ON)); [by apply Hdone|]. destruct (ca =? ON); [by apply Hdone|].
  destruct (sh =? ON); by apply Hdone.
Qed.

Section handler.
Context (restartSHELL : M Console unit) (outside : Z → Z).
Abbreviation handler := (keyboardHandlerC (D := list Z) restartSHELL outside).

Lemma read_key kb t k ks {A} (f : Z → M Console A) :
  (read_port (D := list Z) 0x60 ≫= f) (mkConsole kb t (k :: ks)) = f (uint8 k) (mkConsole kb t ks).
Proof. unfold read_port. by erewrite call_field_bind by reflexivity. Qed.

Lemma int8_uint8_id k : -128 ≤ k < 128 → int8 (uint8 k) = k.
Proof. intros Hk. rewrite int8_uint8. by apply wrap_s_id. Qed.

Lemma handler_shift_make sh ca t ks :
  handler (mkConsole (mkKeyboard sh ca) t (0x2A :: ks)) = Done tt (mkConsole (mkKeyboard ON ca) t ks).
Proof. unfold keyboardHandlerC. by rewrite read_key. Qed.

Lemma handler_shift_break sh ca t ks :
  handler (mkConsole (mkKeyboard sh ca) t (0xAA :: ks)) = Done tt (mkConsole (mkKeyboard OFF ca) t ks).
Proof. unfold keyboardHandlerC. by rewrite read_key. Qed.

Lemma handler_types sh ca t ks c k t' :
  0 ≤ k < 86 → types sh ca c k = true → putTerminalBuffer c t = Some t' →
  handler (mkConsole (mkKeyboard sh ca) t (k :: ks)) = Done tt (mkConsole (mkKeyboard sh ca) t' ks).
Proof.
  intros Hk Ht Hp. set (s := mkConsole (mkKeyboard sh ca) t (k :: ks)).
  assert (Hin : inputb 0x60 (fget s) = (k, ks)) by (unfold inputb; simpl; f_equal; apply wrap_u_id; lia).
  exact (key_types (D := list Z) restartSHELL outside sh ca c k t' s ks Hk Ht Hin eq_refl Hp).
Qed.

(** [n] interrupts of the keyboard. *)
Fixpoint interrupts_kbd (n : nat) : M Console unit :=
  match n with O => mret tt | S n' => handler ;; interrupts_kbd n' end.

Lemma interrupts_app (n1 n2 : nat) s s' :
  interrupts_kbd n1 s = Done tt s' → interrupts_kbd (n1 + n2) s = interrupts_kbd n2 s'.
Proof.
  revert s. induction n1 as [|n1 IH]; intros s; cbn [interrupts_kbd Nat.add].
  { by intros [= <-]. }
  unfold mbind, M_bind. destruct (handler s) as [|[] s1|s1 k]; simpl; [done| |done]. apply IH.
Qed.

Lemma interrupts_1 s s' : handler s = Done tt s' → interrupts_kbd 1 s = Done tt s'.
Proof. intros E. simpl. unfold mbind, M_bind. by rewrite E. Qed.

Lemma type_one ca c t ks t' :
  ca = OFF ∨ ca = ON → typable c → (ca = ON → c ≠ 92) → putTerminalBuffer c t = Some t' →
  interrupts_kbd (length (keys_for ca c)) (mkConsole (mkKeyboard OFF ca) t (keys_for ca c ++ ks)) =
    Done tt (mkConsole (mkKeyboard OFF ca) t' ks).
Proof.
  intros Hca Hc H92 Hp. pose proof (has_key_spec ca c Hca Hc H92) as Hk. unfold has_key in Hk. unfold keys_for.
  destruct (find_key OFF ca c) as [k|] eqn:E1.
  - apply find_key_spec in E1 as [Hr Ht]. apply interrupts_1. by apply handler_types with (c := c).
  - destruct (find_key ON ca c) as [k|] eqn:E2; [|done]. apply find_key_spec in E2 as [Hr Ht].
    cbn [length app]. etransitivity; [exact (interrupts_app 1 2 _ _ (interrupts_1 _ _ (handler_shift_make _ _ _ _)))|].
    etransitivity; [exact (interrupts_app 1 1 _ _ (interrupts_1 _ _ (handler_types ON ca t (0xAA :: ks) c k t' Hr Ht Hp)))|].
    apply interrupts_1, handler_shift_break.
Qed.

Lemma type_all ca l l0 t ks :
  ca = OFF ∨ ca = ON → (∀ c, c ∈ l → typable c ∧ (ca = ON → c ≠ 92)) →
  term_holds t l0 → video_ok (t_video t) → len l0 + len l < BUFFERSIZE →
  ∃ t', interrupts_kbd (length (l ≫= keys_for ca)) (mkConsole (mkKeyboard OFF ca) t ((l ≫= keys_for ca) ++ ks)) =
      Done tt (mkConsole (mkKeyboard OFF ca) t' ks) ∧
    term_holds t' (l0 ++ l) ∧ video_ok (t_video t').
Proof.
  intros Hca. revert l0 t. induction l as [|c l IH]; intros l0 t Hl Ht Hv Hlen.
  { exists t. rewrite app_nil_r. by split_and!. }
  simpl in Hlen. destruct (Hl c) as [Hc H92]; [by left|].
  destruct (putTerminalBuffer_spec c t l0 Ht Hv) as (t1 & Hp & Hv1 & _ & _ & Ht1 & _).
  rewrite (proj2 (Z.ltb_lt _ _)) in Ht1 by lia.
  destruct (IH (l0 ++ [c]) t1) as (t' & Hi & Ht' & Hv'); [intros; apply Hl; by right|done|done|rewrite length_app; simpl; lia|].
  exists t'. rewrite <-app_assoc in Ht'. split; [|by split]. cbn [mbind list_bind]. rewrite length_app, <-app_assoc.
  rewrite (interrupts_app _ _ _ _ (type_one ca c t _ t1 Hca Hc H92 Hp)). exact Hi.
Qed.
End handler.

(** C10: from the keyboard to the reader: on an empty terminal, the interrupts for the keys
    of a text of at most 2499 typable characters, with caps lock off or (without the
    backslash) on, leave the shift key up and the terminal's screen in bounds, and a
    process that then reads gets exactly the text. *)
Theorem typing_reaches_reader restartSHELL outside ca l t ks buffer n m :
  ca = OFF ∨ ca = ON → (∀ c, c ∈ l → typable c ∧ (ca = ON → c ≠ 92)) →
  term_holds t [] → video_ok (t_video t) → len l < BUFFERSIZE → len l ≤ n ≤ INT_MAX →
  ∃ t', interrupts_kbd restartSHELL outside (length (l ≫= keys_for ca))
          (mkConsole (mkKeyboard OFF ca) t ((l ≫= keys_for ca) ++ ks)) =
        Done tt (mkConsole (mkKeyboard OFF ca) t' ks) ∧ video_ok (t_video t') ∧
    ∃ m' t2, getTerminalBuffer buffer n m t' = Some (len l, m', t2) ∧ term_holds t2 [] ∧
      ∀ (j : nat) c, l !! j = Some c → load8 m' (buffer + Z.of_nat j) = c.
Proof.
  intros Hca Hl Ht Hv Hlen Hn.
  destruct (type_all restartSHELL outside ca l [] t ks Hca Hl Ht Hv) as (t' & Hi & Ht' & Hv'); [simpl; lia|].
  exists t'. split; [exact Hi|]. split; [done|].
  assert (Hc : term_holds (cli t') l) by (destruct Ht'; by split).
  destruct (get_loop_spec (Z.to_nat n) buffer 0 m (cli t') l Hc) as (m' & t2 & Hg & H2 & _ & _ & Hd & _).
  exists m', t2. rewrite Z2Nat.id, Z.min_r, Z.add_0_l in Hg by lia.
  unfold getTerminalBuffer. rewrite wrap_u_id by (unfold INT_MAX in *; lia). split; [exact Hg|].
  rewrite drop_ge in H2 by lia. split; [done|].
  intros j c Hj. rewrite take_ge in Hd by lia. rewrite (Hd j c Hj). apply wrap_u_id.
  destruct (Hl c) as [[?|?] _]; [by eapply list_elem_of_lookup_2|lia|lia].
Qed.

Lemma typing_reaches_reader_witness :
  ∃ t', interrupts_kbd fault (λ _, 0) 6 (mkConsole (mkKeyboard OFF OFF) demo_term [0x2A; 0x23; 0xAA; 0x17; 0x1C; 0x39; 0x3B]) =
    Done tt (mkConsole (mkKeyboard OFF OFF) t' [0x3B]) ∧
    ∃ m' t2, getTerminalBuffer 100 80 (λ _, 0) t' = Some (4, m', t2) ∧ load8 m' 100 = 72.
Proof.
  destruct (typing_reaches_reader fault (λ _, 0) OFF [72; 105; 10; 32] demo_term [0x3B] 100 80 (λ _, 0))
    as (t' & E & _ & m' & t2 & E2 & _ & Hd).
  - by left.
  - intros c Hc. split; [|done]. unfold typable. rewrite !elem_of_cons, elem_of_nil in Hc.
    destruct Hc as [->|[->|[->|[->|[]]]]]; lia.
  - exact demo_term_holds.
  - exact demo_video_ok.
  - simpl. unfold BUFFERSIZE. lia.
  - simpl. unfold INT_MAX. lia.
  - exact (ex_intro _ t' (conj E (ex_intro _ m' (ex_intro _ t2 (conj E2 (Hd 0%nat 72 eq_refl)))))).
Defined.

(** With caps lock the backslash key types the character -1: only the first column of the
    table is tested for [NOCHAR]. *)
Lemma caps_backslash : has_key ON 92 = false ∧ types OFF ON NOCHAR 0x2B = true.
Proof. by vm_compute. Qed.

(** The keys F11 and F12 are two rows too early in the table: their scan codes are past it. *)
Lemma f11_outside : length kbd_EN = 86%nat ∧ table_get 0x57 1 = None ∧ table_get 0x54 0 = Some 0x57.
Proof. by vm_compute. Qed.
