(* ===== verification/MouseThms.v ===== *)
(** * Properties of the mouse

    Whatever bytes the mouse sends, the pointer and the selection stay on the screen and
    no array is left; what was selected is typed again unchanged. *)

From S2P Require Import Prelude CString Video VideoThms Terminal TerminalThms Ports Mouse.

(** ** Typing does not change the selection *)

Definition sel_same (v v' : Video) : Prop := mouseSelect v' = mouseSelect v ∧ size v' = size v.

#[export] Instance sel_same_preorder : PreOrder sel_same.
Proof. split; [done|]. intros v1 v2 v3 [E1 E2] [E3 E4]. split; congruence. Qed.

Lemma for_range_inv {S} (I : S → Prop) (n : nat) i body (s s' : S) :
  I s → (∀ j s1 s2, I s1 → body j s1 = Some s2 → I s2) → for_range n i body s = Some s' → I s'.
Proof.
  intros HI Hb. revert i s HI. induction n as [|n IH]; intros i s HI; cbn [for_range]; [by intros [= <-]|].
  destruct (body i s) as [s1|] eqn:E; [|done]. simpl. apply IH. by eapply Hb.
Qed.

Lemma updateScreen_sel v v' : updateScreen v = Some v' → sel_same v v'.
Proof.
  apply (for_range_inv (sel_same v)); [done|]. intros j v1 v2 H1. apply for_range_inv; [done|].
  intros k v3 v4 H3 E. etransitivity; [exact H3|]. unfold updateScreen_cell in E.
  repeat (rewrite bind_Some in E; destruct E as (? & _ & E)). by injection E as <-.
Qed.

Lemma clearPosition_sel f c v v' : clearPosition f c v = Some v' → sel_same v v'.
Proof.
  unfold clearPosition. case_match; [by intros [= <-]|]. intros E.
  rewrite bind_Some in E. destruct E as (? & _ & E). by injection E as <-.
Qed.

Lemma copyRow_sel from to v v' : copyRow from to v = Some v' → sel_same v v'.
Proof.
  apply (for_range_inv (sel_same v)); [done|]. intros j v1 v2 H1 E. etransitivity; [exact H1|].
  do 2 (rewrite bind_Some in E; destruct E as (? & _ & E)). by apply clearPosition_sel in E.
Qed.

Lemma scroll_sel v v' : scroll v = Some v' → sel_same v v'.
Proof.
  unfold scroll. intros E. rewrite bind_Some in E. destruct E as (v1 & E1 & E).
  rewrite bind_Some in E. destruct E as (v2 & E2 & E). injection E as <-.
  apply (for_range_inv (sel_same v)) in E1; [|done|].
  2: { intros j w1 w2 Hw Ew. etransitivity; [exact Hw|]. by apply copyRow_sel in Ew. }
  apply (for_range_inv (sel_same v)) in E2; [exact E2|done|].
  intros j w1 w2 Hw Ew. etransitivity; [exact Hw|]. by apply clearPosition_sel in Ew.
Qed.

Lemma forwardCursor_sel v v' : forwardCursor v = Some v' → sel_same v v'.
Proof.
  unfold forwardCursor. repeat case_match; try by intros [= <-].
  intros E. rewrite bind_Some in E. destruct E as (v1 & E1 & E).
  etransitivity; [by apply scroll_sel|by apply updateScreen_sel].
Qed.

Lemma putChar_sel a v v' : putChar a v = Some v' → sel_same v v'.
Proof.
  unfold putChar, printChar. intros E. rewrite bind_Some in E. destruct E as (v1 & E1 & E).
  etransitivity; [|by apply forwardCursor_sel]. case_match; [by injection E1 as <-|].
  rewrite bind_Some in E1. destruct E1 as (w & _ & E1). by apply updateScreen_sel in E1.
Qed.

Lemma lineJump_sel fuel v v' : lineJump fuel v = Some v' → sel_same v v'.
Proof.
  unfold lineJump. case_match eqn:Hj; [apply scroll_sel|]. clear Hj. generalize (cur_j v + 1) as aux. intros aux.
  revert v. induction fuel as [|fuel IH]; intros v; cbn [lineJump_loop]; case_match; try done; try by intros [= <-].
  intros E. rewrite bind_Some in E. destruct E as (v1 & E1 & E).
  etransitivity; [by apply forwardCursor_sel|by apply IH].
Qed.

Lemma backInLine_sel v : sel_same v (backInLine v).
Proof. unfold backInLine. by case_match. Qed.

Lemma echo_sel c t t' : echo_char c t = Some t' → sel_same (t_video t) (t_video t').
Proof.
  assert (Hw : ∀ f t1 t2, (∀ v v', f v = Some v' → sel_same v v') → with_video f t1 = Some t2 →
    sel_same (t_video t1) (t_video t2)).
  { intros f t1 t2 Hf E. unfold with_video in E. rewrite bind_Some in E. destruct E as (v & Ev & E).
    injection E as <-. by apply Hf. }
  unfold echo_char. case_match; [|case_match; [|case_match]].
  - intros E. rewrite bind_Some in E. destruct E as (t1 & E1 & E). injection E as <-.
    etransitivity; [apply backInLine_sel|]. etransitivity; [|apply backInLine_sel].
    by apply (Hw _ _ _ (putChar_sel 32)) in E1.
  - apply Hw, lineJump_sel.
  - intros E. rewrite bind_Some in E. destruct E as (x & _ & E). by apply (Hw _ _ _ (putChar_sel x)) in E.
  - by intros [= <-].
Qed.

Lemma putTerminalBuffer_sel c t t' : putTerminalBuffer c t = Some t' → sel_same (t_video t) (t_video t').
Proof.
  unfold putTerminalBuffer, isBufferFull. case_match; [by intros [= <-]|]. intros E.
  rewrite bind_Some in E. destruct E as (b & _ & E). rewrite bind_Some in E. destruct E as (t1 & E1 & E).
  apply echo_sel in E1. simpl in E1. injection E as <-. simpl. by case_match.
Qed.

(** ** Pasting *)

Lemma paste_loop_ok (n : nat) i t l :
  0 ≤ i → i + Z.of_nat n ≤ Z.of_nat (length (mouseSelect (t_video t))) →
  term_holds t l → video_ok (t_video t) →
  ∃ t' l', for_range n i (λ h t, c ← aget (mouseSelect (t_video t)) h; putTerminalBuffer c t) t = Some t' ∧
    term_holds t' l' ∧ video_ok (t_video t') ∧ sel_same (t_video t) (t_video t') ∧
    (len l + Z.of_nat n < BUFFERSIZE → l' = l ++ take n (drop (Z.to_nat i) (mouseSelect (t_video t)))).
Proof.
  revert i t l. induction n as [|n IH]; intros i t l Hi Hn Ht Hv; cbn [for_range].
  { exists t, l. split_and!; try done. by rewrite take_0, app_nil_r. }
  destruct (aget_some (mouseSelect (t_video t)) i) as [c Hc]; [lia|]. rewrite Hc. cbn [mbind option_bind].
  destruct (putTerminalBuffer_spec c t l Ht Hv) as (t1 & Hp & Hv1 & _ & _ & Ht1 & _). rewrite Hp. cbn [mbind option_bind].
  pose proof (putTerminalBuffer_sel _ _ _ Hp) as [Hsel Hsz].
  destruct (IH (i + 1) t1 _ ltac:(lia) ltac:(rewrite Hsel; lia) Ht1 Hv1) as (t' & l' & -> & Ht' & Hv' & Hs' & Hl).
  exists t', l'. split; [done|]. split; [done|]. split; [done|]. split; [etransitivity; [by split|done]|].
  intros Hlt. rewrite (proj2 (Z.ltb_lt _ _)) in Hl by lia. rewrite Hl, Hsel, <-app_assoc by (rewrite length_app; simpl; lia).
  f_equal. rewrite aget_nat in Hc by lia. rewrite (drop_S _ c _ Hc). cbn [take app]. repeat f_equal. lia.
Qed.

Lemma paste_ok t l :
  term_holds t l → video_ok (t_video t) → size (t_video t) ≤ HEIGHT * WIDTH →
  ∃ t' l', paste t = Some t' ∧ term_holds t' l' ∧ video_ok (t_video t') ∧ sel_same (t_video t) (t_video t') ∧
    (len l + Z.max 0 (size (t_video t)) < BUFFERSIZE →
       l' = l ++ take (Z.to_nat (size (t_video t))) (mouseSelect (t_video t))).
Proof.
  intros Ht Hv Hs. destruct (paste_loop_ok (Z.to_nat (size (t_video t))) 0 t l) as (t' & l' & E & Ht' & Hv' & Hs' & Hl);
    [done|rewrite (vo_select _ Hv); unfold HEIGHT, WIDTH in *; lia|done|done|].
  exists t', l'. split; [exact E|]. split; [done|]. split; [done|]. split; [done|].
  intros Hlt. rewrite drop_0 in Hl. apply Hl. lia.
Qed.

(** ** Copying *)

(** The character of the screen at a linear position; an empty cell reads as a space. *)
Definition shown_char v (i : Z) : Z :=
  let c := int8 (default 0 (vget (video v) (Z.quot i WIDTH) (Z.rem i WIDTH))) in if c =? 0 then SPACE else c.

Lemma copyMouse_chars initial end_ v :
  video_ok v → 0 ≤ initial ≤ end_ + 1 → end_ < HEIGHT * WIDTH →
  ∃ l, copyMouse initial end_ v = Some (set_select l (end_ - initial + 1) v) ∧
    length l = Z.to_nat (HEIGHT * WIDTH) ∧
    take (Z.to_nat (end_ - initial + 1)) l = shown_char v <$> seqZ initial (end_ - initial + 1).
Proof.
  intros Hok Hi He. unfold copyMouse. set (n := end_ - initial + 1).
  destruct (for_range_ind (λ h v', ∃ l, v' = set_select l n v ∧ length l = length (mouseSelect v) ∧
      ∀ k, 0 ≤ k < h → aget l k = Some (shown_char v (initial + k))) (Z.to_nat n) 0
    (λ h v, c ← getScreen (Z.quot (h + initial) WIDTH) (Z.rem (h + initial) WIDTH) v;
       let c := if int8 c =? 0 then SPACE else int8 c in
       l ← aset (mouseSelect v) h c; Some (set_select l (size v) v)) (set_select (mouseSelect v) n v))
    as (v' & Hv' & l & -> & Hl & Hc).
  - exists (mouseSelect v). split; [done|]. split; [done|]. lia.
  - intros h v1 Hh (l & -> & Hl & Hc). unfold getScreen. rewrite linear_inside by lia.
    rewrite (proj2 (Z.ltb_lt (h + initial) _)) by lia. simpl.
    destruct (vget_some (video v) (Z.quot (h + initial) WIDTH) (Z.rem (h + initial) WIDTH) (vo_video _ Hok)) as [x Hx].
    { apply validPosition_spec. rewrite linear_inside by lia. apply Z.ltb_lt. lia. }
    rewrite Hx. simpl. assert (Hlen : 0 ≤ h < Z.of_nat (length l)).
    { rewrite Hl, (vo_select _ Hok). unfold WIDTH, HEIGHT in *. lia. }
    rewrite aset_some by done. eexists. split; [done|]. eexists. split; [done|]. split; [by rewrite length_aput|].
    intros k Hk. destruct (decide (k = h)) as [->|].
    + rewrite aget_aput_eq by done. unfold shown_char. by rewrite (Z.add_comm initial), Hx.
    + rewrite aget_aput_ne by lia. apply Hc. lia.
  - exists l. split; [exact Hv'|]. rewrite Hl, (vo_select _ Hok). split; [done|].
    apply list_eq. intros k. destruct (decide (k < Z.to_nat n)%nat) as [Hk|Hk].
    + rewrite lookup_take_lt by done. specialize (Hc (Z.of_nat k)). rewrite aget_of_nat in Hc. rewrite Hc by lia.
      rewrite list_lookup_fmap, lookup_seqZ_lt by lia. done.
    + rewrite !lookup_ge_None_2; [done|rewrite length_fmap, length_seqZ; lia|rewrite length_take; lia].
Qed.

(** C12: what the mouse selects on the screen, from one position to a later one, is what
    pasting types, when the ring has room for all of it next to what is pending: the same
    characters in the same order, empty cells as spaces, after those already pending. *)
Theorem copy_paste f1 c1 f2 c2 t l :
  let i := f1 * WIDTH + c1 in
  let n := f2 * WIDTH + c2 - i + 1 in
  inside f1 c1 → inside f2 c2 → 0 ≤ n →
  term_holds t l → video_ok (t_video t) → len l + n < BUFFERSIZE →
  ∃ v t', selection f1 c1 f2 c2 (t_video t) = Some v ∧ paste (t_set_video v t) = Some t' ∧
    term_holds t' (l ++ (shown_char (t_video t) <$> seqZ i n)) ∧ video_ok (t_video t').
Proof.
  intros i n [Hf1 Hc1] [Hf2 Hc2] Hn Ht Hv Hlen. unfold selection. fold i.
  assert (Hi : 0 ≤ i) by (unfold i, WIDTH in *; lia).
  assert (He : f2 * WIDTH + c2 < HEIGHT * WIDTH) by (unfold WIDTH, HEIGHT in *; lia).
  destruct (copyMouse_chars i (f2 * WIDTH + c2) (t_video t) Hv) as (sel & -> & Hlsel & Hsel); [lia|done|].
  fold n in Hsel |- *. cbn [mbind option_bind].
  assert (Hv2 : video_ok (set_select sel n (t_video t))) by (destruct Hv; by split).
  destruct (draw_loop_ok drawMouse (Z.to_nat (HEIGHT * WIDTH - i)) draw_fuel i (f2 * WIDTH + c2) _ drawMouse_ok Hv2)
    as (a & -> & Hv3); [done|lia|unfold draw_fuel; lia|].
  destruct (paste_ok (t_set_video (set_attributes a (set_select sel n (t_video t))) t) l) as (t' & l' & E & Ht' & Hv' & _ & Hl');
    [destruct Ht; by split|done|simpl; unfold n, i in *; unfold WIDTH, HEIGHT in *; lia|].
  eexists _, t'. split; [done|]. split; [exact E|]. split; [|done]. simpl in Hl'. rewrite Hsel in Hl'.
  rewrite <-Hl' by lia. done.
Qed.

(** ** The state between interrupts *)

Record mouse_ok o : Prop := {
  mo_cycle : 0 ≤ mouse_cycle o ≤ 4;
  mo_byte : length (mouse_byte o) = 3%nat;
  mo_range : ∀ b, b ∈ mouse_byte o → -128 ≤ b < 128;
  mo_at : inside (my o) (mx o);
  mo_init : inside (yinit o) (xinit o);
  mo_fin : inside (yfin o) (xfin o);
}.

Record desk_ok (s : Desk) : Prop := {
  dk_mouse : mouse_ok (fst s);
  dk_video : video_ok (t_video (snd s));
  dk_size : size (t_video (snd s)) ≤ HEIGHT * WIDTH;
  dk_term : ∃ l, term_holds (snd s) l;
}.

Lemma desk_ok_mouse o s : desk_ok s → mouse_ok o → desk_ok (o, snd s).
Proof. intros [? ? ? ?] ?. by split. Qed.

Lemma on_video_ok f (s : Desk) :
  desk_ok s → (∃ v, f (t_video (snd s)) = Some v ∧ video_ok v ∧ size v ≤ HEIGHT * WIDTH) →
  ∃ s', on_video f s = Some s' ∧ fst s' = fst s ∧ desk_ok s'.
Proof.
  intros [Hm Hv Hs [l Hl]] (v & E & Hv' & Hs'). unfold on_video, with_video. rewrite E. simpl.
  eexists. split; [done|]. split; [done|]. split; simpl; try done. exists l. destruct Hl. by split.
Qed.

Lemma select_ok draw (s : Desk) :
  desk_ok s →
  (∀ f1 c1 f2 c2 v, video_ok v → inside f1 c1 → inside f2 c2 → size v ≤ HEIGHT * WIDTH →
    ∃ v', draw f1 c1 f2 c2 v = Some v' ∧ video_ok v' ∧ size v' ≤ HEIGHT * WIDTH) →
  ∃ s', on_selection draw s = Some s' ∧ fst s' = fst s ∧ desk_ok s'.
Proof.
  intros Hs Hd. unfold on_selection. pose proof (dk_mouse _ Hs) as Hm. apply on_video_ok; [done|].
  case_match; apply Hd; solve [apply Hs|apply Hm].
Qed.

Lemma undo_ok (s : Desk) : desk_ok s → ∃ s', on_selection undoSelection s = Some s' ∧ fst s' = fst s ∧ desk_ok s'.
Proof.
  intros Hs. apply select_ok; [done|]. intros f1 c1 f2 c2 v Hv H1 _ Hsz.
  destruct (undoSelection_ok f1 c1 f2 c2 v Hv H1) as (a & E & Hv'). by eexists.
Qed.

Lemma sel_ok (s : Desk) : desk_ok s → ∃ s', on_selection selection s = Some s' ∧ fst s' = fst s ∧ desk_ok s'.
Proof.
  intros Hs. apply select_ok; [done|]. intros f1 c1 f2 c2 v Hv H1 H2 _. by apply selection_ok.
Qed.

Lemma update_ok (s : Desk) : desk_ok s → ∃ s', on_video updateScreen s = Some s' ∧ fst s' = fst s ∧ desk_ok s'.
Proof.
  intros Hs. apply on_video_ok; [done|]. destruct (video_ok_update _ (dk_video _ Hs)) as (t & E & Hv & _).
  eexists. split; [exact E|]. split; [done|]. apply Hs.
Qed.

Lemma left_button_ok b0 (s : Desk) :
  desk_ok s → ∃ s', left_button b0 s = Some s' ∧ desk_ok s' ∧
    mouse_cycle (fst s') = mouse_cycle (fst s) ∧ mx (fst s') = mx (fst s) ∧ my (fst s') = my (fst s).
Proof.
  intros Hs. unfold left_button. destruct (Z.land b0 1 =? 0); simpl.
  - destruct (selecting (fst s) =? 0); simpl; [by exists s|].
    destruct (undo_ok s Hs) as (s1 & -> & E1 & H1). cbn [mbind option_bind].
    destruct (update_ok (set_selecting 0 (fst s1), snd s1)) as (s2 & -> & E2 & H2).
    { apply desk_ok_mouse; [done|]. destruct (dk_mouse _ H1). by split. }
    exists s2. rewrite E2. simpl. by rewrite E1.
  - destruct (selecting (fst s) =? 0); simpl.
    + set (o := set_fin _ _ _). assert (Ho : mouse_ok o) by (destruct (dk_mouse _ Hs); by split).
      destruct (sel_ok (o, snd s) (desk_ok_mouse _ _ Hs Ho)) as (s2 & -> & E2 & H2). exists s2. by rewrite E2.
    + destruct (undo_ok s Hs) as (s1 & -> & E1 & H1). cbn [mbind option_bind]. set (o := set_fin _ _ _).
      assert (Ho : mouse_ok o) by (destruct (dk_mouse _ H1); by split).
      destruct (sel_ok (o, snd s1) (desk_ok_mouse _ _ H1 Ho)) as (s2 & -> & E2 & H2). exists s2. rewrite E2. simpl. by rewrite E1.
Qed.

Lemma right_button_ok b0 (s : Desk) :
  desk_ok s → ∃ s', right_button b0 s = Some s' ∧ desk_ok s' ∧
    mouse_cycle (fst s') = mouse_cycle (fst s) ∧ mx (fst s') = mx (fst s) ∧ my (fst s') = my (fst s).
Proof.
  intros Hs. unfold right_button. case_match.
  { eexists. split; [done|]. split; [|done]. apply desk_ok_mouse; [done|]. destruct (dk_mouse _ Hs). by split. }
  case_match; [|by exists s]. destruct (dk_term _ Hs) as [l Hl].
  destruct (paste_ok (snd s) l Hl (dk_video _ Hs) (dk_size _ Hs)) as (t' & l' & -> & Ht & Hv & [_ Hsz] & _).
  cbn [mbind option_bind]. eexists. split; [done|]. split; [|done].
  split; simpl; [destruct (dk_mouse _ Hs); by split|done|rewrite Hsz; apply Hs|by exists l'].
Qed.

Lemma relative_range b0 sign b : -128 ≤ b < 128 → -256 ≤ relative b0 sign b ≤ 127.
Proof.
  intros Hb. unfold relative. case_match; [|lia].
  assert (Hr : (-256 <=? int32 (Z.lor (uint32 (b + 128 - 128)) 0xFFFFFF00)) &&
    (int32 (Z.lor (uint32 (b + 128 - 128)) 0xFFFFFF00) <=? 127) = true).
  { apply (all_below (λ i, (-256 <=? int32 (Z.lor (uint32 (i - 128)) 0xFFFFFF00)) &&
      (int32 (Z.lor (uint32 (i - 128)) 0xFFFFFF00) <=? 127)) 256); [vm_compute; reflexivity|lia]. }
  rewrite Z.add_simpl_r, andb_true_iff, !Z.leb_le in Hr. lia.
Qed.

(** The pointer moves by at most 25 positions each way. *)
Definition near (o o' : Mouse) : Prop := Z.abs (mx o' - mx o) ≤ 25 ∧ Z.abs (my o' - my o) ≤ 25.

Lemma move_ok b0 b1 b2 (s : Desk) :
  desk_ok s → -128 ≤ b1 < 128 → -128 ≤ b2 < 128 →
  ∃ s', move b0 b1 b2 s = Some s' ∧ desk_ok s' ∧ near (fst s) (fst s').
Proof.
  intros Hs H1 H2. unfold move. pose proof (relative_range b0 0x10 b1 H1) as Rx.
  pose proof (relative_range b0 0x20 b2 H2) as Ry. pose proof (mo_at _ (dk_mouse _ Hs)) as [Hy Hx].
  assert (Hd : ∀ (draw : Z → Z → Video → option Video) (f c : Z) (s : Desk), desk_ok s →
    (∀ f c v, video_ok v → ∃ a, draw f c v = Some (set_attributes a v) ∧ video_ok (set_attributes a v)) →
    ∃ s', on_video (draw f c) s = Some s' ∧ fst s' = fst s ∧ desk_ok s').
  { intros draw f c s' Hs' Hd. apply on_video_ok; [done|]. destruct (Hd f c _ (dk_video _ Hs')) as (a & E & Hv).
    eexists. split; [exact E|]. split; [done|]. apply Hs'. }
  destruct (Hd udrawMouse (my (fst s)) (mx (fst s)) s Hs udrawMouse_ok) as (s1 & -> & E1 & Hs1). cbn [mbind option_bind].
  rewrite E1.
  set (nx := int32 (mx (fst s) + _)). set (ny := int32 (my (fst s) - _)).
  match goal with |- context [set_xy ?a ?b _] => set (x := a); set (y := b) end.
  assert (Hxy : inside y x ∧ Z.abs (x - mx (fst s)) ≤ 25 ∧ Z.abs (y - my (fst s)) ≤ 25).
  { unfold x, y, nx, ny, inside, WIDTH, HEIGHT in *. rewrite !int32_id by (unfold INT_MIN, INT_MAX; Z.to_euclidean_division_equations; lia).
    repeat case_match; rewrite ?andb_true_iff, ?Z.ltb_lt, ?Z.leb_le in *; Z.to_euclidean_division_equations; lia. }
  destruct Hxy as (Hin & Nx & Ny).
  destruct (Hd drawMouse y x (set_xy x y (fst s), snd s1)) as (s2 & -> & E2 & Hs2); [|apply drawMouse_ok|].
  { apply desk_ok_mouse; [done|]. destruct (dk_mouse _ Hs). by split. }
  cbn [mbind option_bind]. destruct (update_ok s2 Hs2) as (s3 & E3 & Ef & Hs3). exists s3. split; [exact E3|]. split; [done|].
  rewrite Ef, E2. by split.
Qed.

Lemma set_cycle_ok c (s : Desk) : 0 ≤ c ≤ 4 → desk_ok s → desk_ok (set_cycle c (fst s), snd s).
Proof. intros Hc Hs. apply desk_ok_mouse; [done|]. destruct (dk_mouse _ Hs). by split. Qed.

Lemma mouse_packet_ok (s : Desk) :
  desk_ok s → ∃ s', mouse_packet s = Some s' ∧ desk_ok s' ∧ near (fst s) (fst s') ∧ mouse_cycle (fst s') = 4.
Proof.
  intros Hs. pose proof (dk_mouse _ Hs) as [_ Hb Hr _ _ _]. unfold mouse_packet.
  destruct (mouse_byte (fst s)) as [|b0 [|b1 [|b2 [|? ?]]]]; try done.
  change (aget [b0; b1; b2] 0) with (Some b0). cbn [mbind option_bind].
  case_match.
  { eexists. split; [done|]. split; [by apply set_cycle_ok|]. split; [|done]. unfold near. simpl. lia. }
  change (aget [b0; b1; b2] 1) with (Some b1). change (aget [b0; b1; b2] 2) with (Some b2). cbn [mbind option_bind].
  destruct (left_button_ok b0 s Hs) as (s1 & -> & Hs1 & _ & X1 & Y1). cbn [mbind option_bind].
  destruct (right_button_ok b0 s1 Hs1) as (s2 & -> & Hs2 & _ & X2 & Y2). cbn [mbind option_bind].
  destruct (move_ok b0 b1 b2 s2 Hs2) as (s3 & -> & Hs3 & N3); [apply Hr; set_solver..|]. cbn [mbind option_bind].
  eexists. split; [done|]. split; [by apply set_cycle_ok|]. split; [|done].
  unfold near in *. rewrite X2, Y2, X1, Y1 in N3. exact N3.
Qed.

Lemma mouse_byte_in_ok b (s : Desk) :
  desk_ok s → mouse_cycle (fst s) ≤ 2 → -128 ≤ b < 128 →
  ∃ ret s', mouse_byte_in b s = Some (ret, s') ∧ desk_ok s' ∧ near (fst s) (fst s') ∧
    (mouse_cycle (fst s') ≤ 2 ∧ mx (fst s') = mx (fst s) ∧ my (fst s') = my (fst s) ∨ mouse_cycle (fst s') = 4 ∧ ret = false).
Proof.
  intros Hs Hc Hb. pose proof (dk_mouse _ Hs) as [Hcy Hl Hr Ha Hi Hf]. unfold mouse_byte_in.
  assert (Hok : ∀ i, 0 ≤ i < 3 → aset (mouse_byte (fst s)) i b = Some (aput (mouse_byte (fst s)) i b)).
  { intros i Hi'. apply aset_some. rewrite Hl. lia. }
  assert (Hset : ∀ i, mouse_ok (set_byte (aput (mouse_byte (fst s)) i b) (fst s))).
  { intros i. split; simpl; rewrite ?length_aput; try done. intros x Hx. unfold aput in Hx.
    apply list_elem_of_lookup in Hx as [k Hk]. apply list_lookup_insert_Some in Hk as [(_ & <- & _)|[_ Hk]]; [done|].
    apply Hr. by eapply list_elem_of_lookup_2. }
  assert (Hn : near (fst s) (fst s)) by (unfold near; lia).
  assert (Hup : ∀ i, mouse_cycle (fst s) = 0 ∨ mouse_cycle (fst s) = 1 →
    desk_ok (set_cycle (uint8 (mouse_cycle (fst s) + 1)) (set_byte (aput (mouse_byte (fst s)) i b) (fst s)), snd s) ∧
    uint8 (mouse_cycle (fst s) + 1) ≤ 2).
  { intros i Hcc. rewrite wrap_u_id by lia. split; [|lia].
    apply (set_cycle_ok _ (set_byte (aput (mouse_byte (fst s)) i b) (fst s), snd s)); [lia|].
    apply (desk_ok_mouse _ s); [done|apply Hset]. }
  destruct (Z.eqb_spec (mouse_cycle (fst s)) 0) as [E0|E0].
  { rewrite Hok by lia. cbn [mbind option_bind]. case_match; eexists _, _; (split; [done|]).
    - split; [by apply (desk_ok_mouse _ s)|]. split; [done|]. left. split; [simpl; lia|done].
    - destruct (Hup 0) as [H1 H2]; [by left|]. split; [done|]. split; [done|]. by left. }
  destruct (Z.eqb_spec (mouse_cycle (fst s)) 1) as [E1|E1].
  { rewrite Hok by lia. cbn [mbind option_bind]. eexists _, _. split; [done|].
    destruct (Hup 1) as [H1 H2]; [by right|]. split; [done|]. split; [done|]. by left. }
  rewrite (proj2 (Z.eqb_eq _ 2)) by lia. rewrite Hok by lia. cbn [mbind option_bind].
  destruct (mouse_packet_ok (set_byte (aput (mouse_byte (fst s)) 2 b) (fst s), snd s)) as (s' & -> & Hs' & Hn' & H4).
  { by apply (desk_ok_mouse _ s). }
  eexists _, s'. split; [done|]. split; [done|]. split; [exact Hn'|]. by right.
Qed.

(** ** An interrupt *)

Section interrupt.
Context {D : Type} `{Ports D}.

(** The controller has at most [k] bytes to give, the last status read being [status]. *)
Fixpoint drained (k : nat) (status : Z) (d : D) : bool :=
  (Z.land status 0x01 =? 0) ||
  match k with
  | O => false
  | S k' => let d := snd (inputb 0x60 d) in drained k' (fst (inputb 0x64 d)) (snd (inputb 0x64 d))
  end.

Lemma mouse_loop_ok (k fuel : nat) status (s : Desk) d :
  drained k status d = true → (k ≤ fuel)%nat → desk_ok s → mouse_cycle (fst s) ≤ 2 →
  ∃ s' d', mouse_loop fuel status s d = Some (s', d') ∧ desk_ok s' ∧ mouse_cycle (fst s') ≤ 2 ∧ near (fst s) (fst s').
Proof.
  revert k status s d. induction fuel as [|fuel IH]; intros k status s d Hd Hk Hs Hc; cbn [mouse_loop].
  - destruct k; [|lia]. simpl in Hd. rewrite orb_false_r in Hd. rewrite Hd. exists s, d. unfold near. split_and!; done || lia.
  - destruct (Z.land status 1 =? 0) eqn:E1; [exists s, d; unfold near; split_and!; done || lia|].
    destruct k as [|k]; simpl in Hd; rewrite E1 in Hd; [done|]. cbn [orb] in Hd.
    destruct (inputb 96 d) as [b d1] eqn:Eb. simpl in Hd.
    assert (Hstep : ∃ ret s', (if negb (Z.land status 0x20 =? 0) then mouse_byte_in (int8 b) s else Some (false, s)) = Some (ret, s') ∧
      desk_ok s' ∧ near (fst s) (fst s') ∧ (mouse_cycle (fst s') ≤ 2 ∧ mx (fst s') = mx (fst s) ∧ my (fst s') = my (fst s) ∨
        mouse_cycle (fst s') = 4 ∧ ret = false)).
    { case_match; [|exists false, s; unfold near; split_and!; try (done || lia); by left].
      apply mouse_byte_in_ok; [done|done|]. pose proof (wrap_s_range 8 b). simpl in *. lia. }
    destruct Hstep as (ret & s' & E & Hs' & Hn & Hcase). unfold Desk in E |- *. rewrite E. cbn [mbind option_bind].
    destruct ret.
    { exists s', d1. split; [done|]. split; [done|]. destruct Hcase as [[? _]|[_ ?]]; done. }
    destruct (inputb 100 d1) as [st d2] eqn:Es. simpl in Hd. destruct Hcase as [(Hc2 & X & Y)|[H4 _]].
    + c_tests. destruct (IH k st s' d2 Hd ltac:(lia) Hs' Hc2) as (s2 & d3 & -> & Hs2 & Hcc & Hn2).
      exists s2, d3. split_and!; try done; unfold near in *; lia.
    + c_tests. eexists _, d2. split; [done|]. split; [by apply set_cycle_ok|]. simpl. split; [lia|exact Hn].
Qed.

(** C11: whatever bytes the device gives, an interrupt of the mouse ends once the controller
    is drained: the pointer and the selection stay on the screen, the pointer moves by at
    most 25 places, the screen and the terminal's ring stay well-formed, and no array is
    left. *)
Theorem mouse_handler_safe (fuel : nat) (s : Desk) (d : D) :
  drained fuel (fst (inputb 0x64 d)) (snd (inputb 0x64 d)) = true → desk_ok s → mouse_cycle (fst s) ≤ 2 →
  ∃ s' d', mouse_handlerC fuel s d = Some (s', d') ∧ desk_ok s' ∧ mouse_cycle (fst s') ≤ 2 ∧ near (fst s) (fst s').
Proof.
  intros Hd Hs Hc. unfold mouse_handlerC. destruct (inputb 100 d) as [st d1].
  by apply (mouse_loop_ok fuel fuel).
Qed.
End interrupt.

(** ** The handshake *)

Section handshake.
Context {D : Type} `{Ports D}.
Implicit Types s : D * list (Z * Z).

Lemma inputb_log p s : snd (snd (inputb p s)) = snd s.
Proof. unfold inputb. simpl. by destruct (dev_in _ (fst s)). Qed.

Lemma outputb_log p v s : snd (outputb p v s) = snd s ++ [(uint16 p, uint8 v)].
Proof. done. Qed.

Lemma mouse_wait_log type s : snd (mouse_wait type s) = snd s.
Proof.
  unfold mouse_wait. generalize (Z.to_nat 99999) as n. intros n. revert s.
  induction n as [|n IH]; intros s; cbn [mouse_wait_loop]; [done|].
  pose proof (inputb_log 0x64 s) as Hs. destruct (inputb 0x64 s) as [v s']. simpl in Hs.
  case_match; [done|]. by rewrite IH.
Qed.

Lemma mouse_write_log w s : snd (mouse_write w s) = snd s ++ [(0x64, 0xD4); (0x60, uint8 w)].
Proof. unfold mouse_write. by rewrite outputb_log, mouse_wait_log, outputb_log, mouse_wait_log, <-app_assoc. Qed.

Lemma mouse_read_log s : snd (snd (mouse_read s)) = snd s.
Proof.
  unfold mouse_read. pose proof (inputb_log 0x60 (mouse_wait 0 s)) as Hs.
  destruct (inputb 0x60 (mouse_wait 0 s)) as [v s']. simpl in *. by rewrite Hs, mouse_wait_log.
Qed.

(** With every device [mouse_init] ends having sent exactly the commands of the
    handshake in their order: enable the auxiliary port, read the status byte, write it
    back with the interrupt of the mouse enabled and the other bits as they were, set the
    defaults and turn reporting on. *)
Theorem mouse_init_handshake (d : D) :
  ∃ v, snd (mouse_init (d, [])) =
    [(0x64, 0xA8); (0x64, 0x20); (0x64, 0x60); (0x60, v); (0x64, 0xD4); (0x60, 0xF6); (0x64, 0xD4); (0x60, 0xF4)] ∧
    0 ≤ v < 256 ∧ Z.testbit v 1 = true.
Proof.
  unfold mouse_init. set (s1 := mouse_wait 0 _).
  assert (H1 : snd s1 = [(0x64, 0xA8); (0x64, 0x20)]).
  { unfold s1. by rewrite mouse_wait_log, outputb_log, mouse_wait_log, outputb_log, mouse_wait_log. }
  pose proof (inputb_log 0x60 s1) as H2. destruct (inputb 0x60 s1) as [v s2]. cbn [snd] in H2.
  set (s3 := mouse_write 0xF6 _). pose proof (mouse_read_log s3) as H4. destruct (mouse_read s3) as [r1 s4]. cbn [snd] in H4.
  set (s5 := mouse_write 0xF4 s4). pose proof (mouse_read_log s5) as H6. destruct (mouse_read s5) as [r2 s6]. cbn [snd] in H6.
  exists (uint8 (uint8 (Z.lor v 2))). split; [|split].
  - rewrite H6. unfold s5. rewrite mouse_write_log, H4. unfold s3.
    rewrite mouse_write_log, !outputb_log, mouse_wait_log, outputb_log, mouse_wait_log, H2, H1. done.
  - by apply wrap_u_range.
  - unfold wrap_u. change (2 ^ 8) with 256. rewrite Z.mod_mod by lia. change 256 with (2 ^ 8).
    by rewrite Z.mod_pow2_bits_low, Z.lor_spec, orb_true_r by lia.
Qed.
End handshake.

(** ** Witnesses *)

Definition demo_desk : Desk := (mouse_static, demo_term).

Lemma demo_desk_ok : desk_ok demo_desk.
Proof.
  split; [|exact demo_video_ok|by apply Z.leb_le|exists []; exact demo_term_holds].
  split; unfold inside; simpl; try (unfold WIDTH, HEIGHT; lia).
  intros b Hb. rewrite !elem_of_cons, elem_of_nil in Hb. destruct Hb as [->|[->|[->|[]]]]; lia.
Qed.

(** A controller with the mouse's bytes [l] to give. *)
Definition Packet : Type := list Z.
#[export] Instance Packet_ports : Ports Packet := {|
  dev_in p d := if p =? 0x60 then (List.hd 0 d, List.tl d) else (if bool_decide (d = []) then 0 else 0x21, d);
  dev_out p v d := d;
|}.

Lemma mouse_handler_safe_witness :
  ∃ s' d', mouse_handlerC (D := Packet) 9 demo_desk [0x09; 0x40; 0x40] = Some (s', d') ∧ desk_ok s'.
Proof.
  destruct (mouse_handler_safe (D := Packet) 9 demo_desk [0x09; 0x40; 0x40]) as (s' & d' & E & Hs & _).
  - by vm_compute.
  - exact demo_desk_ok.
  - simpl. lia.
  - exact (ex_intro _ s' (ex_intro _ d' (conj E Hs))).
Defined.

(** The screen with "hi" on it. *)
Definition demo_hi : Video := default demo_video (v ← putChar 104 demo_video; putChar 105 v).

Lemma demo_hi_ok : video_ok demo_hi.
Proof.
  unfold demo_hi. destruct (putChar_correct 104 _ demo_video_ok) as (v & -> & Hv & _). cbn [mbind option_bind].
  by destruct (putChar_correct 105 v Hv) as (v2 & -> & Hv2 & _).
Qed.

Lemma term_holds_video v t l : term_holds t l → term_holds (t_set_video v t) l.
Proof. intros [? ? ? ? ? ? ?]. by split. Qed.

Definition demo_term_hi : Terminal := t_set_video demo_hi demo_term.

Lemma copy_paste_witness :
  ∃ v t', selection 3 0 3 2 (t_video demo_term_hi) = Some v ∧ paste (t_set_video v demo_term_hi) = Some t' ∧
    term_holds t' [104; 105; 32].
Proof.
  destruct (copy_paste 3 0 3 2 demo_term_hi []) as (v & t' & E1 & E2 & Ht & _).
  - unfold inside, WIDTH, HEIGHT. lia.
  - unfold inside, WIDTH, HEIGHT. lia.
  - unfold WIDTH. lia.
  - exact (term_holds_video demo_hi demo_term [] demo_term_holds).
  - exact demo_hi_ok.
  - unfold BUFFERSIZE, WIDTH. simpl. lia.
  - exists v, t'. split; [exact E1|]. split; [exact E2|].
    refine (eq_ind _ (term_holds t') Ht _ _). vm_compute. reflexivity.
Defined.

(** A movement of 128 to the right arrives as one to the left. *)
Example relative_positive : relative 0x08 0x10 (int8 128) = -128.
Proof. reflexivity. Qed.
