(* ===== verification/Machine.v ===== *)
(** * The whole machine

    The state of every component side by side; each component sees its part as a
    [Field], with the processes as its world, so that its operations run unchanged in the
    machine.  [md_entry] is the fifth entry of the page directory, through which the
    user's addresses from 0x800000 on are translated, as the processor holds it:
    [updateCR3] loads it from memory. *)

From S2P Require Import Prelude Buddy KMonad CString Structs World Scheduler SchedulerSpec Mutex.
From S2P Require Import Semaphores Pipes Malloc Sleep Video Terminal Ports Keyboard Mouse.

Abbreviation Kern := (Kernel typeBuddyArray).

#[export] Instance Kernel_heap : WorldHeap Kern := {|
  w_heap k p := p_heap <$> k_procs k !! p;
  w_set_heap p h k := upd_process p (λ pr, mkProcess (p_pid pr) (p_state pr) (p_description pr)
    (p_activeThread pr) (p_numberOfThreads pr) (p_thread pr) (p_pipesOpened pr) (p_occupiedPosition pr)
    (p_pipePids pr) (p_blocked pr) (p_pipesStruct pr) (p_pipes pr) h (p_pagesIndex pr) (p_pages pr)) k;
  w_allocPage := k_allocPage;
  w_addPagesToProcess := addPagesToProcess;
|}.

(** The functions that the entries of [sysCalls] point to: [fn_x] is [sys_call_x]. *)
Inductive SysCall :=
| fn_writeC | fn_readC | fn_clearC | fn_echoC | fn_runC
| fn_getAddressOfModuleC | fn_printProcesses | fn_changeModuleEnvironmetC
| fn_undoBackwardsC | fn_kill | fn_createThread | fn_mallock
| fn_createProcess | fn_sleep | fn_wait | fn_signal | fn_semOpen
| fn_semCreate | fn_semClose | fn_getMutex | fn_lockMutex
| fn_freeMutex | fn_closeMutex | fn_openPipe | fn_createPipe
| fn_closePipe | fn_read | fn_write.

#[export] Instance SysCall_eq_dec : EqDecision SysCall.
Proof. solve_decision. Defined.

Section machine.
Context {D : Type}.

Record Machine := mkMachine {
  md_kernel : Kern;
  md_mutexes : list Mutex;
  md_admin : Z;
  md_semaphores : list Semaphore;
  md_semaphoreMutex : Z;
  md_pipeNames : list Z;
  md_pipes : list Z;
  md_lastPipeName : Z;
  md_ipcAdminMutex : Z;
  md_pipeStructs : gmap Z Pipe;
  md_heapBase : Z;
  md_kernelBase : Z;
  md_blocks : gmap Z t_block;
  md_sleepListeners : Z;
  md_auxj : Z;
  md_sleepPIDS : list Z;
  md_sleepCounter : list Z;
  md_alarmSleep : list Z;
  md_term : Terminal;
  md_kbd : Keyboard;
  md_mouse : Mouse;
  md_device : D;
  md_idt : gmap Z IDT_Entry;
  md_sysCalls : list (option SysCall);
  md_entry : Z;
}.

(** The setters, in the order of the fields. *)
Definition md_set_kernel k s := mkMachine k (md_mutexes s) (md_admin s) (md_semaphores s) (md_semaphoreMutex s)
  (md_pipeNames s) (md_pipes s) (md_lastPipeName s) (md_ipcAdminMutex s) (md_pipeStructs s) (md_heapBase s)
  (md_kernelBase s) (md_blocks s) (md_sleepListeners s) (md_auxj s) (md_sleepPIDS s) (md_sleepCounter s)
  (md_alarmSleep s) (md_term s) (md_kbd s) (md_mouse s) (md_device s) (md_idt s) (md_sysCalls s) (md_entry s).
Definition md_set_mutexes k ms a s := mkMachine k ms a (md_semaphores s) (md_semaphoreMutex s)
  (md_pipeNames s) (md_pipes s) (md_lastPipeName s) (md_ipcAdminMutex s) (md_pipeStructs s) (md_heapBase s)
  (md_kernelBase s) (md_blocks s) (md_sleepListeners s) (md_auxj s) (md_sleepPIDS s) (md_sleepCounter s)
  (md_alarmSleep s) (md_term s) (md_kbd s) (md_mouse s) (md_device s) (md_idt s) (md_sysCalls s) (md_entry s).
Definition md_set_sems l i s := mkMachine (md_kernel s) (md_mutexes s) (md_admin s) l i
  (md_pipeNames s) (md_pipes s) (md_lastPipeName s) (md_ipcAdminMutex s) (md_pipeStructs s) (md_heapBase s)
  (md_kernelBase s) (md_blocks s) (md_sleepListeners s) (md_auxj s) (md_sleepPIDS s) (md_sleepCounter s)
  (md_alarmSleep s) (md_term s) (md_kbd s) (md_mouse s) (md_device s) (md_idt s) (md_sysCalls s) (md_entry s).
Definition md_set_ipc ns ps l a st s := mkMachine (md_kernel s) (md_mutexes s) (md_admin s) (md_semaphores s)
  (md_semaphoreMutex s) ns ps l a st (md_heapBase s)
  (md_kernelBase s) (md_blocks s) (md_sleepListeners s) (md_auxj s) (md_sleepPIDS s) (md_sleepCounter s)
  (md_alarmSleep s) (md_term s) (md_kbd s) (md_mouse s) (md_device s) (md_idt s) (md_sysCalls s) (md_entry s).
Definition md_set_heap k hb kb bs s := mkMachine k (md_mutexes s) (md_admin s) (md_semaphores s) (md_semaphoreMutex s)
  (md_pipeNames s) (md_pipes s) (md_lastPipeName s) (md_ipcAdminMutex s) (md_pipeStructs s) hb
  kb bs (md_sleepListeners s) (md_auxj s) (md_sleepPIDS s) (md_sleepCounter s)
  (md_alarmSleep s) (md_term s) (md_kbd s) (md_mouse s) (md_device s) (md_idt s) (md_sysCalls s) (md_entry s).
Definition md_set_sleep k n j p c a s := mkMachine k (md_mutexes s) (md_admin s) (md_semaphores s) (md_semaphoreMutex s)
  (md_pipeNames s) (md_pipes s) (md_lastPipeName s) (md_ipcAdminMutex s) (md_pipeStructs s) (md_heapBase s)
  (md_kernelBase s) (md_blocks s) n j p c
  a (md_term s) (md_kbd s) (md_mouse s) (md_device s) (md_idt s) (md_sysCalls s) (md_entry s).
Definition md_set_drivers t k o d s := mkMachine (md_kernel s) (md_mutexes s) (md_admin s) (md_semaphores s) (md_semaphoreMutex s)
  (md_pipeNames s) (md_pipes s) (md_lastPipeName s) (md_ipcAdminMutex s) (md_pipeStructs s) (md_heapBase s)
  (md_kernelBase s) (md_blocks s) (md_sleepListeners s) (md_auxj s) (md_sleepPIDS s) (md_sleepCounter s)
  (md_alarmSleep s) t k o d (md_idt s) (md_sysCalls s) (md_entry s).
Definition md_set_tables i c e s := mkMachine (md_kernel s) (md_mutexes s) (md_admin s) (md_semaphores s) (md_semaphoreMutex s)
  (md_pipeNames s) (md_pipes s) (md_lastPipeName s) (md_ipcAdminMutex s) (md_pipeStructs s) (md_heapBase s)
  (md_kernelBase s) (md_blocks s) (md_sleepListeners s) (md_auxj s) (md_sleepPIDS s) (md_sleepCounter s)
  (md_alarmSleep s) (md_term s) (md_kbd s) (md_mouse s) (md_device s) i c e.

(** ** The components' views *)

#[export] Instance Machine_kernel : Field Machine Kern := {| fget := md_kernel; fset := md_set_kernel |}.

#[export] Instance Machine_mutexes : Field Machine (MutexState Kern) := {|
  fget s := mkMS (md_mutexes s) (md_admin s) (md_kernel s);
  fset ms s := md_set_mutexes (m_world ms) (mutexes ms) (adminMutex ms) s;
|}.

#[export] Instance Machine_sems : Field Machine (SemState Kern) := {|
  fget s := mkSS (md_semaphores s) (md_semaphoreMutex s) (fget s);
  fset ss s := md_set_sems (semaphores ss) (semaphoreMutex ss) (fset (s_mutexes ss) s);
|}.

#[export] Instance Machine_ipc : Field Machine (IPCState Kern) := {|
  fget s := mkIPC (md_pipeNames s) (md_pipes s) (md_lastPipeName s) (md_ipcAdminMutex s) (md_pipeStructs s) (fget s);
  fset ps s := md_set_ipc (pipeNames ps) (pipes ps) (lastPipeName ps) (ipcAdminMutex ps) (ipc_structs ps)
    (fset (ipc_mutexes ps) s);
|}.

#[export] Instance Machine_heap : Field Machine (HeapState Kern) := {|
  fget s := mkHeap (md_heapBase s) (md_kernelBase s) (md_blocks s) (md_kernel s);
  fset h s := md_set_heap (h_world h) (heapBase h) (kernelBase h) (h_blocks h) s;
|}.

#[export] Instance Machine_sleep : Field Machine (SleepState Kern) := {|
  fget s := mkSl (md_sleepListeners s) (md_auxj s) (md_sleepPIDS s) (md_sleepCounter s) (md_alarmSleep s) (md_kernel s);
  fset l s := md_set_sleep (sl_world l) (sleepListeners l) (auxj l) (sleepPIDS l) (sleepCounter l) (alarmSleep l) s;
|}.

#[export] Instance Machine_term : Field Machine Terminal :=
  {| fget := md_term; fset t s := md_set_drivers t (md_kbd s) (md_mouse s) (md_device s) s |}.
#[export] Instance Machine_kbd : Field Machine Keyboard :=
  {| fget := md_kbd; fset k s := md_set_drivers (md_term s) k (md_mouse s) (md_device s) s |}.
#[export] Instance Machine_desk : Field Machine Desk :=
  {| fget s := (md_mouse s, md_term s); fset o s := md_set_drivers (snd o) (md_kbd s) (fst o) (md_device s) s |}.
#[export] Instance Machine_device : Field Machine D :=
  {| fget := md_device; fset d s := md_set_drivers (md_term s) (md_kbd s) (md_mouse s) d s |}.
#[export] Instance Machine_video : Field Machine Video :=
  {| fget s := t_video (md_term s); fset v s := fset (t_set_video v (md_term s)) s |}.

(** They are views: what was put is read, the last one counts, what was read changes nothing. *)
#[export] Instance Machine_kernel_laws : FieldLaws Machine Kern.
Proof. split; [done|done|by intros []]. Qed.
#[export] Instance Machine_mutexes_laws : FieldLaws Machine (MutexState Kern).
Proof. split; [by intros []|by intros [] []|by intros []]. Qed.
#[export] Instance Machine_sems_laws : FieldLaws Machine (SemState Kern).
Proof. split; [by intros [? ? []]|by intros [? ? []] [? ? []]|by intros []]. Qed.
#[export] Instance Machine_ipc_laws : FieldLaws Machine (IPCState Kern).
Proof. split; [by intros [? ? ? ? ? []]|by intros [? ? ? ? ? []] [? ? ? ? ? []]|by intros []]. Qed.
#[export] Instance Machine_heap_laws : FieldLaws Machine (HeapState Kern).
Proof. split; [by intros []|by intros [] []|by intros []]. Qed.
#[export] Instance Machine_sleep_laws : FieldLaws Machine (SleepState Kern).
Proof. split; [by intros []|by intros [] []|by intros []]. Qed.
#[export] Instance Machine_term_laws : FieldLaws Machine Terminal.
Proof. split; [done|done|by intros []]. Qed.
#[export] Instance Machine_video_laws : FieldLaws Machine Video.
Proof. split; [done|done|]. intros []. by destruct md_term0. Qed.
End machine.
Arguments Machine : clear implicits.
