(* ===== verification/System.v ===== *)
(** * The kernel as a whole
    ([Kernel/systemCalls.c], the handlers of [Kernel/interrupts.c], [Kernel/kernel.c])

    System calls, interrupt handlers and the start of the kernel over the [Machine]. *)

From S2P Require Import Prelude Buddy KMonad CString Structs World Scheduler SchedulerSpec Mutex.
From S2P Require Import Semaphores Pipes Malloc Sleep Video Terminal Ports Keyboard Mouse Machine.

Definition DUMMY : Z := 1.
Definition EDITOR : Z := 2.
Definition FORTUNE : Z := 3.
Definition SHELL : Z := 4.
Definition PAGE_FAULT_MODULE : Z := 5.
Definition SYSTEM_CALL_COUNT : Z := 35.

Definition dummyAddress : Z := 0xA00000.
Definition shellAddress : Z := 0xC00000.
Definition currentAddress : Z := 0x800000.
Definition editorAddress : Z := 0xE00000.
Definition fortuneAddress : Z := 0x600000.
Definition sampleCodeModuleAddress : Z := 0x400000.

(** [PDbase + 4]. *)
Definition user_entry : Z := 0x10000 + 8 * 4.
Definition map_entry (physical : Z) : Z := Z.lor physical 0x8F.

(** The entries that [setUpSystemCalls] fills, in its order. *)
Definition system_calls : list (Z * SysCall) := [
  (4, fn_writeC); (3, fn_readC); (5, fn_clearC); (6, fn_echoC); (7, fn_runC);
  (10, fn_printProcesses); (8, fn_changeModuleEnvironmetC); (9, fn_undoBackwardsC);
  (11, fn_kill); (12, fn_createThread); (13, fn_mallock); (14, fn_getAddressOfModuleC);
  (15, fn_signal); (16, fn_semOpen); (17, fn_semCreate); (18, fn_semClose); (19, fn_getMutex);
  (20, fn_lockMutex); (21, fn_freeMutex); (22, fn_closeMutex); (23, fn_createProcess);
  (24, fn_sleep); (25, fn_wait); (26, fn_openPipe); (27, fn_createPipe); (28, fn_closePipe);
  (29, fn_read); (30, fn_write)].

Definition set_table (l : list (Z * SysCall)) (t : list (option SysCall)) : option (list (option SysCall)) :=
  foldr (λ e f t, t' ← aset t (fst e) (Some (snd e)); f t') Some l t.

(** A string of the program, and a memory that holds it from 0 on. *)
Definition codes (s : string) : list Z := ch <$> String.list_ascii_of_string s.
Definition literal (s : string) : mem := array_mem (codes s ++ [0]).

Section system.
Context {D : Type} `{Ports D}.

(** The address of [callProcess]; of the string literals; the value of a variable that was
    not initialised; a bound for the loops. *)
Context (callProcess : Z) (lit : string → Z) (junk : Z) (fuel : nat).

Abbreviation Mac := (Machine D).
Implicit Types s : Mac.

Definition kernel_of s : Kern := fget s.
Definition on_kernel {A} (c : M Kern A) : M Mac A := zoom_field c.
Definition kernel_mem s : mem := k_mem (kernel_of s).
Definition set_kernel_mem (m : mem) s : Mac := fset (set_mem m (kernel_of s)) s.

Definition ncPrint (msg : string) : M Mac unit := modify (λ s, fset (k_print (OStr msg) (kernel_of s)) s).
Definition ncPrintHex (v : Z) : M Mac unit := modify (λ s, fset (k_print (OHex v) (kernel_of s)) s).
Definition set_interrupts (b : bool) : M Mac unit := modify (λ s, fset (set_if b (fget s)) s).
Definition sys_cli : M Mac unit := set_interrupts false.
Definition sys_sti : M Mac unit := set_interrupts true.
Definition print_at (f c : Z) (msg : string) (color : Z) : M Mac unit :=
  on_field (printMsg (String.length msg) (literal msg) f c 0 color).

(** ** Memory of the user's modules ([moduleLoader.c], [updateCR3] of [libasm.asm]) *)

Definition mapModulesLogical (physical : Z) : M Mac unit :=
  modify (λ s, set_kernel_mem (store64 (kernel_mem s) user_entry (map_entry physical)) s).

Definition updateCR3 : M Mac unit :=
  modify (λ s, md_set_tables (md_idt s) (md_sysCalls s) (load64 (kernel_mem s) user_entry) s).

(** ** System calls *)

Fixpoint writeC_loop (n : nat) (m : mem) (msg length : Z) (v : Video) : option Video :=
  if length =? 0 then Some v
  else match n with
       | O => None
       | S n' =>
           v ← (if char_at m msg =? 10 then lineJump (Z.to_nat WIDTH) v else putChar (char_at m msg) v);
           writeC_loop n' m (msg + 1) (int32 (length - 1)) v
       end.

Definition sys_call_writeC (qstdout qmsg qlength : Z) : M Mac Z :=
  if uint32 qstdout =? 0 then
    m ← asks kernel_mem;
    on_field (writeC_loop (Z.to_nat (uint32 qlength)) m qmsg (int32 qlength)) ;; mret 0
  else mret 0.

Definition sys_call_readC (qstdin qbuffer qlength : Z) : M Mac Z :=
  if uint32 qstdin =? 0 then
    calls (λ s,
      '(n, m, t) ← getTerminalBuffer qbuffer (int32 qlength) (kernel_mem s) (fget s);
      Some (uint64 n, set_kernel_mem m (fset t s)))
  else mret 0.

Definition sys_call_clearC : M Mac Z :=
  on_field (for_range 23 0 (λ k, clearRow (25 - k))) ;;
  modify (λ s, fset (setCursor 3 0 (fget s)) s) ;;
  mret 0.

Definition sys_call_echoC (qon : Z) : M Mac Z :=
  modify (λ s, fset (if negb (int32 qon =? 0) then echoON (fget s) else echoOF (fget s)) s) ;; mret 0.

Definition createProcess_at (address : Z) (description : string) (args : Z) : M Mac Z :=
  call_field (T := Kern) (createProcess callProcess address (lit description) args).

Definition start_module (moduleAdress : Z) (description : string) (args : Z) : M Mac Z :=
  mapModulesLogical moduleAdress ;; updateCR3 ;; createProcess_at moduleAdress description args.

(** [t->userStack->cs = v] for the first thread of a process. *)
Definition set_cs (pid v : Z) (k : Kern) : option Kern :=
  p ← getProcessById pid k; pr ← k_procs k !! p; t ← aget (p_thread pr) 0;
  th ← k_threads k !! t; fr ← k_frames k !! userStack th;
  Some (set_frames (<[userStack th := mkStackFrame (gs fr) (fs fr) (r15 fr) (r14 fr) (r13 fr) (r12 fr)
    (r11 fr) (r10 fr) (r9 fr) (r8 fr) (rsi fr) (rdi fr) (rbp fr) (rdx fr) (rcx fr) (rbx fr) (rax fr)
    (rip fr) v (eflags fr) (rsp fr) (ss fr) (base fr)]> (k_frames k)) k).

Definition removeCurrent : M Mac unit :=
  pid ← asksO (λ s, getCurrentPid (kernel_of s)); on_kernel (removeProcess pid).

Definition sys_call_runC (qprogram dumyProgram : Z) : M Mac Z :=
  modify (λ s, fset (resetBuffer (fget s)) s) ;;
  let program := int32 qprogram in
  (if program =? DUMMY then _ ← start_module dummyAddress "dummy" dumyProgram; mret tt
   else if program =? EDITOR then _ ← start_module editorAddress "editor" NULL; mret tt
   else if program =? FORTUNE then _ ← start_module fortuneAddress "fortune" NULL; mret tt
   else if program =? SHELL then _ ← start_module shellAddress "Shell" NULL; mret tt
   else if program =? PAGE_FAULT_MODULE then
     pid ← start_module sampleCodeModuleAddress "pagefaul" NULL;
     on_field (T := Kern) (set_cs pid 0x00D)
   else ncPrint "MUERTE") ;;
  removeCurrent ;;
  mret currentAddress.

Definition sys_call_getAddressOfModuleC (qprogram : Z) : Z :=
  let program := int32 qprogram in
  if program =? DUMMY then dummyAddress
  else if program =? EDITOR then editorAddress
  else if program =? FORTUNE then fortuneAddress
  else if program =? SHELL then shellAddress
  else junk.

Definition sys_call_printProcesses : M Mac Z := on_field (T := Kern) printProcesses ;; mret 0.

Definition sys_call_changeModuleEnvironmetC (qi qj : Z) : M Mac Z :=
  modify (λ s, fset (changeStartModule (int32 qi) (int32 qj) (fget s)) s) ;; mret 0.

Definition sys_call_undoBackwardsC (qfrom : Z) : M Mac Z :=
  modify (λ s, fset (changeStopBackwards (int32 qfrom) (fget s)) s) ;; mret 0.

Definition sys_call_kill (qpid : Z) : M Mac Z := on_kernel (removeProcess (int32 qpid)) ;; mret 0.

Definition sys_call_createThread (qentryPoint qargs : Z) : M Mac Z :=
  p ← asksO (λ s, getCurrentProcess (kernel_of s));
  _ ← call_field (T := Kern) (createThread callProcess qentryPoint qargs p);
  mret 0.

(** [size_t] is [unsigned int]. *)
Definition sys_call_mallock (qnumberOfBytes : Z) : M Mac Z :=
  call_field (T := HeapState Kern) (mallock fuel junk (uint32 qnumberOfBytes)).

Definition sys_call_createProcess (qentryPoint description param : Z) : M Mac Z :=
  pid ← call_field (T := Kern) (createProcess callProcess qentryPoint description param);
  mret (uint64 pid).

Definition sys_call_sleep (time : Z) : M Mac Z :=
  zoom_field (T := SleepState Kern) (sleep (int32 time)) ;; mret 0.

Definition sys_call_wait (semaphore : Z) : M Mac Z :=
  zoom_field (T := SemState Kern) (wait (int32 semaphore)) ;; mret 0.
Definition sys_call_signal (semaphore : Z) : M Mac Z :=
  on_field (T := SemState Kern) (signal (int32 semaphore)) ;; mret 0.
Definition sys_call_semOpen (name : Z) : M Mac Z :=
  i ← asksO (λ s, semOpen fuel name (fget s : SemState Kern)); mret (uint64 i).
Definition sys_call_semCreate (name start : Z) : M Mac Z :=
  i ← zoom_field (T := SemState Kern) (semCreate fuel name (int32 start)); mret (uint64 i).
Definition sys_call_semClose (index : Z) : M Mac Z :=
  on_field (T := SemState Kern) (semClose (int32 index)) ;; mret 0.

Definition sys_call_getMutex (mutexName : Z) : M Mac Z :=
  i ← zoom_field (T := MutexState Kern) (getMutex fuel mutexName); mret (uint64 i).
Definition sys_call_lockMutex (mutex : Z) : M Mac Z :=
  zoom_field (T := MutexState Kern) (lockMutex (int32 mutex)) ;; mret 0.
Definition sys_call_freeMutex (mutex : Z) : M Mac Z :=
  on_field (T := MutexState Kern) (freeMutex (int32 mutex)) ;; mret 0.
Definition sys_call_closeMutex (index : Z) : M Mac Z :=
  on_field (T := MutexState Kern) (closeMutex (int32 index)) ;; mret 0.

Definition sys_call_openPipe (name : Z) : M Mac Z := zoom_field (T := IPCState Kern) (openPipe fuel name).
Definition sys_call_createPipe (name : Z) : M Mac Z := zoom_field (T := IPCState Kern) (createPipe fuel name).
Definition sys_call_closePipe (pipe : Z) : M Mac Z :=
  on_field (T := IPCState Kern) (closePipe fuel pipe) ;; mret 0.
Definition sys_call_read (pipe result bytes : Z) : M Mac Z :=
  n ← zoom_field (T := IPCState Kern) (read pipe result (int32 bytes)); mret (uint64 n).
Definition sys_call_write (pipe message : Z) : M Mac Z :=
  n ← zoom_field (T := IPCState Kern) (write fuel pipe message); mret (uint64 n).

(** ** Dispatch *)

Definition setUpSystemCalls : M Mac unit :=
  modifyO (λ s, t ← set_table system_calls (md_sysCalls s); Some (md_set_tables (md_idt s) t (md_entry s) s)).

Definition sysCall (f : SysCall) (a1 a2 a3 : Z) : M Mac Z :=
  match f with
  | fn_writeC => sys_call_writeC a1 a2 a3
  | fn_readC => sys_call_readC a1 a2 a3
  | fn_clearC => sys_call_clearC
  | fn_echoC => sys_call_echoC a1
  | fn_runC => sys_call_runC a1 a2
  | fn_getAddressOfModuleC => mret (sys_call_getAddressOfModuleC a1)
  | fn_printProcesses => sys_call_printProcesses
  | fn_changeModuleEnvironmetC => sys_call_changeModuleEnvironmetC a1 a2
  | fn_undoBackwardsC => sys_call_undoBackwardsC a1
  | fn_kill => sys_call_kill a1
  | fn_createThread => sys_call_createThread a1 a2
  | fn_mallock => sys_call_mallock a1
  | fn_createProcess => sys_call_createProcess a1 a2 a3
  | fn_sleep => sys_call_sleep a1
  | fn_wait => sys_call_wait a1
  | fn_signal => sys_call_signal a1
  | fn_semOpen => sys_call_semOpen a1
  | fn_semCreate => sys_call_semCreate a1 a2
  | fn_semClose => sys_call_semClose a1
  | fn_getMutex => sys_call_getMutex a1
  | fn_lockMutex => sys_call_lockMutex a1
  | fn_freeMutex => sys_call_freeMutex a1
  | fn_closeMutex => sys_call_closeMutex a1
  | fn_openPipe => sys_call_openPipe a1
  | fn_createPipe => sys_call_createPipe a1
  | fn_closePipe => sys_call_closePipe a1
  | fn_read => sys_call_read a1 a2 a3
  | fn_write => sys_call_write a1 a2
  end.

(** The numbers are unsigned; a call through [NULL] is undefined. *)
Definition syscallHandler (rdi rsi rdx rcx : Z) : M Mac Z :=
  if (rdi <? 0) || (SYSTEM_CALL_COUNT <=? rdi) then mret 0
  else
    t ← asks md_sysCalls;
    match aget t rdi with
    | Some (Some f) => sysCall f rsi rdx rcx
    | _ => fault
    end.

(** ** Interrupts *)

(** The time goes through a local buffer of nine bytes. *)
Definition show_time : M Mac unit :=
  time ← call_field (T := D) (λ d, Some (getTime 0 (λ _, 0) d));
  on_field (printMsg 9 time 2 0 0 0x20).

Definition timer_tick : M Mac unit :=
  show_time ;;
  on_field (T := SleepState Kern) (timerTickHandlerC (λ w, w) fuel).

Definition generalProtectionHandlerC : M Mac unit :=
  ncPrint "RECOVERING GENERAL PROTECTION FAULT" ;;
  removeCurrent ;;
  print_at 20 0 "General Protection" 0x11.

Definition pageFaultHandlerC : M Mac unit :=
  ncPrint "RECOVERING FROMPAGE FAULT" ;;
  _ ← sys_call_runC SHELL 0; mret tt.

Definition spure : M Mac unit := print_at 10 10 "xxxxxxxxxx" 0x20.

Definition restartSHELL : M Mac unit :=
  on_kernel (killAllExceptCurrent fuel) ;;
  on_field (T := MutexState Kern) initializeMutexes ;;
  zoom_field (T := SemState Kern) (initializeSemaphores fuel (lit "semaphoreMutex")) ;;
  _ ← sys_call_runC 4 NULL; mret tt.

Definition keyboard_interrupt (outside : Z → Z) : M Mac unit :=
  keyboardHandlerC (D := D) restartSHELL outside.

Definition mouse_interrupt : M Mac unit :=
  modifyO (λ s, '(o, d) ← mouse_handlerC fuel (fget s : Desk) (fget s : D); Some (fset d (fset o s))).

Definition enablePIC : M Mac unit :=
  modify (λ s, fset (outputb 0xA1 0xEF (outputb 0x21 0xF8 (fget s : D))) s).

(** ** The start *)

Definition sys_loadIDT (h : Handlers) : M Mac unit :=
  modify (λ s, md_set_tables (loadIDT h (md_idt s)) (md_sysCalls s) (md_entry s) s).
Definition sys_createHeap : M Mac unit :=
  on_field (T := Kern) (λ k, b ← createHeap (k_alloc k); Some (set_alloc b k)).

(** [finishStartup] jumps to the entry point of the current process, interrupts on. *)
Definition finishStartup : M Mac Z :=
  a ← asksO (λ s, getCurrentEntryPoint (kernel_of s)); sys_sti ;; mret a.

(** [main] up to that jump: first the drivers and the page heap, then the locks and the
    processes; [init] is the address of the function of that name. *)
Definition main_drivers (h : Handlers) : M Mac unit :=
  on_field clear ;;
  sys_cli ;;
  modify (λ s, fset (initializeKernelHeap (fget s : HeapState Kern)) s) ;;
  setUpSystemCalls ;;
  modify (λ s, fset (terminalInitializeC (fget s)) s) ;;
  sys_loadIDT h ;;
  modify (λ s, fset (mouse_init (fget s : D)) s) ;;
  enablePIC ;;
  ncPrint "SetUp Kernel: OK" ;;
  mapModulesLogical shellAddress ;;
  updateCR3 ;;
  ncPrint "Starting SHELL: OK" ;;
  modify (λ s, fset (resetBuffer (fget s)) s) ;;
  ncPrint "Reset Buffer: OK" ;;
  sys_createHeap ;;
  ncPrint "Maping Memory: OK".

Definition main_processes (init : Z) : M Mac Z :=
  on_field (T := MutexState Kern) initializeMutexes ;;
  ncPrint "Initializing Mutex: OK" ;;
  zoom_field (T := SemState Kern) (initializeSemaphores fuel (lit "semaphoreMutex")) ;;
  ncPrint "Initializing Semaphores: OK" ;;
  ncPrint "FinishStartup: OK" ;;
  on_field clear ;;
  print_at 0 0 "Sistemas Operativos" 0x0F ;;
  print_at 1 0 "La hora en UTC es:" 0x0F ;;
  _ ← createProcess_at init "init" NULL;
  _ ← createProcess_at currentAddress "SHELL" NULL;
  finishStartup.

Definition main (h : Handlers) (init : Z) : M Mac Z := main_drivers h ;; main_processes init.
End system.

(** ** Jumps and debugging aids *)

Section jumps.
Context {D : Type}.
Abbreviation Mac := (Machine D).

(** [jump] runs the code at an address with an argument. *)
Definition callProcess (jump : Z → Z → M Mac unit) (entryPoint entryPoint2 args args2 : Z) : M Mac unit :=
  jump entryPoint2 args2 ;;
  on_kernel terminateThread ;;
  _yield.

Definition beginScheduler (jump : Z → M Mac unit) : M Mac unit :=
  e ← asksO (λ s, pr ← slot_proc (kernel_of s) (current (kernel_of s)); t ← aget (p_thread pr) 0;
                  entryPoint <$> k_threads (kernel_of s) !! t);
  jump e.

(** [while(1);], with interrupts on. *)
Fixpoint init (n : nat) : M Mac unit := match n with O => fault | S n' => _yield ;; init n' end.

(** With interrupts off the loop is the end of everything. *)
Definition printrsi (rsi : Z) : M Mac unit := ncPrintHex rsi ;; fault.

Definition testPageFault : M Mac unit :=
  modify (λ s, set_kernel_mem (store64 (kernel_mem s) (0x10000 + 8 * 5) 0x8E) s).
End jumps.
