(* ===== verification/SystemThms.v ===== *)
(** * Properties of the kernel as a whole

    Every number of the table of system calls runs its function, and [main] starts the
    kernel: both over the machine with any device behind the ports. *)

From S2P Require Import Prelude Buddy KMonad CString Structs World Scheduler SchedulerSpec Mutex.
From S2P Require Import Semaphores Pipes Malloc Sleep Video Terminal Ports Keyboard Mouse Machine.
From S2P Require Import System SchedulerThms MutexThms VideoThms TerminalThms.

Section dispatch.
Context {D : Type} `{Ports D}.
Implicit Types s : Machine D.

(** The table before and after [setUpSystemCalls]. *)
Definition table_bss : list (option SysCall) := replicate (Z.to_nat SYSTEM_CALL_COUNT) None.
Definition table_full : list (option SysCall) := default [] (set_table system_calls table_bss).

Lemma table_set : set_table system_calls table_bss = Some table_full.
Proof. reflexivity. Qed.

Lemma table_get_in n f : (n, f) ∈ system_calls → aget table_full n = Some (Some f).
Proof.
  intros Hin. assert (Hall : Forall (λ e, aget table_full (fst e) = Some (Some (snd e))) system_calls).
  { repeat constructor. }
  rewrite list.Forall_forall in Hall. exact (Hall (n, f) Hin).
Qed.

Lemma table_get_out n :
  0 ≤ n < SYSTEM_CALL_COUNT → n ∉ system_calls.*1 → aget table_full n = Some None.
Proof.
  intros Hn Hout.
  set (P := λ x, bool_decide (x ∈ system_calls.*1) || bool_decide (aget table_full x = Some None)).
  assert (Hall : forallb P (seqZ 0 (Z.of_nat 35)) = true) by (vm_compute; reflexivity).
  pose proof (all_below P 35 Hall n Hn) as Hb. unfold P in Hb.
  rewrite orb_true_iff, !bool_decide_eq_true in Hb. by destruct Hb.
Qed.

(** C35: after [setUpSystemCalls] every number of the table runs its own function with the
    first three arguments, a number from 35 on returns 0 and changes nothing, and the
    numbers without a function (0, 1, 2 and 31 to 34) are a call through a null pointer. *)
Theorem syscall_dispatch callProcess lit junk fuel s :
  md_sysCalls s = table_bss →
  ∃ s', setUpSystemCalls s = Done tt s' ∧
    ∀ s2 n a b c, md_sysCalls s2 = md_sysCalls s' →
      (∀ f, (n, f) ∈ system_calls →
        syscallHandler callProcess lit junk fuel n a b c s2 = sysCall callProcess lit junk fuel f a b c s2) ∧
      (SYSTEM_CALL_COUNT ≤ n → syscallHandler callProcess lit junk fuel n a b c s2 = Done 0 s2) ∧
      (n ∈ [0; 1; 2; 31; 32; 33; 34] → syscallHandler callProcess lit junk fuel n a b c s2 = Fault).
Proof.
  intros Hs. unfold setUpSystemCalls, modifyO. rewrite Hs, table_set. cbn [mbind option_bind].
  eexists. split; [reflexivity|]. intros s2 n a b c Ht. simpl in Ht. unfold syscallHandler. split; [|split].
  - intros f Hf. pose proof (table_get_in n f Hf) as Hg. pose proof (aget_inv _ _ _ Hg) as Hr.
    change (Z.of_nat (length table_full)) with 35 in Hr. unfold SYSTEM_CALL_COUNT. c_tests.
    rewrite asks_bind, Ht, Hg. done.
  - intros Hn. unfold SYSTEM_CALL_COUNT in *. by c_tests.
  - intros Hn. assert (Hr : 0 ≤ n < SYSTEM_CALL_COUNT ∧ n ∉ system_calls.*1).
    { rewrite !elem_of_cons, elem_of_nil in Hn.
      assert (n ∉ system_calls.*1) by (destruct Hn as [->|[->|[->|[->|[->|[->|[->|[]]]]]]]]; apply (bool_decide_unpack _); reflexivity).
      unfold SYSTEM_CALL_COUNT. split; [lia|done]. }
    pose proof (table_get_out n (proj1 Hr) (proj2 Hr)) as Hg. unfold SYSTEM_CALL_COUNT in *. c_tests.
    by rewrite asks_bind, Ht, Hg.
Qed.
End dispatch.

(** ** The kernel starts *)

Section boot.
Context {D : Type} `{Ports D}.
Implicit Types s : Machine D.

(** The statics before [main]; [m] is the memory, [text] what the screen shows. *)
Definition kernel_bss (m : mem) : Kern := mkKernel m buddy_bss ∅ ∅ ∅ ∅ [] 0 NULL 0.
Definition term_bss (text : list Z) : Terminal :=
  mkTerm (replicate (Z.to_nat BUFFERSIZE) 0) 0 0 0 0 0 true (video_bss text).
Definition machine_bss (m : mem) (text : list Z) (d : D) : Machine D :=
  mkMachine (kernel_bss m) (replicate (Z.to_nat MAX_MUTEXES) mutex_bss) 0
    (replicate (Z.to_nat MAX_SEMAPHORES) sem_bss) 0
    (replicate (Z.to_nat MAX_PIPES) NULL) (replicate (Z.to_nat MAX_PIPES) NULL) 0 0 ∅ NULL NULL ∅ 0 0
    (replicate (Z.to_nat MAX_LISTENERS) 0) (replicate (Z.to_nat MAX_LISTENERS) 0) (replicate (Z.to_nat MAX_LISTENERS) 0)
    (term_bss text) (mkKeyboard OFF OFF) mouse_static d ∅ table_bss 0.

(** The memory once the shell is mapped. *)
Definition mem_mapped (m : mem) : mem := store64 m user_entry (map_entry shellAddress).

Lemma video_bss_ok text : length text = Z.to_nat (HEIGHT * WIDTH * 2) → video_ok (video_bss text).
Proof. intros Ht. destruct demo_video_ok. by split. Qed.

(** *** The first two processes *)

Definition kernel_boot (m : mem) (o : list output) : Kern := mkKernel m heap0 ∅ ∅ ∅ ∅ o 0 NULL 0.

Lemma kernel_boot_ok m o : kernel_ok (kernel_boot m o) [] [].
Proof.
  split.
  - split; try done; try exact base.NoDup_nil_2. by intros ? ?%elem_of_nil.
  - intros p pr Hp. simpl in Hp. by rewrite lookup_empty in Hp.
  - split; [|intros e He; by apply elem_of_nil in He]. exact (ex_intro _ [] (conj heap0_inv eq_refl)).
Qed.

Definition no_null (r : option (list Z * typeBuddyArray)) : bool :=
  match r with Some (ps, _) => negb (bool_decide (NULL ∈ ps)) | None => false end.

Lemma boot_pages :
  (no_null (alloc_seq heap0 process_pages) &&
   no_null ('(_, h) ← alloc_seq heap0 process_pages; alloc_seq h process_pages)) = true.
Proof. vm_compute. reflexivity. Qed.

Lemma boot_entry callProcess init l1 l2 m o :
  ('(_, k) ← createProcess callProcess init l1 NULL (kernel_boot m o);
   '(_, k) ← createProcess callProcess currentAddress l2 NULL k; getCurrentEntryPoint k) = Some init.
Proof. vm_compute. reflexivity. Qed.

Lemma no_null_elim ps h : no_null (Some (ps, h)) = true → NULL ∈ ps → False.
Proof. simpl. rewrite negb_true_iff, bool_decide_eq_false. auto. Qed.

Lemma boot_processes callProcess init l1 l2 m o :
  ∃ k1 k2 l L, createProcess callProcess init l1 NULL (kernel_boot m o) = Some (0, k1) ∧
    createProcess callProcess currentAddress l2 NULL k1 = Some (1, k2) ∧
    kernel_ok k2 l L ∧ e_view <$> l = [(0, READY); (1, READY)] ∧ getCurrentEntryPoint k2 = Some init.
Proof.
  pose proof boot_pages as Hp. apply andb_true_iff in Hp as [Hp1 Hp2].
  destruct (createProcess_spec callProcess init l1 NULL _ _ _ (kernel_boot_ok m o))
    as (ps & h1 & Ha1 & Hc1); [done..|]. change (k_alloc (kernel_boot m o)) with heap0 in Ha1. rewrite Ha1 in Hp1, Hp2.
  destruct Hc1 as [Hn|(k1 & e1 & L1 & Hc1 & Hok1 & Hi1 & Hv1 & Hal1)]; [by destruct (no_null_elim _ _ Hp1 Hn)|].
  cbn [mbind option_bind] in Hp2. change (next_pid (kernel_boot m o)) with 0 in *.
  assert (Hlen1 : length e1 = 1%nat) by (by rewrite <-(length_fmap e_view), Hv1).
  destruct (createProcess_spec callProcess currentAddress l2 NULL k1 e1 L1 Hok1)
    as (ps2 & h2 & Ha2 & Hc2); [rewrite Hi1; done|rewrite Hlen1; done|rewrite Hi1; done|].
  rewrite Hal1 in Ha2. rewrite Ha2 in Hp2.
  destruct Hc2 as [Hn|(k2 & e2 & L2 & Hc2 & Hok2 & Hi2 & Hv2 & _)]; [by destruct (no_null_elim _ _ Hp2 Hn)|].
  rewrite Hi1, Z.add_0_l in *. exists k1, k2, e2, L2. split; [exact Hc1|]. split; [exact Hc2|]. split; [done|].
  split; [by rewrite Hv2, Hv1|]. pose proof (boot_entry callProcess init l1 l2 m o) as He.
  rewrite Hc1 in He. cbn [mbind option_bind] in He. by rewrite Hc2 in He.
Qed.

(** *** The locks *)

Definition mutexes_boot : list Mutex := used_mutex :: replicate 127 (cleaned mutex_bss).

Lemma boot_mutexes (w : Kern) a :
  initializeMutexes (mkMS (replicate (Z.to_nat MAX_MUTEXES) mutex_bss) a w) = Some (mkMS mutexes_boot 0 w).
Proof. vm_compute. reflexivity. Qed.

Definition sem_boot : Semaphore :=
  mkSem FALSE NULL (replicate (Z.to_nat MAX_BLOCKED_QUEUE_SIZE) NO_BLOCKED_QUEUE_VALUE) 0 0 0 0.

Lemma boot_semaphores_clean (ms : MutexState Kern) :
  for_range (Z.to_nat MAX_SEMAPHORES) 0 cleanSemaphore (mkSS (replicate (Z.to_nat MAX_SEMAPHORES) sem_bss) 0 ms) =
    Some (mkSS (replicate (Z.to_nat MAX_SEMAPHORES) sem_boot) 0 ms).
Proof. vm_compute. reflexivity. Qed.

(** The mutex of the semaphores gets entry 1: all names are still [NULL]. *)
Lemma boot_getMutex fuel name l n0 (w : Kern) :
  w_ok w → cstr (k_mem w) name l → cstr (k_mem w) NULL n0 → l ≠ n0 → (length l < fuel)%nat →
  ∃ ms, getMutex fuel name (mkMS mutexes_boot 0 w) = Done 1 ms ∧ m_world ms = w ∧ adminMutex ms = 0.
Proof.
  intros Hw Hl Hn0 Hne Hf. set (s := mkMS mutexes_boot 0 w).
  assert (Hnull : ∀ m, m ∈ mutexes_boot → m_name m = NULL).
  { intros m [->|Hm]%elem_of_cons; [done|]. by apply elem_of_replicate in Hm as [-> _]. }
  destruct (getMutex_spec fuel s (replicate 128 n0) name l used_mutex) as (r & ms & pid & Hg & _ & Hr); try done.
  { split; [reflexivity|]. apply Forall2_same_length_lookup. split; [reflexivity|].
    intros i m1 l1 E1 E2. apply lookup_replicate in E2 as [-> _]. cbn.
    rewrite (Hnull m1) by (by eapply list_elem_of_lookup_2). exact Hn0. }
  { split; [done|done|done|split; [done|done|by left|done]]. }
  assert (Hnot : ∀ i, ¬ named s (replicate 128 n0) l i).
  { intros i (m & _ & _ & E). apply aget_elem in E. apply elem_of_replicate in E as [-> _]. done. }
  assert (Hu1 : unused s 1) by (by exists (cleaned mutex_bss)).
  destruct Hr as [(_ & Hy & _)|[(_ & Hr & Hu & Hfirst & mr & Hmr & ->)|(Hno & _)]]; [by destruct (Hnot r)| |].
  - assert (r = 1) as ->; [|by eexists]. destruct (decide (r = 0)) as [->|].
    + destruct Hu as (m & E1 & E2). injection E1 as <-. done.
    + destruct (decide (1 < r)); [|lia]. by destruct (Hfirst 1); [lia|].
  - by destruct (Hno 1) as [_ []].
Qed.

Lemma boot_semaphores fuel name l n0 (w : Kern) :
  w_ok w → cstr (k_mem w) name l → cstr (k_mem w) NULL n0 → l ≠ n0 → (length l < fuel)%nat →
  ∃ ss, initializeSemaphores fuel name (mkSS (replicate (Z.to_nat MAX_SEMAPHORES) sem_bss) 0 (mkMS mutexes_boot 0 w)) =
      Done tt ss ∧ m_world (s_mutexes ss) = w ∧ adminMutex (s_mutexes ss) = 0 ∧ semaphoreMutex ss = 1.
Proof.
  intros Hw Hl Hn0 Hne Hf. destruct (boot_getMutex fuel name l n0 w Hw Hl Hn0 Hne Hf) as (ms & Hg & Hmw & Hma).
  unfold initializeSemaphores. rewrite (modifyO_bind _ _ _ _ (boot_semaphores_clean _)).
  eexists. split.
  - unfold mbind, M_bind, on_mutexes, zoom. cbn [s_mutexes]. rewrite Hg. reflexivity.
  - done.
Qed.

(** *** Messages *)

Lemma literal_chars (msg : string) :
  Forall (λ c, 0 < c < 128) (codes msg) →
  (∀ (k : nat) c, codes msg !! k = Some c → char_at (literal msg) (0 + Z.of_nat k) = c ∧ c ≠ 0) ∧
  char_at (literal msg) (0 + len (codes msg)) = 0.
Proof.
  intros Hc. unfold char_at, literal, array_mem. rewrite !Z.add_0_l, aget_of_nat. split.
  - intros k c Hk. pose proof (lookup_lt_Some _ _ _ Hk) as Hlt.
    rewrite Z.add_0_l, aget_of_nat, lookup_app_l by exact Hlt.
    rewrite Hk. simpl. pose proof (Forall_lookup_1 _ _ _ _ Hc Hk) as Hr. simpl in Hr. split; [apply wrap_s_id; lia|lia].
  - by rewrite lookup_app_r, Nat.sub_diag by lia.
Qed.

Lemma codes_length (msg : string) : length (codes msg) = String.length msg.
Proof. unfold codes. rewrite length_fmap. by induction msg as [|a msg IH]; simpl; [|rewrite IH]. Qed.

(** An ASCII message that fits on the screen from a position on. *)
Definition fits (f c : Z) (msg : string) : bool :=
  validPosition f c && (f * WIDTH + c + len (codes msg) <=? HEIGHT * WIDTH) &&
  forallb (λ x, (0 <? x) && (x <? 128)) (codes msg).

Lemma ascii_chars (msg : string) :
  forallb (λ x, (0 <? x) && (x <? 128)) (codes msg) = true → Forall (λ c, 0 < c < 128) (codes msg).
Proof.
  rewrite List.forallb_forall. intros Hb. apply list.Forall_forall. intros c Hc. apply list_elem_of_In in Hc.
  specialize (Hb c Hc). rewrite andb_true_iff, !Z.ltb_lt in Hb. lia.
Qed.

Lemma print_literal f c (msg : string) color (v : Video) :
  video_ok v → fits f c msg = true →
  ∃ v', printMsg (String.length msg) (literal msg) f c 0 color v = Some v' ∧ video_ok v' ∧
    ∀ f' c', inside f' c' → vget (video v') f' c' =
      if (f * WIDTH + c <=? f' * WIDTH + c') && (f' * WIDTH + c' <? f * WIDTH + c + len (codes msg))
      then codes msg !! Z.to_nat (f' * WIDTH + c' - (f * WIDTH + c)) else vget (video v) f' c'.
Proof.
  intros Hv Hfit. unfold fits in Hfit. rewrite !andb_true_iff, Z.leb_le in Hfit. destruct Hfit as [[Hin Hlen] Hc].
  pose proof (proj1 (validPosition_spec f c) Hin) as [Hf Hc0].
  destruct (literal_chars msg (ascii_chars msg Hc)) as [Hl H0'].
  unfold printMsg. rewrite Hin. cbn [negb].
  destruct (printMsg_loop_spec (codes msg) (String.length msg) (literal msg) (f * WIDTH + c) 0 v Hv Hl H0')
    as (v' & E & Hv' & _ & _ & Hg); [unfold WIDTH in *; lia|done|by rewrite codes_length|].
  by exists v'.
Qed.

(** *** [main] *)

Lemma on_field_done {T} `{Field (Machine D) T} (f : T → option T) s t :
  f (fget s) = Some t → on_field f s = Done tt (fset t s).
Proof. intros E. unfold on_field, modifyO. by rewrite E. Qed.

(** What the first part leaves for the second. *)
Record drivers_up (m : mem) s : Prop := {
  du_kernel : ∃ o, md_kernel s = kernel_boot m o;
  du_mutexes : md_mutexes s = replicate (Z.to_nat MAX_MUTEXES) mutex_bss;
  du_sems : md_semaphores s = replicate (Z.to_nat MAX_SEMAPHORES) sem_bss;
  du_semMutex : md_semaphoreMutex s = 0;
  du_video : video_ok (t_video (md_term s));
  du_term : term_holds (md_term s) [];
  du_calls : md_sysCalls s = table_full;
  du_entry : md_entry s = map_entry shellAddress;
}.

Lemma entry_range : 0 ≤ map_entry shellAddress < 2 ^ 64.
Proof. by vm_compute. Qed.

#[local] Opaque clear mouse_init loadIDT load64 store64 map_entry user_entry
  initializeMutexes initializeSemaphores createProcess printMsg getCurrentEntryPoint.

(** Puts the state after a step in constructor form, so that it does not grow. *)
Ltac machine_norm :=
  cbv beta iota delta [machine_bss kernel_of kernel_mem set_kernel_mem fget fset Machine_kernel Machine_mutexes Machine_sems Machine_heap Machine_term Machine_device Machine_video
    md_set_kernel md_set_mutexes md_set_sems md_set_heap md_set_drivers md_set_tables
    md_kernel md_mutexes md_admin md_semaphores md_semaphoreMutex md_pipeNames md_pipes md_lastPipeName
    md_ipcAdminMutex md_pipeStructs md_heapBase md_kernelBase md_blocks md_sleepListeners md_auxj md_sleepPIDS
    md_sleepCounter md_alarmSleep md_term md_kbd md_mouse md_device md_idt md_sysCalls md_entry
    s_mutexes m_world mutexes adminMutex semaphores semaphoreMutex
    set_if t_set_video terminalInitializeC resetBuffer set_consume set_position
    Buffer bufferConsume bufferPosition bufferStart bufferSize isEcho interrupts t_video
    initializeKernelHeap put_blk set_kernelBase heapBase kernelBase h_blocks h_world set_hworld set_blocks set_heapBase
    k_print set_console set_mem set_alloc k_mem k_alloc k_slots k_procs k_threads k_frames k_console
    cardinal_processes current next_pid term_bss kernel_bss].
Ltac step_modify := rewrite modify_bind; machine_norm.

Lemma main_drivers_ok h m text d :
  length text = Z.to_nat (HEIGHT * WIDTH * 2) →
  ∃ s, main_drivers h (machine_bss m text d) = Done tt s ∧ drivers_up (mem_mapped m) s.
Proof.
  intros Ht. unfold main_drivers.
  destruct (clear_spec (video_bss text) (video_bss_ok text Ht)) as (v1 & Hclear & Hv1 & _).
  rewrite (on_field_bind clear _ (machine_bss m text d) v1) by exact Hclear. machine_norm.
  unfold sys_cli, set_interrupts, setUpSystemCalls, sys_loadIDT, enablePIC, ncPrint, mapModulesLogical, updateCR3.
  do 2 step_modify. erewrite modifyO_bind; [|machine_norm; exact (f_equal (λ t, t ← t; Some _) table_set)].
  machine_norm. do 10 step_modify. unfold sys_createHeap.
  erewrite on_field_bind; [|machine_norm; rewrite heap0_eq; reflexivity]. machine_norm.
  cbv beta delta [modify]. machine_norm. eexists. split; [reflexivity|]. split; cbv beta iota delta
    [md_kernel md_mutexes md_semaphores md_semaphoreMutex md_term md_sysCalls md_entry t_video].
  - eexists. reflexivity.
  - reflexivity.
  - reflexivity.
  - reflexivity.
  - exact Hv1.
  - exact (initial_holds (mkTerm (replicate (Z.to_nat BUFFERSIZE) 0) 0 0 0 0 0 false v1) (length_replicate _ _)).
  - reflexivity.
  - exact (load64_store64 m user_entry (map_entry shellAddress) entry_range).
Qed.

(** The title is on the first row. *)
Definition title_shown (v : Video) : Prop :=
  ∀ (j : nat) x, codes "Sistemas Operativos" !! j = Some x → vget (video v) 0 (Z.of_nat j) = Some x.

(** C5: [main] starts the kernel: with every device behind the ports it ends, without a
    fault or a wait, by jumping to [init]; the processes are [init], which runs, and the
    shell, both ready, in a well-formed ring over a well-formed page heap; the address
    0x800000 is mapped to the shell, the system calls are set up, the screen and the
    terminal's empty ring are well-formed, the title is shown and interrupts are on. *)
Theorem main_boots callProcess lit fuel h init m text d l n0 :
  length text = Z.to_nat (HEIGHT * WIDTH * 2) →
  cstr (mem_mapped m) (lit "semaphoreMutex") l → cstr (mem_mapped m) NULL n0 → l ≠ n0 → (length l < fuel)%nat →
  ∃ s ring pages, main callProcess lit fuel h init (machine_bss m text d) = Done init s ∧
    kernel_ok (md_kernel s) ring pages ∧ e_view <$> ring = [(0, READY); (1, READY)] ∧
    getCurrentEntryPoint (md_kernel s) = Some init ∧
    md_entry s = map_entry shellAddress ∧ md_sysCalls s = table_full ∧
    md_semaphoreMutex s = 1 ∧ md_admin s = 0 ∧
    video_ok (t_video (md_term s)) ∧ title_shown (t_video (md_term s)) ∧
    term_holds (md_term s) [] ∧ interrupts (md_term s) = true.
Proof.
  intros Ht Hl Hn0 Hne Hf. destruct (main_drivers_ok h m text d Ht) as (s1 & Hb & [[o Hk] Hm Hs Hsm Hv Hterm Hc He]).
  destruct s1 as [k1 ms1 a1 ss1 sm1 pn pp pl pa pst hb kb bl sl1 sl2 sl3 sl4 sl5 tm kd mo dv idt sc en].
  cbv beta iota delta [md_kernel md_mutexes md_semaphores md_semaphoreMutex md_term md_sysCalls md_entry] in *. subst.
  set (T := k_print (OStr "Initializing Mutex: OK") (kernel_boot (mem_mapped m) o)).
  assert (Hw : w_ok T).
  { exists []. destruct (kernel_boot_ok (mem_mapped m) (o ++ [OStr "Initializing Mutex: OK"])) as [Hr _ _]. exact Hr. }
  destruct (boot_semaphores fuel (lit "semaphoreMutex") l n0 T Hw Hl Hn0 Hne Hf) as (ss2 & Hsem & Hsw & Hma & Hsm2).
  unfold main. rewrite (bind_done _ _ _ _ _ Hb). unfold main_processes.
  erewrite (on_field_bind initializeMutexes); [|machine_norm; exact (boot_mutexes _ a1)]. machine_norm.
  unfold ncPrint. step_modify. fold T.
  erewrite bind_done; [|apply zoom_done; exact Hsem]. destruct ss2 as [sems sm [mm ma mw]].
  cbn [s_mutexes m_world semaphoreMutex adminMutex] in Hsw, Hsm2, Hma. subst mw sm. machine_norm. do 2 step_modify.
  destruct (clear_spec _ Hv) as (v1 & Hclear & Hv1 & _). rewrite (on_field_bind clear _ _ v1) by exact Hclear. machine_norm.
  destruct (print_literal 0 0 "Sistemas Operativos" 0x0F v1 Hv1) as (v2 & Hp1 & Hv2 & Hg2);
    [vm_compute; reflexivity|].
  unfold print_at. rewrite (on_field_bind (printMsg _ (literal "Sistemas Operativos") _ _ _ _) _ _ v2) by exact Hp1. machine_norm.
  destruct (print_literal 1 0 "La hora en UTC es:" 0x0F v2 Hv2) as (v3 & Hp2 & Hv3 & Hg3);
    [vm_compute; reflexivity|].
  rewrite (on_field_bind (printMsg _ (literal "La hora en UTC es:") _ _ _ _) _ _ v3) by exact Hp2. machine_norm.
  destruct (boot_processes callProcess init (lit "init") (lit "SHELL") (mem_mapped m)
    (((o ++ [OStr "Initializing Mutex: OK"]) ++ [OStr "Initializing Semaphores: OK"]) ++ [OStr "FinishStartup: OK"]))
    as (k1 & k2 & ring & pages & Hc1 & Hc2 & Hok & Hview & Hentry).
  unfold createProcess_at. erewrite call_field_bind; [|exact Hc1]. machine_norm.
  erewrite call_field_bind; [|exact Hc2]. machine_norm. unfold finishStartup, sys_sti, set_interrupts.
  erewrite asksO_bind; [|exact Hentry]. step_modify.
  eexists _, ring, pages. split; [reflexivity|].
  cbv beta iota delta [md_kernel md_mutexes md_admin md_semaphores md_semaphoreMutex md_term md_sysCalls md_entry t_video interrupts].
  split; [exact Hok|]. split; [exact Hview|]. split; [exact Hentry|]. split; [reflexivity|]. split; [reflexivity|].
  split; [reflexivity|]. split; [exact Hma|]. split; [exact Hv3|]. split; [|split; [|reflexivity]].
  - intros j x Hj. pose proof (lookup_lt_Some _ _ _ Hj) as Hlt. change (length (codes "Sistemas Operativos")) with 19%nat in Hlt.
    assert (Hin : inside 0 (Z.of_nat j)) by (unfold inside, WIDTH, HEIGHT; lia).
    rewrite Hg3, Hg2 by done. unfold WIDTH. c_tests.
    change (len (codes "Sistemas Operativos")) with 19. c_tests. rewrite <-Hj. f_equal. lia.
  - destruct Hterm. by split.
Qed.
End boot.

(** ** Witnesses *)

(** The literal is at 4096, the rest of memory is zero, and no device answers. *)
Definition demo_memory : mem := λ a, default 0 (aget (codes "semaphoreMutex") (a - 4096)).
Definition demo_lit : string → Z := λ _, 4096.
Definition demo_handlers : Handlers := mkHandlers 1 2 3 4 5 6 7 8.
Definition demo_text : list Z := replicate (Z.to_nat (HEIGHT * WIDTH * 2)) 0.

Lemma demo_literal : cstr (mem_mapped demo_memory) 4096 (codes "semaphoreMutex").
Proof. by vm_compute. Qed.

Lemma main_boots_witness :
  ∃ s : Machine (list Z), main 5 demo_lit 100 demo_handlers 0x200000 (machine_bss demo_memory demo_text []) = Done 0x200000 s ∧
    getCurrentEntryPoint (md_kernel s) = Some 0x200000 ∧ md_semaphoreMutex s = 1.
Proof.
  destruct (main_boots (D := list Z) 5 demo_lit 100 demo_handlers 0x200000 demo_memory demo_text [] (codes "semaphoreMutex") [])
    as (s & ring & pages & E & _ & _ & He & _ & _ & Hs & _).
  - apply length_replicate.
  - exact demo_literal.
  - vm_compute. reflexivity.
  - discriminate.
  - apply Nat.ltb_lt. reflexivity.
  - exact (ex_intro _ s (conj E (conj He Hs))).
Defined.

Lemma syscall_dispatch_witness :
  ∃ s', setUpSystemCalls (machine_bss (D := list Z) demo_memory demo_text []) = Done tt s' ∧
    syscallHandler 5 demo_lit 0 100 11 3 0 0 s' = sys_call_kill 3 s' ∧
    syscallHandler 5 demo_lit 0 100 35 0 0 0 s' = Done 0 s'.
Proof.
  destruct (syscall_dispatch 5 demo_lit 0 100 (machine_bss (D := list Z) demo_memory demo_text []) eq_refl) as (s' & E & Hd).
  exists s'. split; [exact E|]. split.
  - refine (proj1 (Hd s' 11 3 0 0 eq_refl) fn_kill _). apply (bool_decide_unpack _). reflexivity.
  - refine (proj1 (proj2 (Hd s' 35 0 0 0 eq_refl)) _). discriminate.
Defined.
