(* ===== verification/Loader.v ===== *)
(** * The image of the system
    ([Toolchain/ModulePacker/main.c], [Kernel/moduleLoader.c], [Kernel/kernel.c])

    The packer writes the kernel and the modules one after the other into a file; the
    boot loader puts the file in memory; the kernel copies each module to its address.
    Bytes of files are numbers from 0 to 255. *)

From Stdlib Require Import Ascii.
From S2P Require Import Prelude CString World Malloc.

(** ** The packer *)

Definition BUFFER_SIZE : Z := 128.
Definition MAX_FILES : Z := 128.

(** The files by name.  A [FILE] open for reading: what is left, and the end-of-file flag,
    which a read that comes short sets. *)
Abbreviation files := (gmap string (list Z)).
Record FILE := mkFILE { f_rest : list Z; f_eof : bool }.

Definition fopen_r (fs : files) (name : string) : option FILE := (λ l, mkFILE l false) <$> fs !! name.
Definition fread (n : Z) (f : FILE) : list Z * FILE :=
  (take (Z.to_nat n) (f_rest f),
   mkFILE (drop (Z.to_nat n) (f_rest f)) (f_eof f || (Z.of_nat (length (f_rest f)) <? n))).

(** The bytes of a 32-bit number in memory order. *)
Definition bytes32 (v : Z) : list Z :=
  [uint8 v; uint8 (v / 256); uint8 (v / 65536); uint8 (v / 16777216)].

Definition write_size (fs : files) (target : list Z) (filename : string) : option (list Z) :=
  l ← fs !! filename; Some (target ++ bytes32 (uint32 (Z.of_nat (length l)))).

(** [while (!feof(source))]. *)
Fixpoint write_file (fuel : nat) (target : list Z) (source : FILE) : option (list Z) :=
  if f_eof source then Some target
  else match fuel with
       | O => None
       | S fuel' => let '(buffer, source) := fread BUFFER_SIZE source in write_file fuel' (target ++ buffer) source
       end.

Fixpoint buildImage_loop (fuel : nat) (fs : files) (array : list string) (target : list Z) : option (list Z) :=
  match array with
  | [] => Some target
  | name :: array' =>
      source ← fopen_r fs name;
      target ← write_size fs target name;
      target ← write_file fuel target source;
      buildImage_loop fuel fs array' target
  end.

(** Opening the output empties it; what is written is in the file once it is closed.
    [writable]: whether it can be created. *)
Definition buildImage (fuel : nat) (writable : bool) (array : list string) (output_file : string) (fs : files)
    : option (Z * files) :=
  if negb writable then Some (0, fs)
  else
    let fs := <[output_file := []]> fs in
    kernel ← head array;
    source ← fopen_r fs kernel;
    target ← write_file fuel [] source;
    let extraBinaries := Z.of_nat (length array) - 1 in
    target ← buildImage_loop fuel fs (tail array) (target ++ bytes32 extraBinaries);
    Some (1, <[output_file := target]> fs).

Definition checkFiles (fs : files) (array : list string) : Z :=
  if forallb (λ name, bool_decide (is_Some (fs !! name))) array then 1 else 0.

(** What [argp_parse] calls [parse_opt] with, and the record it fills; [argp_usage] ends
    the program. *)
Inductive opt_key := KeyOutput (arg : string) | KeyArg (arg_num : Z) (arg : string) | KeyEnd (arg_num : Z) | KeyOther.
Record arguments := mkArgs { a_args : list string; a_output : string; a_count : Z }.
Inductive parsed := ParseOk (a : arguments) | ParseUsage | ParseUnknown (a : arguments).

Definition parse_opt (k : opt_key) (a : arguments) : option parsed :=
  match k with
  | KeyOutput arg => Some (ParseOk (mkArgs (a_args a) arg (a_count a)))
  | KeyArg n arg => l ← aset (a_args a) n arg; Some (ParseOk (mkArgs l (a_output a) (a_count a)))
  | KeyEnd n => if n <? 1 then Some ParseUsage else Some (ParseOk (mkArgs (a_args a) (a_output a) n))
  | KeyOther => Some (ParseUnknown a)
  end.

(** [main] once the arguments are parsed: the exit code. *)
Definition pack (fuel : nat) (writable : bool) (a : arguments) (fs : files) : option (Z * files) :=
  let fileArray := take (Z.to_nat (a_count a)) (a_args a) in
  if checkFiles fs fileArray =? 0 then Some (1, fs)
  else '(r, fs) ← buildImage fuel writable fileArray (a_output a) fs; Some (c_bool (r =? 0), fs).

(** ** The loader *)

(** The memory and what was printed. *)
Definition Load : Type := mem * list output.
Definition say (o : output) (s : Load) : Load := (fst s, snd s ++ [o]).

Definition readUint32 (m : mem) (address : Z) : Z * Z := (load32 m address, address + 4).

(** [*module] is returned with the state. *)
Definition loadModule (module targetModuleAddress : Z) (s : Load) : Z * Load :=
  let '(moduleSize, module) := readUint32 (fst s) module in
  let s := say (OHex module) (say (OStr "  Will copy module at 0x") s) in
  let s := say (OHex targetModuleAddress) (say (OStr " to 0x") s) in
  let s := say (OStr " bytes)") (say (ONum moduleSize) (say (OStr " (") s)) in
  let '(_, m) := memcpy (fst s) targetModuleAddress module moduleSize in
  let s := say (OChar 10) (say (OStr " [Done]") (m, snd s)) in
  (module + moduleSize, s).

Fixpoint loadModules_loop (n : nat) (i currentModule : Z) (targetModuleAddress : list Z) (s : Load) : option (Z * Load) :=
  match n with
  | O => Some (currentModule, s)
  | S n' =>
      t ← aget targetModuleAddress i;
      let '(currentModule, s) := loadModule currentModule t s in
      loadModules_loop n' (i + 1) currentModule targetModuleAddress s
  end.

Definition loadModules (payloadStart : Z) (targetModuleAddress : list Z) (s : Load) : option Load :=
  let '(moduleCount, currentModule) := readUint32 (fst s) payloadStart in
  '(_, s) ← loadModules_loop (Z.to_nat moduleCount) 0 currentModule targetModuleAddress s; Some s.

(** ** The kernel's first step *)

Definition PageSize : Z := 0x1000.

Definition clearBSS (bssAddress bssSize : Z) (m : mem) : mem := snd (memset m bssAddress 0 bssSize).

(** The symbols of [kernel.ld]. *)
Record Symbols := mkSymbols {
  sym_text : Z; sym_rodata : Z; sym_data : Z; sym_bss : Z; sym_endOfKernelBinary : Z; sym_endOfKernel : Z }.

Definition getStackBase (y : Symbols) : Z := uint64 (sym_endOfKernel y + PageSize * 8 - 8).

(** [sampleCodeModuleAddress] to [fortuneAddress], in the order of the image. *)
Definition moduleAddresses : list Z := [0x400000; 0x500000; 0xA00000; 0xC00000; 0xE00000; 0x600000].

(** [vendor] is what [cpuVendor] finds; [h] is the heap, whose two variables lie in
    [.bss].  Until [loadIDT] what [ncPrint] is given goes to the interrupt table of the
    boot loader. *)
Definition initializeKernelBinary {W} `{World W} (y : Symbols) (vendor : string) (h : HeapState W) (s : Load)
    : option (Z * HeapState W * Load) :=
  let h := initializeKernelHeap h in
  let s := say (OChar 10) (say (OStr "[x64BareBones]") s) in
  let s := say (OChar 10) (say (OStr vendor) (say (OStr "CPU Vendor:") s)) in
  let s := say (OChar 10) (say (OStr "[Loading modules]") s) in
  s ← loadModules (sym_endOfKernelBinary y) moduleAddresses s;
  let s := say (OChar 10) (say (OChar 10) (say (OStr "[Done]") s)) in
  let s := say (OChar 10) (say (OStr "[Initializing kernel's binary]") s) in
  let s := say (OHex (load8 (fst s) (sym_endOfKernelBinary y))) s in
  let s := (clearBSS (sym_bss y) (sym_endOfKernel y - sym_bss y) (fst s), snd s) in
  let h := set_heapBase NULL (set_kernelBase NULL h) in
  let s := say (OChar 10) (say (OHex (sym_text y)) (say (OStr "  text: 0x") s)) in
  let s := say (OChar 10) (say (OHex (sym_rodata y)) (say (OStr "  rodata: 0x") s)) in
  let s := say (OChar 10) (say (OHex (sym_data y)) (say (OStr "  data: 0x") s)) in
  let s := say (OChar 10) (say (OHex (sym_bss y)) (say (OStr "  bss: 0x") s)) in
  let s := say (OChar 10) (say (OChar 10) (say (OStr "[Done]") s)) in
  Some (getStackBase y, h, s).

(** ** Properties *)

(** In [m] the bytes [l] are at [a]. *)
Definition at_mem (m : mem) (a : Z) (l : list Z) : Prop :=
  ∀ (k : nat) c, l !! k = Some c → load8 m (a + Z.of_nat k) = c.

Abbreviation len l := (Z.of_nat (length l)).

Definition is_byte (c : Z) : Prop := 0 ≤ c < 256.

Lemma at_mem_app m a l1 l2 : at_mem m a (l1 ++ l2) ↔ at_mem m a l1 ∧ at_mem m (a + len l1) l2.
Proof.
  split.
  - intros Hl. split; intros k c Hk; [apply Hl; by apply lookup_app_l_Some|].
    rewrite <-(Hl (length l1 + k)%nat c); [f_equal; lia|]. rewrite lookup_app_r by lia. by replace (_ - _)%nat with k by lia.
  - intros [H1 H2] k c Hk. apply lookup_app_Some in Hk as [Hk|[Hlt Hk]]; [by apply H1|].
    rewrite <-(H2 _ _ Hk). f_equal. lia.
Qed.

Lemma at_mem_frame m m' a l :
  (∀ x, a ≤ x < a + len l → load8 m' x = load8 m x) → at_mem m a l → at_mem m' a l.
Proof. intros Hm Hl k c Hk. rewrite Hm; [by apply Hl|]. apply lookup_lt_Some in Hk. lia. Qed.

Lemma load32_bytes32 m a v : 0 ≤ v < 2 ^ 32 → at_mem m a (bytes32 v) → load32 m a = v.
Proof.
  intros Hv Hl. unfold load32.
  pose proof (Hl 0%nat _ eq_refl) as E0. pose proof (Hl 1%nat _ eq_refl) as E1.
  pose proof (Hl 2%nat _ eq_refl) as E2. pose proof (Hl 3%nat _ eq_refl) as E3.
  change (Z.of_nat 0) with 0 in E0. change (Z.of_nat 1) with 1 in E1. change (Z.of_nat 2) with 2 in E2.
  change (Z.of_nat 3) with 3 in E3. rewrite Z.add_0_r in E0. rewrite E0, E1, E2, E3.
  unfold wrap_u. change (2 ^ 8) with 256. change (2 ^ 32) with 4294967296 in Hv.
  Z.to_euclidean_division_equations. lia.
Qed.

(** *** Writing *)

Lemma write_file_spec fuel target l :
  (length l < fuel)%nat → write_file fuel target (mkFILE l false) = Some (target ++ l).
Proof.
  revert target l. induction fuel as [|fuel IH]; intros target l Hf; [lia|]. cbn [write_file f_eof].
  unfold fread. cbn [f_rest f_eof orb]. unfold BUFFER_SIZE. destruct (Z.ltb_spec (len l) 128) as [Hlt|Hge].
  - rewrite take_ge by lia. destruct fuel; done.
  - rewrite IH by (rewrite length_drop; lia). by rewrite <-app_assoc, take_drop.
Qed.

(** A module in the image: its size and its bytes. *)
Definition entry (l : list Z) : list Z := bytes32 (uint32 (len l)) ++ l.

Lemma buildImage_loop_spec fuel fs array contents target :
  Forall2 (λ name l, fs !! name = Some l ∧ (length l < fuel)%nat) array contents →
  buildImage_loop fuel fs array target = Some (target ++ (contents ≫= entry)).
Proof.
  intros Hall. revert target. induction Hall as [|name l array contents [Hl Hf] _ IH]; intros target; cbn [buildImage_loop].
  { by rewrite app_nil_r. }
  unfold fopen_r, write_size. rewrite Hl. cbn [fmap option_fmap option_map mbind option_bind].
  rewrite write_file_spec by done. cbn [mbind option_bind]. rewrite IH. cbn [mbind list_bind]. unfold entry.
  by rewrite <-!app_assoc.
Qed.

(** What the packer writes after the kernel. *)
Definition payload (contents : list (list Z)) : list Z := bytes32 (len contents) ++ (contents ≫= entry).

Lemma buildImage_spec fuel kernel names out fs k contents :
  out ∉ kernel :: names → fs !! kernel = Some k → (length k < fuel)%nat →
  Forall2 (λ name l, fs !! name = Some l ∧ (length l < fuel)%nat) names contents →
  buildImage fuel true (kernel :: names) out fs = Some (1, <[out := k ++ payload contents]> (<[out := []]> fs)).
Proof.
  rewrite not_elem_of_cons. intros [Hko Hout] Hk Hf Hall. unfold buildImage. cbn [negb head mbind option_bind tail].
  unfold fopen_r. rewrite lookup_insert_ne, Hk by done. cbn [fmap option_fmap option_map mbind option_bind].
  rewrite write_file_spec by done. cbn [mbind option_bind app].
  rewrite (buildImage_loop_spec fuel _ names contents).
  - cbn [mbind option_bind].
    replace (len (kernel :: names) - 1) with (len contents)
      by (cbn [length]; rewrite (Forall2_length Hall); lia).
    unfold payload. by rewrite <-app_assoc.
  - apply Forall2_same_length_lookup. split; [exact (Forall2_length Hall)|]. intros i name l Hn Hl.
    rewrite lookup_insert_ne; [exact (Forall2_lookup_lr _ _ _ _ _ _ Hall Hn Hl)|]. intros ->. apply Hout. by eapply list_elem_of_lookup_2.
Qed.

(** *** Loading *)

(** [n1] bytes at [p] and [n2] at [q] have none in common. *)
Definition disjoint_areas (p n1 q n2 : Z) : Prop := p + n1 ≤ q ∨ q + n2 ≤ p.

Lemma loadModule_spec m out p t l :
  at_mem m p (entry l) → len l < 2 ^ 32 → disjoint_areas t (len l) p (len (entry l)) →
  ∃ m' out', loadModule p t (m, out) = (p + len (entry l), (m', out')) ∧ at_mem m' t l ∧
    ∀ x, ¬ (t ≤ x < t + len l) → load8 m' x = load8 m x.
Proof.
  intros Hat Hlen Hd. unfold entry in Hat. apply at_mem_app in Hat as [Hsz Hl].
  rewrite wrap_u_id in Hsz by lia. unfold loadModule, readUint32. cbn [fst snd say].
  rewrite (load32_bytes32 m p (len l)) by (done || lia).
  assert (He : len (entry l) = 4 + len l) by (unfold entry; rewrite length_app; simpl; lia). rewrite He in *.
  change (len (bytes32 _)) with 4 in Hl.
  destruct (memcpy_correct m t (p + 4) (len l)) as (m' & -> & Hc); [lia|unfold apart, disjoint_areas in *; lia|].
  eexists m', _. split; [f_equal; lia|]. split.
  - intros k c Hk. pose proof (lookup_lt_Some _ _ _ Hk). rewrite Hc. c_tests.
    rewrite <-(Hl k c Hk). f_equal. lia.
  - intros x Hx. rewrite Hc. destruct (Z.leb_spec t x), (Z.ltb_spec x (t + len l)); simpl; done || lia.
Qed.

(** The areas of the modules are apart from each other and from the area [p, p + n). *)
Definition apart_from (p n : Z) (targets : list Z) (contents : list (list Z)) : Prop :=
  ∀ (i : nat) t l, targets !! i = Some t → contents !! i = Some l → disjoint_areas t (len l) p n ∧
    ∀ (j : nat) t' l', i ≠ j → targets !! j = Some t' → contents !! j = Some l' →
      disjoint_areas t (len l) t' (len l').

Lemma loadModules_loop_spec contents (i : nat) p targets m out :
  at_mem m p (contents ≫= entry) → (∀ l, l ∈ contents → len l < 2 ^ 32) →
  (length contents + i ≤ length targets)%nat →
  apart_from p (len (contents ≫= entry)) (drop i targets) contents →
  ∃ p' m' out', loadModules_loop (length contents) (Z.of_nat i) p targets (m, out) = Some (p', (m', out')) ∧
    (∀ (j : nat) t l, drop i targets !! j = Some t → contents !! j = Some l → at_mem m' t l) ∧
    ∀ x, (∀ (j : nat) t l, drop i targets !! j = Some t → contents !! j = Some l → ¬ (t ≤ x < t + len l)) →
      load8 m' x = load8 m x.
Proof.
  revert i p m out. induction contents as [|l contents IH]; intros i p m out Hat Hsz Hlen Hap; cbn [length loadModules_loop].
  { exists p, m, out. split; [done|]. split; [by intros j t l _ Hj|done]. }
  cbn [mbind list_bind] in Hat, Hap. apply at_mem_app in Hat as [He Hrest]. cbn [length] in Hlen.
  destruct (lookup_lt_is_Some_2 targets i) as [t Ht]; [lia|]. rewrite aget_of_nat, Ht. cbn [mbind option_bind].
  rewrite length_app in Hap.
  assert (Hdr : drop i targets = t :: drop (S i) targets) by (by apply drop_S). rewrite Hdr in Hap |- *.
  destruct (Hap 0%nat t l eq_refl eq_refl) as [Hd0 Hdj].
  destruct (loadModule_spec m out p t l He) as (m1 & out1 & -> & Hm1 & Hout1); [apply Hsz; by left|unfold disjoint_areas in *; lia|].
  destruct (IH (S i) (p + len (entry l)) m1 out1) as (p' & m' & out' & Hl & Hall & Hfr).
  - eapply at_mem_frame; [|exact Hrest]. intros x Hx. apply Hout1. unfold disjoint_areas in *. lia.
  - intros l' Hl'. apply Hsz. by right.
  - lia.
  - intros j t' l' Hj Hlj. destruct (Hap (S j) t' l' Hj Hlj) as [Hd Hd']. split; [unfold disjoint_areas in *; lia|].
    intros j' t2 l2 Hne Ht2 Hl2. apply (Hd' (S j') t2 l2); [lia|done|done].
  - exists p', m', out'. rewrite Nat2Z.inj_succ in Hl. unfold Z.succ in Hl. split; [exact Hl|]. split.
    + intros [|j] t' l' Hj Hlj; simpl in Hj, Hlj; [|by eapply Hall]. injection Hj as <-. injection Hlj as <-.
      eapply at_mem_frame; [|exact Hm1]. intros x Hx. apply Hfr. intros j t2 l2 Hj2 Hl2 Hx2.
      specialize (Hdj (S j) t2 l2 ltac:(lia) Hj2 Hl2). unfold disjoint_areas in *. lia.
    + intros x Hx. rewrite (Hfr x), (Hout1 x); [done| |]; [by apply (Hx 0%nat t l)|].
      intros j t2 l2 Hj2 Hl2. by apply (Hx (S j) t2 l2).
Qed.

Lemma loadModules_spec contents p targets m out :
  at_mem m p (payload contents) → len contents < 2 ^ 32 → (length contents ≤ length targets)%nat →
  apart_from p (len (payload contents)) targets contents → (∀ l, l ∈ contents → len l < 2 ^ 32) →
  ∃ m' out', loadModules p targets (m, out) = Some (m', out') ∧
    (∀ (i : nat) t l, targets !! i = Some t → contents !! i = Some l → at_mem m' t l) ∧
    ∀ x, (∀ (i : nat) t l, targets !! i = Some t → contents !! i = Some l → ¬ (t ≤ x < t + len l)) →
      load8 m' x = load8 m x.
Proof.
  unfold payload. intros [Hc Hat]%at_mem_app Hcount Hlen Hap Hsz. unfold loadModules, readUint32. cbn [fst].
  rewrite (load32_bytes32 m p (len contents)), Nat2Z.id by (done || lia).
  change (len (bytes32 _)) with 4 in Hat. rewrite length_app in Hap. change (length (bytes32 _)) with 4%nat in Hap.
  destruct (loadModules_loop_spec contents 0 (p + 4) targets m out) as (p' & m' & out' & E & Hall & Hfr); [done..|lia| |change (Z.of_nat 0) with 0 in E; rewrite E; by exists m', out'].
  intros i t l Ht Hl. destruct (Hap i t l Ht Hl) as [Hd Hd']. split; [unfold disjoint_areas in *; lia|exact Hd'].
Qed.

Lemma checkFiles_ok fs array : Forall (λ name, is_Some (fs !! name)) array → checkFiles fs array = 1.
Proof.
  intros Hall. unfold checkFiles.
  assert (forallb (λ name, bool_decide (is_Some (fs !! name))) array = true) as ->; [|done].
  apply forallb_forall. intros name Hn. apply bool_decide_eq_true. apply list_elem_of_In in Hn. by apply (proj1 (list.Forall_forall _ _) Hall).
Qed.

(** The packer and then the loader. *)
Lemma pack_then_load fuel a fs kernel names k contents m base targets out :
  take (Z.to_nat (a_count a)) (a_args a) = kernel :: names →
  a_output a ∉ kernel :: names →
  fs !! kernel = Some k → (length k < fuel)%nat →
  Forall2 (λ name l, fs !! name = Some l ∧ (length l < fuel)%nat ∧ len l < 2 ^ 32) names contents →
  len contents < 2 ^ 32 → (length contents ≤ length targets)%nat →
  apart_from (base + len k) (len (payload contents)) targets contents →
  ∃ fs' image, pack fuel true a fs = Some (0, fs') ∧ fs' !! a_output a = Some image ∧
    (at_mem m base image → ∃ m' out', loadModules (base + len k) targets (m, out) = Some (m', out') ∧
       (∀ (i : nat) t l, targets !! i = Some t → contents !! i = Some l → at_mem m' t l) ∧
       ∀ x, (∀ (i : nat) t l, targets !! i = Some t → contents !! i = Some l → ¬ (t ≤ x < t + len l)) →
         load8 m' x = load8 m x).
Proof.
  intros Htake Hout Hk Hf Hall Hcount Hlen Hap. unfold pack. rewrite Htake.
  rewrite checkFiles_ok by (constructor; [by exists k|]; eapply Forall2_Forall_l; [exact Hall|];
    apply Forall_forall; intros l _ name (Hn & _); by exists l).
  cbn [Z.eqb]. rewrite (buildImage_spec _ _ _ _ _ k contents);
    [|done..|eapply Forall2_impl; [|exact Hall]; intros name l (? & ? & _); done].
  cbn [mbind option_bind]. eexists _, _. split; [done|]. split; [apply lookup_insert_eq|]. intros Hat.
  apply at_mem_app in Hat as [_ Hat]. apply loadModules_spec; [done..|].
  intros l [i Hi]%list_elem_of_lookup_1. destruct (Forall2_lookup_r _ _ _ _ _ Hall Hi) as (? & _ & _ & _ & ?). done.
Qed.

(** C36: The packer ends with exit code 0; when its output is in memory, the loader finds
    the modules behind the kernel and copies each of them, byte for byte, to its address,
    and touches no other memory, if the addresses do not overlap each other and what is
    still to be copied. *)
Theorem packed_modules_load fuel a fs kernel names k contents m base targets out :
  take (Z.to_nat (a_count a)) (a_args a) = kernel :: names →
  a_output a ∉ kernel :: names →
  fs !! kernel = Some k → (length k < fuel)%nat →
  Forall2 (λ name l, fs !! name = Some l ∧ (length l < fuel)%nat ∧ len l < 2 ^ 32) names contents →
  len contents < 2 ^ 32 → (length contents ≤ length targets)%nat →
  apart_from (base + len k) (len (payload contents)) targets contents →
  ∃ fs' image, pack fuel true a fs = Some (0, fs') ∧ fs' !! a_output a = Some image ∧
    (at_mem m base image → ∃ m' out', loadModules (base + len k) targets (m, out) = Some (m', out') ∧
       (∀ (i : nat) t l, targets !! i = Some t → contents !! i = Some l → at_mem m' t l) ∧
       ∀ x, (∀ (i : nat) t l, targets !! i = Some t → contents !! i = Some l → ¬ (t ≤ x < t + len l)) →
         load8 m' x = load8 m x).
Proof. apply pack_then_load. Qed.

(** A kernel of two bytes and two modules, at 0x100000; the modules go to the first two
    addresses of the table. *)
Lemma packed_modules_load_witness :
  let fs : files := list_to_map [("k"%string, [1; 2]); ("a"%string, [10; 20; 30]); ("b"%string, [])] in
  let a := mkArgs ["k"; "a"; "b"; "unused"]%string "img"%string 3 in
  ∃ fs' image, pack 10 true a fs = Some (0, fs') ∧ fs' !! "img"%string = Some image ∧
    (∀ m, at_mem m 0x100000 image → ∃ m' out', loadModules (0x100000 + 2) moduleAddresses (m, []) = Some (m', out') ∧
      at_mem m' 0x400000 [10; 20; 30]).
Proof.
  intros fs a. subst a.
  assert (Hap : apart_from (0x100000 + len [1; 2]) (len (payload [[10; 20; 30]; []])) moduleAddresses [[10; 20; 30]; []]).
  { assert (Hp : len (payload [[10; 20; 30]; []]) = 15) by reflexivity. rewrite Hp.
    unfold moduleAddresses. intros i t l Ht Hl.
    destruct i as [|[|i]]; simpl in Ht, Hl; [..|done]; injection Ht as <-; injection Hl as <-;
      (split; [unfold disjoint_areas; simpl; lia|]; intros [|[|j]] t' l' Hne Ht' Hl'; simpl in Ht', Hl';
       [..|done]; injection Ht' as <-; injection Hl' as <-; unfold disjoint_areas; simpl; lia). }
  pose proof (λ m, packed_modules_load 10 (mkArgs ["k"; "a"; "b"; "unused"]%string "img"%string 3) fs "k" ["a"; "b"]%string
    [1; 2] [[10; 20; 30]; []] m 0x100000 moduleAddresses [] eq_refl ltac:(set_solver) eq_refl ltac:(simpl; lia)
    ltac:(repeat constructor) ltac:(simpl; lia) ltac:(simpl; lia) Hap) as Hpack.
  destruct (Hpack (λ _, 0)) as (fs' & image & Hp & Hi & _). exists fs', image. split; [done|]. split; [done|]. intros m Hat.
  destruct (Hpack m) as (fs2 & image2 & Hp2 & Hi2 & Hload). rewrite Hp in Hp2. injection Hp2 as <-.
  cbn [a_output] in Hi, Hi2. rewrite Hi in Hi2. injection Hi2 as <-.
  destruct (Hload Hat) as (m' & out' & Hl & Hall & _). exists m', out'. split; [exact Hl|]. by apply (Hall 0%nat).
Defined.
