(* ===== verification/Stdio.v ===== *)
(** * Numbers and formats as text ([Kernel/naiveConsole.c], [Kernel/stdio.c])

    The conversions of [naiveConsole.c] and [stdio.c] and the formatted input and output
    of [stdio.c].  A buffer is the array of its chars and a pointer into it an index. *)

From S2P Require Import Prelude.

(** ** [naiveConsole.c] *)

(** [do .. while (value /= base)]: the digits, the last one first. *)
Fixpoint uintToBase_digits (fuel : nat) (value base : Z) (buffer : list Z) (p digits : Z) : option (list Z * Z * Z) :=
  match fuel with
  | O => None
  | S fuel' =>
      if base =? 0 then None
      else
        let remainder := uint32 (value mod base) in
        buffer ← aset buffer p (int8 (if remainder <? 10 then remainder + 48 else remainder + 65 - 10));
        let p := p + 1 in
        let digits := uint32 (digits + 1) in
        let value := value / base in
        if value =? 0 then Some (buffer, p, digits) else uintToBase_digits fuel' value base buffer p digits
  end.

(** [while (p1 < p2)]. *)
Fixpoint reverse_loop (fuel : nat) (buffer : list Z) (p1 p2 : Z) : option (list Z) :=
  if p1 <? p2 then
    match fuel with
    | O => None
    | S fuel' =>
        tmp ← aget buffer p1;
        c ← aget buffer p2;
        buffer ← aset buffer p1 c;
        buffer ← aset buffer p2 tmp;
        reverse_loop fuel' buffer (p1 + 1) (p2 - 1)
    end
  else Some buffer.

Definition uintToBase (value : Z) (buffer : list Z) (base : Z) : option (Z * list Z) :=
  '(buffer, p, digits) ← uintToBase_digits (S (length buffer)) value base buffer 0 0;
  buffer ← aset buffer p 0;
  buffer ← reverse_loop (length buffer) buffer 0 (p - 1);
  Some (digits, buffer).

(** ** [stdio.c] *)

Fixpoint itoa_digits (fuel : nat) (value base : Z) (str : list Z) (p len : Z) : option (list Z * Z * Z) :=
  match fuel with
  | O => None
  | S fuel' =>
      if base =? 0 then None
      else
        let remainder := Z.rem value base in
        str ← aset str p (int8 (if remainder <? 10 then remainder + 48 else remainder + 65 - 10));
        let p := p + 1 in
        let len := int32 (len + 1) in
        let value := int32 (Z.quot value base) in
        if value =? 0 then Some (str, p, len) else itoa_digits fuel' value base str p len
  end.

Definition itoa (value : Z) (str : list Z) (base : Z) : option (Z * list Z) :=
  if (value <? 0) && (base =? 10) then
    str ← aset str 0 45;
    '(str, p, len) ← itoa_digits (S (length str)) (int32 (- value)) base str 1 1;
    str ← aset str p 0;
    str ← reverse_loop (length str) str 1 (p - 1);
    Some (len, str)
  else
    '(str, p, len) ← itoa_digits (S (length str)) value base str 0 0;
    str ← aset str p 0;
    str ← reverse_loop (length str) str 0 (p - 1);
    Some (len, str).

(** What is typed and what is shown.  [readC] leaves the char 0 while nothing is typed;
    [getchar] reads until it is another. *)
Record Tty := mkTty { t_in : list Z; t_out : list Z }.

Definition putchar (c : Z) (t : Tty) : Tty := mkTty (t_in t) (t_out t ++ [c]).

Fixpoint getchar_in (l : list Z) : option (Z * list Z) :=
  match l with [] => None | c :: l' => if c =? 0 then getchar_in l' else Some (c, l') end.

Definition getchar (t : Tty) : option (Z * Tty) :=
  '(c, l) ← getchar_in (t_in t); Some (c, mkTty l (t_out t)).

Fixpoint putNumber_digits (fuel : nat) (buffer : list Z) (p size n : Z) : option (list Z * Z * Z * Z) :=
  if Z.quot n 10 =? 0 then Some (buffer, p, size, n)
  else match fuel with
       | O => None
       | S fuel' =>
           buffer ← aset buffer p (int8 (Z.rem n 10 + 48));
           putNumber_digits fuel' buffer (p + 1) (size + 1) (Z.quot n 10)
       end.

Fixpoint putNumber_out (size : nat) (buffer : list Z) (p : Z) (t : Tty) : option Tty :=
  match size with
  | O => Some t
  | S size' => c ← aget buffer p; putNumber_out size' buffer (p - 1) (putchar c t)
  end.

(** [buffer]: the 20 chars [kmalloc] gives; they are never released. *)
Definition putNumber (buffer : list Z) (n : Z) (t : Tty) : option Tty :=
  let '(n, t) := if n <? 0 then (int32 (- n), putchar 45 t) else (n, t) in
  '(buffer, p, size, n) ← putNumber_digits (length buffer) buffer 0 0 n;
  buffer ← aset buffer p (int8 (n + 48));
  putNumber_out (Z.to_nat (size + 1)) buffer p t.

(** The pointer walks over the array; without a terminator it leaves it. *)
Fixpoint print (s : list Z) (t : Tty) : option Tty :=
  match s with [] => None | c :: s' => if c =? 0 then Some t else print s' (putchar c t) end.

(** The loops of [printFF] and [scanFF] as steps: the next state, or the result.  [s] and
    [n] are null, or what is left of their arrays. *)
Inductive format_state := LETTER | FORMAT.
Record printing := mkPrinting {
  pr_state : format_state; pr_format : Z; pr_s : option (list (list Z)); pr_n : option (list Z); pr_tty : Tty }.

Definition printFF_step (buffer format : list Z) (p : printing) : option (printing + Tty) :=
  let '(mkPrinting state i s n t) := p in
  c ← aget format i;
  if c =? 0 then
    last ← aget format (i - 1);
    Some (inr (if last =? 37 then putchar 37 t else t))
  else
    match state with
    | LETTER =>
        if c =? 37 then Some (inl (mkPrinting FORMAT (i + 1) s n t))
        else Some (inl (mkPrinting LETTER (i + 1) s n (putchar c t)))
    | FORMAT =>
        match (if c =? 100 then n else None) with
        | Some n' =>
            number ← head n';
            t ← putNumber buffer number t;
            Some (inl (mkPrinting LETTER (i + 1) s (Some (tail n')) t))
        | None =>
            if c =? 115 then
              match s with
              | Some s' =>
                  string ← head s';
                  t ← print string t;
                  Some (inl (mkPrinting LETTER (i + 1) (Some (tail s')) n t))
              | None => Some (inl p)
              end
            else Some (inl (mkPrinting FORMAT (i + 1) s n (putchar 37 t)))
        end
    end.

Fixpoint run {A B} (step : A → option (A + B)) (fuel : nat) (a : A) : option B :=
  match fuel with
  | O => None
  | S fuel' => r ← step a; match r with inl a' => run step fuel' a' | inr b => Some b end
  end.

Definition printFF (fuel : nat) (buffer format : list Z) (s : option (list (list Z))) (n : option (list Z)) (t : Tty) : option Tty :=
  run (printFF_step buffer format) fuel (mkPrinting LETTER 0 s n t).

Definition BUFFERSIZE : Z := 100.

(** [while ((c = getchar()) == *format)]: the first char that differs is taken too. *)
Fixpoint scan_letter (c : Z) (l : list Z) : option (list Z) :=
  match l with
  | [] => None
  | c' :: l' => if c' =? 0 then scan_letter c l' else if c' =? c then scan_letter c l' else Some l'
  end.

(** [while ((c = getchar()) != '\n')]: [string] is an array with the position in it. *)
Fixpoint scan_string (l : list Z) (string : list Z) (pos bufferindex : Z) : option (list Z * list Z * Z * Z) :=
  match l with
  | [] => None
  | c :: l' =>
      if c =? 0 then scan_string l' string pos bufferindex
      else if c =? 10 then Some (l', string, pos, bufferindex)
      else if c =? 8 then
        if negb (bufferindex =? 0) then scan_string l' string (pos - 1) (bufferindex - 1)
        else scan_string l' string pos bufferindex
      else if bufferindex =? BUFFERSIZE then Some (l', string, pos, bufferindex)
      else string ← aset string pos c; scan_string l' string (pos + 1) (bufferindex + 1)
  end.

(** [bufferindex] has no value before the first [%s]. *)
Record scanning := mkScanning {
  sc_state : format_state; sc_format : Z; sc_indexS : Z; sc_bufferindex : option Z;
  sc_s : option (list (list Z)); sc_n : option (list Z); sc_tty : Tty }.

Definition scan_s (c : Z) (p : scanning) : option scanning :=
  let '(mkScanning state i indexS bufferindex s n t) := p in
  match s with
  | Some s' =>
      if c =? 115 then
        string ← aget s' indexS;
        '(l, string, pos, bufferindex) ← scan_string (t_in t) string 0 0;
        string ← aset string pos 0;
        s' ← aset s' indexS string;
        Some (mkScanning LETTER (i + 1) (indexS + 1) (Some bufferindex) (Some s') n (mkTty l (t_out t)))
      else Some p
  | None => Some p
  end.

Definition scanFF_step (buffer format : list Z) (p : scanning) : option (scanning + (Z * option (list (list Z)) * Tty)) :=
  let '(mkScanning state i indexS bufferindex s n t) := p in
  c ← aget format i;
  if c =? 0 then index ← bufferindex; Some (inr (c_bool (index =? BUFFERSIZE), s, t))
  else
    match state with
    | LETTER =>
        if c =? 37 then Some (inl (mkScanning FORMAT (i + 1) indexS bufferindex s n t))
        else
          l ← scan_letter c (t_in t);
          Some (inl (mkScanning LETTER (i + 1) indexS bufferindex s n (mkTty l (t_out t))))
    | FORMAT =>
        match (if c =? 100 then n else None) with
        | Some n' =>
            number ← head n';
            t ← putNumber buffer number t;
            Some (inl (mkScanning LETTER (i + 1) indexS bufferindex s (Some (tail n')) t))
        | None => p' ← scan_s c p; Some (inl p')
        end
    end.

Definition scanFF (fuel : nat) (buffer format : list Z) (s : option (list (list Z))) (n : option (list Z)) (t : Tty)
    : option (Z * option (list (list Z)) * Tty) :=
  run (scanFF_step buffer format) fuel (mkScanning LETTER 0 0 None s n t).

(** ** Numerals *)

(** The digits of a number, the last one first, and in the order they are written. *)
Fixpoint numeral_rev (fuel : nat) (base v : Z) : list Z :=
  match fuel with
  | O => []
  | S fuel' => v mod base :: (if v / base =? 0 then [] else numeral_rev fuel' base (v / base))
  end.

Definition numeral (base v : Z) : list Z := rev (numeral_rev 64 base v).

(** The number that digits stand for. *)
Definition value_of (base : Z) (ds : list Z) : Z := foldl (λ v d, v * base + d) 0 ds.

Definition digit_char (d : Z) : Z := if d <? 10 then d + 48 else d + 55.

Definition numeral_text (base v : Z) : list Z := digit_char <$> numeral base v.

Lemma numeral_rev_digits fuel base v : 0 < base → Forall (λ d, 0 ≤ d < base) (numeral_rev fuel base v).
Proof.
  intros Hb. revert v. induction fuel as [|fuel IH]; intros v; [constructor|]. cbn [numeral_rev].
  constructor; [by apply Z.mod_pos_bound|]. case_match; [constructor|apply IH].
Qed.

Lemma half_lt fuel base v : 2 ≤ base → 0 ≤ v < 2 ^ Z.of_nat (S fuel) → 0 ≤ v / base < 2 ^ Z.of_nat fuel.
Proof.
  intros Hb [Hv Hlt]. rewrite Nat2Z.inj_succ, Z.pow_succ_r in Hlt by lia. split; [apply Z.div_pos; lia|].
  apply Z.div_lt_upper_bound; [lia|]. nia.
Qed.

Lemma numeral_rev_value fuel base v :
  2 ≤ base → 0 ≤ v < 2 ^ Z.of_nat fuel → value_of base (rev (numeral_rev fuel base v)) = v.
Proof.
  intros Hb. revert v. induction fuel as [|fuel IH]; intros v Hv; [change (0 ≤ v < 1) in Hv; simpl; unfold value_of; simpl; lia|].
  cbn [numeral_rev]. cbn [rev]. unfold value_of. rewrite foldl_app. cbn [foldl].
  pose proof (half_lt _ _ _ Hb Hv) as Hh. pose proof (Z.div_mod v base ltac:(lia)) as Hdm.
  destruct (Z.eqb_spec (v / base) 0) as [E|E].
  - cbn. lia.
  - fold (value_of base (rev (numeral_rev fuel base (v / base)))). rewrite IH by done. lia.
Qed.

Lemma length_numeral_rev fuel base v : (length (numeral_rev fuel base v) ≤ fuel)%nat.
Proof. revert v. induction fuel as [|fuel IH]; intros v; cbn [numeral_rev length]; [lia|]. case_match; simpl; [lia|]. specialize (IH (v / base)). lia. Qed.

(** Only the numeral of 0 starts with the digit 0. *)
Lemma numeral_rev_last fuel base v :
  2 ≤ base → 0 ≤ v < 2 ^ Z.of_nat fuel → list.last (numeral_rev fuel base v) = Some 0 → v = 0.
Proof.
  intros Hb. revert v. induction fuel as [|fuel IH]; intros v Hv Hl; [done|]. cbn [numeral_rev] in Hl.
  pose proof (half_lt _ _ _ Hb Hv) as Hh. destruct (Z.eqb_spec (v / base) 0) as [E|E].
  - injection Hl as Hl. pose proof (Z.div_mod v base ltac:(lia)). lia.
  - destruct (numeral_rev fuel base (v / base)) eqn:En; [|].
    + destruct fuel; [change (0 ≤ v / base < 1) in Hh; lia|done].
    + rewrite last_cons_cons, <-En in Hl. by apply IH in Hl.
Qed.

(** ** Writing into a buffer *)

Abbreviation len l := (Z.of_nat (length l)).

Lemma aset_middle {A} (pre : list A) x y post i :
  i = len pre → aset (pre ++ x :: post) i y = Some ((pre ++ [y]) ++ post).
Proof.
  intros ->. rewrite aset_some by (rewrite length_app; simpl; lia). unfold aput. rewrite Nat2Z.id.
  rewrite <-app_assoc. simpl. by rewrite insert_app_r_alt, Nat.sub_diag by done.
Qed.

Lemma aget_middle {A} (pre : list A) x post i : i = len pre → aget (pre ++ x :: post) i = Some x.
Proof. intros ->. rewrite aget_of_nat. by apply list_lookup_middle. Qed.

Lemma digit_fits d : 0 ≤ d < 36 → int8 (if d <? 10 then d + 48 else d + 65 - 10) = digit_char d.
Proof.
  intros Hd. unfold digit_char. destruct (Z.ltb_spec d 10); rewrite wrap_s_id by (change (2 ^ (8 - 1)) with 128; lia); lia.
Qed.

(** ** The digit loops *)

Lemma uintToBase_digits_spec n fuel base v pre old digits :
  2 ≤ base ≤ 36 → 0 ≤ v < 2 ^ Z.of_nat n → let ds := digit_char <$> numeral_rev n base v in
  (0 < n)%nat → (length ds ≤ fuel)%nat → (length ds ≤ length old)%nat → 0 ≤ digits → digits + len ds < 2 ^ 32 →
  uintToBase_digits fuel v base (pre ++ old) (len pre) digits =
    Some ((pre ++ ds) ++ drop (length ds) old, len (pre ++ ds), digits + len ds).
Proof.
  intros Hb. revert fuel v pre old digits. induction n as [|n IH]; intros fuel v pre old digits Hv ds Hn Hf Hold Hd Hds; [lia|].
  subst ds. cbn [numeral_rev fmap list_fmap length] in *. pose proof (half_lt _ _ _ (proj1 Hb) Hv) as Hh.
  destruct fuel as [|fuel]; [lia|]. destruct old as [|x old]; [simpl in Hold; lia|]. cbn [length drop] in *.
  cbn [uintToBase_digits]. rewrite (proj2 (Z.eqb_neq base 0)) by lia.
  pose proof (Z.mod_pos_bound v base ltac:(lia)). rewrite (wrap_u_id 32 (v mod base)) by (change (2 ^ 32) with 4294967296; lia).
  rewrite digit_fits by lia. rewrite aset_middle by done. cbn [mbind option_bind].
  rewrite (wrap_u_id 32) by lia.
  destruct (Z.eqb_spec (v / base) 0) as [E|E].
  - cbn [fmap list_fmap length drop] in *. rewrite length_app. cbn [length]. do 3 f_equal. lia.
  - assert (n ≠ 0%nat) by (intros ->; change (0 ≤ v / base < 1) in Hh; lia).
    replace (len pre + 1) with (len (pre ++ [digit_char (v mod base)])) by (rewrite length_app; simpl; lia).
    rewrite IH by (done || lia). rewrite <-!app_assoc. cbn [app]. do 2 f_equal. lia.
Qed.

(** The signed loop of [itoa] on a positive number is that of [uintToBase]. *)
Lemma itoa_digits_uintToBase fuel v base str p n :
  2 ≤ base ≤ 36 → 0 ≤ v ≤ INT_MAX → 0 ≤ n → n + Z.of_nat fuel ≤ INT_MAX →
  itoa_digits fuel v base str p n = uintToBase_digits fuel v base str p n.
Proof.
  unfold INT_MAX. intros Hb. revert v str p n. induction fuel as [|fuel IH]; intros v str p n Hv Hn Hf; [done|].
  cbn [itoa_digits uintToBase_digits]. rewrite (proj2 (Z.eqb_neq base 0)) by lia.
  pose proof (Z.mod_pos_bound v base ltac:(lia)). pose proof (Z.div_mod v base ltac:(lia)).
  assert (0 ≤ v / base ≤ v) by (split; [apply Z.div_pos; lia|apply Z.div_le_upper_bound; nia]).
  rewrite Z.rem_mod_nonneg, Z.quot_div_nonneg by lia.
  rewrite (wrap_u_id 32 (v mod base)), (wrap_u_id 32 (n + 1)), !int32_id by (unfold INT_MIN, INT_MAX; change (2 ^ 32) with 4294967296; lia).
  destruct (aset str p _) as [str'|]; [|done]. cbn [mbind option_bind]. case_match; [done|]. apply IH; lia.
Qed.

Lemma reverse_loop_spec fuel pre l post p1 p2 :
  (length l ≤ fuel)%nat → p1 = len pre → p2 = len pre + len l - 1 →
  reverse_loop fuel (pre ++ l ++ post) p1 p2 = Some (pre ++ rev l ++ post).
Proof.
  revert pre l post p1 p2. induction fuel as [|fuel IH]; intros pre l post p1 p2 Hf -> ->.
  { destruct l; [|simpl in Hf; lia]. cbn [reverse_loop rev app length]. by rewrite (proj2 (Z.ltb_ge _ _)) by lia. }
  destruct l as [|a l]; [cbn [reverse_loop rev app length]; by rewrite (proj2 (Z.ltb_ge _ _)) by lia|].
  destruct l as [|b l _] using rev_ind; [cbn [reverse_loop rev app length]; by rewrite (proj2 (Z.ltb_ge _ _)) by lia|].
  rewrite !length_cons, length_app in *. cbn [length] in *. cbn [reverse_loop].
  rewrite (proj2 (Z.ltb_lt _ _)) by lia.
  assert (Hlast : len pre + Z.of_nat (S (length l + 1)) - 1 = len (pre ++ a :: l)) by (rewrite length_app; simpl; lia).
  rewrite Hlast. cbn [app]. rewrite (aget_middle pre a _ (len pre)) by done. cbn [mbind option_bind].
  replace (pre ++ a :: (l ++ [b]) ++ post) with ((pre ++ a :: l) ++ b :: post) by (rewrite <-!app_assoc; done).
  rewrite aget_middle by done. cbn [mbind option_bind].
  rewrite <-app_assoc. cbn [app]. rewrite aset_middle by done. cbn [mbind option_bind].
  replace ((pre ++ [b]) ++ l ++ b :: post) with (((pre ++ [b]) ++ l) ++ b :: post) by (rewrite <-!app_assoc; done).
  rewrite aset_middle by (rewrite !length_app; simpl; lia). cbn [mbind option_bind].
  rewrite <-(app_assoc (_ ++ l)), <-(app_assoc (pre ++ [b])).
  rewrite (IH (pre ++ [b]) l) by (rewrite ?length_app; simpl; lia).
  cbn [rev]. rewrite rev_app_distr. cbn [rev app]. by rewrite <-!app_assoc.
Qed.

Lemma rev_fmap {A B} (f : A → B) (l : list A) : rev (f <$> l) = f <$> rev l.
Proof. induction l as [|x l IH]; [done|]. cbn [fmap list_fmap rev]. by rewrite fmap_app, <-IH. Qed.

Lemma numeral_text_rev base v : numeral_text base v = rev (digit_char <$> numeral_rev 64 base v).
Proof. symmetry. apply rev_fmap. Qed.

Lemma length_numeral_text base v : length (numeral_text base v) = length (numeral_rev 64 base v).
Proof. by rewrite numeral_text_rev, length_rev, length_fmap. Qed.

Lemma numeral_correct base v :
  2 ≤ base → 0 ≤ v < 2 ^ 64 →
  value_of base (numeral base v) = v ∧ Forall (λ d, 0 ≤ d < base) (numeral base v) ∧ (head (numeral base v) = Some 0 → v = 0).
Proof.
  intros Hb Hv. unfold numeral. split; [by apply (numeral_rev_value 64)|]. split.
  - rewrite list.Forall_forall. intros d Hd%list_elem_of_In%in_rev%list_elem_of_In.
    pose proof (numeral_rev_digits 64 base v ltac:(lia)) as Hall. rewrite list.Forall_forall in Hall. by apply Hall.
  - intros Hh. apply (numeral_rev_last 64 base v); [done|done|]. rewrite <-Hh.
    destruct (numeral_rev 64 base v) as [|x l _] using rev_ind; [done|]. by rewrite last_snoc, rev_unit.
Qed.

(** The end of both conversions: the terminator and the reversal. *)
Lemma finish_numeral pre ds old fuel :
  (length ds < length old)%nat → (length ds ≤ fuel)%nat →
  (buffer ← aset ((pre ++ ds) ++ drop (length ds) old) (len (pre ++ ds)) 0;
   reverse_loop fuel buffer (len pre) (len (pre ++ ds) - 1)) = Some (pre ++ rev ds ++ 0 :: drop (S (length ds)) old).
Proof.
  intros Hlt Hf. destruct (lookup_lt_is_Some_2 old (length ds) Hlt) as [x Hx]. rewrite (drop_S _ _ _ Hx).
  rewrite aset_middle by done. cbn [mbind option_bind]. rewrite <-!app_assoc.
  by rewrite reverse_loop_spec by (rewrite ?length_app; simpl; lia).
Qed.

Lemma uintToBase_spec value base buffer :
  2 ≤ base ≤ 36 → 0 ≤ value < 2 ^ 64 → (length (numeral_text base value) < length buffer)%nat →
  uintToBase value buffer base = Some (len (numeral_text base value),
    numeral_text base value ++ 0 :: drop (S (length (numeral_text base value))) buffer).
Proof.
  intros Hb Hv Hlt. rewrite length_numeral_text in *.
  pose proof (length_numeral_rev 64 base value). unfold uintToBase.
  pose proof (uintToBase_digits_spec 64 (S (length buffer)) base value [] buffer 0 Hb Hv) as Hd.
  cbn [app length] in Hd. change (Z.of_nat 0) with 0 in Hd. rewrite length_fmap in Hd. rewrite Hd by (try change (2 ^ 32) with 4294967296; lia). cbn [mbind option_bind].
  set (ds := digit_char <$> numeral_rev 64 base value) in *.
  assert (Hlds : length ds = length (numeral_rev 64 base value)) by apply length_fmap. rewrite <-Hlds in *.
  pose proof (finish_numeral [] ds buffer (length buffer) Hlt ltac:(lia)) as Hfin. cbn [app] in Hfin.
  destruct (aset (ds ++ drop (length ds) buffer) (len ds) 0) as [b|] eqn:Ea; [|done]. cbn [mbind option_bind] in Hfin |- *.
  apply aset_inv in Ea as [_ ->]. rewrite length_aput, length_app, length_drop.
  replace (length ds + (length buffer - length ds))%nat with (length buffer) by lia.
  change (len []) with 0 in Hfin. rewrite Hfin. cbn [mbind option_bind]. by rewrite numeral_text_rev.
Qed.

(** No terminator among the digits. *)
Lemma numeral_text_no_0 base value : 0 < base → Forall (λ c, c ≠ 0) (numeral_text base value).
Proof.
  intros Hb. rewrite numeral_text_rev. apply Forall_rev, Forall_fmap. eapply Forall_impl; [|apply numeral_rev_digits, Hb].
  intros d Hd. cbn in Hd |- *. unfold digit_char. case_match; lia.
Qed.

(** [uintToBase] writes the digits of the number in the base, most significant first,
    and the terminator, leaves the rest of the buffer and returns how many there are; the
    digits stand for the number again, each is less than the base, and none is wasted. *)
Theorem uintToBase_correct value base buffer :
  2 ≤ base ≤ 36 → 0 ≤ value < 2 ^ 64 → (length (numeral_text base value) < length buffer)%nat →
  uintToBase value buffer base = Some (len (numeral_text base value),
    numeral_text base value ++ 0 :: drop (S (length (numeral_text base value))) buffer) ∧
  value_of base (numeral base value) = value ∧
  Forall (λ d, 0 ≤ d < base) (numeral base value) ∧ (head (numeral base value) = Some 0 → value = 0).
Proof.
  intros Hb Hv Hlt. split; [by apply uintToBase_spec|apply numeral_correct; [lia|done]].
Qed.

(** 48879 in hexadecimal is BEEF. *)
Lemma uintToBase_correct_witness :
  uintToBase 48879 (replicate 6 63) 16 = Some (4, [66; 69; 69; 70; 0; 63]) ∧ value_of 16 (numeral 16 48879) = 48879.
Proof.
  destruct (uintToBase_correct 48879 16 (replicate 6 63)) as (H1 & H2 & _); [lia|lia|vm_compute; lia|].
  split; [exact H1|exact H2].
Defined.

(** The buffer of the console is one char too short for 64 binary digits. *)
Lemma printBin_overflow : uintToBase (2 ^ 63) (replicate 64 0) 2 = None.
Proof. reflexivity. Qed.

(** ** [putNumber] *)

Lemma length_numeral_rev_pow (k : nat) n v : (0 < k)%nat → 0 ≤ v < 10 ^ Z.of_nat k → (length (numeral_rev n 10 v) ≤ k)%nat.
Proof.
  revert n v. induction k as [|k IH]; intros n v Hk Hv; [lia|]. destruct n as [|n]; cbn [numeral_rev length]; [lia|].
  case_match eqn:E; cbn [length]; [lia|]. apply Z.eqb_neq in E.
  rewrite Nat2Z.inj_succ, Z.pow_succ_r in Hv by lia. destruct k; [change (10 ^ Z.of_nat 0) with 1 in Hv; Z.to_euclidean_division_equations; lia|].
  specialize (IH n (v / 10) ltac:(lia) ltac:(Z.to_euclidean_division_equations; lia)). lia.
Qed.

Lemma putNumber_digits_spec n fuel v pre old size :
  0 ≤ v < 2 ^ Z.of_nat n → let ds := digit_char <$> numeral_rev n 10 v in
  (0 < n)%nat → (length ds ≤ fuel)%nat → (length ds ≤ length old)%nat →
  ∃ b p' size' d, putNumber_digits fuel (pre ++ old) (len pre) size v = Some (b, p', size', d) ∧
    aset b p' (int8 (d + 48)) = Some ((pre ++ ds) ++ drop (length ds) old) ∧
    p' = len pre + len ds - 1 ∧ size' + 1 = size + len ds.
Proof.
  revert fuel v pre old size. induction n as [|n IH]; intros fuel v pre old size Hv ds Hn Hf Hold; [lia|].
  subst ds. cbn [numeral_rev fmap list_fmap length] in *. pose proof (half_lt _ 10 _ ltac:(lia) Hv) as Hh.
  pose proof (Z.mod_pos_bound v 10 ltac:(lia)). pose proof (Z.div_mod v 10 ltac:(lia)).
  destruct fuel as [|fuel]; [lia|]. destruct old as [|x old]; [simpl in Hold; lia|]. cbn [length drop] in *.
  cbn [putNumber_digits]. rewrite Z.quot_div_nonneg, Z.rem_mod_nonneg by lia.
  assert (Hdc : int8 (v mod 10 + 48) = digit_char (v mod 10)).
  { rewrite <-(digit_fits (v mod 10)) by lia. by rewrite (proj2 (Z.ltb_lt (v mod 10) 10)) by lia. }
  destruct (Z.eqb_spec (v / 10) 0) as [E|E].
  - eexists _, _, _, _. split; [done|]. cbn [fmap list_fmap length drop] in *. rewrite <-Hdc.
    replace (v mod 10) with v by lia. rewrite aset_middle by done. split; [done|]. lia.
  - assert (n ≠ 0%nat) by (intros ->; change (0 ≤ v / 10 < 1) in Hh; lia).
    rewrite Hdc, aset_middle by done. cbn [mbind option_bind].
    destruct (IH fuel (v / 10) (pre ++ [digit_char (v mod 10)]) old (size + 1)) as (b & p' & size' & d & Hl & Ha & Hp & Hs); [done|lia..|].
    exists b, p', size', d. rewrite length_app in Hl, Hp. cbn [length] in Hl, Hp.
    replace (Z.of_nat (length pre + 1)) with (len pre + 1) in Hl by lia.
    split; [exact Hl|]. split; [rewrite Ha; by rewrite <-!app_assoc|]. lia.
Qed.

Lemma putNumber_out_spec ds post t :
  putNumber_out (length ds) (ds ++ post) (len ds - 1) t = Some (mkTty (t_in t) (t_out t ++ rev ds)).
Proof.
  revert post t. induction ds as [|d ds IH] using rev_ind; intros post [ti to]; [simpl; by rewrite app_nil_r|].
  rewrite length_app, Nat.add_comm. cbn [length Nat.add putNumber_out]. rewrite <-app_assoc. cbn [app].
  rewrite aget_middle by lia. cbn [mbind option_bind].
  replace (Z.of_nat (S (length ds)) - 1 - 1) with (len ds - 1) by lia. rewrite IH. cbn [t_in t_out putchar].
  by rewrite rev_unit, <-app_assoc.
Qed.

(** A number as it is printed. *)
Definition decimal (n : Z) : list Z := if n <? 0 then 45 :: numeral_text 10 (- n) else numeral_text 10 n.

Lemma putNumber_spec buffer n t :
  (20 ≤ length buffer)%nat → INT_MIN < n ≤ INT_MAX →
  putNumber buffer n t = Some (mkTty (t_in t) (t_out t ++ decimal n)).
Proof.
  unfold INT_MIN, INT_MAX. intros Hbuf Hn.
  assert (Hpos : ∀ v t', 0 ≤ v < 10 ^ Z.of_nat 10 →
    ('(b, p, size, d) ← putNumber_digits (length buffer) buffer 0 0 v;
     b ← aset b p (int8 (d + 48)); putNumber_out (Z.to_nat (size + 1)) b p t') =
    Some (mkTty (t_in t') (t_out t' ++ numeral_text 10 v))).
  { intros v t' Hv. pose proof (length_numeral_rev_pow 10 64 v ltac:(lia) Hv) as Hl.
    pose proof (length_fmap digit_char (numeral_rev 64 10 v)) as Hlf.
    destruct (putNumber_digits_spec 64 (length buffer) v [] buffer 0) as (b & p & size & d & Hd & Ha & -> & Hs); [|lia..|].
    { change (10 ^ Z.of_nat 10) with 10000000000 in Hv. change (2 ^ Z.of_nat 64) with 18446744073709551616. lia. }
    cbn [app length] in Hd, Ha. change (Z.of_nat 0) with 0 in Hd, Ha. rewrite Hd. cbn [mbind option_bind].
    cbn [length]. change (Z.of_nat 0) with 0. rewrite Ha. cbn [mbind option_bind].
    replace (Z.to_nat (size + 1)) with (length (digit_char <$> numeral_rev 64 10 v)) by lia.
    change (0 + len ?x - 1) with (len x - 1). rewrite putNumber_out_spec. by rewrite numeral_text_rev. }
  unfold putNumber, decimal. change (10 ^ Z.of_nat 10) with 10000000000 in Hpos.
  destruct (Z.ltb_spec n 0) as [Hneg|Hge].
  - rewrite int32_id by (unfold INT_MIN, INT_MAX; lia). rewrite Hpos by lia. cbn [putchar t_in t_out]. by rewrite <-app_assoc.
  - apply Hpos. lia.
Qed.

(** The smallest [int] is its own opposite; its digits come out below the character 0. *)
Lemma putNumber_int_min :
  putNumber (replicate 20 0) INT_MIN (mkTty [] []) = Some (mkTty [] [45; 46; 47; 44; 41; 44; 40; 45; 42; 44; 40]).
Proof. reflexivity. Qed.

(** [itoa] in base 10 writes the number as it is printed. *)
Lemma itoa_decimal v str :
  INT_MIN < v ≤ INT_MAX → (length (decimal v) < length str)%nat → len str < INT_MAX - 3 →
  itoa v str 10 = Some (len (decimal v), decimal v ++ 0 :: drop (S (length (decimal v))) str).
Proof.
  unfold INT_MIN, INT_MAX, decimal. intros Hv Hlt Hbig. unfold itoa. rewrite Z.eqb_refl, andb_true_r.
  assert (Hpos : ∀ w pre old, 0 ≤ w ≤ 2147483647 → (length (numeral_rev 64 10 w) < length old)%nat → len pre ≤ 1 →
    len old < 2147483644 →
    ('(b, p, n) ← itoa_digits (S (length (pre ++ old))) w 10 (pre ++ old) (len pre) (len pre);
     b ← aset b p 0; b ← reverse_loop (length b) b (len pre) (p - 1); Some (n, b)) =
    Some (len pre + len (numeral_text 10 w), pre ++ numeral_text 10 w ++ 0 :: drop (S (length (numeral_text 10 w))) old)).
  { intros w pre old Hw Hl Hpre Hold. rewrite length_numeral_text.
    pose proof (length_fmap digit_char (numeral_rev 64 10 w)) as Hlf. pose proof (length_numeral_rev 64 10 w) as H64.
    rewrite itoa_digits_uintToBase by (unfold INT_MAX; rewrite ?length_app; lia).
    rewrite (uintToBase_digits_spec 64) by (rewrite ?length_fmap, ?length_app; try change (2 ^ 32) with 4294967296;
      try change (2 ^ Z.of_nat 64) with 18446744073709551616; lia).
    cbn [mbind option_bind]. rewrite numeral_text_rev, <-Hlf. set (ds := digit_char <$> numeral_rev 64 10 w) in *.
    pose proof (finish_numeral pre ds old (length (pre ++ old)) ltac:(lia) ltac:(rewrite length_app; lia)) as Hfin.
    destruct (aset ((pre ++ ds) ++ _) _ 0) as [b|] eqn:Ea; [|done]. cbn [mbind option_bind] in Hfin |- *.
    apply aset_inv in Ea as [_ ->]. rewrite length_aput.
    replace (length ((pre ++ ds) ++ drop (length ds) old)) with (length (pre ++ old)) by (rewrite !length_app, length_drop; lia).
    by rewrite Hfin. }
  destruct (Z.ltb_spec v 0) as [Hneg|Hge].
  - destruct str as [|x str]; [simpl in Hlt; lia|]. cbn [length] in Hlt, Hbig.
    change (aset (x :: str) 0 45) with (Some (45 :: str)). cbn [mbind option_bind].
    rewrite int32_id by (unfold INT_MIN, INT_MAX; lia). rewrite length_numeral_text in Hlt.
    pose proof (Hpos (- v) [45] str ltac:(lia) ltac:(lia) ltac:(simpl; lia) ltac:(lia)) as Hp.
    cbn [app length drop] in Hp |- *. change (Z.of_nat 1) with 1 in Hp. rewrite Hp. f_equal. f_equal. lia.
  - rewrite length_numeral_text in Hlt. pose proof (Hpos v [] str ltac:(lia) ltac:(lia) ltac:(simpl; lia) ltac:(lia)) as Hp.
    exact Hp.
Qed.

(** ** [printFF] *)

(** A format: chars that stand for themselves, [%d] and [%s]. *)
Inductive piece := PChar (c : Z) | PNum | PStr.

Definition piece_text (p : piece) : list Z :=
  match p with PChar c => [c] | PNum => [37; 100] | PStr => [37; 115] end.

Definition format_of (ps : list piece) : list Z := ps ≫= piece_text.

(** What a format prints, given its numbers and its strings; [None] if they run out. *)
Fixpoint render (ps : list piece) (ns : list Z) (ss : list (list Z)) : option (list Z) :=
  match ps with
  | [] => Some []
  | PChar c :: ps' => l ← render ps' ns ss; Some (c :: l)
  | PNum :: ps' => match ns with n :: ns' => l ← render ps' ns' ss; Some (decimal n ++ l) | [] => None end
  | PStr :: ps' => match ss with s :: ss' => l ← render ps' ns ss'; Some (s ++ l) | [] => None end
  end.

Definition plain (p : piece) : Prop := match p with PChar c => c ≠ 0 ∧ c ≠ 37 | _ => True end.

(** A string in an array: no terminator before its end. *)
Definition text (l : list Z) : Prop := Forall (λ c, c ≠ 0) l.

Lemma print_emits l rest t : text l → print (l ++ 0 :: rest) t = Some (mkTty (t_in t) (t_out t ++ l)).
Proof.
  revert t. induction l as [|c l IH]; intros [ti to] Hl; [cbn; by rewrite app_nil_r|].
  apply list.Forall_cons in Hl as [Hc Hl]. cbn [app print]. rewrite (proj2 (Z.eqb_neq c 0)) by done.
  rewrite IH by done. cbn [putchar t_in t_out]. by rewrite <-app_assoc.
Qed.

(** The last char of what is before the place in the format is not a percent sign. *)
Definition no_percent (pre : list Z) : Prop := list.last pre ≠ Some 37.

(** One round for a plain char, two for a directive. *)
Section rounds.
Context (buffer F : list Z) (Hbuf : (20 ≤ length buffer)%nat).

Lemma round_char fuel i c s n t :
  aget F i = Some c → c ≠ 0 → c ≠ 37 →
  run (printFF_step buffer F) (S fuel) (mkPrinting LETTER i s n t) =
  run (printFF_step buffer F) fuel (mkPrinting LETTER (i + 1) s n (putchar c t)).
Proof. intros Hc H0 H37. cbn [run printFF_step]. rewrite Hc. cbn [mbind option_bind]. by rewrite (proj2 (Z.eqb_neq c 0)), (proj2 (Z.eqb_neq c 37)). Qed.

Lemma round_num fuel i s n ns t :
  aget F i = Some 37 → aget F (i + 1) = Some 100 → INT_MIN < n ≤ INT_MAX →
  run (printFF_step buffer F) (S (S fuel)) (mkPrinting LETTER i s (Some (n :: ns)) t) =
  run (printFF_step buffer F) fuel (mkPrinting LETTER (i + 1 + 1) s (Some ns) (mkTty (t_in t) (t_out t ++ decimal n))).
Proof.
  intros H1 H2 Hn. cbn [run printFF_step]. rewrite H1. cbn [mbind option_bind Z.eqb Pos.eqb run printFF_step].
  rewrite H2. cbn [mbind option_bind Z.eqb Pos.eqb head tail]. by rewrite putNumber_spec.
Qed.

Lemma round_str fuel i l ss n t :
  aget F i = Some 37 → aget F (i + 1) = Some 115 → text l →
  run (printFF_step buffer F) (S (S fuel)) (mkPrinting LETTER i (Some ((l ++ [0]) :: ss)) n t) =
  run (printFF_step buffer F) fuel (mkPrinting LETTER (i + 1 + 1) (Some ss) n (mkTty (t_in t) (t_out t ++ l))).
Proof.
  intros H1 H2 Hl. cbn [run printFF_step]. rewrite H1. cbn [mbind option_bind Z.eqb Pos.eqb run printFF_step].
  rewrite H2. cbn [mbind option_bind Z.eqb Pos.eqb head tail]. by rewrite print_emits.
Qed.

End rounds.

Lemma printFF_loop ps fuel buffer pre ns ss t out :
  (20 ≤ length buffer)%nat → Forall plain ps → Forall (λ n, INT_MIN < n ≤ INT_MAX) ns → Forall text ss →
  no_percent pre → pre ++ format_of ps ≠ [] → render ps ns ss = Some out → (length (format_of ps) < fuel)%nat →
  run (printFF_step buffer (pre ++ format_of ps ++ [0])) fuel
    (mkPrinting LETTER (len pre) (Some ((λ s, s ++ [0]) <$> ss)) (Some ns) t) = Some (mkTty (t_in t) (t_out t ++ out)).
Proof.
  intros Hbuf. revert fuel pre ns ss t out.
  induction ps as [|p ps IH]; intros fuel pre ns ss [ti to] out Hps Hns Hss Hpre Hne Hr Hf.
  { injection Hr as <-. rewrite !app_nil_r in *. destruct fuel as [|fuel]; [lia|]. cbn [run printFF_step format_of mbind list_bind app].
    rewrite (aget_middle pre 0 [] (len pre)) by done. cbn [mbind option_bind Z.eqb].
    destruct pre as [|x pre _] using rev_ind; [done|]. unfold no_percent in Hpre. rewrite last_snoc in Hpre.
    rewrite <-app_assoc. cbn [app]. rewrite aget_middle by (rewrite length_app; simpl; lia). cbn [mbind option_bind].
    rewrite (proj2 (Z.eqb_neq x 37)) by congruence. done. }
  apply list.Forall_cons in Hps as [Hp Hps].
  assert (Hmid : pre ++ format_of (p :: ps) ++ [0] = (pre ++ piece_text p) ++ format_of ps ++ [0])
    by (unfold format_of; cbn [mbind list_bind]; by rewrite <-!app_assoc).
  assert (Hlen : length (format_of (p :: ps)) = (length (piece_text p) + length (format_of ps))%nat) by apply length_app.
  rewrite Hlen in Hf.
  assert (Hnp : no_percent (pre ++ piece_text p)).
  { unfold no_percent. destruct p; cbn [piece_text].
    - rewrite last_snoc. destruct Hp. congruence.
    - by rewrite (app_assoc pre [37] [100] : pre ++ [37; 100] = _), last_snoc.
    - by rewrite (app_assoc pre [37] [115] : pre ++ [37; 115] = _), last_snoc. }
  assert (Hne' : (pre ++ piece_text p) ++ format_of ps ≠ []) by (destruct pre; [destruct p|]; done).
  specialize (IH (fuel - length (piece_text p))%nat (pre ++ piece_text p)). rewrite <-Hmid in IH.
  remember (pre ++ format_of (p :: ps) ++ [0]) as F eqn:HF. clear HF.
  assert (Hget : ∀ pre' c post, F = pre' ++ c :: post → aget F (len pre') = Some c) by (intros ??? ->; by apply aget_middle).
  assert (Hget2 : ∀ c d, pre ++ [c; d] = pre ++ piece_text p → aget F (len pre + 1) = Some d).
  { intros c d E. replace (len pre + 1) with (len (pre ++ [c])) by (rewrite length_app; simpl; lia).
    apply (Hget _ _ (format_of ps ++ [0])). by rewrite Hmid, <-E, <-!app_assoc. }
  rewrite length_app in IH. destruct p as [c| |]; cbn [piece_text length render] in *.
  - destruct Hp as [Hc0 Hc]. destruct (render ps ns ss) as [l|] eqn:Hl; [|done]. injection Hr as <-.
    destruct fuel as [|fuel]; [lia|]. rewrite (round_char buffer F fuel _ c) by (done || eapply Hget; by rewrite Hmid, <-app_assoc).
    rewrite Nat.sub_1_r, Nat2Z.inj_add in IH. rewrite (IH ns ss _ l) by (done || lia). cbn [putchar t_in t_out]. by rewrite <-app_assoc.
  - destruct ns as [|n ns]; [done|]. destruct (render ps ns ss) as [l|] eqn:Hl; [|done]. injection Hr as <-.
    apply list.Forall_cons in Hns as [Hn Hns]. do 2 (destruct fuel as [|fuel]; [lia|]).
    rewrite round_num by (done || (by apply (Hget2 37)) || eapply Hget; by rewrite Hmid, <-app_assoc).
    replace (len pre + 1 + 1) with (Z.of_nat (length pre + 2)) by lia. replace (S (S fuel) - 2)%nat with fuel in IH by lia.
    rewrite (IH ns ss _ l) by (done || lia). cbn [t_in t_out]. by rewrite <-app_assoc.
  - destruct ss as [|s ss]; [done|]. destruct (render ps ns ss) as [l|] eqn:Hl; [|done]. injection Hr as <-.
    apply list.Forall_cons in Hss as [Hs Hss]. do 2 (destruct fuel as [|fuel]; [lia|]). cbn [fmap list_fmap].
    rewrite round_str by (done || (by apply (Hget2 37)) || eapply Hget; by rewrite Hmid, <-app_assoc).
    replace (len pre + 1 + 1) with (Z.of_nat (length pre + 2)) by lia. replace (S (S fuel) - 2)%nat with fuel in IH by lia.
    rewrite (IH ns ss _ l) by (done || lia). cbn [t_in t_out]. by rewrite <-app_assoc.
Qed.

(** C37: [printFF] of a format of plain chars, [%d] and [%s] prints the chars, the numbers
    in decimal with their sign and the strings, in order, and returns.  The numbers are those of an [int] other than
    [INT_MIN], whose negation overflows (see [putNumber_int_min]). *)
Theorem printFF_correct ps fuel buffer ns ss t out :
  (20 ≤ length buffer)%nat → Forall plain ps → Forall (λ n, INT_MIN < n ≤ INT_MAX) ns → Forall text ss →
  ps ≠ [] → render ps ns ss = Some out → (length (format_of ps) < fuel)%nat →
  printFF fuel buffer (format_of ps ++ [0]) (Some ((λ s, s ++ [0]) <$> ss)) (Some ns) t =
    Some (mkTty (t_in t) (t_out t ++ out)).
Proof.
  intros Hbuf Hps Hns Hss Hne Hr Hf. apply (printFF_loop ps fuel buffer [] ns ss t out); try done. by destruct ps as [|[]].
Qed.

(** The format [a%d-%s] with -120 and [ok]. *)
Lemma printFF_correct_witness :
  printFF 20 (replicate 20 0) [97; 37; 100; 45; 37; 115; 0] (Some [[111; 107; 0]]) (Some [-120]) (mkTty [] []) =
    Some (mkTty [] [97; 45; 49; 50; 48; 45; 111; 107]).
Proof.
  apply (printFF_correct [PChar 97; PNum; PChar 45; PStr] 20 (replicate 20 0) [-120] [[111; 107]] (mkTty [] []));
    [simpl; lia|repeat constructor; simpl; lia|repeat constructor; unfold INT_MIN, INT_MAX; lia|repeat constructor; lia|done|reflexivity|simpl; lia].
Defined.

(** [%s] without strings: the loop makes no progress. *)
Lemma printFF_stuck fuel buffer F i n t :
  aget F i = Some 115 → run (printFF_step buffer F) fuel (mkPrinting FORMAT i None n t) = None.
Proof. intros H. induction fuel as [|fuel IH]; [done|]. cbn [run printFF_step]. by rewrite H. Qed.

(** A directive that is neither loses its char and the one after it is read as a
    directive: [%x1] prints two percent signs. *)
Lemma printFF_unknown : printFF 10 [] [37; 120; 49; 0] None None (mkTty [] []) = Some (mkTty [] [37; 37]).
Proof. reflexivity. Qed.

(** ** [scanFF] *)

(** A line as it stands after its backspaces have been applied. *)
Fixpoint edit (line acc : list Z) : list Z :=
  match line with
  | [] => acc
  | c :: line' => edit line' (if c =? 8 then take (length acc - 1) acc else acc ++ [c])
  end.

Lemma scan_string_takes line rest acc old :
  Forall (λ c, c ≠ 0 ∧ c ≠ 10) line → (length acc + length line ≤ 100)%nat →
  (length line < length old)%nat →
  ∃ old', scan_string (line ++ 10 :: rest) (acc ++ old) (len acc) (len acc) =
    Some (rest, edit line acc ++ old', len (edit line acc), len (edit line acc)) ∧ old' ≠ [].
Proof.
  revert acc old. induction line as [|c line IH]; intros acc old Hl Hacc Hold; cbn [app scan_string edit Z.eqb Pos.eqb length] in *.
  { exists old. split; [done|]. destruct old; simpl in Hold; [lia|done]. }
  apply list.Forall_cons in Hl as [[Hc0 Hc10] Hl]. rewrite (proj2 (Z.eqb_neq c 0)), (proj2 (Z.eqb_neq c 10)) by done.
  destruct (Z.eqb_spec c 8) as [->|Hc8].
  - destruct acc as [|x acc _] using rev_ind; [apply IH; [done|simpl; lia|lia]|].
    rewrite length_app in Hacc. cbn [length] in Hacc. rewrite length_app. cbn [length].
    rewrite (proj2 (Z.eqb_neq _ 0)) by lia. cbn [negb].
    replace (length acc + 1 - 1)%nat with (length acc) by lia. rewrite take_app_length.
    replace (Z.of_nat (length acc + 1) - 1) with (len acc) by lia. rewrite <-app_assoc. apply IH; [done|lia|simpl; lia].
  - unfold BUFFERSIZE. rewrite (proj2 (Z.eqb_neq _ 100)) by lia. destruct old as [|x old]; [simpl in Hold; lia|].
    rewrite aset_middle by done. cbn [mbind option_bind].
    replace (len acc + 1) with (len (acc ++ [c])) by (rewrite length_app; simpl; lia).
    apply IH; [done|rewrite length_app; simpl; lia|simpl in Hold; lia].
Qed.

(** [scanFF] of [%s] reads up to the end of the line and leaves in the array the line
    as its backspaces left it, with its terminator, and nothing of it in the input. *)
Theorem scanFF_line line rest string buffer n out fuel :
  Forall (λ c, c ≠ 0 ∧ c ≠ 10) line → (length line < 100)%nat → (length line < length string)%nat → (3 ≤ fuel)%nat →
  ∃ old, scanFF fuel buffer [37; 115; 0] (Some [string]) n (mkTty (line ++ 10 :: rest) out) =
    Some (0, Some [edit line [] ++ 0 :: old], mkTty rest out).
Proof.
  intros Hl Hlen Hstr Hf. do 3 (destruct fuel as [|fuel]; [lia|]).
  destruct (scan_string_takes line rest [] string Hl ltac:(simpl; lia) Hstr) as (old' & Hs & Hne).
  cbn [app length] in Hs. change (Z.of_nat 0) with 0 in Hs. destruct old' as [|x old']; [done|]. exists old'.
  set (F := [37; 115; 0]). assert (H0 : aget F 0 = Some 37) by done. assert (H1 : aget F (0 + 1) = Some 115) by done.
  assert (H2 : aget F (0 + 1 + 1) = Some 0) by done. clearbody F.
  unfold scanFF. cbn [run scanFF_step]. rewrite H0. cbn [mbind option_bind Z.eqb Pos.eqb run scanFF_step].
  rewrite H1. cbn [mbind option_bind Z.eqb Pos.eqb scan_s t_in t_out].
  change (aget [string] 0) with (Some string). cbn [mbind option_bind]. rewrite Hs. cbn [mbind option_bind].
  rewrite aset_middle by done. cbn [mbind option_bind].
  change (aset [string] 0 ?x) with (Some [x]). cbn [mbind option_bind run scanFF_step]. rewrite H2.
  cbn [mbind option_bind Z.eqb Pos.eqb]. unfold BUFFERSIZE.
  rewrite <-app_assoc. cbn [app].
  assert (len (edit line []) ≤ len line).
  { clear. enough (∀ acc, len (edit line acc) ≤ len acc + len line) by (specialize (H []); simpl in H; lia).
    induction line as [|c line IH]; intros acc; cbn [edit length]; [lia|]. etrans; [apply IH|].
    case_match; rewrite ?length_take, ?length_app; simpl; lia. }
  rewrite (proj2 (Z.eqb_neq _ 100)) by lia. done.
Qed.

(** Typing [ab], a backspace and [c]. *)
Lemma scanFF_line_witness :
  ∃ old, scanFF 3 [] [37; 115; 0] (Some [replicate 10 0]) None (mkTty [97; 98; 8; 99; 10; 120] []) =
    Some (0, Some [[97; 99] ++ 0 :: old], mkTty [120] []).
Proof.
  destruct (scanFF_line [97; 98; 8; 99] [120] (replicate 10 0) [] None [] 3) as [old Ho];
    [repeat constructor; lia|simpl; lia|simpl; lia|lia|].
  exists old. exact Ho.
Defined.

(** [%d] of [scanFF] reads nothing: it prints the number it should have stored. *)
Lemma scanFF_number_prints :
  scanFF 10 (replicate 20 0) [37; 100; 37; 115; 0] (Some [replicate 3 0]) (Some [7]) (mkTty [10] []) =
    Some (0, Some [[0; 0; 0]], mkTty [] [55]).
Proof. reflexivity. Qed.
