(* ===== verification/Console.v ===== *)
(** * The console for the kernel's own messages ([Kernel/naiveConsole.c])

    Its strings and numbers go through [putchar] to the terminal; [ncPrintChar] and [ncClear] write to
    the video memory at a place of their own, which [putchar] does not move. *)

From S2P Require Import Prelude CString Stdio.

Definition video : Z := 0xB8000.
Definition width : Z := 80.
Definition height : Z := 25.

Record Console := mkConsole { buffer : list Z; screen : mem; currentVideo : Z; tty : Tty }.
Implicit Types con : Console.

Definition ncPrint (string : list Z) con : option Console :=
  t ← print string (tty con); Some (mkConsole (buffer con) (screen con) (currentVideo con) t).

Definition ncPrintChar (character : Z) con : Console :=
  mkConsole (buffer con) (store8 (screen con) (currentVideo con) character) (uint64 (currentVideo con + 2)) (tty con).

Definition nc_putchar (c : Z) con : Console := mkConsole (buffer con) (screen con) (currentVideo con) (putchar c (tty con)).

(** [do putchar(' '); while(...)]. *)
Fixpoint ncNewline (fuel : nat) con : option Console :=
  match fuel with
  | O => None
  | S fuel' =>
      let con := nc_putchar 32 con in
      if negb (uint64 (currentVideo con - video) mod (width * 2) =? 0) then ncNewline fuel' con else Some con
  end.

Definition ncPrintBase (value base : Z) con : option Console :=
  '(_, b) ← uintToBase value (buffer con) base;
  ncPrint b (mkConsole b (screen con) (currentVideo con) (tty con)).

Definition ncPrintDec (value : Z) con : option Console := ncPrintBase value 10 con.
Definition ncPrintHex (value : Z) con : option Console := ncPrintBase value 16 con.
Definition ncPrintBin (value : Z) con : option Console := ncPrintBase value 2 con.

Fixpoint ncClear_loop (n : nat) (i : Z) (m : mem) : mem :=
  match n with O => m | S n' => ncClear_loop n' (i + 1) (store8 m (video + i * 2) 32) end.

Definition ncClear con : Console :=
  mkConsole (buffer con) (ncClear_loop (Z.to_nat (height * width)) 0 (screen con)) video (tty con).

(** ** Properties *)

(** A number is printed as its numeral; 64 chars are enough in decimal. *)
Lemma ncPrintBase_spec value base con :
  2 ≤ base ≤ 36 → 0 ≤ value < 2 ^ 64 → (length (numeral_text base value) < length (buffer con))%nat →
  ∃ b, ncPrintBase value base con =
    Some (mkConsole b (screen con) (currentVideo con) (mkTty (t_in (tty con)) (t_out (tty con) ++ numeral_text base value))) ∧
    length b = length (buffer con).
Proof.
  intros Hb Hv Hl. unfold ncPrintBase. rewrite (uintToBase_spec value base (buffer con) Hb Hv Hl). cbn [mbind option_bind].
  eexists. split.
  - unfold ncPrint. cbn [tty]. rewrite print_emits; [reflexivity|]. apply numeral_text_no_0. lia.
  - cbn [buffer]. rewrite length_app. cbn [length]. rewrite length_drop. lia.
Qed.

(** In decimal it always works. *)
Lemma ncPrintDec_spec value con :
  0 ≤ value < 2 ^ 64 → length (buffer con) = 64%nat →
  ∃ b, ncPrintDec value con =
    Some (mkConsole b (screen con) (currentVideo con) (mkTty (t_in (tty con)) (t_out (tty con) ++ numeral_text 10 value))) ∧
    length b = 64%nat.
Proof.
  intros Hv Hb. rewrite <-Hb. apply ncPrintBase_spec; [lia|done|]. rewrite Hb, length_numeral_text.
  pose proof (length_numeral_rev_pow 20 64 value ltac:(lia)) as Hl.
  change (10 ^ Z.of_nat 20) with 100000000000000000000 in Hl. change (2 ^ 64) with 18446744073709551616 in Hv. lia.
Qed.

(** [ncNewline] prints one space: [putchar] does not move [currentVideo].  Between the
    ends of two lines it never ends. *)
Lemma ncNewline_spec fuel con :
  ncNewline (S fuel) con =
    if uint64 (currentVideo con - video) mod 160 =? 0 then Some (nc_putchar 32 con) else ncNewline fuel (nc_putchar 32 con).
Proof.
  cbn [ncNewline]. change (width * 2) with 160. change (currentVideo (nc_putchar 32 con)) with (currentVideo con).
  by destruct (uint64 (currentVideo con - video) mod 160 =? 0).
Qed.

Lemma ncNewline_stuck fuel con : uint64 (currentVideo con - video) mod 160 ≠ 0 → ncNewline fuel con = None.
Proof.
  revert con. induction fuel as [|fuel IH]; intros con Hc; [done|].
  rewrite ncNewline_spec, (proj2 (Z.eqb_neq _ 0)) by done. by apply IH.
Qed.

(** [ncClear] blanks the chars of the screen, keeps their colours, and starts at its top. *)
#[local] Ltac nc_cases :=
  repeat match goal with
  | |- context [?p <=? ?q] => destruct (Z.leb_spec p q)
  | |- context [?p <? ?q] => destruct (Z.ltb_spec p q)
  | |- context [?p =? ?q] => destruct (Z.eqb_spec p q)
  end; cbn [andb]; try done.

Lemma ncClear_loop_spec n i m a :
  load8 (ncClear_loop n i m) a =
    if (video + i * 2 <=? a) && (a <? video + (i + Z.of_nat n) * 2) && ((a - video) mod 2 =? 0) then 32 else load8 m a.
Proof.
  revert i m. induction n as [|n IH]; intros i m; cbn [ncClear_loop].
  - nc_cases; lia.
  - rewrite IH, store8_load. change (uint8 32) with 32. nc_cases; try done; Z.to_euclidean_division_equations; lia.
Qed.

Lemma ncClear_spec con a :
  currentVideo (ncClear con) = video ∧
  load8 (screen (ncClear con)) a =
    if (video <=? a) && (a <? video + 4000) && ((a - video) mod 2 =? 0) then 32 else load8 (screen con) a.
Proof. split; [done|]. cbn [ncClear screen]. rewrite ncClear_loop_spec. change (Z.of_nat (Z.to_nat (height * width))) with 2000. done. Qed.
