(* ===== verification/CondVar.v ===== *)
(** * Condition variables ([Kernel/condVariable.c])

    A table of 128 named condition variables over the mutexes of [KMutex]: each has a
    queue of processes and a mutex of its own that guards the queue. *)

From S2P Require Import Prelude KMonad CString Structs World Toy Queue LockSystem KMutex KMutexThms Stdio.

Definition MAX_COND_VAR : Z := 128.
Definition COND_NAME_LEN : Z := 64.
Definition MAX_COND_OPEN_ERROR : Z := -2.

Record cond_variable := mkCond { name : list Z; state : Z; lock_queue : Z; process_queue : Z }.

Definition cond_bss : cond_variable := mkCond [] 0 0 NULL.

Definition set_state (v : Z) (c : cond_variable) : cond_variable := mkCond (name c) v (lock_queue c) (process_queue c).

(** Bytes to memory. *)
Fixpoint store_bytes (m : mem) (a : Z) (l : list Z) : mem :=
  match l with [] => m | c :: l' => store_bytes (store8 m a c) (a + 1) l' end.

Section cond.
Context {W H : Type} `{WorldProc W, !WorldMem W, PageAllocator H}.

Record CondState := mkCS { open_conds : list cond_variable; array_lock : Z; cd_km : KMutexState W H }.
Implicit Types s : CondState.

#[export] Instance Field_cond_km : Field CondState (KMutexState W H) := {|
  fget := cd_km;
  fset k s := mkCS (open_conds s) (array_lock s) k |}.

Definition cond_world s : W := km_world (cd_km s).
Definition set_conds l s : CondState := mkCS l (array_lock s) (cd_km s).

Definition is_open (key : Z) s : bool :=
  (0 <=? key) && (key <? MAX_COND_VAR) &&
  match aget (open_conds s) key with Some v => state v =? OPEN | None => false end.

(** [lit]: the address of [COND_LOCK_IDENTIFIER]. *)
Definition initialize_conditional_variable (fuel : nat) (lit : Z) : M CondState Z :=
  k ← zoom_field (mutex_open fuel lit);
  _ ← modify (λ s, mkCS (open_conds s) k (cd_km s));
  mret 1.

(** [aux]: the address of the array of 64 chars on the stack, [lit] as above. *)
Definition create_new_cond (fuel : nat) (lit aux key nm : Z) : M CondState unit :=
  '(digits, str) ← asksO (λ _, itoa key (replicate (Z.to_nat MUTEX_NAME_LEN) 0) 10);
  l ← asksO (λ s, strcpy_array (Z.to_nat (MUTEX_NAME_LEN - digits)) (w_memory (cond_world s)) lit);
  _ ← zoom_field (modify (λ k : KMutexState W H, set_world
        (w_set_memory (store_bytes (w_memory (km_world k)) aux (take (Z.to_nat digits) str ++ l)) (km_world k)) k));
  lq ← zoom_field (mutex_open fuel aux);
  n ← asksO (λ s, strcpy_array (Z.to_nat COND_NAME_LEN) (w_memory (cond_world s)) nm);
  q ← zoom_field (on_queues create_queue);
  modifyO (λ s, l ← aset (open_conds s) key (mkCond n OPEN (uint64 lq) q); Some (set_conds l s)).

(** [for (i = 0; i < MAX_COND_VAR && open_conds[i].state == OPEN; i++) ..]: [i] at the end,
    and whether the name was found there. *)
Fixpoint cond_open_loop (n : nat) (i nm : Z) s : option (bool * Z) :=
  match n with
  | O => Some (false, i)
  | S n' =>
      v ← aget (open_conds s) i;
      if state v =? OPEN then
        c ← strcmp2 (Z.to_nat COND_NAME_LEN) (array_mem (name v)) 0 (w_memory (cond_world s)) nm;
        if c =? 0 then Some (true, i) else cond_open_loop n' (i + 1) nm s
      else Some (false, i)
  end.

Definition lock_conds : M CondState Z := k ← asks array_lock; zoom_field (mutex_lock k).
Definition unlock_conds (fuel : nat) : M CondState Z := k ← asks array_lock; zoom_field (mutex_unlock fuel k).

Definition cond_open (fuel : nat) (lit aux nm : Z) : M CondState Z :=
  _ ← lock_conds;
  r ← asksO (cond_open_loop (Z.to_nat MAX_COND_VAR) 0 nm);
  let i := r.2 in
  if r.1 : bool then _ ← unlock_conds fuel; mret i
  else if i =? MAX_COND_VAR then _ ← unlock_conds fuel; mret MAX_COND_OPEN_ERROR
  else
    _ ← create_new_cond fuel lit aux i nm;
    _ ← unlock_conds fuel;
    mret i.

Definition change_state (pid : Z) (st : processState) : M CondState unit := zoom_field (KMutex.change_state pid st).

(** [changeProcessState(p->pid, st)]. *)
Definition change_process (p : Z) (st : processState) : M CondState unit :=
  pid ← asksO (λ s, w_procPid (cond_world s) p); change_state pid st.

Definition sync_enqueue (fuel : nat) (v : cond_variable) (p : Z) : M CondState unit :=
  _ ← zoom_field (mutex_lock (int32 (lock_queue v)));
  _ ← zoom_field (queue_process (process_queue v) p);
  _ ← zoom_field (mutex_unlock fuel (int32 (lock_queue v)));
  mret tt.

Definition sync_dequeue (fuel : nat) (v : cond_variable) : M CondState Z :=
  _ ← zoom_field (mutex_lock (int32 (lock_queue v)));
  p ← (e ← asksO (λ s, is_empty (process_queue v) (km_queues (cd_km s)));
       if (e : bool) then mret NULL else zoom_field (dequeue_process (process_queue v)));
  _ ← zoom_field (mutex_unlock fuel (int32 (lock_queue v)));
  mret p.

Definition cond_wait (fuel : nat) (cond_key lock_key : Z) : M CondState Z :=
  o ← asks (is_open cond_key);
  if (o : bool) then
    v ← asksO (λ s, aget (open_conds s) cond_key);
    p ← asksO (λ s, w_currentProcess (cond_world s));
    _ ← zoom_field (mutex_unlock fuel lock_key);
    _ ← sync_enqueue fuel v p;
    _ ← change_process p BLOCKED;
    _ ← _yield;
    _ ← zoom_field (mutex_lock lock_key);
    mret 1
  else mret NOT_OPEN_ERROR.

Definition cond_signal (fuel : nat) (key : Z) : M CondState Z :=
  o ← asks (is_open key);
  if (o : bool) then
    v ← asksO (λ s, aget (open_conds s) key);
    p ← sync_dequeue fuel v;
    _ ← when (negb (p =? NULL)) (change_process p READY);
    mret 1
  else mret NOT_OPEN_ERROR.

(** [while(!is_empty(v->process_queue))]. *)
Fixpoint broadcast_loop (fuel : nat) (v : cond_variable) : M CondState unit :=
  e ← asksO (λ s, is_empty (process_queue v) (km_queues (cd_km s)));
  if (e : bool) then mret tt
  else match fuel with
       | O => fault
       | S fuel' =>
           p ← zoom_field (dequeue_process (process_queue v));
           _ ← change_process p READY;
           broadcast_loop fuel' v
       end.

Definition cond_broadcast (fuel : nat) (key : Z) : M CondState Z :=
  o ← asks (is_open key);
  if (o : bool) then
    v ← asksO (λ s, aget (open_conds s) key);
    _ ← zoom_field (mutex_lock (int32 (lock_queue v)));
    _ ← broadcast_loop fuel v;
    _ ← zoom_field (mutex_unlock fuel (int32 (lock_queue v)));
    mret 1
  else mret NOT_OPEN_ERROR.

Definition cond_close (fuel : nat) (key : Z) : M CondState Z :=
  o ← asks (is_open key);
  if (o : bool) then
    v ← asksO (λ s, aget (open_conds s) key);
    _ ← cond_broadcast fuel key;
    _ ← zoom_field (modifyO (λ k : KMutexState W H,
          qs ← destroy_queue fuel (process_queue v) (km_queues k); Some (set_queues qs k)));
    _ ← zoom_field (mutex_close fuel (int32 (lock_queue v)));
    _ ← modifyO (λ s, v ← aget (open_conds s) key; l ← aset (open_conds s) key (set_state CLOSED v); Some (set_conds l s));
    mret 1
  else mret NOT_OPEN_ERROR.
End cond.
Arguments CondState : clear implicits.

(** ** Waiting and waking *)

Section monitor.
Context {W H : Type} `{WorldProcLaws W, !WorldMem W, PageAllocator H}.
Implicit Types s : CondState W H.
Implicit Types km : KMutexState W H.
Implicit Types w : W.

(** The kernel is well-formed and runs a process. *)
Definition env w : Prop :=
  w_ok w ∧ (∃ v, w_procState w NULL = Some v ∧ v ≠ 3) ∧ ∃ pid, w_currentPid w = Some pid ∧ pid ≠ -1.

Lemma env_current w : env w → ∃ p, w_currentProcess w = Some p.
Proof.
  intros (Hok & _ & pid & Hp & Hne). destruct (w_cur_proc_law _ _ Hok Hp Hne) as (p & Hcp & _). by exists p.
Qed.

(** A process is marked through its pointer. *)
Lemma change_process_spec w p pid st :
  env w → w_isProc w p pid →
  ∃ w', (∀ s km, km_world km = w → change_process p st (fset km s) = Done tt (fset (set_world w' km) s)) ∧ env w' ∧
    (∀ q, w_procs w' q = if decide (q = pid) then Some st else w_procs w q) ∧
    (∀ p' pid', w_isProc w p' pid' → w_isProc w' p' pid').
Proof.
  intros (Hok & (v & Hv & Hne) & cp & Hcp & Hcne) Hp. destruct (w_isProc_law _ _ _ Hok Hp) as (_ & Hpid & st0 & Hst & _).
  destruct (w_change_law w pid st Hok) as (w' & Hw & Hok' & Hcp' & _ & Hq). exists w'. split; [|split; [|split]].
  - intros s km <-. unfold change_process. rewrite (asksO_bind _ _ (fset km s) pid) by exact Hpid.
    unfold change_state, zoom_field, zoom. cbn [fget fset Field_cond_km cd_km]. unfold KMutex.change_state, modifyO.
    cbn [mbind option_bind]. by rewrite Hw.
  - split; [done|]. split; [exists v; by rewrite (w_null_change _ _ _ _ Hok Hw)|]. exists cp. by rewrite Hcp'.
  - intros q. rewrite Hq. case_decide as Hd; [|done]. by rewrite Hd, Hst.
  - intros p' pid' Hp'. by apply (w_isProc_change _ _ _ _ pid st Hok Hp').
Qed.

(** The mutex of [v] is free and its queue, where nobody waits, is not the queue of [v]. *)
Definition guard_free (v : cond_variable) km : Prop :=
  ∃ q, lock_word km (int32 (lock_queue v)) UNLOCKED q ∧ q ≠ process_queue v.

(** [v] is the open condition variable [key]; the nodes of its queue are [ns]. *)
Record cond_at s (key : Z) (v : cond_variable) (ns : list (Z * Z)) : Prop := {
  ca_get : aget (open_conds s) key = Some v;
  ca_key : 0 ≤ key < MAX_COND_VAR;
  ca_open : state v = OPEN;
  ca_queue : queue_at (km_queues (cd_km s)) (process_queue v) ns;
  ca_guard : guard_free v (cd_km s);
  ca_env : env (cond_world s);
}.

Lemma cond_is_open_at s key v ns : cond_at s key v ns → is_open key s = true.
Proof.
  intros [Hg Hk Ho _ _ _]. unfold is_open. rewrite Hg, Ho.
  rewrite (proj2 (Z.leb_le _ _)), (proj2 (Z.ltb_lt _ _)) by lia. done.
Qed.

(** The state of a condition variable after its queue became that of [km']. *)
Lemma cond_at_put s key v ns km' ns' :
  cond_at s key v ns → queue_at (km_queues km') (process_queue v) ns' → guard_free v km' → env (km_world km') →
  cond_at (fset km' s) key v ns'.
Proof. intros [Hg Hk Ho _ _ _] Hq Hgf He. by split. Qed.

Lemma guard_frame v key km km' :
  guard_free v km → 0 ≤ int32 (lock_queue v) → key ≠ int32 (lock_queue v) →
  km_queues km' = km_queues km → (∀ j, 0 ≤ j → j ≠ key → aget (open_mutexes km') j = aget (open_mutexes km) j) →
  guard_free v km'.
Proof.
  intros (q & Hw & Hne) H0' Hk Hq Hm. exists q. split; [|done].
  eapply lock_word_frame; [exact Hw|by apply Hm|by rewrite Hq].
Qed.

Lemma guard_world v km w : guard_free v km → guard_free v (set_world w km).
Proof. intros (q & Hw & Hne). exists q. split; [|done]. by eapply lock_word_frame. Qed.

(** The queues other than [q] are the same. *)
Definition queue_frame (q : Z) (qs qs' : QState H) : Prop := ∀ q', q' ≠ q → q_queues qs' !! q' = q_queues qs !! q'.

Lemma zoom_km {A B} s km (c : M (KMutexState W H) A) (g : A → M (CondState W H) B) a km' :
  c km = Done a km' → (zoom_field c ≫= g) (fset km s) = g a (fset km' s).
Proof. intros E. unfold zoom_field, zoom, mbind, M_bind. cbn [fget fset Field_cond_km cd_km open_conds array_lock]. by rewrite E. Qed.

(** Code between taking and releasing the mutex of [v]: it may change queues other than
    that of the mutex, and the processes. *)
Lemma guarded_spec {B C} s v fuel (c : M (CondState W H) B) (f : B → C) b w qs :
  guard_free v (cd_km s) → env (cond_world s) → env w →
  (∀ km, km_world km = cond_world s → km_queues km = km_queues (cd_km s) →
     c (fset km s) = Done b (fset (set_world w (set_queues qs km)) s)) →
  queue_frame (process_queue v) (km_queues (cd_km s)) qs →
  ∃ km', (_ ← zoom_field (mutex_lock (int32 (lock_queue v)));
          x ← c;
          _ ← zoom_field (mutex_unlock fuel (int32 (lock_queue v)));
          mret (f x)) s = Done (f b) (fset km' s) ∧
    km_world km' = w ∧ km_queues km' = qs ∧ guard_free v km' ∧ array_mutex km' = array_mutex (cd_km s) ∧
    ∀ j, 0 ≤ j → j ≠ int32 (lock_queue v) → aget (open_mutexes km') j = aget (open_mutexes (cd_km s)) j.
Proof.
  intros (q & Hw & Hne) Henv (_ & Hnull & _) Hc Hfr.
  destruct (lock_uncontended _ _ _ Hw (env_current _ Henv)) as (k1 & Hl & Hw1 & Hwo1 & Hq1 & Ham1 & Hm1).
  assert (Hw2 : lock_word (set_world w (set_queues qs k1)) (int32 (lock_queue v)) LOCKED q).
  { eapply lock_word_frame; [exact Hw1|done|]. cbn. by rewrite Hfr, Hq1. }
  destruct (unlock_uncontended _ _ fuel _ Hw2 Hnull) as (k3 & Hu & Hw3 & Hwo3 & Hq3 & Ham3 & Hm3).
  exists k3. split; [|split; [done|split; [done|split; [by exists q|split; [exact (eq_trans Ham3 Ham1)|]]]]].
  - rewrite (zoom_bind _ _ s _ _ Hl), (bind_done _ _ _ _ _ (Hc k1 Hwo1 Hq1)). by rewrite (zoom_km _ _ _ _ _ _ Hu).
  - intros j Hj Hjk. rewrite (Hm3 j Hj Hjk). by apply Hm1.
Qed.

Lemma set_same km w qs : km_world km = w → set_queues qs km = set_world w (set_queues qs km).
Proof. by intros <-. Qed.

(** *** [cond_wait] *)

(** [cond_wait] releases the mutex of the caller, puts the caller at the end of the
    queue and blocks it, before it gives up the processor: nothing comes between.  When
    it is resumed it takes the mutex again. *)
Theorem cond_wait_correct s key v ns lock_key q p pid a h fuel :
  cond_at s key v ns → lock_word (cd_km s) lock_key LOCKED q → lock_key ≠ int32 (lock_queue v) → q ≠ process_queue v →
  w_currentProcess (cond_world s) = Some p → w_isProc (cond_world s) p pid →
  pa_alloc (q_alloc (km_queues (cd_km s))) sizeof_node = Some (a, h) → a ≠ NULL → a ∉ ns.*1 →
  ∃ s', cond_wait fuel key lock_key s = Yield s' (λ s2, (_ ← zoom_field (mutex_lock lock_key); mret 1) s2) ∧
    cond_at s' key v (ns ++ [(a, p)]) ∧ lock_word (cd_km s') lock_key UNLOCKED q ∧
    ∀ x, w_procs (cond_world s') x = if decide (x = pid) then Some BLOCKED else w_procs (cond_world s) x.
Proof.
  intros Hat Hlw Hkey Hqv Hp Hproc Ha Hnull Hfresh. pose proof (ca_env _ _ _ _ Hat) as Henv. pose proof Henv as (_ & Hna & _).
  assert (Hlk : 0 ≤ lock_key) by (destruct Hlw as (? & [_ ? _ _] & _); lia).
  assert (Hgk : 0 ≤ int32 (lock_queue v)) by (destruct (ca_guard _ _ _ _ Hat) as (? & (? & [_ ? _ _] & _) & _); lia).
  destruct (unlock_uncontended _ _ fuel _ Hlw Hna) as (k1 & Hu & Hw1 & Hwo1 & Hq1 & _ & Hm1).
  assert (Hcw : cond_world (fset k1 s) = cond_world s) by exact Hwo1.
  destruct (enqueue_spec (km_queues (cd_km s)) _ ns p a h (ca_queue _ _ _ _ Hat) Ha Hnull Hfresh) as (qs & Henq & Hqs & _).
  destruct (guarded_spec (fset k1 s) v fuel (zoom_field (queue_process (process_queue v) p)) (λ _, tt) tt (cond_world s) qs)
    as (k2 & Hg & Hwo2 & Hq2 & Hg2 & _ & Hm2).
  { by eapply guard_frame; [apply Hat|done|exact Hkey|..]. }
  { by rewrite Hcw. }
  { done. }
  { intros km Hkw Hkq. rewrite Hcw in Hkw. rewrite <-(set_same km _ qs Hkw).
    unfold zoom_field, zoom. cbn [fget fset Field_cond_km cd_km] in Hkq |- *. unfold queue_process, modifyO. by rewrite Hkq, Hq1, Henq. }
  { intros q' Hq'. cbn. rewrite Hq1. by eapply enqueue_frame. }
  destruct (change_process_spec (cond_world s) p pid BLOCKED Henv Hproc) as (w & Hch & Henv3 & Hpr & _).
  exists (fset (set_world w k2) s). split; [|split; [|split]].
  - unfold cond_wait. rewrite asks_bind, (cond_is_open_at _ _ _ _ Hat), (asksO_bind _ _ s v) by apply Hat.
    rewrite (asksO_bind _ _ s p) by done. rewrite (zoom_bind _ _ s _ _ Hu).
    unfold sync_enqueue. change (mret tt) with (mret (M := M (CondState W H)) ((λ _ : unit, tt) tt)) in Hg |- *.
    rewrite (bind_done _ _ _ _ _ Hg), (bind_done _ _ _ _ _ (Hch s k2 Hwo2)). done.
  - eapply cond_at_put; [exact Hat|cbn; by rewrite Hq2|by apply guard_world|done].
  - eapply lock_word_frame; [exact Hw1| |].
    + cbn. rewrite (Hm2 lock_key Hlk Hkey). done.
    + cbn. rewrite Hq2, Hq1. by eapply enqueue_frame.
  - exact Hpr.
Qed.

(** *** [cond_signal] *)

Context (Hfree : frees_ok (H := H)).

(** The mutex of the queue taken by [cond_signal]. *)
Lemma sync_dequeue_spec s key v ns fuel :
  cond_at s key v ns →
  ∃ km, sync_dequeue fuel v s = Done (match ns with (_, p) :: _ => p | [] => NULL end) (fset km s) ∧
    cond_at (fset km s) key v (tail ns) ∧ km_world km = cond_world s.
Proof.
  intros Hat. pose proof (ca_queue _ _ _ _ Hat) as Hq. pose proof (queue_is_empty _ _ _ Hq) as He.
  assert (Hq' : ∃ qs, queue_at qs (process_queue v) (tail ns) ∧ queue_frame (process_queue v) (km_queues (cd_km s)) qs ∧
    match ns with (_, p) :: _ => dequeue (process_queue v) (km_queues (cd_km s)) = Some (p, qs) | [] => qs = km_queues (cd_km s) end).
  { destruct ns as [|[n p] ns]; [by exists (km_queues (cd_km s))|].
    destruct (dequeue_spec _ _ _ _ _ Hfree Hq) as (qs & Hd & Hqs & _). exists qs. split; [done|]. split; [|done].
    intros q' Hne. by eapply dequeue_frame. }
  destruct Hq' as (qs & Hqs & Hfr & Hdq).
  destruct (guarded_spec s v fuel (e ← asksO (λ s, is_empty (process_queue v) (km_queues (cd_km s)));
      if (e : bool) then mret NULL else zoom_field (dequeue_process (process_queue v))) (λ p, p)
      (match ns with (_, p) :: _ => p | [] => NULL end) (cond_world s) qs) as (km & Hg & Hwo & Hkq & Hgf & _); [apply Hat..| |exact Hfr|].
  - intros km Hkw Hkq. rewrite <-(set_same km _ qs Hkw).
    rewrite (asksO_bind _ _ (fset km s) (bool_decide (ns = []))) by (cbn; by rewrite Hkq).
    destruct ns as [|[n p] ns].
    + rewrite bool_decide_true by done. rewrite Hdq, <-Hkq. unfold mret, M_ret. cbn. by destruct km.
    + rewrite bool_decide_false by done. unfold zoom_field, zoom. cbn [fget fset Field_cond_km cd_km].
      unfold dequeue_process, on_queues, calls. by rewrite Hkq, Hdq.
  - exists km. split; [exact Hg|]. split; [|done].
    eapply cond_at_put; [exact Hat|by rewrite Hkq|done|rewrite Hwo; apply Hat].
Qed.

(** [cond_signal] wakes the process that has waited longest and no other, and does
    nothing when none waits. *)
Theorem cond_signal_correct s key v ns pids fuel :
  cond_at s key v ns → Forall2 (w_isProc (cond_world s)) ns.*2 pids →
  ∃ s', cond_signal fuel key s = Done 1 s' ∧ cond_at s' key v (tail ns) ∧
    ∀ x, w_procs (cond_world s') x = if decide (Some x = head pids) then Some READY else w_procs (cond_world s) x.
Proof.
  intros Hat Hprocs. destruct (sync_dequeue_spec s key v ns fuel Hat) as (km & Hd & Hat1 & Hwo).
  assert (Hsig : cond_signal fuel key s =
    (_ ← when (negb ((match ns with (_, p) :: _ => p | [] => NULL end) =? NULL))
           (change_process (match ns with (_, p) :: _ => p | [] => NULL end) READY); mret 1) (fset km s)).
  { unfold cond_signal. rewrite asks_bind, (cond_is_open_at _ _ _ _ Hat), (asksO_bind _ _ s v) by apply Hat.
    by rewrite (bind_done _ _ _ _ _ Hd). }
  rewrite Hsig. destruct ns as [|[n p] ns].
  { apply Forall2_nil_inv_l in Hprocs as ->. exists (fset km s). split; [done|]. split; [done|]. intros x.
    change (cond_world (fset km s)) with (km_world km). by rewrite Hwo. }
  apply Forall2_cons_inv_l in Hprocs as (pid & pids' & Hp & _ & ->). cbn in Hp.
  destruct (w_isProc_law _ _ _ (proj1 (ca_env _ _ _ _ Hat)) Hp) as (Hnn & _).
  destruct (change_process_spec _ p pid READY (ca_env _ _ _ _ Hat) Hp) as (w & Hch & Henv & Hpr & _).
  exists (fset (set_world w km) s). split; [|split].
  - rewrite (proj2 (Z.eqb_neq p NULL)) by done. cbn [negb when]. by rewrite (bind_done _ _ _ _ _ (Hch s km Hwo)).
  - eapply cond_at_put; [exact Hat|exact (ca_queue _ _ _ _ Hat1)|apply guard_world; exact (ca_guard _ _ _ _ Hat1)|done].
  - intros x. change (cond_world (fset (set_world w km) s)) with w. rewrite Hpr. cbn [head].
    destruct (decide (x = pid)) as [->|]; [by rewrite decide_True|by rewrite decide_False by congruence].
Qed.

(** *** [cond_broadcast] and [cond_close] *)

Lemma broadcast_loop_spec v fuel ns w qs pids :
  env w → queue_at qs (process_queue v) ns → Forall2 (w_isProc w) ns.*2 pids → (length ns ≤ fuel)%nat →
  ∃ w' qs', (∀ s km, km_world km = w → km_queues km = qs →
      broadcast_loop fuel v (fset km s) = Done tt (fset (set_world w' (set_queues qs' km)) s)) ∧
    env w' ∧ queue_at qs' (process_queue v) [] ∧ queue_frame (process_queue v) qs qs' ∧
    ∀ x, w_procs w' x = if decide (x ∈ pids) then Some READY else w_procs w x.
Proof.
  revert ns w qs pids. induction fuel as [|fuel IH]; intros ns w qs pids Henv Hq Hp Hf; cbn [broadcast_loop];
    (destruct ns as [|[n p] ns]; [|try (simpl in Hf; lia)]).
  1,2: apply Forall2_nil_inv_l in Hp as ->; exists w, qs; split; [|split; [done|split; [done|split; [done|by intros x; rewrite decide_False by apply not_elem_of_nil]]]];
    intros s km <- <-; rewrite (asksO_bind _ _ (fset km s) true) by exact (queue_is_empty _ _ _ Hq); by destruct km.
  apply Forall2_cons_inv_l in Hp as (pid & pids' & Hp & Hps & ->). cbn in Hp.
  destruct (dequeue_spec _ _ _ _ _ Hfree Hq) as (qs1 & Hd & Hqs1 & _).
  destruct (change_process_spec w p pid READY Henv Hp) as (w1 & Hch & Henv1 & Hpr & Hkeep).
  destruct (IH ns w1 qs1 pids') as (w' & qs' & Hl & Henv' & Hqs' & Hfr & Hx); [done|done| |simpl in Hf; lia|].
  { eapply Forall2_impl; [|exact Hps]. intros p' pid'. apply Hkeep. }
  exists w', qs'. split; [|split; [done|split; [done|split]]].
  - intros s km Hkw Hkq. rewrite (asksO_bind _ _ (fset km s) false) by (cbn; rewrite Hkq; exact (queue_is_empty _ _ _ Hq)).
    rewrite (zoom_km _ _ _ _ p (set_queues qs1 km)).
    2: { unfold dequeue_process, on_queues, calls. by rewrite Hkq, Hd. }
    rewrite (bind_done _ _ _ _ _ (Hch s (set_queues qs1 km) Hkw)).
    by rewrite (Hl s (set_world w1 (set_queues qs1 km))).
  - intros q' Hq'. rewrite (Hfr q' Hq'). by eapply dequeue_frame.
  - intros x. rewrite Hx, Hpr. destruct (decide (x ∈ pids')) as [Hin|Hin].
    + by rewrite decide_True by (by right).
    + destruct (decide (x = pid)) as [->|Hne]; [by rewrite decide_True by (by left)|].
      by rewrite decide_False by (rewrite not_elem_of_cons; done).
Qed.

Lemma cond_broadcast_spec s key v ns pids fuel :
  cond_at s key v ns → Forall2 (w_isProc (cond_world s)) ns.*2 pids → (length ns ≤ fuel)%nat →
  ∃ km, cond_broadcast fuel key s = Done 1 (fset km s) ∧ cond_at (fset km s) key v [] ∧
    array_mutex km = array_mutex (cd_km s) ∧
    ∀ x, w_procs (km_world km) x = if decide (x ∈ pids) then Some READY else w_procs (cond_world s) x.
Proof.
  intros Hat Hp Hf.
  destruct (broadcast_loop_spec v fuel ns _ _ pids (ca_env _ _ _ _ Hat) (ca_queue _ _ _ _ Hat) Hp Hf)
    as (w & qs & Hl & Henv & Hqs & Hfr & Hx).
  destruct (guarded_spec s v fuel (broadcast_loop fuel v) (λ _, 1) tt w qs) as (km & Hg & Hwo & Hkq & Hgf & Ham & _);
    [apply Hat|apply Hat|done|by intros km; apply Hl|done|].
  exists km. split; [|split; [|split; [done|by rewrite Hwo]]].
  - unfold cond_broadcast. rewrite asks_bind, (cond_is_open_at _ _ _ _ Hat), (asksO_bind _ _ s v) by apply Hat. exact Hg.
  - eapply cond_at_put; [exact Hat|by rewrite Hkq|done|by rewrite Hwo].
Qed.

(** [cond_broadcast] wakes every process that waits, and no other. *)
Theorem cond_broadcast_correct s key v ns pids fuel :
  cond_at s key v ns → Forall2 (w_isProc (cond_world s)) ns.*2 pids → (length ns ≤ fuel)%nat →
  ∃ s', cond_broadcast fuel key s = Done 1 s' ∧ cond_at s' key v [] ∧
    ∀ x, w_procs (cond_world s') x = if decide (x ∈ pids) then Some READY else w_procs (cond_world s) x.
Proof.
  intros Hat Hp Hf. destruct (cond_broadcast_spec s key v ns pids fuel Hat Hp Hf) as (km & Hb & Hat' & _ & Hx).
  by exists (fset km s).
Qed.

(** [cond_close] never ends well: it closes the mutex of the queue, for which nobody
    waits, and [mutex_close] then wakes the process at an uninitialised pointer. *)
Theorem cond_close_undefined s key v ns pids fuel :
  cond_at s key v ns → Forall2 (w_isProc (cond_world s)) ns.*2 pids → (length ns ≤ fuel)%nat →
  array_mutex (cd_km s) = UNLOCKED → cond_close fuel key s = Fault.
Proof.
  intros Hat Hp Hf Ham. destruct (cond_broadcast_spec s key v ns pids fuel Hat Hp Hf) as (km & Hb & Hat' & Ham' & _).
  unfold cond_close. rewrite asks_bind, (cond_is_open_at _ _ _ _ Hat), (asksO_bind _ _ s v) by apply Hat.
  rewrite (bind_done _ _ _ _ _ Hb).
  pose proof (ca_queue _ _ _ _ Hat') as Hq. cbn in Hq.
  destruct (destroy_loop_spec (km_queues km) _ [] fuel Hfree Hq) as (qs1 & Hd & _); [simpl; lia|].
  assert (Hd1 : qs1 = km_queues km).
  { destruct fuel; cbn [destroy_loop] in Hd; rewrite (queue_is_empty _ _ _ Hq) in Hd; by injection Hd. }
  subst qs1. destruct (Hfree (q_alloc (km_queues km)) (process_queue v)) as [[r h] Hh].
  set (qs := mkQS h (q_queues (km_queues km)) (q_nodes (km_queues km))).
  rewrite (zoom_km _ _ _ _ tt (set_queues qs km)).
  2: { unfold modifyO, destroy_queue. rewrite Hd. cbn [mbind option_bind]. unfold q_deallocPage. by rewrite Hh. }
  destruct (ca_guard _ _ _ _ Hat') as (q & Hw & _). cbn in Hw.
  assert (Hw' : lock_word (set_queues qs km) (int32 (lock_queue v)) UNLOCKED q) by (by eapply lock_word_frame).
  destruct Hw' as (m & Hm & _). unfold zoom_field at 1, zoom, mbind, M_bind. cbn [fget fset Field_cond_km cd_km].
  by rewrite (mutex_close_empty Hfree _ _ _ fuel Hm) by (cbn; congruence).
Qed.
End monitor.

(** ** Witnesses *)

(** Mutex 0 with the word [v] is the caller's, mutex 1 that of the condition variable 0. *)
Definition demo_cond_km (v : Z) (q : queue) (nodes : gmap Z node) (w : Toy) : KMutexState Toy Z :=
  mkKM (demo_mutex v :: KMutex.mkMutex [98; 0] UNLOCKED OPEN 8192 :: replicate 126 mutex_bss) UNLOCKED UNLOCKED
    (mkQS 65536 {[ 4096 := mkQueue NULL NULL; 8192 := mkQueue NULL NULL; 12288 := q ]} nodes) w.

Definition demo_var : cond_variable := mkCond [99; 0] OPEN 1 12288.

Definition demo_cond v q nodes w : CondState Toy Z := mkCS (demo_var :: replicate 127 cond_bss) 0 (demo_cond_km v q nodes w).

Lemma demo_cond_at v q nodes ns st :
  queue_at (km_queues (demo_cond_km v q nodes (mkToy 1 st toy_memory []))) 12288 ns →
  cond_at (demo_cond v q nodes (mkToy 1 st toy_memory [])) 0 demo_var ns.
Proof.
  intros Hq. split; try done.
  - exists 8192. split; [|done]. exists (KMutex.mkMutex [98; 0] UNLOCKED OPEN 8192). split; [|done].
    split; [done|done|done|]. split; [done|constructor|done|done].
  - split; [exact I|]. split; [exists 0; done|]. by exists 1.
Qed.

(** Process 1, in the section of mutex 0, waits. *)
Lemma cond_wait_correct_witness :
  ∃ s' k, cond_wait 0 0 0 (demo_cond LOCKED (mkQueue NULL NULL) ∅ toy0) = Yield s' k ∧
    w_procs (cond_world s') 1 = Some BLOCKED ∧ cond_at s' 0 demo_var [(65536, 3)].
Proof.
  assert (Hlw : lock_word (cd_km (demo_cond LOCKED (mkQueue NULL NULL) ∅ toy0)) 0 LOCKED 4096).
  { exists (demo_mutex LOCKED). split; [|done]. split; [done|done|done|]. split; [done|constructor|done|done]. }
  destruct (cond_wait_correct (demo_cond LOCKED (mkQueue NULL NULL) ∅ toy0) 0 demo_var [] 0 4096 3 1 65536 (65536 + 17 * 4096) 0)
    as (s' & Hw & Hat & _ & Hx); [|exact Hlw|done|done|done|done|done|done|apply not_elem_of_nil|].
  { apply demo_cond_at. split; [done|constructor|done|done]. }
  eexists s', _. split; [exact Hw|]. split; [by rewrite Hx|exact Hat].
Defined.

(** Processes 5 and 6 wait: their records are at 11 and 13. *)
Definition demo_waiters : CondState Toy Z :=
  demo_cond UNLOCKED (mkQueue 16384 20480) {[ 16384 := mkNode 11 20480; 20480 := mkNode 13 NULL ]}
    (mkToy 1 (λ _, BLOCKED) toy_memory []).

Lemma demo_waiters_at : cond_at demo_waiters 0 demo_var [(16384, 11); (20480, 13)].
Proof.
  apply demo_cond_at. split; [done| |done|].
  - apply (bool_decide_unpack _). by vm_compute.
  - split; [done|]. split; [done|]. exists 20480. split; [done|]. split; [done|]. split; [done|]. exists NULL. done.
Qed.

Lemma demo_waiters_procs : Forall2 (w_isProc (cond_world demo_waiters)) [(16384, 11); (20480, 13)].*2 [5; 6].
Proof. by repeat constructor. Qed.

Lemma cond_signal_correct_witness :
  ∃ s', cond_signal 0 0 demo_waiters = Done 1 s' ∧ w_procs (cond_world s') 5 = Some READY ∧ w_procs (cond_world s') 6 = Some BLOCKED.
Proof.
  destruct (cond_signal_correct bump_frees demo_waiters 0 demo_var _ [5; 6] 0 demo_waiters_at demo_waiters_procs)
    as (s' & Hs & _ & Hx). exists s'. split; [exact Hs|]. split; by rewrite Hx.
Defined.

Lemma cond_broadcast_correct_witness :
  ∃ s', cond_broadcast 2 0 demo_waiters = Done 1 s' ∧ w_procs (cond_world s') 5 = Some READY ∧ w_procs (cond_world s') 6 = Some READY.
Proof.
  destruct (cond_broadcast_correct bump_frees demo_waiters 0 demo_var _ [5; 6] 2 demo_waiters_at demo_waiters_procs)
    as (s' & Hs & _ & Hx); [simpl; lia|]. exists s'. split; [exact Hs|]. split; by rewrite Hx.
Defined.

Lemma cond_close_undefined_witness : cond_close 2 0 demo_waiters = Fault.
Proof.
  apply (cond_close_undefined bump_frees demo_waiters 0 demo_var _ [5; 6] 2 demo_waiters_at demo_waiters_procs); [simpl; lia|done].
Defined.
