(* ===== verification/User.v ===== *)
(** * Programs of the user and their calls into the kernel

    [Sys] is what a program of [Userland/] can do: call the kernel ([int 80h], the
    routines of [asm/stdioASM.asm]) and use its memory.  The programs are computations
    over any such environment.  [Env] is a small one to say what a program does: what is
    typed, what the program did so far, and a memory in which [malloc] never hands out
    a byte twice.  [Env_sys] is the environment with memory to spare, in which [malloc] never
    fails; [Env_within] the one of a heap that ends: there a program that takes more than
    there is goes wrong, as on the kernel, whose [mallock] then extends the heap for a
    process it was not told ([malloc.c]). *)

From Stdlib Require Import Ascii.
From S2P Require Import Prelude KMonad CString.

Class Sys (E : Type) := {
  sys_call : Z → Z → Z → Z → M E Z;
  writeC : Z → Z → M E unit;
  readC : Z → Z → M E Z;
  umem : E → mem;
  set_umem : mem → E → E;
}.

(** ** Memory of the program *)

Section memory.
Context {E : Type} `{Sys E}.

Definition load_char (p : Z) : M E Z := asks (λ s, char_at (umem s) p).
Definition load_ptr (p : Z) : M E Z := asks (λ s, load64 (umem s) p).
Definition load_int (p : Z) : M E Z := asks (λ s, int32 (load32 (umem s) p)).
Definition store_char (p c : Z) : M E unit := modify (λ s, set_umem (store8 (umem s) p c) s).
Definition store_ptr (p v : Z) : M E unit := modify (λ s, set_umem (store64 (umem s) p v) s).
Definition store_int (p v : Z) : M E unit := modify (λ s, set_umem (store32 (umem s) p v) s).

(** [sys_call(index, parametre1, parametre2)] for its effect. *)
Definition call (index parametre1 parametre2 : Z) : M E unit := _ ← sys_call index parametre1 parametre2 0; mret tt.

(** [while(1);] of a program: it only ever gives way. *)
Fixpoint spin (fuel : nat) : M E unit := match fuel with O => fault | S fuel' => _ ← _yield; spin fuel' end.
End memory.

(** ** Text *)

(** The chars of a literal; a newline and a quote in it. *)
Fixpoint chars (s : string) : list Z :=
  match s with EmptyString => [] | String c s' => Z.of_nat (Ascii.nat_of_ascii c) :: chars s' end.
Definition nl : string := String "010"%char EmptyString.
Definition quote : string := String "034"%char EmptyString.

Definition eq_str (t : string) (l : list Z) : bool := bool_decide (chars t = l).
Definition prefix_str (t : string) (l : list Z) : bool := bool_decide (chars t = take (length (chars t)) l).

(** ** An environment *)

(** What can be observed of a program: the chars it writes and its other calls. *)
Inductive event := Out (c : Z) | Call (n a b c : Z).

#[export] Instance event_eq_dec : EqDecision event.
Proof. solve_decision. Defined.

(** [e_brk]: all memory from there on is free.  [e_stack]: where local variables whose
    address is taken are. *)
Record Env := mkEnv { e_mem : mem; e_in : list Z; e_trace : list event; e_brk : Z; e_stack : Z }.
Implicit Types s : Env.

Definition env_set_mem (m : mem) s : Env := mkEnv m (e_in s) (e_trace s) (e_brk s) (e_stack s).
Definition env_event (e : event) s : Env := mkEnv (e_mem s) (e_in s) (e_trace s ++ [e]) (e_brk s) (e_stack s).

(** What the kernel answers to a call, after all that happened before. *)
Class Kernel := kernel_answer : list event → Z → Z → Z → Z → Z.

(** What a block of [n] bytes takes of the heap: [align4], and the header of [malloc.c]. *)
Definition block_size (n : Z) : Z := (Z.max 1 n + 3) / 4 * 4 + 28.
#[global] Arguments block_size : simpl never.

(** The heap ends at an address, or there is always more. *)
Definition beyond (heap_end : option Z) (a : Z) : bool := match heap_end with Some e => e <? a | None => false end.

(** [malloc], the call 13, gives the next block, if the heap has it; another call is noted and
    answered. *)
Definition env_call `{Kernel} (heap_end : option Z) (n a b c : Z) : M Env Z := λ s,
  if n =? 13 then
    let brk := e_brk s + block_size a in
    if beyond heap_end brk then Fault else Done (e_brk s) (mkEnv (e_mem s) (e_in s) (e_trace s) brk (e_stack s))
  else Done (kernel_answer (e_trace s) n a b c) (env_event (Call n a b c) s).

Fixpoint env_write (n : nat) (msg : Z) : M Env unit := λ s,
  match n with O => Done tt s | S n' => env_write n' (msg + 1) (env_event (Out (char_at (e_mem s) msg)) s) end.

(** One char, if one was typed; without any the program waits. *)
Definition env_read (buffer size : Z) : M Env Z := λ s,
  match e_in s with
  | c :: l => Done 1 (mkEnv (store8 (e_mem s) buffer c) l (e_trace s) (e_brk s) (e_stack s))
  | [] => Yield s (Done 0)
  end.

#[export] Instance Env_sys `{Kernel} : Sys Env := {|
  sys_call := env_call None;
  writeC msg size := env_write (Z.to_nat size) msg;
  readC := env_read;
  umem := e_mem;
  set_umem := env_set_mem;
|}.

Definition Env_within `{Kernel} (heap_end : Z) : Sys Env := {|
  sys_call := env_call (Some heap_end);
  writeC msg size := env_write (Z.to_nat size) msg;
  readC := env_read;
  umem := e_mem;
  set_umem := env_set_mem;
|}.

Lemma block_size_pos n : 0 < block_size n.
Proof. unfold block_size. Z.to_euclidean_division_equations. lia. Qed.

(** ** What calls leave alone *)

(** The addresses below [lim] are those of the program's own data: [malloc] hands out
    none of them and no local variable is there. *)
Definition room (lim : Z) s : Prop := lim ≤ e_brk s ∧ lim ≤ e_stack s.

Definition same_below (lim : Z) (m m' : mem) : Prop := ∀ x, x < lim → load8 m' x = load8 m x.

(** From [s] to [s'] the program read [i], did [l], and left its data alone. *)
Record does (lim : Z) (i : list Z) (l : list event) s s' : Prop := {
  do_trace : e_trace s' = e_trace s ++ l;
  do_in : e_in s = i ++ e_in s';
  do_brk : e_brk s ≤ e_brk s';
  do_stack : e_stack s' = e_stack s;
  do_mem : same_below lim (e_mem s) (e_mem s');
}.

Lemma same_below_refl lim m : same_below lim m m.
Proof. done. Qed.

Lemma same_below_trans lim m1 m2 m3 : same_below lim m1 m2 → same_below lim m2 m3 → same_below lim m1 m3.
Proof. intros E1 E2 x Hx. by rewrite E2, E1. Qed.

Lemma same_below_weaken lim lim' m m' : lim' ≤ lim → same_below lim m m' → same_below lim' m m'.
Proof. intros Hl Hm x Hx. apply Hm. lia. Qed.

Lemma same_below_store8 lim m a v : lim ≤ a → same_below lim m (store8 m a v).
Proof. intros Hl x Hx. rewrite store8_load. by rewrite (proj2 (Z.eqb_neq _ _)) by lia. Qed.

Lemma does_refl lim s : does lim [] [] s s.
Proof. split; [by rewrite app_nil_r|done|lia|done|done]. Qed.

Lemma does_trans lim i1 i2 l1 l2 s1 s2 s3 :
  does lim i1 l1 s1 s2 → does lim i2 l2 s2 s3 → does lim (i1 ++ i2) (l1 ++ l2) s1 s3.
Proof.
  intros [T1 I1 B1 S1 M1] [T2 I2 B2 S2 M2].
  split; [by rewrite T2, T1, app_assoc|by rewrite I1, I2, app_assoc|lia|congruence|by eapply same_below_trans].
Qed.

Lemma does_weaken lim lim' i l s s' : lim' ≤ lim → does lim i l s s' → does lim' i l s s'.
Proof. intros Hl [T I B S M]. split; [done|done|done|done|by eapply same_below_weaken]. Qed.

Lemma room_does lim i l s s' : does lim i l s s' → room lim s → room lim s'.
Proof. intros [_ _ B S _] [H1 H2]. split; [lia|]. by rewrite S. Qed.

Lemma room_weaken lim lim' s : lim' ≤ lim → room lim s → room lim' s.
Proof. intros Hl [H1 H2]. split; lia. Qed.

(** The same for a program that writes, of its own data, only the [n] bytes at [a]. *)
Record acts (a n lim : Z) (l : list event) s s' : Prop := {
  ac_trace : e_trace s' = e_trace s ++ l;
  ac_in : e_in s' = e_in s;
  ac_brk : e_brk s ≤ e_brk s';
  ac_stack : e_stack s' = e_stack s;
  ac_mem x : x < lim → ¬ (a ≤ x < a + n) → load8 (e_mem s') x = load8 (e_mem s) x;
}.

Lemma does_acts a n lim l s s' : does lim [] l s s' → acts a n lim l s s'.
Proof. intros [T I B S Mm]. split; [done|by rewrite I|done|done|]. intros x Hx _. by apply Mm. Qed.

Lemma acts_trans a n lim l1 l2 s1 s2 s3 : acts a n lim l1 s1 s2 → acts a n lim l2 s2 s3 → acts a n lim (l1 ++ l2) s1 s3.
Proof.
  intros [T1 I1 B1 S1 M1] [T2 I2 B2 S2 M2]. split; [by rewrite T2, T1, app_assoc|congruence|lia|congruence|].
  intros x Hx Hn. by rewrite M2, M1.
Qed.

Lemma acts_below a n lim lim' l s s' : lim' ≤ lim → lim' ≤ a → acts a n lim l s s' → same_below lim' (e_mem s) (e_mem s').
Proof. intros Hl Ha [_ _ _ _ Mm] x Hx. apply Mm; lia. Qed.

(** A call other than [malloc]. *)
Lemma env_call_does `{Kernel} lim n a b c s :
  n ≠ 13 → env_call None n a b c s = Done (kernel_answer (e_trace s) n a b c) (env_event (Call n a b c) s) ∧ does lim [] [Call n a b c] s (env_event (Call n a b c) s).
Proof. intros Hn. unfold env_call. rewrite (proj2 (Z.eqb_neq n 13)) by done. split; [done|]. by split. Qed.

Lemma does_seq lim l1 l2 s1 s2 s3 : does lim [] l1 s1 s2 → does lim [] l2 s2 s3 → does lim [] (l1 ++ l2) s1 s3.
Proof. apply (does_trans lim [] []). Qed.

Lemma does_silent lim l s1 s2 s3 : does lim [] [] s1 s2 → does lim [] l s2 s3 → does lim [] l s1 s3.
Proof. apply (does_seq lim []). Qed.

Lemma call_does `{K : Kernel} lim n a b s : n ≠ 13 → ∃ s', call n a b s = Done tt s' ∧ does lim [] [Call n a b 0] s s'.
Proof.
  intros Hn. destruct (env_call_does lim n a b 0 s Hn) as [E1 E2]. eexists. split; [|exact E2].
  unfold call. by rewrite (bind_done _ _ _ _ _ E1).
Qed.

(** A string of the program's data. *)
Definition str_below (lim : Z) (m : mem) (p : Z) (l : list Z) : Prop := cstr m p l ∧ p + Z.of_nat (length l) < lim.

Lemma str_same lim m m' p l : same_below lim m m' → str_below lim m p l → str_below lim m' p l.
Proof.
  intros Hm [Hl Hlt]. split; [|done]. revert p Hl Hlt. induction l as [|c l IH]; intros p Hl Hlt; cbn [cstr length] in *.
  - rewrite (load8_char m' m p p); [done|]. apply Hm. lia.
  - destruct Hl as (Hc & Hv & Hl). split; [done|]. split; [|apply IH; [done|lia]].
    rewrite (load8_char m' m p p); [done|]. apply Hm. lia.
Qed.

Lemma str_below_weaken lim lim' m p l : lim ≤ lim' → str_below lim m p l → str_below lim' m p l.
Proof. intros Hl [Hc Hlt]. split; [done|lia]. Qed.

Lemma str_drop lim m p l (k : nat) : str_below lim m p l → (k ≤ length l)%nat → str_below lim m (p + Z.of_nat k) (drop k l).
Proof.
  revert p l. induction k as [|k IH]; intros p l Hl Hk; [by rewrite Z.add_0_r, drop_0|].
  destruct l as [|c l]; [simpl in Hk; lia|]. replace (p + Z.of_nat (S k)) with (p + 1 + Z.of_nat k) by lia.
  apply (IH (p + 1) l); [|simpl in Hk; lia]. destruct Hl as [(_ & _ & Hl) Hlt]. split; [done|]. simpl in Hlt. lia.
Qed.

Lemma str_char lim m p l (k : nat) : str_below lim m p l → (k ≤ length l)%nat → char_at m (p + Z.of_nat k) = default 0 (l !! k).
Proof.
  intros Hl Hk. destruct (str_drop lim m p l k Hl Hk) as [Hs _]. rewrite <-(Nat.add_0_r k) at 2. rewrite <-lookup_drop.
  destruct (drop k l); simpl in Hs; [done|]. by destruct Hs as (_ & -> & _).
Qed.
