(* ===== verification/UserStdio.v ===== *)
(** * The user's [stdio.c]
    ([Userland/SHELL/stdio.c], the same text in [EDITOR] and [FORTUNE]; [Userland/dummy/stdio.c])

    The functions are written over [putchar] and [getchar], in which alone the copies
    differ: three take a byte from [malloc] for every char, [dummy] has it on the stack. *)

From S2P Require Import Prelude KMonad CString User.

Definition NULL : Z := 0.
Definition BUFFERSIZE : Z := 100.
Inductive format_state := LETTER | FORMAT.

Section stdio.
Context {E : Type} `{Sys E}.

(** [sys_call(13,bytes,0)]. *)
Definition malloc (bytes : Z) : M E Z := sys_call 13 bytes 0 0.

(** ** Chars *)

Definition putchar_malloc (c : Z) : M E unit :=
  msg ← malloc 1;
  store_char msg c ;;
  writeC msg 1.

(** [while( *buffer == 0) readC(buffer,1);] *)
Fixpoint read_loop (fuel : nat) (buffer : Z) : M E unit :=
  c ← load_char buffer;
  if c =? 0
  then match fuel with O => fault | S fuel' => _ ← readC buffer 1; read_loop fuel' buffer end
  else mret tt.

Definition getchar_malloc (fuel : nat) : M E Z :=
  buffer ← malloc 1;
  store_char buffer 0 ;;
  read_loop fuel buffer ;;
  load_char buffer.

(** With the char in a local variable, at the address [msg]. *)
Definition putchar_local (msg c : Z) : M E unit := store_char msg c ;; writeC msg 1.

Definition getchar_local (buffer : Z) (fuel : nat) : M E Z :=
  store_char buffer 0 ;;
  read_loop fuel buffer ;;
  load_char buffer.

(** ** Strings *)

Fixpoint strcmp (fuel : nat) (str1 str2 : Z) : M E Z :=
  match fuel with
  | O => fault
  | S fuel' =>
      c1 ← load_char str1;
      c2 ← load_char str2;
      if negb (c1 =? 0) && negb (c2 =? 0) then
        if 0 <? c1 - c2 then mret 1
        else if c1 - c2 <? 0 then mret (-1)
        else strcmp fuel' (str1 + 1) (str2 + 1)
      else if (c1 =? 0) && (c2 =? 0) then mret 0
      else if c1 =? 0 then mret (-1)
      else mret 1
  end.

Fixpoint strcmpN (fuel : nat) (str1 str2 number : Z) : M E Z :=
  match fuel with
  | O => fault
  | S fuel' =>
      c1 ← load_char str1;
      c2 ← load_char str2;
      if negb (c1 =? 0) && negb (c2 =? 0) && negb (number =? 0) then
        if 0 <? c1 - c2 then mret 1
        else if c1 - c2 <? 0 then mret (-1)
        else strcmpN fuel' (str1 + 1) (str2 + 1) (number - 1)
      else if number =? 0 then mret 0
      else if (c1 =? 0) && (c2 =? 0) then mret 0
      else if c1 =? 0 then mret (-1)
      else mret 1
  end.

(** ** Formats *)

Context (putchar : Z → M E unit) (getchar : M E Z).

Fixpoint print (fuel : nat) (s : Z) : M E unit :=
  c ← load_char s;
  if c =? 0 then mret tt
  else match fuel with O => fault | S fuel' => putchar c ;; print fuel' (s + 1) end.

(** [while(n/10)]: the digits into the buffer. *)
Fixpoint putNumber_digits (fuel : nat) (buffer size n : Z) : M E (Z * Z * Z) :=
  if Z.quot n 10 =? 0 then mret (buffer, size, n)
  else match fuel with
       | O => fault
       | S fuel' =>
           store_char buffer (int8 (Z.rem n 10 + 48)) ;;
           putNumber_digits fuel' (buffer + 1) (size + 1) (Z.quot n 10)
       end.

Fixpoint putNumber_out (size : nat) (buffer : Z) : M E unit :=
  match size with
  | O => mret tt
  | S size' => c ← load_char buffer; putchar c ;; putNumber_out size' (buffer - 1)
  end.

Definition putNumber (n : Z) : M E unit :=
  buffer ← malloc 20;
  (if n <? 0 then putchar 45 else mret tt) ;;
  let n := if n <? 0 then int32 (- n) else n in
  r ← putNumber_digits 20 buffer 0 n;
  let '(buffer, size, n) := r in
  store_char buffer (int8 (n + 48)) ;;
  putNumber_out (Z.to_nat (size + 1)) buffer.

(** The loop of [printFF]: where the format pointer ends. *)
Fixpoint printFF_loop (fuel : nat) (state : format_state) (format s n : Z) : M E Z :=
  match fuel with
  | O => fault
  | S fuel' =>
      c ← load_char format;
      if c =? 0 then mret format
      else
        match state with
        | LETTER =>
            if c =? 37 then printFF_loop fuel' FORMAT (format + 1) s n
            else putchar c ;; printFF_loop fuel' LETTER (format + 1) s n
        | FORMAT =>
            if (c =? 100) && negb (n =? NULL) then
              number ← load_int n;
              putNumber number ;;
              printFF_loop fuel' LETTER (format + 1) s (n + 4)
            else if c =? 115 then
              if negb (s =? NULL) then
                string ← load_ptr s;
                print fuel' string ;;
                printFF_loop fuel' LETTER (format + 1) (s + 8) n
              else printFF_loop fuel' FORMAT format s n
            else putchar 37 ;; printFF_loop fuel' FORMAT (format + 1) s n
        end
  end.

Definition printFF (fuel : nat) (format s n : Z) : M E unit :=
  format ← printFF_loop fuel LETTER format s n;
  c ← load_char (format - 1);
  if c =? 37 then putchar 37 else mret tt.

(** [while((c=getchar()) == *format)]. *)
Fixpoint scan_letter (fuel : nat) (format : Z) : M E unit :=
  match fuel with
  | O => fault
  | S fuel' => c ← getchar; f ← load_char format; if c =? f then scan_letter fuel' format else mret tt
  end.

(** [while((c = getchar()) != '\n')]: the position in the string and [bufferindex]. *)
Fixpoint scan_string (fuel : nat) (string bufferindex : Z) : M E (Z * Z) :=
  match fuel with
  | O => fault
  | S fuel' =>
      c ← getchar;
      if c =? 10 then mret (string, bufferindex)
      else if c =? 8 then
        if negb (bufferindex =? 0) then scan_string fuel' (string - 1) (bufferindex - 1)
        else scan_string fuel' string bufferindex
      else if bufferindex =? BUFFERSIZE then mret (string, bufferindex)
      else store_char string c ;; scan_string fuel' (string + 1) (bufferindex + 1)
  end.

(** [bufferindex] has no value before the first [%s]; a directive that is not read leaves
    the loop where it is. *)
Fixpoint scanFF_loop (fuel : nat) (state : format_state) (format s n indexS : Z) (bufferindex : option Z) : M E Z :=
  match fuel with
  | O => fault
  | S fuel' =>
      c ← load_char format;
      if c =? 0 then match bufferindex with Some i => mret (c_bool (i =? BUFFERSIZE)) | None => fault end
      else
        match state with
        | LETTER =>
            if c =? 37 then scanFF_loop fuel' FORMAT (format + 1) s n indexS bufferindex
            else scan_letter fuel' format ;; scanFF_loop fuel' LETTER (format + 1) s n indexS bufferindex
        | FORMAT =>
            if (c =? 100) && negb (n =? NULL) then
              number ← load_int n;
              putNumber number ;;
              scanFF_loop fuel' LETTER (format + 1) s (n + 4) indexS bufferindex
            else if (c =? 115) && negb (s =? NULL) then
              string ← load_ptr (s + 8 * indexS);
              r ← scan_string fuel' string 0;
              store_char (fst r) 0 ;;
              scanFF_loop fuel' LETTER (format + 1) s n (indexS + 1) (Some (snd r))
            else scanFF_loop fuel' FORMAT format s n indexS bufferindex
        end
  end.

Definition scanFF (fuel : nat) (format s n : Z) : M E Z := scanFF_loop fuel LETTER format s n 0 None.
End stdio.
