(* ===== verification/UserStdioThms.v ===== *)
(** * Properties of the user's [stdio.c]

    What the functions do in the environment [Env]: what they print, what they read, and
    that they leave the program's data alone. *)

From S2P Require Import Prelude KMonad CString User UserStdio.

Implicit Types s : Env.

Section user.
Context `{K : Kernel}.

Lemma load_char_bind {A} p (f : Z → M Env A) s : (load_char p ≫= f) s = f (char_at (e_mem s) p) s.
Proof. done. Qed.

Lemma load_ptr_bind {A} p (f : Z → M Env A) s : (load_ptr p ≫= f) s = f (load64 (e_mem s) p) s.
Proof. done. Qed.

Definition is_char (c : Z) : Prop := -128 ≤ c < 128.

Lemma char_of_store m a c : is_char c → char_at (store8 m a c) a = c.
Proof. intros Hc. rewrite store8_char, Z.eqb_refl. apply wrap_s_id; [lia|]. exact Hc. Qed.

(** ** Comparison *)

(** The comparisons are those of [CString] on the program's memory. *)
Lemma strcmp_eq fuel p q s r : CString.strcmp fuel (e_mem s) p q = Some r → strcmp fuel p q s = Done r s.
Proof.
  unfold CString.strcmp. revert p q. induction fuel as [|fuel IH]; intros p q; cbn [strcmp2 strcmp]; [done|].
  unfold load_char. rewrite !asks_bind. cbn [umem Env_sys].
  repeat case_match; try (intros Hr; injection Hr as <-; done). apply IH.
Qed.

Lemma strcmpN_eq fuel p q n s r : CString.strcmpN fuel (e_mem s) p q n = Some r → strcmpN fuel p q n s = Done r s.
Proof.
  revert p q n. induction fuel as [|fuel IH]; intros p q n; cbn [CString.strcmpN strcmpN]; [done|].
  unfold load_char. rewrite !asks_bind. cbn [umem Env_sys].
  repeat case_match; try (intros Hr; injection Hr as <-; done). apply IH.
Qed.

(** ** Chars *)

(** What the rest needs of [putchar] and [getchar]; [stk] is where [dummy] has its local. *)
Section chars.
Context (stk : Z).

Definition writes_char (putchar : Z → M Env unit) : Prop :=
  ∀ lim c s, is_char c → room lim s → e_stack s = stk →
    ∃ s', putchar c s = Done tt s' ∧ does lim [] [Out c] s s'.

Definition reads_char (getchar : M Env Z) : Prop :=
  ∀ lim c l s, is_char c → c ≠ 0 → room lim s → e_stack s = stk → e_in s = c :: l →
    ∃ s', getchar s = Done c s' ∧ does lim [c] [] s s'.

(** Without input the program waits. *)
Definition waits_char (getchar : M Env Z) : Prop :=
  ∀ lim s, room lim s → e_stack s = stk → e_in s = [] →
    ∃ s' k, getchar s = Yield s' k ∧ does lim [] [] s s'.

Lemma putchar_malloc_does lim c s :
  is_char c → lim ≤ e_brk s → ∃ s', putchar_malloc c s = Done tt s' ∧ does lim [] [Out c] s s'.
Proof.
  intros Hc Hr. eexists. split; [done|].
  assert (Hch : char_at (store8 (e_mem s) (e_brk s) c) (e_brk s) = c) by (by apply char_of_store).
  pose proof (block_size_pos 1). split; cbn; [by rewrite Hch|done|lia|done|by apply same_below_store8].
Qed.

Lemma putchar_malloc_writes : writes_char putchar_malloc.
Proof. intros lim c s Hc [Hr _] _. by apply putchar_malloc_does. Qed.

Lemma putchar_local_writes : writes_char (putchar_local stk).
Proof.
  intros lim c s Hc [_ Hr] Hs. eexists. split; [done|].
  assert (Hch : char_at (store8 (e_mem s) stk c) stk = c) by (by apply char_of_store).
  split; cbn; [by rewrite Hch|done|lia|done|apply same_below_store8; lia].
Qed.

Lemma read_loop_char fuel buffer c l s :
  is_char c → c ≠ 0 → e_in s = c :: l → char_at (e_mem s) buffer = 0 →
  read_loop (S fuel) buffer s = Done tt (mkEnv (store8 (e_mem s) buffer c) l (e_trace s) (e_brk s) (e_stack s)).
Proof.
  intros Hc Hne Hin H0. cbn [read_loop]. unfold load_char. rewrite asks_bind. cbn [umem Env_sys]. rewrite H0.
  change (0 =? 0) with true. cbn iota.
  rewrite (bind_done _ _ _ 1 (mkEnv (store8 (e_mem s) buffer c) l (e_trace s) (e_brk s) (e_stack s)))
    by (unfold readC; cbn; unfold env_read; by rewrite Hin).
  destruct fuel; cbn [read_loop]; unfold load_char; rewrite asks_bind; cbn [umem Env_sys e_mem];
    rewrite char_of_store by done; by rewrite (proj2 (Z.eqb_neq c 0)).
Qed.

(** Both versions once they have their byte: it is the local variable of the other. *)
Lemma getchar_local_char fuel buffer lim c l s :
  is_char c → c ≠ 0 → lim ≤ buffer → e_in s = c :: l →
  ∃ s', getchar_local buffer (S fuel) s = Done c s' ∧ does lim [c] [] s s'.
Proof.
  intros Hc Hne Hl Hin. set (s1 := env_set_mem (store8 (e_mem s) buffer 0) s).
  set (s2 := mkEnv (store8 (store8 (e_mem s) buffer 0) buffer c) l (e_trace s) (e_brk s) (e_stack s)).
  exists s2. split.
  - unfold getchar_local, store_char. rewrite modify_bind. change (set_umem _ s) with s1.
    rewrite (bind_done _ _ _ _ _ (read_loop_char fuel buffer c l s1 Hc Hne Hin (char_of_store _ _ 0 ltac:(done)))).
    unfold load_char, asks. cbn. by rewrite char_of_store.
  - split; cbn; [by rewrite app_nil_r|done|lia|done|].
    eapply same_below_trans; by apply same_below_store8.
Qed.

Lemma getchar_local_waits fuel buffer lim s :
  lim ≤ buffer → e_in s = [] → ∃ s' k, getchar_local buffer (S fuel) s = Yield s' k ∧ does lim [] [] s s'.
Proof.
  intros Hl Hin. set (s1 := env_set_mem (store8 (e_mem s) buffer 0) s). eexists s1, _. split.
  - unfold getchar_local, store_char. rewrite modify_bind. change (set_umem _ s) with s1.
    apply bind_yield. cbn [read_loop]. unfold load_char. rewrite asks_bind.
    change (umem s1) with (e_mem s1). cbn [s1 env_set_mem e_mem]. rewrite char_of_store by done.
    change (0 =? 0) with true. cbn iota. apply bind_yield. unfold readC. cbn. unfold env_read. cbn. rewrite Hin. done.
  - split; cbn; [by rewrite app_nil_r|done|lia|done|by apply same_below_store8].
Qed.

Lemma getchar_local_reads fuel : reads_char (getchar_local stk (S fuel)).
Proof. intros lim c l s Hc Hne [_ Hr] <- Hin. by apply (getchar_local_char fuel (e_stack s) lim c l). Qed.

Lemma getchar_local_wait fuel : waits_char (getchar_local stk (S fuel)).
Proof. intros lim s [_ Hr] <- Hin. by apply getchar_local_waits. Qed.

(** [malloc] gives the byte. *)
Lemma getchar_malloc_eq fuel s :
  getchar_malloc fuel s = getchar_local (e_brk s) fuel (mkEnv (e_mem s) (e_in s) (e_trace s) (e_brk s + block_size 1) (e_stack s)).
Proof. done. Qed.

Lemma malloc_does lim n s :
  room lim s → malloc n s = Done (e_brk s) (mkEnv (e_mem s) (e_in s) (e_trace s) (e_brk s + block_size n) (e_stack s)) ∧
  does lim [] [] s (mkEnv (e_mem s) (e_in s) (e_trace s) (e_brk s + block_size n) (e_stack s)).
Proof.
  intros Hr. pose proof (block_size_pos n). split; [done|]. split; cbn [e_trace e_in e_brk e_stack e_mem]; [by rewrite app_nil_r|done|lia|done|done].
Qed.

Lemma getchar_malloc_reads fuel : reads_char (getchar_malloc (S fuel)).
Proof.
  intros lim c l s Hc Hne [Hr _] _ Hin. rewrite getchar_malloc_eq.
  destruct (getchar_local_char fuel (e_brk s) lim c l (mkEnv (e_mem s) (e_in s) (e_trace s) (e_brk s + block_size 1) (e_stack s)))
    as (s' & Hg & [T I B S Mm]); [done..|]. exists s'. split; [done|]. split; try done. pose proof (block_size_pos 1). cbn [e_brk] in B. lia.
Qed.

Lemma getchar_malloc_wait fuel : waits_char (getchar_malloc (S fuel)).
Proof.
  intros lim s [Hr _] _ Hin. rewrite getchar_malloc_eq.
  destruct (getchar_local_waits fuel (e_brk s) lim (mkEnv (e_mem s) (e_in s) (e_trace s) (e_brk s + block_size 1) (e_stack s)))
    as (s' & k & Hg & [T I B S Mm]); [done..|]. exists s', k. split; [done|]. split; try done. pose proof (block_size_pos 1). cbn [e_brk] in B. lia.
Qed.
End chars.

(** ** Strings and formats *)

Section formats.
Context (stk : Z) (putchar : Z → M Env unit) (getchar : M Env Z).
Context (Hput : writes_char stk putchar).

(** In [s] the program's data, below [lim], has the string [l] at [p]. *)
Abbreviation str lim s p l := (str_below lim (e_mem s) p l).

Record ready (lim : Z) s : Prop := { rd_room : room lim s; rd_stack : e_stack s = stk }.

Lemma ready_does lim i l s s' : does lim i l s s' → ready lim s → ready lim s'.
Proof. intros Hd [Hr Hs]. split; [by eapply room_does|]. by rewrite (do_stack _ _ _ _ _ Hd). Qed.

Lemma str_does lim lim' i l s s' p t : does lim' i l s s' → lim ≤ lim' → str lim s p t → str lim s' p t.
Proof. intros Hd Hl Ht. eapply str_same; [|exact Ht]. eapply same_below_weaken; [exact Hl|apply Hd]. Qed.

Lemma print_spec fuel lim p l s :
  ready lim s → str lim s p l → (length l ≤ fuel)%nat →
  ∃ s', print putchar fuel p s = Done tt s' ∧ does lim [] (Out <$> l) s s'.
Proof.
  revert p l s. induction fuel as [|fuel IH]; intros p l s Hrd [Hl Hlt] Hf; cbn [print];
    unfold load_char; rewrite asks_bind; cbn [umem Env_sys].
  - destruct l; [|simpl in Hf; lia]. cbn in Hl. rewrite Hl. exists s. split; [done|apply does_refl].
  - destruct l as [|c l]; [cbn in Hl; rewrite Hl; exists s; split; [done|apply does_refl]|].
    destruct Hl as (Hc & Hv & Hl). rewrite Hv, (proj2 (Z.eqb_neq c 0)) by done.
    assert (Hch : is_char c) by (rewrite <-Hv; apply (wrap_s_range 8); lia).
    destruct (Hput lim c s Hch (rd_room _ _ Hrd) (rd_stack _ _ Hrd)) as (s1 & Hp & Hd).
    rewrite (bind_done _ _ _ _ _ Hp). cbn [length] in Hlt, Hf.
    destruct (IH (p + 1) l s1) as (s2 & Hq & Hd2); [by eapply ready_does|eapply str_does; [exact Hd|done|split; [done|lia]]|lia|].
    exists s2. split; [done|]. exact (does_trans _ _ _ _ _ _ _ _ Hd Hd2).
Qed.

(** A format of its own chars is printed as it is. *)
Lemma printFF_plain_loop fuel lim p l s sp n :
  ready lim s → str lim s p l → Forall (λ c, c ≠ 37) l → (length l < fuel)%nat →
  ∃ s', printFF_loop putchar fuel LETTER p sp n s = Done (p + Z.of_nat (length l)) s' ∧ does lim [] (Out <$> l) s s'.
Proof.
  revert p l s. induction fuel as [|fuel IH]; intros p l s Hrd [Hl Hlt] Hn Hf; [lia|]. cbn [printFF_loop].
  rewrite load_char_bind.
  destruct l as [|c l].
  - cbn in Hl. rewrite Hl. exists s. rewrite Z.add_0_r. split; [done|apply does_refl].
  - destruct Hl as (Hc & Hv & Hl). apply list.Forall_cons in Hn as [H37 Hn].
    rewrite Hv, (proj2 (Z.eqb_neq c 0)), (proj2 (Z.eqb_neq c 37)) by done.
    assert (Hch : is_char c) by (rewrite <-Hv; apply (wrap_s_range 8); lia).
    destruct (Hput lim c s Hch (rd_room _ _ Hrd) (rd_stack _ _ Hrd)) as (s1 & Hp & Hd).
    rewrite (bind_done _ _ _ _ _ Hp). cbn [length] in Hlt, Hf.
    destruct (IH (p + 1) l s1) as (s2 & Hq & Hd2); [by eapply ready_does|eapply str_does; [exact Hd|done|split; [done|lia]]|done|lia|].
    exists s2. split; [|exact (does_trans _ _ _ _ _ _ _ _ Hd Hd2)]. rewrite Hq. f_equal. cbn [length]. lia.
Qed.

(** [printFF("%s", s, NULL)] prints the string that [s] points to a pointer to. *)
Lemma printFF_s fuel lim fmt sp p l s :
  ready lim s → str lim s fmt [37; 115] → sp ≠ 0 → load64 (e_mem s) sp = p → str lim s p l → (S (S (length l)) < fuel)%nat →
  ∃ s', printFF putchar fuel fmt sp 0 s = Done tt s' ∧ does lim [] (Out <$> l) s s'.
Proof.
  intros Hrd Hfmt Hsp Hp Hl Hf. do 2 (destruct fuel as [|fuel]; [lia|]).
  pose proof Hfmt as [(_ & H0 & _ & H1 & H2) Hfl]. cbn [cstr] in H2.
  destruct (print_spec fuel lim p l s Hrd Hl ltac:(lia)) as (s1 & Hpr & Hd).
  pose proof (str_does _ _ _ _ _ _ _ _ Hd (Z.le_refl _) Hfmt) as [(_ & _ & _ & H1' & H2') _]. cbn [cstr] in H2'.
  destruct fuel as [|fuel]; [lia|].
  assert (Hloop : printFF_loop putchar (S (S (S fuel))) LETTER fmt sp 0 s = Done (fmt + 1 + 1) s1).
  { cbn [printFF_loop]. unfold load_char. rewrite asks_bind. cbn [umem Env_sys]. rewrite H0. cbn [Z.eqb Pos.eqb].
    rewrite asks_bind. cbn [umem Env_sys]. rewrite H1. cbn [Z.eqb Pos.eqb andb].
    change (NULL) with 0. rewrite (proj2 (Z.eqb_neq sp 0)) by done. cbn [negb].
    unfold load_ptr. rewrite asks_bind. cbn [umem Env_sys]. rewrite Hp, (bind_done _ _ _ _ _ Hpr).
    rewrite asks_bind. cbn [umem Env_sys]. rewrite H2'. done. }
  exists s1. split; [|done]. unfold printFF. rewrite (bind_done _ _ _ _ _ Hloop). unfold load_char. rewrite asks_bind.
  cbn [umem Env_sys]. replace (fmt + 1 + 1 - 1) with (fmt + 1) by lia. rewrite H1'. done.
Qed.
End formats.

(** ** Reading a line *)

Section reading.
Context (stk : Z) (putchar : Z → M Env unit) (getchar : M Env Z).
Context (Hget : reads_char stk getchar).

(** Chars that can be typed into a line and stay in it. *)
Definition line_char (c : Z) : Prop := is_char c ∧ c ≠ 0 ∧ c ≠ 10 ∧ c ≠ 8.

(** From [s] to [s'] the program read [i] and wrote, of its own data, only the [n] bytes
    from [a]. *)
Record reads (lim : Z) (i : list Z) (a n : Z) s s' : Prop := {
  re_trace : e_trace s' = e_trace s;
  re_in : e_in s = i ++ e_in s';
  re_brk : e_brk s ≤ e_brk s';
  re_stack : e_stack s' = e_stack s;
  re_mem : ∀ x, x < lim → ¬ (a ≤ x < a + n) → load8 (e_mem s') x = load8 (e_mem s) x;
}.

Lemma reads_ready lim i a n s s' : reads lim i a n s s' → ready stk lim s → ready stk lim s'.
Proof. intros [_ _ B S _] [[H1 H2] Hs]. split; [split; lia|congruence]. Qed.

(** A string apart from the bytes that were written. *)
Lemma reads_str lim i a n s s' p l :
  reads lim i a n s s' → p + Z.of_nat (length l) < a ∨ a + n ≤ p → str_below lim (e_mem s) p l → str_below lim (e_mem s') p l.
Proof.
  intros [_ _ _ _ Hm] Hap [Hl Hlt]. split; [|done]. clear Hget. revert p Hl Hlt Hap.
  induction l as [|c l IH]; intros p Hl Hlt Hap; cbn [cstr length] in *.
  - rewrite (load8_char _ (e_mem s) p p); [done|]. apply Hm; lia.
  - destruct Hl as (Hc & Hv & Hl). split; [done|]. split; [|apply IH; [done|lia|lia]].
    rewrite (load8_char _ (e_mem s) p p); [done|]. apply Hm; lia.
Qed.

Lemma scan_string_spec fuel lim a k l rest s :
  ready stk lim s → Forall line_char l → e_in s = l ++ 10 :: rest → a + Z.of_nat (length l) ≤ lim →
  0 ≤ k → k + Z.of_nat (length l) ≤ 100 → (length l < fuel)%nat →
  ∃ s', scan_string getchar fuel a k s = Done (a + Z.of_nat (length l), k + Z.of_nat (length l)) s' ∧
    reads lim (l ++ [10]) a (Z.of_nat (length l)) s s' ∧
    ∀ (j : nat) c, l !! j = Some c → char_at (e_mem s') (a + Z.of_nat j) = c.
Proof.
  revert a k l s. induction fuel as [|fuel IH]; intros a k l s Hrd Hl Hin Ha Hk Hkl Hf; [lia|]. cbn [scan_string].
  destruct l as [|c l].
  - destruct (Hget lim 10 rest s ltac:(done) ltac:(done) (rd_room _ _ _ Hrd) (rd_stack _ _ _ Hrd) Hin) as (s1 & Hg & [T I B S Mm]).
    rewrite (bind_done _ _ _ _ _ Hg). cbn [Z.eqb Pos.eqb length]. exists s1. rewrite !Z.add_0_r. split; [done|].
    split; [|by intros]. split; try done; [by rewrite T, app_nil_r|by intros; apply Mm].
  - apply list.Forall_cons in Hl as [(Hch & H0 & H10 & H8) Hl]. cbn [length] in *.
    destruct (Hget lim c (l ++ 10 :: rest) s Hch H0 (rd_room _ _ _ Hrd) (rd_stack _ _ _ Hrd) Hin) as (s1 & Hg & Hd).
    rewrite (bind_done _ _ _ _ _ Hg). rewrite (proj2 (Z.eqb_neq c 10)), (proj2 (Z.eqb_neq c 8)) by done.
    unfold BUFFERSIZE. rewrite (proj2 (Z.eqb_neq k 100)) by lia.
    unfold store_char. rewrite modify_bind. set (s2 := set_umem (store8 (umem s1) a c) s1).
    assert (Hin2 : e_in s2 = l ++ 10 :: rest) by (pose proof (do_in _ _ _ _ _ Hd) as I; rewrite Hin in I; by injection I).
    destruct (IH (a + 1) (k + 1) l s2) as (s' & Hs' & Hr & Hall); [|done|done|lia|lia|lia|lia|].
    { destruct (ready_does _ _ _ _ _ _ Hd Hrd) as [[? ?] ?]. by split. }
    exists s'. split; [rewrite Hs'; do 2 f_equal; lia|]. destruct Hd as [T I B S Mm], Hr as [T' I' B' S' M'].
    split.
    + split; [by rewrite T', <-(app_nil_r (e_trace s)), <-T| |cbn in B'; lia|by rewrite S'|].
      * rewrite I. cbn [app]. f_equal. exact I'.
      * intros x Hx Hn. rewrite M' by lia. cbn. rewrite store8_load, (proj2 (Z.eqb_neq x a)) by lia. by apply Mm.
    + intros [|j] c' Hj; cbn in Hj.
      * injection Hj as <-. rewrite Z.add_0_r. rewrite (load8_char _ (e_mem s2) a a) by (apply M'; lia). by apply char_of_store.
      * rewrite <-(Hall j c' Hj). f_equal. lia.
Qed.

Lemma cstr_of_chars m a l :
  Forall (λ c, c ≠ 0) l → (∀ (j : nat) c, l !! j = Some c → char_at m (a + Z.of_nat j) = c) →
  char_at m (a + Z.of_nat (length l)) = 0 → cstr m a l.
Proof.
  revert a. induction l as [|c l IH]; intros a Hn Hall He; cbn [cstr length] in *; [by rewrite Z.add_0_r in He|].
  apply list.Forall_cons in Hn as [Hc Hn]. split; [done|].
  split; [rewrite <-(Hall 0%nat c eq_refl); f_equal; lia|]. apply IH; [done| |rewrite <-He; f_equal; lia].
  intros j c' Hj. rewrite <-(Hall (S j) c' Hj). f_equal. lia.
Qed.

(** [scanFF("%s", ss, NULL)] once the format's [%] and [s] are read. *)
Lemma scanFF_start fuel lim fmt sp s :
  str_below lim (e_mem s) fmt [37; 115] → sp ≠ 0 →
  scanFF putchar getchar (S (S (S fuel))) fmt sp 0 s =
    (scan_string getchar (S fuel) (load64 (e_mem s) sp) 0 ≫= λ r, store_char (fst r) 0 ≫= λ _,
      scanFF_loop putchar getchar (S fuel) LETTER (fmt + 1 + 1) sp 0 1 (Some (snd r))) s.
Proof.
  intros [(_ & H0 & _ & H1 & _) _] Hsp. unfold scanFF. cbn [scanFF_loop].
  rewrite load_char_bind, H0. cbn [Z.eqb Pos.eqb]. rewrite load_char_bind, H1. cbn [Z.eqb Pos.eqb andb].
  change (NULL) with 0. rewrite (proj2 (Z.eqb_neq sp 0)) by done. cbn [negb].
  rewrite load_ptr_bind. by replace (sp + 8 * 0) with sp by lia.
Qed.

(** [scanFF("%s", ss, NULL)] reads a line of less than 100 chars into the array that [ss]
    points to a pointer to, with its terminator, and returns 0. *)
Lemma scanFF_s fuel lim fmt sp a l rest s :
  ready stk lim s → str_below lim (e_mem s) fmt [37; 115] → sp ≠ 0 → load64 (e_mem s) sp = a →
  fmt + 2 < a → a + Z.of_nat (length l) < lim → Forall line_char l → (length l < 100)%nat → e_in s = l ++ 10 :: rest →
  (S (S (length l)) < fuel)%nat →
  ∃ s', scanFF putchar getchar fuel fmt sp 0 s = Done 0 s' ∧ reads lim (l ++ [10]) a (Z.of_nat (length l) + 1) s s' ∧
    cstr (e_mem s') a l.
Proof.
  intros Hrd Hfmt Hsp Hp Hfa Hal Hl H100 Hin Hf. do 3 (destruct fuel as [|fuel]; [lia|]).
  destruct (scan_string_spec (S fuel) lim a 0 l rest s Hrd Hl Hin ltac:(lia) ltac:(lia) ltac:(lia) ltac:(lia)) as (s1 & Hs & Hr & Hall).
  set (e := a + Z.of_nat (length l)) in *.
  set (s2 := set_umem (store8 (umem s1) e 0) s1).
  assert (Hr2 : reads lim (l ++ [10]) a (Z.of_nat (length l) + 1) s s2).
  { destruct Hr as [T I B S Mm]. split; try done. intros x Hx Hn. cbn. rewrite store8_load, (proj2 (Z.eqb_neq x e)) by lia. apply Mm; lia. }
  pose proof (reads_str _ _ _ _ _ _ fmt [37; 115] Hr2 ltac:(simpl; lia) Hfmt) as [(_ & _ & _ & _ & H2') _]. cbn [cstr] in H2'.
  exists s2. split; [|split; [done|]].
  - rewrite (scanFF_start _ lim), Hp by done. rewrite (bind_done _ _ _ _ _ Hs). cbn [fst snd].
    unfold store_char. rewrite modify_bind. fold s2. cbn [scanFF_loop]. unfold load_char. rewrite asks_bind.
    change (umem s2) with (e_mem s2). rewrite H2'. cbn [Z.eqb].
    unfold BUFFERSIZE. by rewrite (proj2 (Z.eqb_neq _ 100)) by lia.
  - apply cstr_of_chars; [eapply Forall_impl; [|exact Hl]; by intros c (_ & ? & _)| |].
    + intros j c Hj. pose proof (lookup_lt_Some _ _ _ Hj). rewrite <-(Hall j c Hj).
      apply load8_char. cbn. rewrite store8_load, (proj2 (Z.eqb_neq _ e)) by lia. done.
    + by apply char_of_store.
Qed.

(** Without input it waits. *)
Lemma scanFF_waits fuel lim fmt sp s :
  waits_char stk getchar → ready stk lim s → str_below lim (e_mem s) fmt [37; 115] → sp ≠ 0 → e_in s = [] →
  ∃ s' k, scanFF putchar getchar (S (S (S fuel))) fmt sp 0 s = Yield s' k ∧ does lim [] [] s s'.
Proof.
  intros Hw [Hr Hs] Hfmt Hsp Hin. destruct (Hw lim s Hr Hs Hin) as (s' & k & E & D).
  rewrite (scanFF_start _ lim) by done. eexists s', _. split; [|done].
  apply bind_yield. cbn [scan_string]. apply bind_yield. exact E.
Qed.

(** 100 chars and no newline: the next char is dropped, the result is 1. *)
Lemma scan_string_full fuel lim a k l c rest s :
  ready stk lim s → Forall line_char l → line_char c → e_in s = l ++ c :: rest → a + Z.of_nat (length l) ≤ lim →
  0 ≤ k → k + Z.of_nat (length l) = 100 → (length l < fuel)%nat →
  ∃ s', scan_string getchar fuel a k s = Done (a + Z.of_nat (length l), 100) s' ∧
    reads lim (l ++ [c]) a (Z.of_nat (length l)) s s'.
Proof.
  revert a k l s. induction fuel as [|fuel IH]; intros a k l s Hrd Hl (Hc & Hc0 & Hc10 & Hc8) Hin Ha Hk Hkl Hf; [lia|].
  cbn [scan_string]. destruct l as [|c' l].
  - destruct (Hget lim c rest s Hc Hc0 (rd_room _ _ _ Hrd) (rd_stack _ _ _ Hrd) Hin) as (s1 & Hg & [T I B S Mm]).
    rewrite (bind_done _ _ _ _ _ Hg), (proj2 (Z.eqb_neq c 10)), (proj2 (Z.eqb_neq c 8)) by done.
    simpl in Hkl. assert (k = 100) as -> by lia. exists s1. cbn [length Z.of_nat]. rewrite Z.add_0_r. split; [done|].
    split; try done; [by rewrite T, app_nil_r|by intros; apply Mm].
  - apply list.Forall_cons in Hl as [(Hch & H0 & H10 & H8) Hl]. cbn [length] in *.
    destruct (Hget lim c' (l ++ c :: rest) s Hch H0 (rd_room _ _ _ Hrd) (rd_stack _ _ _ Hrd) Hin) as (s1 & Hg & Hd).
    rewrite (bind_done _ _ _ _ _ Hg). rewrite (proj2 (Z.eqb_neq c' 10)), (proj2 (Z.eqb_neq c' 8)) by done.
    unfold BUFFERSIZE. rewrite (proj2 (Z.eqb_neq k 100)) by lia.
    unfold store_char. rewrite modify_bind. set (s2 := set_umem (store8 (umem s1) a c') s1).
    assert (Hin2 : e_in s2 = l ++ c :: rest) by (pose proof (do_in _ _ _ _ _ Hd) as I; rewrite Hin in I; by injection I).
    destruct (IH (a + 1) (k + 1) l s2) as (s' & Hs' & Hr); [|done|done|done|lia|lia|lia|lia|].
    { destruct (ready_does _ _ _ _ _ _ Hd Hrd) as [[? ?] ?]. by split. }
    exists s'. split; [rewrite Hs'; do 2 f_equal; lia|]. destruct Hd as [T I B S Mm], Hr as [T' I' B' S' M'].
    split; [by rewrite T', <-(app_nil_r (e_trace s)), <-T| |cbn in B'; lia|by rewrite S'|].
    + rewrite I. cbn [app]. f_equal. exact I'.
    + intros x Hx Hn. rewrite M' by lia. cbn. rewrite store8_load, (proj2 (Z.eqb_neq x a)) by lia. by apply Mm.
Qed.

Lemma scanFF_full fuel lim fmt sp a l c rest s :
  ready stk lim s → str_below lim (e_mem s) fmt [37; 115] → sp ≠ 0 → load64 (e_mem s) sp = a →
  fmt + 2 < a → a + 100 < lim → Forall line_char (l ++ [c]) → length l = 100%nat → e_in s = (l ++ [c]) ++ rest →
  (103 < fuel)%nat →
  ∃ s', scanFF putchar getchar fuel fmt sp 0 s = Done 1 s' ∧ reads lim (l ++ [c]) a 101 s s'.
Proof.
  intros Hrd Hfmt Hsp Hp Hfa Hal Hl H100 Hin Hf. do 3 (destruct fuel as [|fuel]; [lia|]).
  apply Forall_app in Hl as [Hl [Hc _]%list.Forall_cons]. rewrite <-app_assoc in Hin.
  destruct (scan_string_full (S fuel) lim a 0 l c rest s Hrd Hl Hc Hin ltac:(lia) ltac:(lia) ltac:(lia) ltac:(lia)) as (s1 & Hs & Hr).
  rewrite H100 in Hs, Hr. change (Z.of_nat 100) with 100 in *.
  set (s2 := set_umem (store8 (umem s1) (a + 100) 0) s1).
  assert (Hr2 : reads lim (l ++ [c]) a 101 s s2).
  { destruct Hr as [T I B S Mm]. split; try done. intros x Hx Hn. cbn. rewrite store8_load, (proj2 (Z.eqb_neq x _)) by lia. apply Mm; lia. }
  pose proof (reads_str _ _ _ _ _ _ fmt [37; 115] Hr2 ltac:(simpl; lia) Hfmt) as [(_ & _ & _ & _ & H2') _]. cbn [cstr] in H2'.
  exists s2. split; [|done]. rewrite (scanFF_start _ lim), Hp by done. rewrite (bind_done _ _ _ _ _ Hs). cbn [fst snd].
  unfold store_char. rewrite modify_bind. fold s2. cbn [scanFF_loop]. unfold load_char. rewrite asks_bind.
  change (umem s2) with (e_mem s2). by rewrite H2'.
Qed.
End reading.
End user.
