(* ===== verification/Shell.v ===== *)
(** * The shell ([Userland/SHELL/shell.c])

    The program over any environment of calls and memory.  [lit] says where its string
    literals are, [code] where its functions are, [isAsynchronicCall] where that variable
    is; a function that walks over strings or waits for input takes [fuel]. *)

From S2P Require Import Prelude KMonad CString User UserStdio.

(** The texts of the shell. *)
Definition help_text : string :=
  "Help" +:+ nl +:+ " the commands are clear, help, echo, ls , ps, & and man" +:+ nl +:+
  " write man " +:+ quote +:+ "comand" +:+ quote +:+ " for more information".
Definition ls_text : string := "Programs: prodCons, philosophers, pipetest, editor, shell, fortune".
Definition man_help : string := "HELP" +:+ nl +:+ " use this comand to see all the comands".
Definition man_clear : string := "CLEAR" +:+ nl +:+ " clear the video use by the shell".
Definition man_echo : string :=
  "ECHO" +:+ nl +:+ " Use " +:+ quote +:+ "echo on" +:+ quote +:+ " to turn on the echo and " +:+ quote +:+
  "echo off" +:+ quote +:+ " to turn it off  ".
Definition man_ls : string := "LS" +:+ nl +:+ " display all programs".
Definition man_ps : string := "ps" +:+ nl +:+ " list all current processes".
Definition man_amp : string := "&" +:+ nl +:+ " run a command in background. Use: &command".
Definition man_run : string := "./" +:+ nl +:+ " run a program. Use: ./programName".

Section shell.
Context {E : Type} `{Sys E} (lit code : string → Z) (isAsynchronicCall : Z) (fuel : nat).

Abbreviation putchar := putchar_malloc.
Abbreviation getchar := (getchar_malloc fuel).

(** ** Messages *)

Definition helpShell : M E unit :=
  s ← malloc 8;
  store_ptr s (lit help_text) ;;
  printFF putchar fuel (lit "%s") s NULL ;;
  putchar 10.

Definition while1 : M E unit := spin fuel.

Definition ls : M E unit :=
  s ← malloc 8;
  store_ptr s (lit ls_text) ;;
  printFF putchar fuel (lit "%s") s NULL ;;
  putchar 10.

(** The text that [man] chooses. *)
Definition man_choice (buffer : Z) : M E Z :=
  r1 ← strcmp fuel (lit "help") buffer;
  if r1 =? 0 then mret (lit man_help) else
  r2 ← strcmp fuel (lit "clear") buffer;
  if r2 =? 0 then mret (lit man_clear) else
  r3 ← strcmp fuel (lit "echo") buffer;
  if r3 =? 0 then mret (lit man_echo) else
  r4 ← strcmp fuel (lit "ls") buffer;
  if r4 =? 0 then mret (lit man_ls) else
  r5 ← strcmp fuel (lit "ps") buffer;
  if r5 =? 0 then mret (lit man_ps) else
  r6 ← strcmp fuel (lit "&") buffer;
  if r6 =? 0 then mret (lit man_amp) else
  r7 ← strcmp fuel (lit "./") buffer;
  if r7 =? 0 then mret (lit man_run) else mret (lit "invalid command for man").

Definition man (buffer : Z) : M E unit :=
  s ← malloc 8;
  man ← man_choice buffer;
  store_ptr s man ;;
  printFF putchar fuel (lit "%s") s NULL ;;
  putchar 10.

(** The text of [runError], [error] and [asyncError] differs only in [message]. *)
Definition complain (buffer : Z) (message : string) : M E unit :=
  s ← malloc 8;
  store_ptr s buffer ;;
  printFF putchar fuel (lit "%s") s NULL ;;
  putchar 58 ;;
  putchar 32 ;;
  store_ptr s (lit message) ;;
  printFF putchar fuel (lit "%s") s NULL ;;
  putchar 10.

Definition runError (buffer : Z) : M E unit := complain buffer "is not a valid program".
Definition error (buffer : Z) : M E unit := complain buffer "command not found".
Definition asyncError (buffer : Z) : M E unit := complain buffer "is not a valid comand for &".

(** ** Calls *)

Definition echoShellON : M E unit := call 6 1 0.
Definition echoShellOFF : M E unit := call 6 0 0.
Definition clearShell : M E unit := call 5 0 0.
Definition undoBackwards : M E unit := call 9 7 0.
Definition changeToUserEnvirnment : M E unit := call 8 6 4 ;; undoBackwards.
Definition changeToSehllEnvironment : M E unit := call 8 0 4.
Definition printProcesses : M E unit := call 10 0 0.
Definition killProcess (pid : Z) : M E unit := call 11 (uint64 pid) 0.

(** The comparisons of [run]. *)
Definition run_choice (c : Z) : M E unit :=
  r1 ← strcmp fuel (lit "prodCons") c;
  if r1 =? 0 then call 7 1 1 else
  r2 ← strcmp fuel (lit "pipeTest") c;
  if r2 =? 0 then call 7 1 2 else
  r3 ← strcmp fuel (lit "philosophers") c;
  if r3 =? 0 then call 7 1 4 else
  r4 ← strcmp fuel (lit "editor") c;
  if r4 =? 0 then call 7 2 0 else
  r5 ← strcmp fuel (lit "fortune") c;
  if r5 =? 0 then call 7 3 0 else
  r6 ← strcmp fuel (lit "pagefault") c;
  if r6 =? 0 then call 7 5 0 else runError c.

Definition run (c : Z) : M E unit := run_choice c ;; echoShellON.

(** ** Commands *)

Definition asyncParser (buffer : Z) : M E unit :=
  r1 ← strcmp fuel (lit "help") buffer;
  if r1 =? 0 then call 12 (code "helpShell") 0 else
  r2 ← strcmp fuel (lit "clear") buffer;
  if r2 =? 0 then call 12 (code "clearShell") 0 else
  r3 ← strcmp fuel (lit "ps") buffer;
  if r3 =? 0 then call 12 (code "printProcesses") 0 else
  r4 ← strcmpN fuel (lit "echo") buffer 4;
  if r4 =? 0 then
    r ← strcmp fuel (lit "on") (buffer + 5);
    if r =? 0 then call 12 (code "echoShellON") 0 else call 12 (code "echoShellOFF") 0
  else
  r5 ← strcmpN fuel (lit "kill") buffer 4;
  if r5 =? 0 then
    c ← load_char (buffer + 4);
    call 12 (code "killProcess") (uint64 (c - 48))
  else
  c0 ← load_char buffer;
  c1 ← (if c0 =? 46 then load_char (buffer + 1) else mret 0);
  if (c0 =? 46) && (c1 =? 47) then run (buffer + 2) else
  r6 ← strcmpN fuel (lit "man") buffer 3;
  if r6 =? 0 then call 12 (code "man") (buffer + 4) else
  r7 ← strcmp fuel (lit "ls") buffer;
  if r7 =? 0 then call 12 (code "ls") 0 else
  r8 ← strcmp fuel (lit "while1") buffer;
  if r8 =? 0 then call 12 (code "while1") 0 else
  if c0 =? 10 then mret tt else
  asyncError buffer ;;
  store_int isAsynchronicCall 0.

Definition parser (buffer : Z) : M E unit :=
  c0 ← load_char buffer;
  if c0 =? 38 then
    store_int isAsynchronicCall 1 ;;
    asyncParser (buffer + 1) ;;
    store_int isAsynchronicCall 0
  else
  r1 ← strcmp fuel (lit "help") buffer;
  if r1 =? 0 then helpShell else
  r2 ← strcmp fuel (lit "clear") buffer;
  if r2 =? 0 then clearShell else
  r3 ← strcmp fuel (lit "ps") buffer;
  if r3 =? 0 then printProcesses else
  r4 ← strcmpN fuel (lit "echo") buffer 4;
  if r4 =? 0 then
    r ← strcmp fuel (lit "on") (buffer + 5);
    if r =? 0 then echoShellON else echoShellOFF
  else
  r5 ← strcmpN fuel (lit "kill") buffer 4;
  if r5 =? 0 then c ← load_char (buffer + 4); killProcess (c - 48) else
  c0 ← load_char buffer;
  c1 ← (if c0 =? 46 then load_char (buffer + 1) else mret 0);
  if (c0 =? 46) && (c1 =? 47) then run (buffer + 2) else
  r6 ← strcmpN fuel (lit "man") buffer 3;
  if r6 =? 0 then man (buffer + 4) else
  r7 ← strcmp fuel (lit "while1") buffer;
  if r7 =? 0 then while1 else
  r8 ← strcmp fuel (lit "ls") buffer;
  if r8 =? 0 then ls else
  if c0 =? 10 then mret tt else
  error buffer ;;
  store_int isAsynchronicCall 0.

(** ** The session *)

Definition printShellComand : M E unit :=
  s ← malloc 8;
  store_ptr s (lit "shell>") ;;
  printFF putchar fuel (lit "%s") s NULL.

(** One round of [while(1)] of [main]. *)
Definition main_round (ss sos : Z) : M E unit :=
  putchar 10 ;;
  changeToSehllEnvironment ;;
  printShellComand ;;
  changeToUserEnvirnment ;;
  r ← scanFF putchar getchar fuel (lit "%s") ss NULL;
  if r =? 0 then
    changeToSehllEnvironment ;;
    parser sos
  else
    s ← malloc 8;
    store_ptr s (lit "ScanFF Buffer OverFlow") ;;
    putchar 10 ;;
    printFF putchar fuel (lit "%s") s NULL.

Fixpoint main_loop (rounds : nat) (ss sos : Z) : M E unit :=
  match rounds with
  | O => fault
  | S rounds' => main_round ss sos ;; main_loop rounds' ss sos
  end.

Definition main (rounds : nat) : M E unit :=
  ss ← malloc 8;
  sos ← malloc 2500;
  store_ptr ss sos ;;
  main_loop rounds ss sos.
End shell.
