(* ===== verification/ShellHeap.v ===== *)
(** * What the shell takes of its heap

    The shell never frees: each char it prints or reads costs a block, each command one
    more.  [fits n m1 m2] says, of a program [m1] on a heap that ends and the same program
    [m2] with memory to spare, that [m2] takes at most [n] bytes besides the blocks of the
    chars it printed and read, and that [m1] does the same if the heap has what [m2]
    took. *)

From S2P Require Import Prelude KMonad CString User UserStdio UserStdioThms Shell.

Implicit Types s : Env.

Section heap.
Context `{K : Kernel} (heap_end : Z).

(** The blocks of one byte for what was printed and read from [s] to [s']. *)
Definition spent s s' : Z :=
  block_size 1 * (Z.of_nat (length (e_trace s')) - Z.of_nat (length (e_trace s))) +
  block_size 1 * (Z.of_nat (length (e_in s)) - Z.of_nat (length (e_in s'))).

Definition fits {A} (n : Z) (m1 m2 : M Env A) : Prop := 0 ≤ n ∧ ∀ s,
  match m2 s with
  | Fault => True
  | Done a s' => e_brk s ≤ e_brk s' ≤ e_brk s + n + spent s s' ∧ (e_brk s' ≤ heap_end → m1 s = Done a s')
  | Yield s' _ => e_brk s ≤ e_brk s' ≤ e_brk s + n + block_size 1 + spent s s' ∧
      (e_brk s' ≤ heap_end → ∃ k, m1 s = Yield s' k)
  end.

(** ** Rules *)

Lemma fits_weaken {A} n n' (m1 m2 : M Env A) : n ≤ n' → fits n m1 m2 → fits n' m1 m2.
Proof.
  intros Hn [H0 Hm]. split; [lia|]. intros s. specialize (Hm s).
  destruct (m2 s) as [|a s'|s' k]; [done|..]; destruct Hm as [? ?]; (split; [lia|done]).
Qed.

Lemma fits_bind {A B} n1 n2 (m1 m2 : M Env A) (f1 f2 : A → M Env B) :
  fits n1 m1 m2 → (∀ a, fits n2 (f1 a) (f2 a)) → 0 ≤ n2 → fits (n1 + n2) (m1 ≫= f1) (m2 ≫= f2).
Proof.
  intros [H1 Hm] Hf H2. split; [lia|]. intros s. specialize (Hm s). unfold mbind, M_bind.
  destruct (m2 s) as [|a s1|s1 k]; cbn [res_bind]; [done| |].
  - destruct Hm as [B1 E1]. destruct (Hf a) as [_ Hfa]. specialize (Hfa s1).
    destruct (f2 a s1) as [|b s2|s2 k]; [done|..]; destruct Hfa as [B2 E2]; unfold spent in *; (split; [lia|]);
      intros Hend; rewrite E1 by lia; by apply E2.
  - destruct Hm as [B1 E1]. split; [lia|]. intros Hend. destruct (E1 Hend) as [k' ->]. by eexists.
Qed.

(** The budget is for the rest, or for the first part. *)
Lemma fits_then {A B} n (m1 m2 : M Env A) (f1 f2 : A → M Env B) :
  fits 0 m1 m2 → (∀ a, fits n (f1 a) (f2 a)) → 0 ≤ n → fits n (m1 ≫= f1) (m2 ≫= f2).
Proof. intros Hm Hf Hn. change n with (0 + n). by apply fits_bind. Qed.

Lemma fits_first {A B} n (m1 m2 : M Env A) (f1 f2 : A → M Env B) :
  fits n m1 m2 → (∀ a, fits 0 (f1 a) (f2 a)) → fits n (m1 ≫= f1) (m2 ≫= f2).
Proof. intros Hm Hf. rewrite <-(Z.add_0_r n). by apply fits_bind. Qed.

(** A step that neither takes memory, prints nor reads. *)
Lemma fits_still {A} n (m : M Env A) :
  0 ≤ n → (∀ s, match m s with
    | Fault => True | Done _ s' | Yield s' _ => e_brk s' = e_brk s ∧ e_trace s' = e_trace s ∧ e_in s' = e_in s end) →
  fits n m m.
Proof.
  intros Hn Hm. split; [done|]. intros s. specialize (Hm s). pose proof (block_size_pos 1). unfold spent.
  destruct (m s) as [|a s'|s' k]; [done|..]; destruct Hm as (-> & -> & ->); (split; [lia|]); [done|by eexists].
Qed.

Lemma fits_ret {A} n (a : A) : 0 ≤ n → fits n (mret a) (mret a).
Proof. intros Hn. by apply fits_still. Qed.

Lemma fits_fault {A} n : 0 ≤ n → fits n (fault : M Env A) fault.
Proof. intros Hn. by apply fits_still. Qed.

Lemma fits_asks {A} n (f : Env → A) : 0 ≤ n → fits n (asks f) (asks f).
Proof. intros Hn. by apply fits_still. Qed.

Lemma fits_store n (f : Env → mem) : 0 ≤ n →
  fits n (modify (λ s, env_set_mem (f s) s)) (modify (λ s, env_set_mem (f s) s)).
Proof. intros Hn. by apply fits_still. Qed.

Lemma fits_spin n fuel : 0 ≤ n → fits n (spin fuel) (spin fuel).
Proof. intros Hn. apply fits_still; [done|]. intros s. by destruct fuel. Qed.

(** ** The calls *)

Abbreviation W := (Env_within heap_end).

Lemma fits_call n i a b : 0 ≤ n → i ≠ 13 → fits n (@call Env W i a b) (call i a b).
Proof.
  intros Hn Hi. split; [done|]. intros s. unfold call, mbind, M_bind. cbn [sys_call Env_sys Env_within].
  unfold env_call. rewrite (proj2 (Z.eqb_neq i 13)) by done. cbn [res_bind mret M_ret]. pose proof (block_size_pos 1).
  split; [|done]. unfold spent. cbn [env_event e_brk e_trace e_in]. rewrite length_app. cbn [length]. lia.
Qed.

Lemma fits_malloc k : fits (block_size k) (@malloc Env W k) (malloc k).
Proof.
  pose proof (block_size_pos k). split; [lia|]. intros s. unfold malloc. cbn [sys_call Env_sys Env_within].
  unfold env_call. cbn [Z.eqb Pos.eqb beyond]. unfold spent. cbn [e_brk e_trace e_in]. split; [lia|].
  intros Hend. by rewrite (proj2 (Z.ltb_ge _ _)) by done.
Qed.

Lemma fits_malloc_bind {B} n k (f1 f2 : Z → M Env B) :
  0 ≤ n - block_size k → (∀ p, fits (n - block_size k) (f1 p) (f2 p)) → fits n (@malloc Env W k ≫= f1) (malloc k ≫= f2).
Proof. intros Hn Hf. replace n with (block_size k + (n - block_size k)) by lia. by apply fits_bind; [apply fits_malloc|..]. Qed.

Lemma fits_putchar n c : 0 ≤ n → fits n (@putchar_malloc Env W c) (putchar_malloc c).
Proof.
  intros Hn. split; [done|]. intros s. pose proof (block_size_pos 1).
  set (s1 := mkEnv (store8 (e_mem s) (e_brk s) c) (e_in s) (e_trace s) (e_brk s + block_size 1) (e_stack s)).
  assert (putchar_malloc c s = Done tt (env_event (Out (char_at (e_mem s1) (e_brk s))) s1)) as -> by done.
  split; [unfold spent; cbn [env_event s1 e_brk e_trace e_in]; rewrite length_app; cbn [length]; lia|].
  cbn [env_event s1 e_brk]. intros Hend. unfold putchar_malloc, malloc, mbind, M_bind. cbn [sys_call Env_within].
  unfold env_call. cbn [Z.eqb Pos.eqb beyond]. by rewrite (proj2 (Z.ltb_ge _ _)) by done.
Qed.

(** The loop of [getchar] reads a char at least. *)
Lemma read_loop_takes fuel b s :
  match read_loop fuel b s with
  | Fault => True
  | Done _ s' => e_brk s' = e_brk s ∧ e_trace s' = e_trace s ∧ (length (e_in s') ≤ length (e_in s))%nat ∧
      (char_at (e_mem s) b = 0 → (length (e_in s') < length (e_in s))%nat)
  | Yield s' _ => e_brk s' = e_brk s ∧ e_trace s' = e_trace s ∧ (length (e_in s') ≤ length (e_in s))%nat
  end.
Proof.
  revert s. induction fuel as [|fuel IH]; intros s; cbn [read_loop]; unfold load_char; rewrite asks_bind; cbn [umem Env_sys];
    (destruct (Z.eqb_spec (char_at (e_mem s) b) 0) as [E|E]; [|by split_and!]); [done|].
  unfold mbind, M_bind. cbn [readC Env_sys]. unfold env_read. destruct (e_in s) as [|c l] eqn:Ei; cbn [res_bind].
  - split_and!; [done|done|by rewrite Ei].
  - specialize (IH (mkEnv (store8 (e_mem s) b c) l (e_trace s) (e_brk s) (e_stack s))).
    destruct (read_loop fuel b _) as [|a s'|s' k]; [done|..]; cbn [e_brk e_trace e_in length] in *;
      destruct IH as (-> & -> & IH); split_and!; try done; [lia|intros _; lia|lia].
Qed.

Lemma fits_getchar n fuel : 0 ≤ n → fits n (@getchar_malloc Env W fuel) (getchar_malloc fuel).
Proof.
  intros Hn. split; [done|]. intros s. pose proof (block_size_pos 1).
  set (s1 := mkEnv (store8 (e_mem s) (e_brk s) 0) (e_in s) (e_trace s) (e_brk s + block_size 1) (e_stack s)).
  assert (getchar_malloc fuel s = (read_loop fuel (e_brk s) ≫= λ _, load_char (e_brk s)) s1) as -> by done.
  assert (Hw : e_brk s1 ≤ heap_end →
    @getchar_malloc Env W fuel s = (read_loop fuel (e_brk s) ≫= λ _, load_char (e_brk s)) s1).
  { intros Hend. unfold getchar_malloc, malloc. unfold mbind at 1, M_bind at 1. cbn [sys_call Env_within].
    unfold env_call. cbn [Z.eqb Pos.eqb beyond]. by rewrite (proj2 (Z.ltb_ge _ _)) by done. }
  pose proof (read_loop_takes fuel (e_brk s) s1) as Ht. unfold mbind, M_bind in *.
  destruct (read_loop fuel (e_brk s) s1) as [|a s2|s2 k]; cbn [res_bind] in *; [done|..].
  - destruct Ht as (E1 & E2 & E3 & E4). cbn [s1 e_mem e_brk e_trace e_in] in *.
    specialize (E4 (char_of_store _ _ 0 ltac:(done))). unfold load_char, asks in *. rewrite E1. unfold spent. rewrite E2.
    split; [|intros Hend; by apply Hw]. nia.
  - destruct Ht as (E1 & E2 & E3). cbn [s1 e_mem e_brk e_trace e_in] in *. rewrite E1. unfold spent. rewrite E2.
    split; [nia|]. intros Hend. eexists. by apply Hw.
Qed.

(** ** [stdio.c] *)

(** The steps of a program that the rules cover; the budget is a number. *)
Ltac fit_step :=
  match goal with
  | |- fits _ (mret _) _ => apply fits_ret; lia
  | |- fits _ fault _ => apply fits_fault; lia
  | |- fits _ (putchar_malloc _) _ => apply fits_putchar; lia
  | |- fits _ (getchar_malloc _) _ => apply fits_getchar; lia
  | |- fits _ (call _ _ _) _ => apply fits_call; [lia|done]
  | |- fits _ (load_char _) _ => apply fits_asks; lia
  | |- fits _ (load_ptr _) _ => apply fits_asks; lia
  | |- fits _ (store_char _ _) _ => apply (fits_store _ (λ s, store8 (e_mem s) _ _)); lia
  | |- fits _ (store_int _ _) _ => apply (fits_store _ (λ s, store32 (e_mem s) _ _)); lia
  | |- fits _ (store_ptr _ _) _ => apply (fits_store _ (λ s, store64 (e_mem s) _ _)); lia
  | |- fits _ (malloc 8 ≫= _) _ => apply fits_malloc_bind; change (block_size 8) with 36; [lia|intros ?]
  | |- fits _ (_ ≫= _) _ => apply fits_then; [|intros ?|lia]
  | |- fits _ (if ?b then _ else _) _ => destruct b
  | |- fits _ _ _ => done
  end.
Ltac fit := repeat fit_step.

Lemma fits_strcmp fuel p q : fits 0 (@strcmp Env W fuel p q) (strcmp fuel p q).
Proof. revert p q. induction fuel as [|fuel IH]; intros p q; cbn [strcmp]; fit. Qed.

Lemma fits_strcmpN fuel p q n : fits 0 (@strcmpN Env W fuel p q n) (strcmpN fuel p q n).
Proof. revert p q n. induction fuel as [|fuel IH]; intros p q n; cbn [strcmpN]; fit. Qed.

Lemma fits_print fuel p : fits 0 (@print Env W (@putchar_malloc Env W) fuel p) (print putchar_malloc fuel p).
Proof. revert p. induction fuel as [|fuel IH]; intros p; cbn [print]; fit. Qed.

Lemma fits_printFF_loop fuel st format p :
  fits 0 (@printFF_loop Env W (@putchar_malloc Env W) fuel st format p NULL) (printFF_loop putchar_malloc fuel st format p NULL).
Proof.
  revert st format p. induction fuel as [|fuel IH]; intros st format p; cbn [printFF_loop]; [fit|].
  rewrite Z.eqb_refl. cbn [negb]. apply fits_then; [fit|intros c|lia]. rewrite andb_false_r. destruct st; fit. apply fits_print.
Qed.

Lemma fits_printFF n fuel format p : 0 ≤ n →
  fits n (@printFF Env W (@putchar_malloc Env W) fuel format p NULL) (printFF putchar_malloc fuel format p NULL).
Proof. intros Hn. unfold printFF. apply fits_then; [apply fits_printFF_loop|intros f|done]. fit. Qed.

Lemma fits_scan_letter f fuel format :
  fits 0 (@scan_letter Env W (@getchar_malloc Env W f) fuel format) (scan_letter (getchar_malloc f) fuel format).
Proof. induction fuel as [|fuel IH]; cbn [scan_letter]; fit. Qed.

Lemma fits_scan_string f fuel p i :
  fits 0 (@scan_string Env W (@getchar_malloc Env W f) fuel p i) (scan_string (getchar_malloc f) fuel p i).
Proof. revert p i. induction fuel as [|fuel IH]; intros p i; cbn [scan_string]; fit. Qed.

Lemma fits_scanFF_loop f fuel st format p k i :
  fits 0 (@scanFF_loop Env W (@putchar_malloc Env W) (@getchar_malloc Env W f) fuel st format p NULL k i)
    (scanFF_loop putchar_malloc (getchar_malloc f) fuel st format p NULL k i).
Proof.
  revert st format k i. induction fuel as [|fuel IH]; intros st format k i; cbn [scanFF_loop]; [fit|].
  rewrite Z.eqb_refl. cbn [negb]. apply fits_then; [fit|intros c|lia]. rewrite andb_false_r.
  destruct (c =? 0); [destruct i; fit|]. destruct st; fit; [apply fits_scan_letter|apply fits_scan_string].
Qed.

Lemma fits_scanFF f fuel format p :
  fits 0 (@scanFF Env W (@putchar_malloc Env W) (@getchar_malloc Env W f) fuel format p NULL)
    (scanFF putchar_malloc (getchar_malloc f) fuel format p NULL).
Proof. apply fits_scanFF_loop. Qed.

(** ** The shell *)

Section shell.
Context (lit code : string → Z) (isAsynchronicCall : Z) (fuel : nat).

(** The functions that were dealt with are steps, too. *)
Create HintDb fits.
#[local] Hint Resolve fits_strcmp fits_strcmpN : fits.
#[local] Hint Extern 1 (fits _ (spin _) _) => apply fits_spin; lia : fits.
#[local] Hint Extern 1 (fits _ (printFF _ _ _ _ _) _) => apply fits_printFF; lia : fits.

Ltac fit_shell :=
  repeat first
    [ solve [auto 1 with fits nocore]
    | match goal with
      | |- fits _ (complain _ _ _ _ ≫= _) _ => apply fits_first; [auto 1 with fits nocore|intros _]
      | |- fits _ (asyncParser _ _ _ _ _ ≫= _) _ => apply fits_first; [auto 1 with fits nocore|intros _]
      end
    | fit_step ].

Lemma fits_complain b t : fits 36 (@complain Env W lit fuel b t) (complain lit fuel b t).
Proof. unfold complain. fit_shell. Qed.

Lemma fits_helpShell : fits 36 (@helpShell Env W lit fuel) (helpShell lit fuel).
Proof. unfold helpShell. fit_shell. Qed.

Lemma fits_ls : fits 36 (@ls Env W lit fuel) (ls lit fuel).
Proof. unfold ls. fit_shell. Qed.

Lemma fits_printShellComand : fits 36 (@printShellComand Env W lit fuel) (printShellComand lit fuel).
Proof. unfold printShellComand. fit_shell. Qed.

Lemma fits_man b : fits 36 (@man Env W lit fuel b) (man lit fuel b).
Proof. unfold man, man_choice. fit_shell. Qed.
#[local] Hint Resolve fits_complain fits_helpShell fits_ls fits_man : fits.

Lemma fits_run c : fits 36 (@run Env W lit fuel c) (run lit fuel c).
Proof. unfold run. apply fits_first; [unfold run_choice, runError|intros _; unfold echoShellON]; fit_shell. Qed.
#[local] Hint Resolve fits_run : fits.

Lemma fits_asyncParser b :
  fits 36 (@asyncParser Env W lit code isAsynchronicCall fuel b) (asyncParser lit code isAsynchronicCall fuel b).
Proof. unfold asyncParser, asyncError. fit_shell. Qed.
#[local] Hint Resolve fits_asyncParser : fits.

Lemma fits_parser b : fits 36 (@parser Env W lit code isAsynchronicCall fuel b) (parser lit code isAsynchronicCall fuel b).
Proof.
  unfold parser, error, clearShell, printProcesses, echoShellON, echoShellOFF, killProcess, while1. fit_shell.
Qed.

(** A round: a command, the prompt and the message of the overflow take a block each. *)
Lemma fits_round ss sos :
  fits 72 (@main_round Env W lit code isAsynchronicCall fuel ss sos) (main_round lit code isAsynchronicCall fuel ss sos).
Proof.
  unfold main_round, changeToSehllEnvironment, changeToUserEnvirnment, undoBackwards.
  do 2 (apply fits_then; [fit_shell|intros _|lia]). change 72 with (36 + 36).
  apply fits_bind; [apply fits_printShellComand|intros _|lia].
  apply fits_then; [fit_shell|intros _|lia]. apply fits_then; [apply fits_scanFF|intros r|lia].
  destruct (r =? 0); [|fit_shell]. apply fits_then; [fit_shell|intros _|lia]. apply fits_parser.
Qed.
End shell.
End heap.
