(* ===== verification/ShellThms.v ===== *)
(** * Properties of the shell

    What a line typed at the shell makes it do, as a function of the line, and that the
    shell does it, line after line. *)

From S2P Require Import Prelude KMonad CString User UserStdio UserStdioThms Shell ShellHeap.

Implicit Types s : Env.

(** ** What a command does *)

Definition says (t : string) : list event := (Out <$> chars t) ++ [Out 10].
Definition complains (l : list Z) (t : string) : list event := (Out <$> l) ++ [Out 58] ++ [Out 32] ++ says t.


Definition run_does (l : list Z) : list event :=
  (if eq_str "prodCons" l then [Call 7 1 1 0] else if eq_str "pipeTest" l then [Call 7 1 2 0]
   else if eq_str "philosophers" l then [Call 7 1 4 0] else if eq_str "editor" l then [Call 7 2 0 0]
   else if eq_str "fortune" l then [Call 7 3 0 0] else if eq_str "pagefault" l then [Call 7 5 0 0]
   else complains l "is not a valid program") ++ [Call 6 1 0 0].

Definition pid_of (l : list Z) : Z := uint64 (default 0 (l !! 4%nat) - 48).



(** ** The data of the program *)

Definition literals : list string :=
  ["%s"; help_text; ls_text; man_help; man_clear; man_echo; man_ls; man_ps; man_amp; man_run;
   "invalid command for man"; "help"; "clear"; "echo"; "ls"; "ps"; "&"; "./"; "on"; "kill"; "man"; "while1";
   "prodCons"; "pipeTest"; "philosophers"; "editor"; "fortune"; "pagefault";
   "is not a valid program"; "command not found"; "is not a valid comand for &"; "shell>"; "ScanFF Buffer OverFlow"].

Lemma literals_short : forallb (λ t, Nat.ltb (length (chars t)) 128) literals = true.
Proof. vm_compute. reflexivity. Qed.

Section shell.
Context `{K : Kernel} (lit code : string → Z) (isAsynchronicCall : Z) (fuel : nat) (Hfuel : (200 ≤ fuel)%nat).

(** The literals are in place, and the variable after them. *)
Record data (lim : Z) s : Prop := {
  da_room : room lim s;
  da_lim : 0 < lim ≤ 2 ^ 64;
  da_async : isAsynchronicCall + 4 ≤ lim;
  da_lit t : t ∈ literals → 0 < lit t ∧ str_below isAsynchronicCall (e_mem s) (lit t) (chars t);
}.

Lemma da_text lim s t : data lim s → t ∈ literals → 0 < lit t ∧ str_below lim (e_mem s) (lit t) (chars t).
Proof.
  intros Hd Ht. destruct (da_lit _ _ Hd t Ht) as [Hp Hs]. split; [done|].
  eapply str_below_weaken; [|exact Hs]. pose proof (da_async _ _ Hd). lia.
Qed.

Lemma data_does lim i l s s' : does lim i l s s' → data lim s → data lim s'.
Proof.
  intros Hd [Hr Hl Ha Ht]. split; [by eapply room_does|done|done|]. intros t Hi. destruct (Ht t Hi) as [Hp Hs].
  split; [done|]. eapply str_same; [|done]. eapply same_below_weaken; [|apply Hd]. lia.
Qed.

Lemma literal_len t : t ∈ literals → (length (chars t) < 128)%nat.
Proof.
  intros Hi. pose proof literals_short as Hs. rewrite forallb_forall in Hs.
  apply Nat.ltb_lt, Hs. by apply list_elem_of_In.
Qed.

Lemma data_ready lim s : data lim s → ready (e_stack s) lim s.
Proof. intros Hd. split; [apply Hd|done]. Qed.

(** ** Steps *)

Lemma malloc_bind {A} lim n (k : Z → M Env A) s :
  data lim s → ∃ s', (malloc n ≫= k) s = k (e_brk s) s' ∧ does lim [] [] s s' ∧ e_brk s' = e_brk s + block_size n.
Proof. intros Hd. destruct (malloc_does lim n s (da_room _ _ Hd)) as [E1 E2]. eexists. rewrite (bind_done _ _ _ _ _ E1). done. Qed.


Lemma putchar_last lim c s : data lim s → is_char c → ∃ s', putchar_malloc c s = Done tt s' ∧ does lim [] [Out c] s s'.
Proof. intros Hd Hc. exact (putchar_malloc_writes (e_stack s) lim c s Hc (da_room _ _ Hd) eq_refl). Qed.

Lemma call_bind {A} lim n a b (k : unit → M Env A) s :
  n ≠ 13 → ∃ s', (call n a b ≫= k) s = k tt s' ∧ does lim [] [Call n a b 0] s s'.
Proof. intros Hn. destruct (call_does lim n a b s Hn) as (s' & E1 & E2). exists s'. by rewrite (bind_done _ _ _ _ _ E1). Qed.

(** [s[0] = p; printFF("%s",s, NULL);] with [s] from [malloc]. *)
Lemma store_ptr_does lim sp p s :
  lim ≤ sp → 0 ≤ p < 2 ^ 64 →
  ∃ s', store_ptr sp p s = Done tt s' ∧ does lim [] [] s s' ∧ load64 (e_mem s') sp = p ∧ e_brk s' = e_brk s.
Proof.
  intros Hsp Hp. eexists. split; [done|]. split; [|split; [by apply load64_store64|done]].
  split; cbn; [by rewrite app_nil_r|done|lia|done|]. intros x Hx. apply store64_load. lia.
Qed.

Lemma print_at lim sp p l s :
  data lim s → lim ≤ sp → load64 (e_mem s) sp = p → str_below lim (e_mem s) p l → (length l < 128)%nat →
  ∃ s', printFF putchar_malloc fuel (lit "%s") sp NULL s = Done tt s' ∧ does lim [] (Out <$> l) s s'.
Proof.
  intros Hd Hsp Hp Hl Hlen. destruct (da_text _ _ "%s" Hd) as [_ Hfmt]; [vm_compute; left|].
  pose proof (da_lim _ _ Hd) as Hlim.
  apply (printFF_s (e_stack s) putchar_malloc (putchar_malloc_writes (e_stack s)) fuel lim (lit "%s") sp p l s);
    [by apply data_ready|exact Hfmt|lia|done|done|lia].
Qed.

Lemma print_ptr_last lim sp p l s :
  data lim s → lim ≤ sp → 0 ≤ p → str_below lim (e_mem s) p l → (length l < 128)%nat →
  ∃ s', (store_ptr sp p ≫= λ _, printFF putchar_malloc fuel (lit "%s") sp NULL) s = Done tt s' ∧ does lim [] (Out <$> l) s s'.
Proof.
  intros Hd Hsp Hp Hl Hlen. pose proof (da_lim _ _ Hd). pose proof (proj2 Hl).
  destruct (store_ptr_does lim sp p s Hsp ltac:(lia)) as (s1 & E1 & D1 & L1 & _). rewrite (bind_done _ _ _ _ _ E1).
  destruct (print_at lim sp p l s1) as (s2 & E2 & D2); [by eapply data_does|done|done|by eapply str_same; [apply D1|]|done|].
  exists s2. split; [done|]. exact (does_silent _ _ _ _ _ D1 D2).
Qed.


(** ** Comparing with a literal *)

Lemma strcmp_test {A} lim t p l (a b : M Env A) s :
  data lim s → t ∈ literals → str_below lim (e_mem s) p l →
  (strcmp fuel (lit t) p ≫= λ r, if r =? 0 then a else b) s = (if eq_str t l then a else b) s.
Proof.
  intros Hd Ht [Hl _]. destruct (da_text _ _ t Hd Ht) as [_ [Hlt _]]. pose proof (literal_len t Ht).
  rewrite (bind_done _ _ _ _ _ (strcmp_eq _ _ _ _ _ (strcmp_spec fuel _ _ _ _ _ Hlt Hl ltac:(lia)))).
  unfold eq_str. case_bool_decide as E; [by rewrite (proj2 (str_compare_eq _ _) E)|].
  rewrite (proj2 (Z.eqb_neq _ 0)); [done|]. by rewrite str_compare_eq.
Qed.

Lemma strcmpN_test {A} lim t n p l (a b : M Env A) s :
  data lim s → t ∈ literals → n = Z.of_nat (length (chars t)) → str_below lim (e_mem s) p l →
  (strcmpN fuel (lit t) p n ≫= λ r, if r =? 0 then a else b) s = (if prefix_str t l then a else b) s.
Proof.
  intros Hd Ht -> [Hl _]. destruct (da_text _ _ t Hd Ht) as [_ [Hlt _]]. pose proof (literal_len t Ht).
  rewrite (bind_done _ _ _ _ _ (strcmpN_eq _ _ _ _ _ _ (strcmpN_spec fuel _ _ _ _ _ _ Hlt Hl ltac:(lia)))).
  rewrite (firstn_all (chars t)).
  unfold prefix_str. case_bool_decide as E; [by rewrite (proj2 (str_compare_eq _ _) E)|].
  rewrite (proj2 (Z.eqb_neq _ 0)); [done|]. by rewrite str_compare_eq.
Qed.


(** ** Messages *)

Ltac literal := vm_compute; repeat (first [left | right]).

Lemma literal_text t lim s :
  data lim s → t ∈ literals → 0 ≤ lit t ∧ str_below lim (e_mem s) (lit t) (chars t) ∧ (length (chars t) < 128)%nat ∧ Forall is_char [10].
Proof. intros Hd Ht. destruct (da_text _ _ t Hd Ht). split; [lia|]. split; [done|]. split; [by apply literal_len|]. by repeat constructor. Qed.





Ltac test_literal := first [erewrite strcmp_test by first [eassumption|literal] | erewrite strcmpN_test by first [eassumption|reflexivity|literal]].





(** ** Commands *)

(** What [parser] may write of the program's own data: the variable [isAsynchronicCall]. *)
Abbreviation acts := (User.acts isAsynchronicCall 4).




(** The first char, and the test for [./]. *)
Lemma first_char lim p l s :
  str_below lim (e_mem s) p l → load_char p s = Done (default 0 (l !! 0%nat)) s.
Proof. intros Hl. rewrite <-(str_char lim _ p l 0 Hl) by lia. by rewrite Z.add_0_r. Qed.


Lemma amp_test l : (default 0 (l !! 0%nat) =? 38) = prefix_str "&" l.
Proof.
  unfold prefix_str. destruct l as [|c l]; [done|]. cbn. case_bool_decide as E; [by injection E as <-|].
  apply Z.eqb_neq. intros ->. by apply E.
Qed.







(** ** The session *)

(** [shell>] with the terminal switched to the shell's colours and back. *)
Definition prompt : list event :=
  [Out 10] ++ [Call 8 0 4 0] ++ (Out <$> chars "shell>") ++ [Call 8 6 4 0] ++ [Call 9 7 0 0].

Lemma prompt_does {A} lim (k : unit → M Env A) s :
  data lim s →
  ∃ s', (putchar_malloc 10 ≫= λ _, changeToSehllEnvironment ≫= λ _, printShellComand lit fuel ≫= λ _,
    changeToUserEnvirnment ≫= k) s = k tt s' ∧ does lim [] prompt s s'.
Proof.
  intros Hd. destruct (putchar_last lim 10 s Hd ltac:(done)) as (s1 & E1 & D1). rewrite (bind_done _ _ _ _ _ E1).
  pose proof (data_does _ _ _ _ _ D1 Hd) as Hd1.
  destruct (call_does lim 8 0 4 s1 ltac:(done)) as (s2 & E2 & D2). rewrite (bind_done _ _ _ _ _ E2).
  pose proof (data_does _ _ _ _ _ D2 Hd1) as Hd2.
  assert (Hp : ∃ s3, printShellComand lit fuel s2 = Done tt s3 ∧ does lim [] (Out <$> chars "shell>") s2 s3).
  { unfold printShellComand. edestruct (@malloc_bind unit lim) as (s3 & -> & D3 & _); [exact Hd2|]. cbn beta.
    pose proof (data_does _ _ _ _ _ D3 Hd2) as Hd3.
    destruct (literal_text "shell>" lim s3 Hd3 ltac:(literal)) as (H0 & Hl & Hlen & _).
    destruct (print_ptr_last lim (e_brk s2) (lit "shell>") _ s3 Hd3 (proj1 (da_room _ _ Hd2)) H0 Hl Hlen) as (s4 & E4 & D4).
    exists s4. split; [done|]. exact (does_silent _ _ _ _ _ D3 D4). }
  destruct Hp as (s3 & E3 & D3). rewrite (bind_done _ _ _ _ _ E3).
  destruct (call_does lim 8 6 4 s3 ltac:(done)) as (s4 & E4 & D4).
  destruct (call_does lim 9 7 0 s4 ltac:(done)) as (s5 & E5 & D5).
  assert (E45 : changeToUserEnvirnment s3 = Done tt s5).
  { unfold changeToUserEnvirnment. by rewrite (bind_done _ _ _ _ _ E4). }
  rewrite (bind_done _ _ _ _ _ E45). exists s5. split; [done|].
  eapply does_seq; [exact D1|]. eapply does_seq; [exact D2|]. eapply does_seq; [exact D3|].
  eapply does_seq; [exact D4|exact D5].
Qed.

(** The two variables of [main]: [ss] points to a pointer to [sos], the line. *)
Record shell_ok (ss sos lim : Z) s : Prop := {
  so_data : data lim s;
  so_ss : isAsynchronicCall + 4 ≤ ss;
  so_sos : ss + 8 ≤ sos;
  so_lim : sos + 2500 ≤ lim;
  so_load : load64 (e_mem s) ss = sos;
}.

Lemma shell_does ss sos lim i l s s' : does lim i l s s' → shell_ok ss sos lim s → shell_ok ss sos lim s'.
Proof.
  intros Hd [D1 D2 D3 D4 D5]. split; [by eapply data_does|done..|]. rewrite <-D5. apply load64_ext.
  intros x Hx. apply Hd. lia.
Qed.


Lemma shell_reads ss sos lim i n s s' : reads lim i sos n s s' → shell_ok ss sos lim s → shell_ok ss sos lim s'.
Proof.
  intros [T I B S Mm] [D1 D2 D3 D4 D5]. split; [|done..|].
  - destruct D1 as [[R1 R2] Hl Ha Ht]. split; [split; [lia|congruence]|done|done|]. intros t Hi. destruct (Ht t Hi) as [Hp Hs].
    split; [done|]. eapply str_same; [|done]. intros x Hx. apply Mm; lia.
  - rewrite <-D5. apply load64_ext. intros x Hx. apply Mm; lia.
Qed.




(** The message of a line that is too long. *)
Lemma overflow_text lim sp s :
  data lim s → lim ≤ sp → sp + 8 ≤ e_brk s →
  ∃ s', (store_ptr sp (lit "ScanFF Buffer OverFlow") ≫= λ _, putchar_malloc 10 ≫= λ _,
    printFF putchar_malloc fuel (lit "%s") sp NULL) s = Done tt s' ∧
    does lim [] ([Out 10] ++ (Out <$> chars "ScanFF Buffer OverFlow")) s s'.
Proof.
  intros Hd Hsp Hb. pose proof (da_lim _ _ Hd).
  destruct (literal_text "ScanFF Buffer OverFlow" lim s Hd ltac:(literal)) as (H0 & Hl & Hlen & _).
  pose proof (proj2 Hl) as Hlt.
  destruct (store_ptr_does lim sp (lit "ScanFF Buffer OverFlow") s Hsp ltac:(lia)) as (s1 & E1 & D1 & L1 & B1).
  rewrite (bind_done _ _ _ _ _ E1).
  destruct (putchar_malloc_does (sp + 8) 10 s1 ltac:(done) ltac:(lia)) as (s2 & E2 & D2). rewrite (bind_done _ _ _ _ _ E2).
  assert (D12 : does lim [] [Out 10] s s2) by (eapply does_silent; [exact D1|]; eapply does_weaken; [|exact D2]; lia).
  destruct (print_at lim sp _ (chars "ScanFF Buffer OverFlow") s2 (data_does _ _ _ _ _ D12 Hd) Hsp eq_refl) as (s3 & E3 & D3); [|done|].
  - rewrite (load64_ext (e_mem s1) (e_mem s2)) by (intros x Hx; apply D2; lia). rewrite L1.
    eapply str_same; [apply D12|done].
  - exists s3. split; [done|]. exact (does_seq _ _ _ _ _ _ D12 D3).
Qed.

(** A line that is too long: the message, and the rest of it is the next line. *)
Definition overflow : list event := prompt ++ [Out 10] ++ (Out <$> chars "ScanFF Buffer OverFlow").

Lemma overflow_spec ss sos lim l c rest s :
  shell_ok ss sos lim s → Forall line_char (l ++ [c]) → length l = 100%nat → e_in s = (l ++ [c]) ++ rest →
  ∃ s', main_round lit code isAsynchronicCall fuel ss sos s = Done tt s' ∧ shell_ok ss sos lim s' ∧
    e_trace s' = e_trace s ++ overflow ∧ e_in s' = rest ∧
    ∀ x, x < lim → ¬ (sos ≤ x < sos + 101) → load8 (e_mem s') x = load8 (e_mem s) x.
Proof.
  intros Hok Hlc Hlen Hin. unfold main_round.
  edestruct (@prompt_does unit lim) as (s1 & -> & D1); [apply Hok|]. cbn beta.
  pose proof (shell_does _ _ _ _ _ _ _ D1 Hok) as Hok1. pose proof (do_in _ _ _ _ _ D1) as I1. simpl in I1.
  destruct Hok1 as [Hd1 O1 O2 O3 O4]. destruct (da_lit _ _ Hd1 "%s" ltac:(literal)) as [Hlit [_ Hfl]].
  destruct (da_text _ _ "%s" Hd1 ltac:(literal)) as [_ Hfmt]. change (length (chars "%s")) with 2%nat in Hfl.
  destruct (scanFF_full (e_stack s1) putchar_malloc (getchar_malloc fuel)) with (fuel := fuel) (lim := lim) (fmt := lit "%s") (sp := ss)
    (a := sos) (l := l) (c := c) (rest := rest) (s := s1) as (s2 & E2 & R2); try done || lia.
  { destruct fuel as [|fuel']; [lia|]. apply getchar_malloc_reads. }
  { by apply data_ready. }
  { by rewrite <-I1, Hin. }
  rewrite (bind_done _ _ _ _ _ E2). change (1 =? 0) with false. cbn iota.
  pose proof (shell_reads _ _ _ _ _ _ _ R2 ltac:(by split)) as Hok2.
  edestruct (@malloc_bind unit lim) as (s3 & -> & D3 & B3); [apply Hok2|]. cbn beta. change (block_size 8) with 36 in B3.
  pose proof (shell_does _ _ _ _ _ _ _ D3 Hok2) as Hok3. pose proof (so_data _ _ _ _ Hok3) as Hd3.
  destruct (overflow_text lim (e_brk s2) s3 Hd3 (proj1 (da_room _ _ (so_data _ _ _ _ Hok2))) ltac:(lia)) as (s4 & E4 & D4).
  exists s4. split; [exact E4|]. split; [by eapply shell_does|].
  pose proof (re_in _ _ _ _ _ _ R2) as I2. rewrite <-I1, Hin in I2. apply app_inv_head in I2.
  pose proof (do_in _ _ _ _ _ D3) as I3. pose proof (do_in _ _ _ _ _ D4) as I4. simpl in I3, I4. split; [|split].
  - unfold overflow. rewrite (do_trace _ _ _ _ _ D4), (do_trace _ _ _ _ _ D3), (re_trace _ _ _ _ _ _ R2), (do_trace _ _ _ _ _ D1).
    by rewrite app_nil_r, <-!app_assoc.
  - by rewrite <-I4, <-I3, <-I2.
  - intros x Hx Hn. rewrite (do_mem _ _ _ _ _ D4), (do_mem _ _ _ _ _ D3), (re_mem _ _ _ _ _ _ R2), (do_mem _ _ _ _ _ D1) by done. done.
Qed.


Definition with_newlines (lines : list (list Z)) : list Z := concat ((λ l, l ++ [10]) <$> lines).

(** [r2] does on a heap up to [heap_end] what the run from [s] to [s'] did, if that is enough. *)
Lemma round_fits ss sos s s' :
  main_round lit code isAsynchronicCall fuel ss sos s = Done tt s' →
  e_brk s ≤ e_brk s' ≤ e_brk s + 72 + spent s s' ∧
  ∀ heap_end, e_brk s' ≤ heap_end →
    @main_round Env (Env_within heap_end) lit code isAsynchronicCall fuel ss sos s = Done tt s'.
Proof.
  intros E. split.
  - destruct (fits_round 0 lit code isAsynchronicCall fuel ss sos) as [_ Hf]. specialize (Hf s). rewrite E in Hf. apply Hf.
  - intros heap_end Hend. destruct (fits_round heap_end lit code isAsynchronicCall fuel ss sos) as [_ Hf].
    specialize (Hf s). rewrite E in Hf. by apply Hf.
Qed.



(** The program as it is loaded: the literals, the variable after them, then free memory. *)
Record loaded s : Prop := {
  ld_async : isAsynchronicCall + 4 ≤ e_brk s;
  ld_brk : 0 < e_brk s ∧ e_brk s + 2564 ≤ 2 ^ 64;
  ld_stack : e_brk s + 2564 ≤ e_stack s;
  ld_lit t : t ∈ literals → 0 < lit t ∧ str_below isAsynchronicCall (e_mem s) (lit t) (chars t);
}.

Definition started s : Env :=
  mkEnv (store64 (e_mem s) (e_brk s) (e_brk s + 36)) (e_in s) (e_trace s) (e_brk s + 36 + 2528) (e_stack s).

Lemma main_start heap_end rounds s :
  loaded s → e_brk s + 2564 ≤ heap_end →
  @main Env (Env_within heap_end) lit code isAsynchronicCall fuel rounds s =
    @main_loop Env (Env_within heap_end) lit code isAsynchronicCall fuel rounds (e_brk s) (e_brk s + 36) (started s) ∧
  shell_ok (e_brk s) (e_brk s + 36) (e_brk s + 2564) (started s).
Proof.
  intros [La Lb Ls Ll] Hend. split.
  { unfold main, malloc. cbn [sys_call Env_within]. unfold env_call. cbn [Z.eqb Pos.eqb beyond].
    change (block_size 8) with 36. change (block_size 2500) with 2528.
    erewrite bind_done by (rewrite (proj2 (Z.ltb_ge _ _)) by lia; reflexivity).
    erewrite bind_done by (cbn [e_brk]; rewrite (proj2 (Z.ltb_ge _ _)) by lia; reflexivity). done. }
  split; cbn.
  - split; cbn; [split; cbn; lia|lia|lia|]. intros t Ht. destruct (Ll t Ht) as [Hp Hs]. split; [done|].
    eapply str_same; [|done]. intros x Hx. apply store64_load. lia.
  - lia.
  - lia.
  - lia.
  - apply load64_store64. lia.
Qed.

(** [echo] without an argument reads on behind the end of the line: what is there, from an
    earlier line, decides. *)
Lemma echo_reads_behind lim p l s :
  data lim s → isAsynchronicCall + 4 ≤ p → str_below lim (e_mem s) p (chars "echo") → str_below lim (e_mem s) (p + 5) l →
  ∃ s', parser lit code isAsynchronicCall fuel p s = Done tt s' ∧
    e_trace s' = e_trace s ++ [Call 6 (if eq_str "on" l then 1 else 0) 0 0].
Proof.
  intros Hd Ha Hl Hb. unfold parser.
  rewrite (bind_done _ _ _ _ _ (first_char lim p _ s Hl)), amp_test.
  change (prefix_str "&" (chars "echo")) with false. cbn iota.
  do 3 (test_literal; case_match eqn:E; [by vm_compute in E|clear E]).
  test_literal. change (prefix_str "echo" (chars "echo")) with true. cbn iota.
  test_literal. destruct (eq_str "on" l); eexists; split; reflexivity.
Qed.
End shell.

(** ** The theorems *)



(** C38: A line of more than 100 chars stays within the 2500 bytes of the line: of its data the shell
    writes the first 101 bytes of that only.  It prints the message of the overflow and goes on; the 101st char
    is lost and the chars after it are the next line.  So it does on any heap that has the 32
    bytes for each char and two blocks more. *)
Theorem shell_overflow `{K : Kernel} lit code isAsynchronicCall fuel ss sos lim l c rest s :
  (200 ≤ fuel)%nat → shell_ok lit isAsynchronicCall ss sos lim s →
  Forall line_char (l ++ [c]) → length l = 100%nat → e_in s = (l ++ [c]) ++ rest →
  ∃ s', main_round lit code isAsynchronicCall fuel ss sos s = Done tt s' ∧ shell_ok lit isAsynchronicCall ss sos lim s' ∧
    e_trace s' = e_trace s ++ overflow ∧ e_in s' = rest ∧
    (∀ x, x < lim → ¬ (sos ≤ x < sos + 101) → load8 (e_mem s') x = load8 (e_mem s) x) ∧
    ∀ heap_end, e_brk s + 72 + block_size 1 * (101 + Z.of_nat (length overflow)) ≤ heap_end →
      @main_round Env (Env_within heap_end) lit code isAsynchronicCall fuel ss sos s = Done tt s'.
Proof.
  intros Hf Hok Hl Hlen Hin.
  destruct (overflow_spec lit code isAsynchronicCall fuel Hf ss sos lim l c rest s Hok Hl Hlen Hin) as (s' & E & Hok' & T & I & Hm).
  exists s'. split_and!; try done. intros heap_end Hend. apply round_fits in E as [B E]. apply E.
  unfold spent in B. rewrite T, I, Hin, !length_app, Hlen in B. cbn [length] in B. nia.
Qed.

(** *** Instances *)

#[local] Instance zero_kernel : Kernel := λ _ _ _ _ _, 0.

(** Each literal in 256 bytes of its own. *)
Fixpoint index_of (t : string) (l : list string) : Z :=
  match l with [] => 0 | t' :: l' => if bool_decide (t = t') then 0 else 1 + index_of t l' end.
Definition demo_lit (t : string) : Z := 256 * (1 + index_of t literals).
Definition demo_mem : mem := λ a,
  match literals !! Z.to_nat (a / 256 - 1) with Some t => default 0 (chars t !! Z.to_nat (a mod 256)) | None => 0 end.
Definition demo_env (lines : list (list Z)) : Env := mkEnv demo_mem (with_newlines lines) [] 16384 65536.

Lemma demo_literals : Forall (λ t, 0 < demo_lit t ∧ str_below 16000 demo_mem (demo_lit t) (chars t)) literals.
Proof. repeat (apply list.Forall_cons_2; [vm_compute; repeat split; congruence|]). by apply list.Forall_nil_2. Qed.

Lemma demo_loaded lines : loaded demo_lit 16000 (demo_env lines).
Proof.
  split; cbn; [lia|lia|lia|]. intros t Ht. pose proof demo_literals as Hall. rewrite list.Forall_forall in Hall.
  by apply Hall.
Qed.



Lemma shell_overflow_witness :
  let s := started (mkEnv demo_mem (replicate 150 97) [] 16384 65536) in
  ∃ s', main_round demo_lit (λ _, 77) 16000 200 16384 16420 s = Done tt s' ∧ shell_ok demo_lit 16000 16384 16420 18948 s' ∧
    e_trace s' = [] ++ overflow ∧ e_in s' = replicate 49 97 ∧
    (∀ x, x < 18948 → ¬ (16420 ≤ x < 16420 + 101) → load8 (e_mem s') x = load8 (e_mem s) x) ∧
    @main_round Env (Env_within 25000) demo_lit (λ _, 77) 16000 200 16384 16420 s = Done tt s'.
Proof.
  destruct (shell_overflow demo_lit (λ _, 77) 16000 200 16384 16420 18948 (replicate 100 97) 97 (replicate 49 97)
    (started (mkEnv demo_mem (replicate 150 97) [] 16384 65536))) as (s' & E & Hok & T & I & Hm & Hw);
    [lia| |apply Forall_app_2; [by apply Forall_replicate|by apply list.Forall_singleton]|done|done|].
  - refine (proj2 (main_start demo_lit (λ _, 77) 16000 200 _ 25000 0 (mkEnv demo_mem (replicate 150 97) [] 16384 65536) _ _));
      [lia| |by vm_compute]. destruct (demo_loaded []) as [L1 L2 L3 L4]. by split.
  - exists s'. split; [exact E|]. split; [exact Hok|]. split; [exact T|]. split; [exact I|]. split; [exact Hm|].
    apply Hw. by vm_compute.
Defined.

(** ** What the texts say *)

(** [ls] lists a program [pipetest] that [run] does not know: it wants [pipeTest]. *)
Lemma pipetest_unknown :
  run_does (chars "pipetest") = complains (chars "pipetest") "is not a valid program" ++ [Call 6 1 0 0] ∧
  run_does (chars "pipeTest") = [Call 7 1 2 0; Call 6 1 0 0] ∧
  run_does (chars "shell") = complains (chars "shell") "is not a valid program" ++ [Call 6 1 0 0].
Proof. done. Qed.

(** [kill 3] is about the space, not the digit; [kill3] works, for one digit. *)
Lemma kill_wants_no_space : pid_of (chars "kill 3") = 2 ^ 64 - 16 ∧ pid_of (chars "kill3") = 3 ∧ pid_of (chars "kill12") = 1.
Proof. done. Qed.
