(* ===== verification/Programs.v ===== *)
(** * The small programs of the user
    ([Userland/EDITOR/editor.c], [Userland/FORTUNE/fortune.c], [Userland/SampleCodeModule],
    and [_loader.c], the entry of every program)

    Each program has a [stdio.c] of its own: the modules [Editor] and [Fortune] name their
    versions of its functions, which are those of [UserStdio]. *)

From S2P Require Import Prelude KMonad CString User UserStdio UserStdioThms.

(** ** [_loader.c] *)

Section loader.
Context {E : Type} `{Sys E}.

Definition memset (destination c length : Z) : M E Z :=
  modify (λ s, set_umem (memset_loop (Z.to_nat length) (umem s) destination (uint8 c)) s) ;;
  mret destination.

(** [bss] and [endOfBinary] are the linker's. *)
Definition _start (bss endOfBinary : Z) (main : M E Z) : M E Z :=
  memset bss 0 (uint64 (endOfBinary - bss)) ;;
  main.
End loader.

(** [main] of [SampleCodeModule] does nothing; it has no [return]. *)
Definition sample_main {E : Type} : M E unit := mret tt.

(** ** The editor *)

Module Editor.
Section editor.
Context {E : Type} `{Sys E} (lit : string → Z) (fuel : nat).

Definition malloc (bytes : Z) : M E Z := UserStdio.malloc bytes.
Definition putchar (c : Z) : M E unit := putchar_malloc c.
Definition getchar : M E Z := getchar_malloc fuel.
Definition print (s : Z) : M E unit := UserStdio.print putchar fuel s.
Definition putNumber (n : Z) : M E unit := UserStdio.putNumber putchar n.
Definition printFF (format s n : Z) : M E unit := UserStdio.printFF putchar fuel format s n.
Definition scanFF (format s n : Z) : M E Z := UserStdio.scanFF putchar getchar fuel format s n.
Definition strcmp (str1 str2 : Z) : M E Z := UserStdio.strcmp fuel str1 str2.
Definition strcmpN (str1 str2 number : Z) : M E Z := UserStdio.strcmpN fuel str1 str2 number.

Definition clearEditor : M E unit := call 5 0 0.

(** The local arrays [ss] and [sos] are at [ss] and [sos]; [keys] bounds the loop. *)
Fixpoint main_loop (keys : nat) (ss sos : Z) : M E unit :=
  match keys with
  | O => fault
  | S keys' =>
      c ← getchar;
      if c =? 37 then
        store_ptr ss sos ;;
        _ ← scanFF (lit "%s") ss NULL;
        r ← strcmp sos (lit "exit");
        if r =? 0 then clearEditor else main_loop keys' ss sos
      else main_loop keys' ss sos
  end.

Definition main (keys : nat) (ss sos : Z) : M E Z :=
  clearEditor ;;
  s ← malloc 100;
  store_ptr s (lit ("chomp" +:+ nl)) ;;
  printFF (lit "%s") s NULL ;;
  main_loop keys ss sos ;;
  call 7 4 0 ;;
  mret 0.
End editor.
End Editor.

(** ** The fortune teller *)

Module Fortune.
Section fortune.
Context {E : Type} `{Sys E} (lit : string → Z) (fuel : nat).

Definition malloc (bytes : Z) : M E Z := UserStdio.malloc bytes.
Definition putchar (c : Z) : M E unit := putchar_malloc c.
Definition getchar : M E Z := getchar_malloc fuel.
Definition print (s : Z) : M E unit := UserStdio.print putchar fuel s.
Definition putNumber (n : Z) : M E unit := UserStdio.putNumber putchar n.
Definition printFF (format s n : Z) : M E unit := UserStdio.printFF putchar fuel format s n.
Definition scanFF (format s n : Z) : M E Z := UserStdio.scanFF putchar getchar fuel format s n.
Definition strcmp (str1 str2 : Z) : M E Z := UserStdio.strcmp fuel str1 str2.
Definition strcmpN (str1 str2 number : Z) : M E Z := UserStdio.strcmpN fuel str1 str2 number.

(** [fortune] has no value when [n] is negative and not a multiple of 3. *)
Definition magic (n : Z) : M E Z :=
  match Z.rem n 3 with
  | 0 => mret (lit "TENDRAS MALA SUERTE TODA TU VIDA")
  | 1 => mret (lit "TE SACARAS UN 10 EN EL TP DE ARQUI")
  | 2 => mret (lit "NUNCA TE VAS A RECIBIR")
  | _ => fault
  end.

(** [while(string[longitud]!=0)]. *)
Fixpoint length_loop (fuel : nat) (string longitud : Z) : M E Z :=
  c ← load_char (string + longitud);
  if c =? 0 then mret longitud
  else match fuel with O => fault | S fuel' => length_loop fuel' string (longitud + 1) end.

(** The local pointers [name] and [yourFortune] are at [name] and [yourFortune]. *)
Definition main (name yourFortune : Z) : M E Z :=
  ss ← malloc 8;
  string ← malloc 2500;
  store_ptr ss string ;;
  store_ptr name (lit "Ingrese su nombre:") ;;
  printFF (lit "%s") name NULL ;;
  r ← scanFF (lit "%s") ss NULL;
  (if r =? 0 then
     longitud ← length_loop fuel string 0;
     f ← magic longitud;
     store_ptr yourFortune f ;;
     printFF (lit "%s") yourFortune NULL
   else
     s ← malloc 8;
     store_ptr s (lit "ScanFF Buffer OverFlow") ;;
     putchar 10 ;;
     printFF (lit "%s") s NULL) ;;
  mret 0.
End fortune.
End Fortune.

Implicit Types s : Env.

(** ** The entry of a program *)

(** The program starts with its [.bss] cleared and everything else as it was loaded. *)
Lemma _start_spec `{K : Kernel} bss endOfBinary (main : M Env Z) s :
  bss ≤ endOfBinary < bss + 2 ^ 64 →
  ∃ m, _start bss endOfBinary main s = main (env_set_mem m s) ∧
    ∀ a, load8 m a = if (bss <=? a) && (a <? endOfBinary) then 0 else load8 (e_mem s) a.
Proof.
  intros Hb. eexists. split; [done|]. intros a. cbn. rewrite memset_loop_spec, wrap_u_id by lia.
  rewrite Z2Nat.id by lia. by replace (bss + (endOfBinary - bss)) with endOfBinary by lia.
Qed.

(** ** What the programs share *)

Section programs.
Context `{K : Kernel} (lit : string → Z) (fuel : nat) (Hfuel : (200 ≤ fuel)%nat).

Lemma getchar_step lim c l s :
  is_char c → c ≠ 0 → room lim s → e_in s = c :: l →
  ∃ s', getchar_malloc fuel s = Done c s' ∧ does lim [c] [] s s' ∧ e_in s' = l.
Proof.
  intros Hc H0 Hr Hin. destruct fuel as [|fuel'] eqn:Ef; [lia|].
  destruct (getchar_malloc_reads (e_stack s) fuel' lim c l s Hc H0 Hr eq_refl Hin) as (s' & E & D).
  exists s'. split; [done|]. split; [done|].
  pose proof (do_in _ _ _ _ _ D) as I. rewrite Hin in I. by injection I.
Qed.

(** [printFF("%s", sp, NULL)] of a string, with [sp] anywhere. *)
Lemma show lim sp p l s :
  room lim s → str_below lim (e_mem s) (lit "%s") [37; 115] → sp ≠ 0 → load64 (e_mem s) sp = p →
  str_below lim (e_mem s) p l → (length l < 128)%nat →
  ∃ s', printFF putchar_malloc fuel (lit "%s") sp NULL s = Done tt s' ∧ does lim [] (Out <$> l) s s'.
Proof.
  intros Hr Hf Hsp Hp Hl Hlen.
  apply (printFF_s (e_stack s) putchar_malloc (putchar_malloc_writes (e_stack s)) fuel lim (lit "%s") sp p l s); try done.
  lia.
Qed.

Lemma input_line lim sp a l rest s :
  room lim s → str_below lim (e_mem s) (lit "%s") [37; 115] → sp ≠ 0 → load64 (e_mem s) sp = a → lit "%s" + 2 < a →
  a + Z.of_nat (length l) < lim → Forall line_char l → (length l < 100)%nat → e_in s = l ++ 10 :: rest →
  ∃ s', scanFF putchar_malloc (getchar_malloc fuel) fuel (lit "%s") sp NULL s = Done 0 s' ∧
    reads lim (l ++ [10]) a (Z.of_nat (length l) + 1) s s' ∧ cstr (e_mem s') a l ∧ e_in s' = rest.
Proof.
  intros Hr Hf Hsp Ha Hfa Hlim Hl Hlen Hin.
  destruct (scanFF_s (e_stack s) putchar_malloc (getchar_malloc fuel)) with (fuel := fuel) (lim := lim) (fmt := lit "%s") (sp := sp)
    (a := a) (l := l) (rest := rest) (s := s) as (s' & E & R & C); try done || lia.
  { destruct fuel as [|fuel']; [lia|]. apply getchar_malloc_reads. }
  exists s'. split; [done|]. split; [done|]. split; [done|]. pose proof (re_in _ _ _ _ _ _ R) as I.
  rewrite Hin in I. change (10 :: rest) with ([10] ++ rest) in I. rewrite app_assoc in I. by apply app_inv_head in I.
Qed.

(** ** The editor *)

(** What is typed up to a [%], then a line. *)
Definition key (c : Z) : Prop := is_char c ∧ c ≠ 0 ∧ c ≠ 37.
Definition typing (t l : list Z) : list Z := t ++ [37] ++ l ++ [10].
Definition editor_line (l : list Z) : Prop := Forall line_char l ∧ (length l < 30)%nat.

(** The data of the editor: the literals it compares with and formats, then its two arrays. *)
Record editor_ok (top lim ss sos : Z) s : Prop := {
  eo_room : room lim s;
  eo_top : 0 < top ≤ ss ∧ top ≤ sos;
  eo_lim : ss + 8 ≤ lim ∧ sos + 30 ≤ lim ∧ lim ≤ 2 ^ 64;
  eo_fmt : str_below top (e_mem s) (lit "%s") [37; 115];
  eo_exit : str_below top (e_mem s) (lit "exit") (chars "exit");
}.

Lemma editor_below top lim ss sos s s' :
  same_below top (e_mem s) (e_mem s') → e_brk s ≤ e_brk s' → e_stack s' = e_stack s →
  editor_ok top lim ss sos s → editor_ok top lim ss sos s'.
Proof.
  intros Hm Hb Hs [[R1 R2] T L F X]. split; [split; [lia|congruence]|done|done|by eapply str_same..].
Qed.

Lemma editor_does top lim ss sos i l s s' : does lim i l s s' → editor_ok top lim ss sos s → editor_ok top lim ss sos s'.
Proof. intros D Hok. eapply editor_below; [|apply D|apply D|done]. eapply same_below_weaken; [|apply D]. destruct Hok. lia. Qed.

(** Other keys change nothing. *)
Lemma editor_types top lim ss sos t keys rest s :
  editor_ok top lim ss sos s → Forall key t → e_in s = t ++ rest →
  ∃ s', Editor.main_loop lit fuel (length t + keys) ss sos s = Editor.main_loop lit fuel keys ss sos s' ∧
    editor_ok top lim ss sos s' ∧ e_trace s' = e_trace s ∧ e_in s' = rest.
Proof.
  revert s. induction t as [|c t IH]; intros s Hok Ht Hin; [by exists s|].
  apply list.Forall_cons in Ht as [(Hc & H0 & H37) Ht]. cbn [length Nat.add Editor.main_loop app] in *.
  destruct (getchar_step lim c (t ++ rest) s Hc H0 (eo_room _ _ _ _ _ Hok) Hin) as (s1 & E & D & I).
  destruct (IH s1) as (s' & E' & Hok' & T' & I'); [by eapply editor_does|done|done|].
  exists s'. split; [|split; [done|split; [|done]]].
  - unfold Editor.getchar. rewrite (bind_done _ _ _ _ _ E), (proj2 (Z.eqb_neq c 37)) by done. exact E'.
  - by rewrite T', (do_trace _ _ _ _ _ D), app_nil_r.
Qed.

(** A [%] and a line: [exit] ends the loop. *)
Lemma editor_percent top lim ss sos l keys rest s :
  editor_ok top lim ss sos s → editor_line l → e_in s = [37] ++ l ++ [10] ++ rest →
  ∃ s', Editor.main_loop lit fuel (S keys) ss sos s =
      (if eq_str "exit" l then Editor.clearEditor else Editor.main_loop lit fuel keys ss sos) s' ∧
    editor_ok top lim ss sos s' ∧ e_trace s' = e_trace s ∧ e_in s' = rest.
Proof.
  intros Hok [Hl Hlen] Hin. cbn [Editor.main_loop].
  destruct (getchar_step lim 37 (l ++ 10 :: rest) s ltac:(done) ltac:(done) (eo_room _ _ _ _ _ Hok) Hin) as (s1 & E1 & D1 & I1).
  unfold Editor.getchar. rewrite (bind_done _ _ _ _ _ E1). cbn [Z.eqb Pos.eqb].
  pose proof (editor_does _ _ _ _ _ _ _ _ D1 Hok) as Hok1.
  set (s2 := set_umem (store64 (umem s1) ss sos) s1).
  assert (Hok2 : editor_ok top lim ss sos s2).
  { apply (editor_below _ _ _ _ s1); [|done|done|exact Hok1]. intros x Hx. apply store64_load. destruct Hok1. lia. }
  unfold store_ptr. rewrite modify_bind. fold s2. destruct (eo_lim _ _ _ _ _ Hok2) as (L1 & L2 & L3).
  destruct (eo_top _ _ _ _ _ Hok2) as (T1 & T2). pose proof (proj2 (eo_fmt _ _ _ _ _ Hok2)) as Hfl. simpl in Hfl.
  destruct (input_line lim ss sos l rest s2) as (s3 & E3 & R3 & C3 & I3); [apply Hok2| |lia| |lia|lia|done|lia|exact I1|].
  { eapply str_below_weaken; [|apply Hok2]. lia. }
  { apply load64_store64. lia. }
  unfold Editor.scanFF. change Editor.putchar with (putchar_malloc (E := Env)). unfold Editor.getchar.
  rewrite (bind_done _ _ _ _ _ E3).
  assert (Hok3 : editor_ok top lim ss sos s3).
  { apply (editor_below _ _ _ _ s2); [|apply R3|apply R3|exact Hok2]. intros x Hx. apply R3; lia. }
  destruct (eo_exit _ _ _ _ _ Hok3) as [X3 _]. exists s3. split; [|split; [done|split; [|done]]].
  - unfold Editor.strcmp. rewrite (bind_done _ _ _ _ _ (strcmp_eq _ _ _ _ _ (strcmp_spec fuel _ _ _ _ _ C3 X3 ltac:(lia)))).
    unfold eq_str. case_bool_decide as E; [by rewrite (proj2 (str_compare_eq _ _) (eq_sym E))|].
    rewrite (proj2 (Z.eqb_neq _ 0)); [done|]. rewrite str_compare_eq. congruence.
  - rewrite (re_trace _ _ _ _ _ _ R3). cbn. by rewrite (do_trace _ _ _ _ _ D1), app_nil_r.
Qed.

(** The number of keys that matter. *)
Definition keys_of (tries : list (list Z * list Z)) : nat := sum_list_with (λ p, S (length p.1)) tries.

Lemma editor_loop top lim ss sos tries t keys rest s :
  editor_ok top lim ss sos s →
  Forall (λ p, Forall key p.1 ∧ editor_line p.2 ∧ p.2 ≠ chars "exit") tries → Forall key t →
  e_in s = (tries ≫= λ p, typing p.1 p.2) ++ typing t (chars "exit") ++ rest →
  ∃ s', Editor.main_loop lit fuel (keys_of tries + S (length t) + keys) ss sos s = Done tt s' ∧
    e_trace s' = e_trace s ++ [Call 5 0 0 0] ∧ e_in s' = rest.
Proof.
  intros Hok Hall Ht. revert s Hok. induction Hall as [|[t' l] tries (Ht' & Hl & Hne) Hall IH]; intros s Hok Hin.
  - change (([] : list (list Z * list Z)) ≫= λ p, typing p.1 p.2) with ([] : list Z) in Hin.
    unfold typing in Hin. rewrite <-!app_assoc in Hin. cbn [app] in Hin.
    replace (keys_of [] + S (length t) + keys)%nat with (length t + S keys)%nat by (unfold keys_of; cbn; lia).
    destruct (editor_types top lim ss sos t (S keys) _ s Hok Ht Hin) as (s1 & -> & Hok1 & T1 & I1).
    destruct (editor_percent top lim ss sos (chars "exit") keys rest s1 Hok1) as (s2 & -> & Hok2 & T2 & I2);
      [split; [repeat constructor; done|simpl; lia]|done|].
    change (eq_str "exit" (chars "exit")) with true. cbn iota.
    destruct (call_does lim 5 0 0 s2 ltac:(done)) as (s3 & E3 & D3). exists s3. split; [done|].
    pose proof (do_in _ _ _ _ _ D3) as I3. simpl in I3. split; [|congruence]. by rewrite (do_trace _ _ _ _ _ D3), T2, T1.
  - cbn in Ht', Hl, Hne. change ((((t', l) :: tries) ≫= λ p, typing p.1 p.2)) with (typing t' l ++ (tries ≫= λ p, typing p.1 p.2)) in Hin.
    unfold typing at 1 in Hin. rewrite <-!app_assoc in Hin.
    change (keys_of ((t', l) :: tries)) with (S (length t') + keys_of tries)%nat.
    replace (S (length t') + keys_of tries + S (length t) + keys)%nat with (length t' + S (keys_of tries + S (length t) + keys))%nat by lia.
    destruct (editor_types top lim ss sos t' (S (keys_of tries + S (length t) + keys)) _ s Hok Ht' Hin) as (s1 & -> & Hok1 & T1 & I1).
    destruct (editor_percent top lim ss sos l (keys_of tries + S (length t) + keys) _ s1 Hok1 Hl I1) as (s2 & -> & Hok2 & T2 & I2).
    unfold eq_str. rewrite bool_decide_eq_false_2 by (by intros <-).
    destruct (IH s2 Hok2 I2) as (s3 & E3 & T3 & I3). exists s3. split; [done|]. split; [|done]. by rewrite T3, T2, T1.
Qed.

Lemma editor_main top lim ss sos tries t rest s :
  editor_ok top lim ss sos s → 0 ≤ lit ("chomp" +:+ nl) → str_below top (e_mem s) (lit ("chomp" +:+ nl)) (chars ("chomp" +:+ nl)) →
  Forall (λ p, Forall key p.1 ∧ editor_line p.2 ∧ p.2 ≠ chars "exit") tries → Forall key t →
  e_in s = (tries ≫= λ p, typing p.1 p.2) ++ typing t (chars "exit") ++ rest →
  ∃ s', Editor.main lit fuel (keys_of tries + S (length t)) ss sos s = Done 0 s' ∧
    e_trace s' = e_trace s ++ [Call 5 0 0 0] ++ (Out <$> chars ("chomp" +:+ nl)) ++ [Call 5 0 0 0] ++ [Call 7 4 0 0] ∧ e_in s' = rest.
Proof.
  intros Hok H0 Hch Hall Ht Hin. unfold Editor.main.
  destruct (call_does lim 5 0 0 s ltac:(done)) as (s1 & E1 & D1). unfold Editor.clearEditor at 1. rewrite (bind_done _ _ _ _ _ E1).
  pose proof (editor_does _ _ _ _ _ _ _ _ D1 Hok) as Hok1. destruct (eo_lim _ _ _ _ _ Hok1) as (L1 & L2 & L3).
  pose proof (eo_top _ _ _ _ _ Hok1) as T1. pose proof (eo_room _ _ _ _ _ Hok1) as [R1 _].
  set (s2 := mkEnv (store64 (e_mem s1) (e_brk s1) (lit ("chomp" +:+ nl))) (e_in s1) (e_trace s1) (e_brk s1 + 128) (e_stack s1)).
  assert (D2 : does lim [] [] s1 s2).
  { split; cbn; [by rewrite app_nil_r|done|lia|done|]. intros x Hx. apply store64_load. lia. }
  pose proof (editor_does _ _ _ _ _ _ _ _ D2 Hok1) as Hok2.
  assert (Hch2 : str_below lim (e_mem s2) (lit ("chomp" +:+ nl)) (chars ("chomp" +:+ nl))).
  { eapply str_same; [apply D2|]. eapply str_same; [apply D1|]. eapply str_below_weaken; [|exact Hch]. lia. }
  destruct (show lim (e_brk s1) (lit ("chomp" +:+ nl)) (chars ("chomp" +:+ nl)) s2) as (s3 & E3 & D3); [apply Hok2| |lia| |done|simpl; lia|].
  { eapply str_below_weaken; [|apply Hok2]. lia. }
  { apply load64_store64. destruct Hch. lia. }
  rewrite (bind_done _ _ _ (e_brk s1) (mkEnv (e_mem s1) (e_in s1) (e_trace s1) (e_brk s1 + 128) (e_stack s1))) by done.
  rewrite (bind_done _ _ _ tt s2), (bind_done _ _ _ _ _ E3) by done.
  destruct (editor_loop top lim ss sos tries t 0 rest s3) as (s4 & E4 & T4 & I4); [by eapply editor_does|done|done| |].
  { pose proof (do_in _ _ _ _ _ D1) as I1. pose proof (do_in _ _ _ _ _ D3) as I3. simpl in I1, I3. by rewrite <-I3, <-I1. }
  rewrite Nat.add_0_r in E4. rewrite (bind_done _ _ _ _ _ E4).
  destruct (call_does lim 7 4 0 s4 ltac:(done)) as (s5 & E5 & D5). rewrite (bind_done _ _ _ _ _ E5).
  exists s5. split; [done|]. pose proof (do_in _ _ _ _ _ D5) as I5. simpl in I5. split; [|congruence].
  rewrite (do_trace _ _ _ _ _ D5), T4, (do_trace _ _ _ _ _ D3). cbn [e_trace s2]. rewrite (do_trace _ _ _ _ _ D1).
  by rewrite <-!app_assoc.
Qed.

(** A line longer than the 29 chars that [sos] has room for is written on behind it. *)
Lemma editor_line_overflows top lim ss sos l rest s :
  editor_ok top lim ss sos s → sos + 100 < lim → load64 (e_mem s) ss = sos → lit "%s" + 2 < sos →
  Forall line_char l → (30 < length l < 100)%nat → e_in s = l ++ 10 :: rest →
  ∃ s', Editor.scanFF fuel (lit "%s") ss NULL s = Done 0 s' ∧ l !! 30%nat = Some (char_at (e_mem s') (sos + 30)).
Proof.
  intros Hok Hs Hss Hfs Hl Hlen Hin. destruct Hok as [Hr T L F X].
  destruct (input_line lim ss sos l rest s Hr) as (s' & E & _ & C & _); try done || lia.
  { eapply str_below_weaken; [|exact F]. lia. }
  exists s'. split; [done|]. destruct (lookup_lt_is_Some_2 l 30) as [c Hc]; [lia|].
  rewrite (str_char (sos + 100) _ sos l 30), Hc by (split; [done|lia] || lia). done.
Qed.

(** ** The fortune teller *)

Definition fortunes : list string :=
  ["TENDRAS MALA SUERTE TODA TU VIDA"; "TE SACARAS UN 10 EN EL TP DE ARQUI"; "NUNCA TE VAS A RECIBIR"].
Definition fortune_of (name : list Z) : string := nth (length name mod 3) fortunes EmptyString.

Lemma magic_spec n s : Fortune.magic lit (Z.of_nat n) s = Done (lit (nth (n mod 3) fortunes EmptyString)) s.
Proof.
  unfold Fortune.magic. rewrite Z.rem_mod_nonneg by lia. change 3 with (Z.of_nat 3). rewrite <-Nat2Z.inj_mod.
  pose proof (Nat.mod_upper_bound n 3 ltac:(lia)) as Hm. destruct (n mod 3)%nat as [|[|[|?]]]; try lia; done.
Qed.

Lemma length_loop_spec f p l i s :
  cstr (e_mem s) (p + i) l → (length l ≤ f)%nat → Fortune.length_loop f p i s = Done (i + Z.of_nat (length l)) s.
Proof.
  revert i f. induction l as [|c l IH]; intros i f Hl Hf.
  - simpl in Hl. destruct f; cbn [Fortune.length_loop]; rewrite load_char_bind, Hl; cbn; by rewrite Z.add_0_r.
  - destruct f as [|f]; [simpl in Hf; lia|]. destruct Hl as (H0 & Hc & Hl). cbn [Fortune.length_loop].
    rewrite load_char_bind, Hc, (proj2 (Z.eqb_neq c 0)) by done. simpl in Hf.
    rewrite (IH (i + 1)); [f_equal; simpl; lia|by replace (p + (i + 1)) with (p + i + 1) by lia|lia].
Qed.

Record fortune_ok (top name yourFortune : Z) s : Prop := {
  fo_top : 0 < top ≤ name ∧ top ≤ yourFortune;
  fo_brk : name + 8 ≤ e_brk s ∧ yourFortune + 8 ≤ e_brk s ∧ e_brk s + 2564 ≤ e_stack s ∧ e_brk s + 2564 ≤ 2 ^ 64;
  fo_lit t : t ∈ "%s" :: "Ingrese su nombre:" :: fortunes → 0 ≤ lit t ∧ str_below top (e_mem s) (lit t) (chars t);
}.

(** [*p = lit t; printFF("%s", p, NULL)] with [p] among the program's variables. *)
Lemma show_literal lim top p t s :
  room lim s → 0 < top ≤ p → p + 8 ≤ lim ≤ 2 ^ 64 → str_below top (e_mem s) (lit "%s") [37; 115] →
  0 ≤ lit t → str_below top (e_mem s) (lit t) (chars t) → (length (chars t) < 128)%nat →
  ∃ s1 s', store_ptr p (lit t) s = Done tt s1 ∧ printFF putchar_malloc fuel (lit "%s") p NULL s1 = Done tt s' ∧
    acts p 8 lim (Out <$> chars t) s s'.
Proof.
  intros Hr Hp Hlim Hf H0 Ht Hlen. set (s1 := set_umem (store64 (umem s) p (lit t)) s).
  assert (D1 : acts p 8 lim [] s s1).
  { split; cbn; [by rewrite app_nil_r|done|lia|done|]. intros x Hx Hn. by apply store64_load. }
  pose proof (acts_below p 8 lim top _ _ _ ltac:(lia) ltac:(lia) D1) as M1.
  destruct (show lim p (lit t) (chars t) s1) as (s2 & E2 & D2); try done.
  - eapply (str_below_weaken top); [lia|]. by eapply str_same.
  - lia.
  - apply load64_store64. destruct Ht. lia.
  - eapply (str_below_weaken top); [lia|]. by eapply str_same.
  - exists s1, s2. split; [done|]. split; [done|]. apply (acts_trans p 8 lim [] _ s s1 s2 D1). by apply does_acts.
Qed.

Lemma room_acts a n lim l s s' : acts a n lim l s s' → room lim s → room lim s'.
Proof. intros [_ _ B S _] [R1 R2]. split; [lia|congruence]. Qed.

Lemma room_reads lim i a n s s' : reads lim i a n s s' → room lim s → room lim s'.
Proof. intros [_ _ B S _] [R1 R2]. split; [lia|congruence]. Qed.

Lemma fortune_main top name yourFortune l rest s :
  fortune_ok top name yourFortune s → Forall line_char l → (length l < 100)%nat → e_in s = l ++ [10] ++ rest →
  ∃ s', Fortune.main lit fuel name yourFortune s = Done 0 s' ∧
    e_trace s' = e_trace s ++ (Out <$> chars "Ingrese su nombre:") ++ (Out <$> chars (fortune_of l)) ∧ e_in s' = rest.
Proof.
  intros [[T1 T2] (B1 & B2 & B3 & B4) Hlit] Hl Hlen Hin. unfold Fortune.main.
  set (ss := e_brk s) in *. set (lim := ss + 2564).
  set (s1 := mkEnv (store64 (e_mem s) ss (ss + 36)) (e_in s) (e_trace s) (ss + 36 + 2528) (e_stack s)).
  rewrite (bind_done _ _ _ ss (mkEnv (e_mem s) (e_in s) (e_trace s) (ss + 36) (e_stack s))) by done.
  rewrite (bind_done _ _ _ (ss + 36) (mkEnv (e_mem s) (e_in s) (e_trace s) (ss + 36 + 2528) (e_stack s))) by done.
  rewrite (bind_done _ _ _ tt s1) by done.
  assert (M1 : same_below ss (e_mem s) (e_mem s1)) by (intros x Hx; apply store64_load; lia).
  assert (R1 : room lim s1) by (split; cbn; lia).
  assert (Hlit1 : ∀ t, t ∈ "%s" :: "Ingrese su nombre:" :: fortunes → 0 ≤ lit t ∧ str_below top (e_mem s1) (lit t) (chars t)).
  { intros t Ht. destruct (Hlit t Ht) as [H0 Hs]. split; [done|]. eapply str_same; [|exact Hs].
    eapply same_below_weaken; [|exact M1]. lia. }
  destruct (Hlit1 "%s" ltac:(left)) as [_ Hf1]. destruct (Hlit1 "Ingrese su nombre:" ltac:(right; left)) as [Hn0 Hn1].
  destruct (show_literal lim top name _ s1 R1 ltac:(lia) ltac:(lia) Hf1 Hn0 Hn1 ltac:(simpl; lia)) as (s2 & s3 & E2 & E3 & D3).
  rewrite (bind_done _ _ _ _ _ E2). unfold Fortune.printFF at 1. change (@Fortune.putchar Env _) with (@putchar_malloc Env _).
  rewrite (bind_done _ _ _ _ _ E3). pose proof (acts_below name 8 lim top _ _ _ ltac:(lia) ltac:(lia) D3) as M3.
  pose proof (room_acts _ _ _ _ _ _ D3 R1) as R3. pose proof (str_same _ _ _ _ _ M3 Hf1) as Hf3. pose proof (proj2 Hf3) as Hfl. simpl in Hfl.
  destruct (input_line lim ss (ss + 36) l rest s3) as (s4 & E4 & RD & C4 & I4); [done| |lia| |lia|lia|done|lia| |].
  { eapply str_below_weaken; [|exact Hf3]. lia. }
  { rewrite (load64_ext (e_mem s1)) by (intros x Hx; apply D3; lia). apply load64_store64. lia. }
  { by rewrite (ac_in _ _ _ _ _ _ D3). }
  unfold Fortune.scanFF, Fortune.getchar. change (@Fortune.putchar Env _) with (@putchar_malloc Env _).
  rewrite (bind_done _ _ _ _ _ E4). change (0 =? 0) with true. cbn iota.
  assert (EL : Fortune.length_loop fuel (ss + 36) 0 s4 = Done (Z.of_nat (length l)) s4).
  { rewrite (length_loop_spec fuel (ss + 36) l 0); [done|by rewrite Z.add_0_r|lia]. }
  set (yf := (longitud ← Fortune.length_loop fuel (ss + 36) 0; _)).
  assert (M4 : same_below top (e_mem s3) (e_mem s4)) by (intros x Hx; apply RD; lia).
  assert (Ht : fortune_of l ∈ fortunes).
  { unfold fortune_of. pose proof (Nat.mod_upper_bound (length l) 3 ltac:(lia)) as Hm.
    destruct (length l mod 3)%nat as [|[|[|?]]]; [left|right; left|right; right; left|lia]. }
  destruct (Hlit1 (fortune_of l)) as [Hy0 Hy1]; [by right; right|].
  destruct (show_literal lim top yourFortune (fortune_of l) s4) as (s5 & s6 & E5 & E6 & D6);
    [by eapply room_reads|lia|lia|by eapply str_same|done|by eapply str_same; [|eapply str_same]| |].
  { clear -Ht. unfold fortunes in Ht. repeat (apply elem_of_cons in Ht as [->|Ht]; [vm_compute; lia|]). by apply elem_of_nil in Ht. }
  assert (EY : yf s4 = Done tt s6).
  { unfold yf. rewrite (bind_done _ _ _ _ _ EL). rewrite (bind_done _ _ _ _ _ (magic_spec (length l) s4)).
    change (nth (length l mod 3) fortunes EmptyString) with (fortune_of l). rewrite (bind_done _ _ _ _ _ E5). exact E6. }
  rewrite (bind_done _ _ _ _ _ EY). exists s6. split; [done|].
  split; [|by rewrite (ac_in _ _ _ _ _ _ D6)].
  rewrite (ac_trace _ _ _ _ _ _ D6), (re_trace _ _ _ _ _ _ RD), (ac_trace _ _ _ _ _ _ D3). cbn [e_trace s1]. by rewrite <-app_assoc.
Qed.
End programs.

(** ** The theorems *)

(** The editor ignores what is typed until a [%] and compares the line after it with [exit]:
    for any text, with any lines other than [exit] (of less than 30 chars) after the [%] signs before the
    last one, it clears the screen, greets, writes nothing while it reads, and after
    [%exit] clears the screen, asks for the shell and returns 0, with the input read up to there. *)
Theorem editor_session `{K : Kernel} lit fuel top lim ss sos tries t rest s :
  (200 ≤ fuel)%nat → editor_ok lit top lim ss sos s →
  0 ≤ lit ("chomp" +:+ nl) → str_below top (e_mem s) (lit ("chomp" +:+ nl)) (chars ("chomp" +:+ nl)) →
  Forall (λ p, Forall key p.1 ∧ editor_line p.2 ∧ p.2 ≠ chars "exit") tries → Forall key t →
  e_in s = (tries ≫= λ p, typing p.1 p.2) ++ typing t (chars "exit") ++ rest →
  ∃ s', Editor.main lit fuel (keys_of tries + S (length t)) ss sos s = Done 0 s' ∧
    e_trace s' = e_trace s ++ [Call 5 0 0 0] ++ (Out <$> chars ("chomp" +:+ nl)) ++ [Call 5 0 0 0] ++ [Call 7 4 0 0] ∧ e_in s' = rest.
Proof. intros Hf. by apply editor_main. Qed.

#[local] Instance zero_kernel : Kernel := λ _ _ _ _ _, 0.

(** The literals at 16, 32 and 48. *)
Definition editor_lit (t : string) : Z := if bool_decide (t = "%s") then 16 else if bool_decide (t = "exit") then 32 else 48.
Definition editor_mem : mem := λ a,
  default 0 ((replicate 16 0 ++ [37; 115] ++ replicate 14 0 ++ chars "exit" ++ replicate 12 0 ++ chars ("chomp" +:+ nl)) !! Z.to_nat a).
Definition editor_input : list Z := typing (chars "ab") (chars "foo") ++ typing (chars "x") (chars "exit") ++ chars "help".

Lemma editor_session_witness :
  ∃ s', Editor.main editor_lit 200 5 64 1024 (mkEnv editor_mem editor_input [] 4096 65536) = Done 0 s' ∧
    e_trace s' = [Call 5 0 0 0] ++ (Out <$> chars ("chomp" +:+ nl)) ++ [Call 5 0 0 0] ++ [Call 7 4 0 0] ∧ e_in s' = chars "help".
Proof.
  apply (editor_session editor_lit 200 64 4096 64 1024 [(chars "ab", chars "foo")] (chars "x") (chars "help")
    (mkEnv editor_mem editor_input [] 4096 65536)); [lia| |vm_compute; congruence|vm_compute; repeat split; congruence| | |done].
  - split; [split; cbn; lia|lia|lia|vm_compute; repeat split; congruence|vm_compute; repeat split; congruence].
  - apply list.Forall_singleton. split; [|split; [split; [|simpl; lia]|done]]; by repeat constructor.
  - by repeat constructor.
Defined.
