(* ===== verification/ProdCons.v ===== *)
(** * Producers and consumers ([Userland/dummy/dummy.c])

    The processes of [prodCons] share a ring of 50 chars, its indices [r] and [w], the
    counter [i] and three semaphores.  Each process is at a statement of its loop; a step
    runs one statement, so they interleave at every statement.  A semaphore is its
    value, and [wait] a statement that only runs when the value is positive: every run is
    one of three counters ([reachable_counts]), which is what the kernel's semaphores are
    ([SemaphoresThms.semaphore_refines_counter]).  [control] starts and removes processes at any
    time.  The lists [inserted] and [removed] are history. *)

From S2P Require Import Prelude.

Definition bufferSize : Z := 50.

Abbreviation len l := (Z.of_nat (length l)).

Record Shared := mkShared {
  buffer : list Z; r : Z; w : Z; i : Z;
  itemMutex : Z; emptyCount : Z; fullCount : Z;
  inserted : list Z; removed : list Z;
}.
Implicit Types sh : Shared.

(** The semaphores as [prodCons] creates them, the variables as they are initialised. *)
Definition shared0 : Shared := mkShared (replicate 50 0) 0 0 0 1 bufferSize 0 [] [].

(** ** The operations on the ring *)

(** [insertItem] is its two statements; [removeItem] as well. *)
Definition insertItem_put (c : Z) sh : option Shared :=
  b ← aset (buffer sh) (w sh) c;
  Some (mkShared b (r sh) (w sh) (i sh) (itemMutex sh) (emptyCount sh) (fullCount sh) (inserted sh) (removed sh)).

Definition insertItem_next (c : Z) sh : Shared :=
  mkShared (buffer sh) (r sh) (Z.rem (w sh + 1) bufferSize) (i sh) (itemMutex sh) (emptyCount sh) (fullCount sh) (inserted sh ++ [c]) (removed sh).

Definition removeItem_get sh : option Z := aget (buffer sh) (r sh).

Definition removeItem_next (result : Z) sh : Shared :=
  mkShared (buffer sh) (Z.rem (r sh + 1) bufferSize) (w sh) (i sh) (itemMutex sh) (emptyCount sh) (fullCount sh) (inserted sh) (removed sh ++ [result]).

(** ** The semaphores and the counter *)

Definition set_i (v : Z) sh : Shared :=
  mkShared (buffer sh) (r sh) (w sh) v (itemMutex sh) (emptyCount sh) (fullCount sh) (inserted sh) (removed sh).
Definition set_item (v : Z) sh : Shared :=
  mkShared (buffer sh) (r sh) (w sh) (i sh) v (emptyCount sh) (fullCount sh) (inserted sh) (removed sh).
Definition set_empty (v : Z) sh : Shared :=
  mkShared (buffer sh) (r sh) (w sh) (i sh) (itemMutex sh) v (fullCount sh) (inserted sh) (removed sh).
Definition set_full (v : Z) sh : Shared :=
  mkShared (buffer sh) (r sh) (w sh) (i sh) (itemMutex sh) (emptyCount sh) v (inserted sh) (removed sh).

(** ** The processes *)

(** Where a producer is in its loop: before each statement, with its [item]. *)
Inductive producer_at :=
| P_sleep                     (* sleep(prodSleepTime) *)
| P_read                      (* int item = i ... *)
| P_bump (item : Z)           (* ... ++ *)
| P_print (item : Z)          (* printFF("Producer %d producing: %d\n", NULL, a) *)
| P_waitEmpty (item : Z)      (* wait(emptyP) *)
| P_waitItem (item : Z)       (* wait(itemP) *)
| P_put (item : Z)            (* buffer[w] = c *)
| P_next (item : Z)           (* w = (w + 1) % bufferSize *)
| P_signalItem                (* signal(itemP) *)
| P_signalFull.               (* signal(fullP) *)

Inductive consumer_at :=
| C_sleep                     (* sleep(consSleepTime) *)
| C_waitFull                  (* wait(fullC) *)
| C_waitItem                  (* wait(itemC) *)
| C_get                       (* char result = buffer[r] *)
| C_next (result : Z)         (* r = (r + 1) % bufferSize *)
| C_signalItem (item : Z)     (* signal(itemC) *)
| C_signalEmpty (item : Z)    (* signal(emptyC) *)
| C_print (item : Z).         (* printFF("Consumer %d consuming: %d\n", NULL, a) *)

Inductive process := Producer (p : producer_at) | Consumer (c : consumer_at) | Removed.

(** One statement of [producer]; [None] if it cannot run now. *)
Definition producer (p : producer_at) sh : option (producer_at * Shared) :=
  match p with
  | P_sleep => Some (P_read, sh)
  | P_read => Some (P_bump (i sh), sh)
  | P_bump item => Some (P_print item, set_i (int32 (item + 1)) sh)
  | P_print item => Some (P_waitEmpty item, sh)
  | P_waitEmpty item =>
      if 0 <? emptyCount sh then Some (P_waitItem item, set_empty (emptyCount sh - 1) sh) else None
  | P_waitItem item => if 0 <? itemMutex sh then Some (P_put item, set_item (itemMutex sh - 1) sh) else None
  | P_put item => sh ← insertItem_put (int8 item) sh; Some (P_next item, sh)
  | P_next item => Some (P_signalItem, insertItem_next (int8 item) sh)
  | P_signalItem => Some (P_signalFull, set_item (itemMutex sh + 1) sh)
  | P_signalFull => Some (P_sleep, set_full (fullCount sh + 1) sh)
  end.

Definition consumer (c : consumer_at) sh : option (consumer_at * Shared) :=
  match c with
  | C_sleep => Some (C_waitFull, sh)
  | C_waitFull => if 0 <? fullCount sh then Some (C_waitItem, set_full (fullCount sh - 1) sh) else None
  | C_waitItem => if 0 <? itemMutex sh then Some (C_get, set_item (itemMutex sh - 1) sh) else None
  | C_get => result ← removeItem_get sh; Some (C_next result, sh)
  | C_next result => Some (C_signalItem result, removeItem_next result sh)
  | C_signalItem item => Some (C_signalEmpty item, set_item (itemMutex sh + 1) sh)
  | C_signalEmpty item => Some (C_print item, set_empty (emptyCount sh + 1) sh)
  | C_print item => Some (C_sleep, sh)
  end.

Definition process_step (t : process) sh : option (process * Shared) :=
  match t with
  | Producer p => '(p, sh) ← producer p sh; Some (Producer p, sh)
  | Consumer c => '(c, sh) ← consumer c sh; Some (Consumer c, sh)
  | Removed => None
  end.

(** ** The system *)

Record state := mkState { processes : list process; shared : Shared }.

Definition run_process (k : nat) (st : state) : option state :=
  t ← processes st !! k;
  '(t, sh) ← process_step t (shared st);
  Some (mkState (<[k := t]> (processes st)) sh).

(** What happens: a process runs a statement; [control] creates one ([p], [c]) or removes
    one ([z], [x], [q]), wherever that is in its loop. *)
Inductive step : state → state → Prop :=
| step_run k st st' : run_process k st = Some st' → step st st'
| step_producer st : step st (mkState (processes st ++ [Producer P_sleep]) (shared st))
| step_consumer st : step st (mkState (processes st ++ [Consumer C_sleep]) (shared st))
| step_remove k st : step st (mkState (<[k := Removed]> (processes st)) (shared st)).

(** [prodCons] starts one of each. *)
Definition initial : state := mkState [Producer P_sleep; Consumer C_sleep] shared0.

Inductive reachable : state → Prop :=
| reachable_initial : reachable initial
| reachable_step st st' : reachable st → step st st' → reachable st'.

(** Without removals. *)
Inductive running : state → Prop :=
| running_initial : running initial
| running_run k st st' : running st → run_process k st = Some st' → running st'
| running_producer st : running st → running (mkState (processes st ++ [Producer P_sleep]) (shared st))
| running_consumer st : running st → running (mkState (processes st ++ [Consumer C_sleep]) (shared st)).

(** ** What processes hold *)

(** Inside of [itemMutex]. *)
Definition inside (t : process) : nat :=
  match t with
  | Producer (P_put _) | Producer (P_next _) | Producer P_signalItem => 1
  | Consumer C_get | Consumer (C_next _) | Consumer (C_signalItem _) => 1
  | _ => 0
  end.

(** A free slot that is taken and not yet filled, or not yet given back. *)
Definition holds_empty (t : process) : nat :=
  match t with
  | Producer (P_waitItem _) | Producer (P_put _) | Producer (P_next _) => 1
  | Consumer (C_signalItem _) | Consumer (C_signalEmpty _) => 1
  | _ => 0
  end.

(** A filled slot that is taken and not yet emptied, or not yet announced. *)
Definition holds_full (t : process) : nat :=
  match t with
  | Producer P_signalItem | Producer P_signalFull => 1
  | Consumer C_waitItem | Consumer C_get | Consumer (C_next _) => 1
  | _ => 0
  end.

(** What a process inside knows of the ring with the contents [q]. *)
Definition knows (q : list Z) sh (t : process) : Prop :=
  match t with
  | Producer (P_next item) => aget (buffer sh) (w sh) = Some (int8 item)
  | Consumer (C_next result) => head q = Some result
  | _ => True
  end.

(** The ring holds [q], the oldest at [r]. *)
Record ring (q : list Z) sh : Prop := {
  ri_len : length (buffer sh) = 50%nat;
  ri_r : 0 ≤ r sh < 50;
  ri_w : w sh = (r sh + len q) mod 50;
  ri_get k c : q !! k = Some c → aget (buffer sh) ((r sh + Z.of_nat k) mod 50) = Some c;
}.

(** What always holds, removals or not. *)
Record safe (q : list Z) (st : state) : Prop := {
  sa_ring : ring q (shared st);
  sa_history : inserted (shared st) = removed (shared st) ++ q;
  sa_item : 0 ≤ itemMutex (shared st) ∧ itemMutex (shared st) + total inside (processes st) ≤ 1;
  sa_empty : 0 ≤ emptyCount (shared st) ∧ emptyCount (shared st) + total holds_empty (processes st) + len q ≤ 50;
  sa_full : 0 ≤ fullCount (shared st) ∧ fullCount (shared st) + total holds_full (processes st) ≤ len q;
  sa_knows : Forall (knows q (shared st)) (processes st);
}.

(** ** The ring *)

Lemma rem_next v : 0 ≤ v < 50 → Z.rem (v + 1) bufferSize = (v + 1) mod 50 ∧ 0 ≤ (v + 1) mod 50 < 50.
Proof. intros Hv. unfold bufferSize. rewrite Z.rem_mod_nonneg by lia. split; [done|]. apply Z.mod_pos_bound. lia. Qed.

Lemma mod_apart a d e : 0 ≤ d < 50 → 0 ≤ e < 50 → d ≠ e → (a + d) mod 50 ≠ (a + e) mod 50.
Proof. intros Hd He Hne Heq. Z.to_euclidean_division_equations. lia. Qed.

Lemma ring_w q sh : ring q sh → 0 ≤ w sh < 50.
Proof. intros [_ _ -> _]. apply Z.mod_pos_bound. lia. Qed.

(** The slot at [w] is none of the contents. *)
Lemma ring_put q c sh :
  ring q sh → len q < 50 →
  ∃ b, insertItem_put c sh = Some (mkShared b (r sh) (w sh) (i sh) (itemMutex sh) (emptyCount sh) (fullCount sh) (inserted sh) (removed sh)) ∧
    ring q (mkShared b (r sh) (w sh) (i sh) (itemMutex sh) (emptyCount sh) (fullCount sh) (inserted sh) (removed sh)) ∧
    aget b (w sh) = Some c.
Proof.
  intros Hr Hq. pose proof (ring_w _ _ Hr) as Hw. destruct Hr as [Hlen Hrr Hww Hget].
  unfold insertItem_put. rewrite aset_some by lia. cbn [mbind option_bind].
  eexists. split; [done|]. split; [|apply aget_aput_eq; lia].
  split; cbn; [by rewrite length_aput|done|done|]. intros k c' Hk. pose proof (lookup_lt_Some _ _ _ Hk).
  rewrite aget_aput_ne; [by apply Hget|lia|]. rewrite Hww. apply mod_apart; lia.
Qed.

Lemma ring_next q c sh :
  ring q sh → len q < 50 → aget (buffer sh) (w sh) = Some c → ring (q ++ [c]) (insertItem_next c sh).
Proof.
  intros Hr Hq Hc. pose proof (ring_w _ _ Hr) as Hw. destruct Hr as [Hlen Hrr Hww Hget].
  destruct (rem_next _ Hw) as [E1 E2]. split; cbn; [done|done| |].
  - rewrite E1, Hww, length_app, Z.add_mod_idemp_l by lia. f_equal. simpl. lia.
  - intros k c' [Hk|[Hk Hc']]%lookup_app_Some; [by apply Hget|].
    destruct (k - length q)%nat eqn:Ek; [|done]. injection Hc' as <-. assert (k = length q) as -> by lia. by rewrite <-Hww.
Qed.

Lemma ring_get q c sh : ring (c :: q) sh → removeItem_get sh = Some c.
Proof.
  intros [_ Hrr _ Hget]. pose proof (Hget 0%nat c eq_refl) as Hg. unfold removeItem_get. rewrite <-Hg. f_equal.
  rewrite Z.mod_small by lia. lia.
Qed.

Lemma ring_removed q c sh : ring (c :: q) sh → ring q (removeItem_next c sh).
Proof.
  intros [Hlen Hrr Hww Hget]. destruct (rem_next _ Hrr) as [E1 E2]. split; cbn; [done|by rewrite E1| |].
  - rewrite E1, Hww, Z.add_mod_idemp_l by lia. f_equal. simpl. lia.
  - intros k c' Hk. rewrite E1, Z.add_mod_idemp_l by lia. rewrite <-(Hget (S k) c' Hk). f_equal. f_equal. lia.
Qed.

(** ** A statement keeps the system safe *)

Lemma outside_knows q sh t : inside t = 0%nat → knows q sh t.
Proof. destruct t as [[]|[]|]; done. Qed.

Lemma safe_one q k t st : safe q st → processes st !! k = Some t → inside t = 1%nat → itemMutex (shared st) = 0.
Proof. intros Hs Hk H1. pose proof (sum_ge inside _ _ _ Hk). destruct (sa_item _ _ Hs). lia. Qed.

(** Others are outside while one is inside. *)
Lemma others_outside q k t st : safe q st → processes st !! k = Some t → inside t = 1%nat →
  ∀ j u, processes st !! j = Some u → j ≠ k → inside u = 0%nat.
Proof. intros Hs Hk H1 j u Hj Hne. pose proof (sum_two inside _ j k t u Hk Hj Hne). destruct (sa_item _ _ Hs). lia. Qed.

(** A statement that leaves the ring alone. *)
Lemma quiet_step q k t t' st sh' :
  safe q st → processes st !! k = Some t →
  buffer sh' = buffer (shared st) → r sh' = r (shared st) → w sh' = w (shared st) →
  inserted sh' = inserted (shared st) → removed sh' = removed (shared st) →
  0 ≤ itemMutex sh' ∧ itemMutex sh' + Z.of_nat (inside t') ≤ itemMutex (shared st) + Z.of_nat (inside t) →
  0 ≤ emptyCount sh' ∧ emptyCount sh' + Z.of_nat (holds_empty t') ≤ emptyCount (shared st) + Z.of_nat (holds_empty t) →
  0 ≤ fullCount sh' ∧ fullCount sh' + Z.of_nat (holds_full t') ≤ fullCount (shared st) + Z.of_nat (holds_full t) →
  knows q (shared st) t' → safe q (mkState (<[k := t']> (processes st)) sh').
Proof.
  intros [[Rl Rr Rw Rg] Hh Hi He Hf Hkn] Hk Eb Er Ew Ei Eo Ai Ae Af Hkn'.
  assert (Hkeep : ∀ u, knows q (shared st) u → knows q sh' u).
  { intros u. destruct u as [[]|[]|]; try done. cbn. by rewrite Eb, Ew. }
  split; cbn.
  - split; rewrite ?Eb, ?Er, ?Ew; done.
  - by rewrite Ei, Eo.
  - rewrite (sum_insert_total inside _ _ _ _ Hk). lia.
  - rewrite (sum_insert_total holds_empty _ _ _ _ Hk). lia.
  - rewrite (sum_insert_total holds_full _ _ _ _ Hk). lia.
  - apply list.Forall_insert; [|by apply Hkeep]. eapply Forall_impl; [exact Hkeep|exact Hkn].
Qed.

(** A statement inside that changes the ring to [q']. *)
Lemma ring_step q q' k t t' st sh' :
  safe q st → processes st !! k = Some t → inside t = 1%nat → inside t' = 1%nat →
  ring q' sh' → inserted sh' = removed sh' ++ q' →
  itemMutex sh' = itemMutex (shared st) → emptyCount sh' = emptyCount (shared st) → fullCount sh' = fullCount (shared st) →
  Z.of_nat (holds_empty t') + len q' ≤ Z.of_nat (holds_empty t) + len q →
  Z.of_nat (holds_full t') + len q ≤ Z.of_nat (holds_full t) + len q' →
  knows q' sh' t' → safe q' (mkState (<[k := t']> (processes st)) sh').
Proof.
  intros Hs Hk H1 H2 Hr Hh Ei Ee Ef Ae Af Hkn. pose proof Hs as [_ _ Hi He Hf _]. split; cbn; [done|done| | | |].
  - rewrite (sum_insert_total inside _ _ _ _ Hk), Ei. lia.
  - rewrite (sum_insert_total holds_empty _ _ _ _ Hk), Ee. lia.
  - rewrite (sum_insert_total holds_full _ _ _ _ Hk), Ef. lia.
  - apply Forall_lookup_2. intros j u Hj. destruct (decide (j = k)) as [->|Hne].
    + rewrite list_lookup_insert_eq in Hj by (by eapply lookup_lt_Some). by injection Hj as <-.
    + rewrite list_lookup_insert_ne in Hj by done. apply outside_knows. by apply (others_outside q k t st Hs Hk H1 j u).
Qed.

Lemma knows_at q st k t : safe q st → processes st !! k = Some t → knows q (shared st) t.
Proof. intros Hs Hk. by pose proof (Forall_lookup_1 _ _ _ _ (sa_knows _ _ Hs) Hk). Qed.

(** With the slot that is counted, there is room, or something to take. *)
Lemma room_for q k t st : safe q st → processes st !! k = Some t → holds_empty t = 1%nat → len q < 50.
Proof. intros Hs Hk H1. pose proof (sum_ge holds_empty _ _ _ Hk). destruct (sa_empty _ _ Hs). lia. Qed.

Lemma item_for q k t st : safe q st → processes st !! k = Some t → holds_full t = 1%nat → ∃ c q', q = c :: q'.
Proof.
  intros Hs Hk H1. pose proof (sum_ge holds_full _ _ _ Hk). destruct (sa_full _ _ Hs).
  destruct q as [|c q]; [simpl in *; lia|by exists c, q].
Qed.

Lemma producer_safe q k p p' sh' st :
  safe q st → processes st !! k = Some (Producer p) → producer p (shared st) = Some (p', sh') →
  ∃ q', safe q' (mkState (<[k := Producer p']> (processes st)) sh').
Proof.
  intros Hs Hk Hp. pose proof Hs as [Hr Hh Hi He Hf _].
  destruct p as [| |item|item|item|item|item|item| |]; cbn in Hp;
    try (case_match eqn:E; [apply Z.ltb_lt in E|done]; injection Hp as <- <-; exists q; by apply (quiet_step q _ _ _ _ _ Hs Hk); cbn; try done; lia);
    try (injection Hp as <- <-; exists q; by apply (quiet_step q _ _ _ _ _ Hs Hk); cbn; try done; lia).
  - destruct (ring_put q (int8 item) (shared st) Hr (room_for _ _ _ _ Hs Hk eq_refl)) as (b & Eb & Hb & Hg).
    rewrite Eb in Hp. injection Hp as <- <-. exists q.
    by apply (ring_step q q k (Producer (P_put item)) (Producer (P_next item)) st _ Hs Hk).
  - injection Hp as <- <-. exists (q ++ [int8 item]). pose proof (knows_at _ _ _ _ Hs Hk) as Hkn. cbn in Hkn.
    pose proof (ring_next q (int8 item) (shared st) Hr (room_for _ _ _ _ Hs Hk eq_refl) Hkn) as Hr'.
    apply (ring_step q _ k (Producer (P_next item)) (Producer P_signalItem) st _ Hs Hk); try done.
    + cbn. by rewrite Hh, app_assoc.
    + rewrite length_app. cbn. lia.
    + rewrite length_app. cbn. lia.
Qed.

Lemma consumer_safe q k c c' sh' st :
  safe q st → processes st !! k = Some (Consumer c) → consumer c (shared st) = Some (c', sh') →
  ∃ q', safe q' (mkState (<[k := Consumer c']> (processes st)) sh').
Proof.
  intros Hs Hk Hp. pose proof Hs as [Hr Hh Hi He Hf _].
  destruct c as [| | | |result|item|item|item]; cbn in Hp;
    try (case_match eqn:E; [apply Z.ltb_lt in E|done]; injection Hp as <- <-; exists q; by apply (quiet_step q _ _ _ _ _ Hs Hk); cbn; try done; lia);
    try (injection Hp as <- <-; exists q; by apply (quiet_step q _ _ _ _ _ Hs Hk); cbn; try done; lia).
  - destruct (item_for _ _ _ _ Hs Hk eq_refl) as (v & q' & ->). rewrite (ring_get _ _ _ Hr) in Hp. injection Hp as <- <-.
    exists (v :: q'). apply (quiet_step (v :: q') k _ _ _ _ Hs Hk); done || (cbn; lia).
  - injection Hp as <- <-. pose proof (knows_at _ _ _ _ Hs Hk) as Hkn. cbn in Hkn.
    destruct q as [|v q]; [done|]. injection Hkn as ->. exists q.
    apply (ring_step (result :: q) q k (Consumer (C_next result)) (Consumer (C_signalItem result)) st _ Hs Hk); try done.
    + by apply ring_removed.
    + cbn. by rewrite Hh, <-app_assoc.
    + cbn. lia.
    + cbn. lia.
Qed.

(** ** Reachable states are safe *)

Lemma safe_other q ts sh ts' :
  safe q (mkState ts sh) → total inside ts' ≤ total inside ts → total holds_empty ts' ≤ total holds_empty ts →
  total holds_full ts' ≤ total holds_full ts → Forall (knows q sh) ts' → safe q (mkState ts' sh).
Proof. intros [Hr Hh Hi He Hf Hk] Ai Ae Af Hk'. cbn in *. split; cbn; try done; lia. Qed.

Lemma safe_new q st p :
  safe q st → inside p = 0%nat → holds_empty p = 0%nat → holds_full p = 0%nat → safe q (mkState (processes st ++ [p]) (shared st)).
Proof.
  intros Hs Hi He Hf. destruct st as [ts sh]. cbn. apply (safe_other q ts); [done|rewrite sum_app; simpl; lia..|].
  apply Forall_app. split; [apply Hs|]. apply list.Forall_singleton. by apply outside_knows.
Qed.

Lemma safe_remove q st k : safe q st → safe q (mkState (<[k := Removed]> (processes st)) (shared st)).
Proof.
  intros Hs. destruct (processes st !! k) as [t|] eqn:Hk.
  - destruct st as [ts sh]. cbn in *. apply (safe_other q ts); [done|rewrite (sum_insert_total _ _ _ _ _ Hk); simpl; lia..|].
    apply list.Forall_insert; [apply Hs|done].
  - rewrite list_insert_id' by (by apply lookup_ge_None in Hk; lia). by destruct st.
Qed.

Lemma run_safe q k st st' : safe q st → run_process k st = Some st' → ∃ q', safe q' st'.
Proof.
  intros Hs. unfold run_process. destruct (processes st !! k) as [[p|c|]|] eqn:Hk; cbn; try done.
  - destruct (producer p (shared st)) as [[p' sh']|] eqn:Hp; [|done]. intros [= <-]. by eapply producer_safe.
  - destruct (consumer c (shared st)) as [[c' sh']|] eqn:Hc; [|done]. intros [= <-]. by eapply consumer_safe.
Qed.

Lemma step_safe q st st' : safe q st → step st st' → ∃ q', safe q' st'.
Proof.
  intros Hs Hstep. destruct Hstep as [k st st' Hrun|st|st|k st].
  - by eapply run_safe.
  - exists q. by apply safe_new.
  - exists q. by apply safe_new.
  - exists q. by apply safe_remove.
Qed.

Lemma initial_safe : safe [] initial.
Proof. split; [by split|done..|by repeat constructor]. Qed.

Lemma reachable_safe st : reachable st → ∃ q, safe q st.
Proof. induction 1 as [|st st' _ [q Hs] Hstep]; [exists []; apply initial_safe|by eapply step_safe]. Qed.

(** A process inside is never stuck. *)
Lemma inside_runs q k t st : safe q st → processes st !! k = Some t → inside t = 1%nat → is_Some (run_process k st).
Proof.
  intros Hs Hk H1. pose proof Hs as [Hr _ _ _ _ _]. unfold run_process. rewrite Hk. cbn.
  destruct t as [[]|[]|]; try done; cbn.
  - by destruct (ring_put q (int8 item) (shared st) Hr (room_for _ _ _ _ Hs Hk eq_refl)) as (b & -> & _).
  - destruct (item_for _ _ _ _ Hs Hk eq_refl) as (v & q' & ->). by rewrite (ring_get _ _ _ Hr).
Qed.

(** ** Without removals *)

Definition is_producer (t : process) : nat := match t with Producer _ => 1 | _ => 0 end.
Definition is_consumer (t : process) : nat := match t with Consumer _ => 1 | _ => 0 end.

(** Nothing is lost. *)
Record exact (q : list Z) (st : state) : Prop := {
  ex_safe : safe q st;
  ex_item : itemMutex (shared st) + total inside (processes st) = 1;
  ex_empty : emptyCount (shared st) + total holds_empty (processes st) + len q = 50;
  ex_full : fullCount (shared st) + total holds_full (processes st) = len q;
  ex_producer : 1 ≤ total is_producer (processes st);
  ex_consumer : 1 ≤ total is_consumer (processes st);
  ex_alive : Forall (λ t, t ≠ Removed) (processes st);
}.

(** How the sums move in a statement. *)
Lemma run_exact q k st st' : exact q st → run_process k st = Some st' → ∃ q', exact q' st'.
Proof.
  intros [Hs Ei Ee Ef Ep Ec Ea] Hrun. pose proof Hrun as Hrun0. destruct (run_safe q k st st' Hs Hrun) as [q' Hs']. exists q'.
  unfold run_process in Hrun. destruct (processes st !! k) as [t|] eqn:Hk; [|done]. cbn in Hrun.
  destruct (process_step t (shared st)) as [[t' sh']|] eqn:Ht; [|done]. injection Hrun as <-.
  assert (Hlen : len q' = len q + len (inserted sh') - len (inserted (shared st)) - (len (removed sh') - len (removed (shared st)))).
  { pose proof (sa_history _ _ Hs) as A1. pose proof (sa_history _ _ Hs') as A2. cbn in A2.
    rewrite A1, A2, !length_app. lia. }
  assert (Hsum : itemMutex sh' + Z.of_nat (inside t') = itemMutex (shared st) + Z.of_nat (inside t) ∧
    emptyCount sh' + Z.of_nat (holds_empty t') + len q' = emptyCount (shared st) + Z.of_nat (holds_empty t) + len q ∧
    fullCount sh' + Z.of_nat (holds_full t') - len q' = fullCount (shared st) + Z.of_nat (holds_full t) - len q ∧
    is_producer t' = is_producer t ∧ is_consumer t' = is_consumer t ∧ t' ≠ Removed).
  { destruct t as [p|c|]; cbn in Ht; [| |done].
    - destruct p; cbn in Ht; repeat case_match; unfold insertItem_put in *; simplify_option_eq; cbn in *; rewrite ?length_app in *; cbn in *; split_and!; (done || lia).
    - destruct c; cbn in Ht; repeat case_match; simplify_option_eq; cbn in *; rewrite ?length_app in *; cbn in *; split_and!; (done || lia). }
  destruct Hsum as (S1 & S2 & S3 & S4 & S5 & S6).
  split; cbn; [done|rewrite (sum_insert_total _ _ _ _ _ Hk); lia..|by apply list.Forall_insert].
Qed.

Lemma exact_new q st p :
  exact q st → inside p = 0%nat → holds_empty p = 0%nat → holds_full p = 0%nat → p ≠ Removed →
  exact q (mkState (processes st ++ [p]) (shared st)).
Proof.
  intros [Hs Ei Ee Ef Ep Ec Ea] Hi He Hf Hp. split; cbn; [by apply safe_new|rewrite sum_app; simpl; lia..|].
  apply Forall_app. split; [done|]. by apply list.Forall_singleton.
Qed.

Lemma initial_exact : exact [] initial.
Proof. split; [exact initial_safe|done..|by repeat constructor]. Qed.

Lemma running_exact st : running st → ∃ q, exact q st.
Proof.
  induction 1 as [|k st st' _ [q Hs] Hrun|st _ [q Hs]|st _ [q Hs]].
  - exists []. apply initial_exact.
  - by eapply run_exact.
  - exists q. by apply exact_new.
  - exists q. by apply exact_new.
Qed.

Lemma inside_01 t : (inside t ≤ 1)%nat.
Proof. destruct t as [[]|[]|]; simpl; lia. Qed.

(** A process that does not wait can run. *)
Definition waits (t : process) : bool :=
  match t with
  | Producer (P_waitEmpty _) | Producer (P_waitItem _) | Consumer C_waitFull | Consumer C_waitItem => true
  | _ => false
  end.

Lemma not_waiting_runs q k t st :
  safe q st → processes st !! k = Some t → t ≠ Removed → waits t = false → is_Some (run_process k st).
Proof.
  intros Hs Hk Hr Hw. destruct (decide (inside t = 1%nat)) as [H1|H1]; [by eapply inside_runs|].
  unfold run_process. rewrite Hk. cbn. destruct t as [[]|[]|]; cbn in *; done.
Qed.

Lemma waiting_runs k t st :
  processes st !! k = Some t → waits t = true →
  match t with
  | Producer (P_waitEmpty _) => 0 < emptyCount (shared st)
  | Consumer C_waitFull => 0 < fullCount (shared st)
  | _ => 0 < itemMutex (shared st)
  end → is_Some (run_process k st).
Proof.
  intros Hk Hw Hpos. unfold run_process. rewrite Hk. cbn.
  destruct t as [[]|[]|]; cbn in *; try done; rewrite (proj2 (Z.ltb_lt _ _)) by done; done.
Qed.

(** If all wait, for what the others hold, nobody holds anything. *)
Lemma stuck_sums (f : process → nat) ts :
  (∀ k t, ts !! k = Some t → f t = 0%nat) → sum_list_with f ts = 0%nat.
Proof.
  intros Hall. destruct (decide (0 < sum_list_with f ts)%nat) as [Hp|]; [|lia].
  destruct (sum_pos f ts Hp) as (k & t & Hk & Ht). rewrite (Hall k t Hk) in Ht. lia.
Qed.

(** The statements that need no count of slots. *)
Definition can (t : process) : Prop :=
  match t with Producer (P_waitEmpty _) | Consumer C_waitFull => False | _ => True end.

#[export] Instance can_dec t : Decision (can t).
Proof. destruct t as [[]|[]|]; apply _. Defined.

Lemma someone_runs q st : exact q st → ∃ k, is_Some (run_process k st).
Proof.
  intros [Hs Ei Ee Ef Ep Ec Ea].
  destruct (decide (0 < sum_list_with inside (processes st))%nat) as [Hin|Hin].
  { destruct (sum_pos _ _ Hin) as (k & t & Hk & Ht). exists k. pose proof (inside_01 t). apply (inside_runs q k t); [done..|lia]. }
  assert (Hitem : itemMutex (shared st) = 1) by lia.
  destruct (sum_pos is_consumer (processes st)) as (kc & tc & Hkc & Htc); [lia|].
  destruct (sum_pos is_producer (processes st)) as (kp & tp & Hkp & Htp); [lia|].
  destruct (decide (Exists can (processes st))) as [Hcan|Hcan].
  { apply list.Exists_exists in Hcan as (t & [k Hk]%list_elem_of_lookup & Ht). exists k.
    destruct (waits t) eqn:Hw.
    - apply (waiting_runs k t); [done..|]. destruct t as [[]|[]|]; done || lia.
    - apply (not_waiting_runs q k t); [done..| |done]. pose proof (Forall_lookup_1 _ _ _ _ Ea Hk) as Hr. done. }
  assert (Hcant : ∀ k t, processes st !! k = Some t → ¬ can t).
  { intros k t Hk Ht. apply Hcan, list.Exists_exists. exists t. split; [by eapply list_elem_of_lookup_2|done]. }
  rewrite (stuck_sums holds_empty) in Ee by (intros k t Hk; specialize (Hcant k t Hk); destruct t as [[]|[]|]; done || by destruct Hcant).
  rewrite (stuck_sums holds_full) in Ef by (intros k t Hk; specialize (Hcant k t Hk); destruct t as [[]|[]|]; done || by destruct Hcant).
  destruct (decide (0 < fullCount (shared st))) as [Hf|Hf].
  - exists kc. pose proof (Hcant kc tc Hkc). apply (waiting_runs kc tc); [done|destruct tc as [[]|[]|]; simpl in *; done || lia|].
    destruct tc as [[]|[]|]; simpl in *; done || lia.
  - exists kp. pose proof (Hcant kp tp Hkp). destruct (sa_full _ _ Hs).
    apply (waiting_runs kp tp); [done|destruct tp as [[]|[]|]; simpl in *; done || lia|].
    destruct tp as [[]|[]|]; simpl in *; done || lia.
Qed.

(** ** A process removed inside *)

(** Nobody is inside and nobody can enter. *)
Record dead (st : state) : Prop := {
  de_item : itemMutex (shared st) = 0;
  de_inside : sum_list_with inside (processes st) = 0%nat;
}.

(** Then the ring never changes again. *)
Lemma dead_step st st' :
  dead st → step st st' → dead st' ∧ inserted (shared st') = inserted (shared st) ∧ removed (shared st') = removed (shared st).
Proof.
  intros [Di Ds] Hstep. destruct Hstep as [k st st' Hrun|st|st|k st].
  - unfold run_process in Hrun. destruct (processes st !! k) as [t|] eqn:Hk; [|done]. cbn in Hrun.
    destruct (process_step t (shared st)) as [[t' sh']|] eqn:Ht; [|done]. injection Hrun as <-.
    pose proof (sum_ge inside _ _ _ Hk) as Hge. pose proof (sum_insert inside _ _ _ t' Hk) as Hsum.
    assert (H0 : itemMutex sh' = 0 ∧ inside t' = 0%nat ∧ inserted sh' = inserted (shared st) ∧ removed sh' = removed (shared st)).
    { destruct t as [[]|[]|]; cbn in Hge, Ht; try lia; try done; try rewrite Di in Ht; repeat case_match; simplify_option_eq; done. }
    destruct H0 as (E1 & E2 & E3 & E4). split; [split; cbn; [done|lia]|done].
  - split; [split; cbn; [done|rewrite sum_app; simpl; lia]|done].
  - split; [split; cbn; [done|rewrite sum_app; simpl; lia]|done].
  - split; [|done]. split; cbn; [done|]. destruct (processes st !! k) as [t|] eqn:Hk.
    + pose proof (sum_insert inside _ _ _ Removed Hk). simpl in *. lia.
    + by rewrite list_insert_id' by (by apply lookup_ge_None in Hk; lia).
Qed.

(** Runs the processes of [ks] in turn. *)
Definition run_all (ks : list nat) (st : state) : option state := foldl (λ o k, o ≫= run_process k) (Some st) ks.

Lemma run_all_reachable ks st st' : reachable st → run_all ks st = Some st' → reachable st'.
Proof.
  unfold run_all. revert st. induction ks as [|k ks IH]; intros st Hr; cbn; [by intros [= <-]|].
  destruct (run_process k st) as [st1|] eqn:E.
  - apply IH. eapply reachable_step; [done|by eapply step_run].
  - intros Hf. exfalso. clear -Hf. induction ks; cbn in Hf; [done|]. by apply IHks.
Qed.

Lemma run_all_running ks st st' : running st → run_all ks st = Some st' → running st'.
Proof.
  unfold run_all. revert st. induction ks as [|k ks IH]; intros st Hr; cbn; [by intros [= <-]|].
  destruct (run_process k st) as [st1|] eqn:E.
  - apply IH. by eapply running_run.
  - intros Hf. exfalso. clear -Hf. induction ks; cbn in Hf; [done|]. by apply IHks.
Qed.

(** Such a state is one key away: [z] while the producer is between [wait(itemP)] and
    [signal(itemP)]. *)
Lemma removal_deadlocks :
  ∃ st, run_all (replicate 7 0%nat) initial = Some st ∧ dead (mkState (<[0%nat := Removed]> (processes st)) (shared st)).
Proof. eexists. split; [vm_compute; reflexivity|]. by split. Qed.

(** [i++] is not inside: two producers can produce the same item. *)
Lemma producers_race :
  let st := mkState (processes initial ++ [Producer P_sleep]) (shared initial) in
  ∃ st', run_all ([0; 0; 2; 2] ++ replicate 8 0 ++ replicate 8 2)%nat st = Some st' ∧ inserted (shared st') = [0; 0].
Proof. eexists. split; vm_compute; reflexivity. Qed.

(** ** The theorems *)

(** *** The semaphores are counters *)

(** The waits and signals of a step. *)
Lemma step_counts t sh t' sh' :
  process_step t sh = Some (t', sh') →
  ∃ te tf ti, counter_run (emptyCount sh) te = Some (emptyCount sh') ∧ counter_run (fullCount sh) tf = Some (fullCount sh') ∧
    counter_run (itemMutex sh) ti = Some (itemMutex sh').
Proof.
  intros Hs. destruct t as [p|c|]; simpl in Hs; [..|done]; apply bind_Some in Hs as ([q sh2] & Hs & [= _ <-]).
  - destruct p; simpl in Hs; try (injection Hs as _ <-); try (by exists [], [], []).
    + case_match eqn:E; [|done]. injection Hs as _ <-. exists [E_wait], [], []. unfold counter_run. simpl. by rewrite E.
    + case_match eqn:E; [|done]. injection Hs as _ <-. exists [], [], [E_wait]. unfold counter_run. simpl. by rewrite E.
    + apply bind_Some in Hs as (sh3 & Hs & [= _ <-]). unfold insertItem_put in Hs.
      apply bind_Some in Hs as (b & _ & [= <-]). by exists [], [], [].
    + by exists [], [], [E_signal].
    + by exists [], [E_signal], [].
  - destruct c; simpl in Hs; try (injection Hs as _ <-); try (by exists [], [], []).
    + case_match eqn:E; [|done]. injection Hs as _ <-. exists [], [E_wait], []. unfold counter_run. simpl. by rewrite E.
    + case_match eqn:E; [|done]. injection Hs as _ <-. exists [], [], [E_wait]. unfold counter_run. simpl. by rewrite E.
    + apply bind_Some in Hs as (c & _ & [= _ <-]). by exists [], [], [].
    + by exists [], [], [E_signal].
    + by exists [E_signal], [], [].
Qed.

(** Every run of the system is a run of the three counters, from the values that [semCreate] is given. *)
Lemma reachable_counts st :
  reachable st → ∃ te tf ti, counter_run bufferSize te = Some (emptyCount (shared st)) ∧ counter_run 0 tf = Some (fullCount (shared st)) ∧
    counter_run 1 ti = Some (itemMutex (shared st)).
Proof.
  induction 1 as [|st st' Hr (te & tf & ti & E1 & E2 & E3) Hs]; [by exists [], [], []|].
  destruct Hs as [k st st' Hrun| | |]; [|by exists te, tf, ti..].
  unfold run_process in Hrun. apply bind_Some in Hrun as (t & _ & Hrun). apply bind_Some in Hrun as ([t' sh'] & Hp & [= <-]).
  destruct (step_counts _ _ _ _ Hp) as (te' & tf' & ti' & F1 & F2 & F3).
  exists (te ++ te'), (tf ++ tf'), (ti ++ ti'). by rewrite !counter_run_app, E1, E2, E3.
Qed.

(** C13: Producers and consumers are safe under every interleaving of their statements, with any number of them
    created and any of them removed at any time: the chars taken out are the first of those
    put in, in order ([inserted = removed ++ q]); the ring holds the others, at most 50 of
    them, from [r] on; at most one process is inside of [itemMutex]; and a process inside
    always can run its next statement (its indices are in range). *)
Theorem prodCons_safe st :
  reachable st → ∃ q,
    inserted (shared st) = removed (shared st) ++ q ∧ ring q (shared st) ∧ (length q ≤ 50)%nat ∧
    (sum_list_with inside (processes st) ≤ 1)%nat ∧
    ∀ k t, processes st !! k = Some t → inside t = 1%nat → is_Some (run_process k st).
Proof.
  intros [q Hs]%reachable_safe. exists q. pose proof Hs as [Hr Hh Hi He Hf _].
  split; [done|]. split; [done|]. split; [lia|]. split; [lia|]. intros k t. by apply (inside_runs q).
Qed.

(** C14: As long as no process is removed, producers and consumers never block each other
    for good: in every reachable state some process can run its next statement, and every slot and
    the mutex are accounted for. *)
Theorem prodCons_progress st :
  running st → (∃ k, is_Some (run_process k st)) ∧ ∃ q,
    itemMutex (shared st) + total inside (processes st) = 1 ∧
    emptyCount (shared st) + total holds_empty (processes st) + len q = bufferSize ∧
    fullCount (shared st) + total holds_full (processes st) = len q ∧
    inserted (shared st) = removed (shared st) ++ q.
Proof.
  intros [q Hs]%running_exact. split; [by eapply someone_runs|]. exists q. destruct Hs as [Hs Ei Ee Ef _ _ _].
  split; [done|]. split; [done|]. split; [done|apply Hs].
Qed.

(** The producer has put in one char, the consumer is inside. *)
Definition demo_run : list nat := replicate 10 0%nat ++ replicate 3 1%nat.
Definition demo_state : state := default initial (run_all demo_run initial).

Lemma prodCons_safe_witness :
  ∃ q, inserted (shared demo_state) = removed (shared demo_state) ++ q ∧ ring q (shared demo_state) ∧ (length q ≤ 50)%nat ∧
    (sum_list_with inside (processes demo_state) ≤ 1)%nat ∧
    ∀ k t, processes demo_state !! k = Some t → inside t = 1%nat → is_Some (run_process k demo_state).
Proof. apply prodCons_safe. apply (run_all_reachable demo_run initial); [constructor|vm_compute; reflexivity]. Defined.

Lemma prodCons_progress_witness :
  (∃ k, is_Some (run_process k demo_state)) ∧ ∃ q,
    itemMutex (shared demo_state) + total inside (processes demo_state) = 1 ∧
    emptyCount (shared demo_state) + total holds_empty (processes demo_state) + len q = bufferSize ∧
    fullCount (shared demo_state) + total holds_full (processes demo_state) = len q ∧
    inserted (shared demo_state) = removed (shared demo_state) ++ q.
Proof. apply prodCons_progress. apply (run_all_running demo_run initial); [constructor|vm_compute; reflexivity]. Defined.
