(* ===== verification/Dummy.v ===== *)
(** * The demonstrations
    ([Userland/dummy/dummy.c], [Userland/dummy/stdio.c], [Userland/dummy/naiveConsole.c])

    The calls of [stdio.c] into the kernel, the process of [prodCons] that creates and
    removes the others, and the one of [philosophers] that creates them; what the others do is
    in [ProdCons] and [Philosophers].  [lit], [code] and [glob] say
    where the literals, functions and global variables are, [local] where [putchar] and [getchar] have their
    char. *)

From S2P Require Import Prelude KMonad CString Stdio User UserStdio UserStdioThms.

Definition MAX_CONSUMER : Z := 10.
Definition MAX_PRODUCER : Z := 10.
Definition DEFAULTP : Z := 5.
Definition ERROR : Z := -1.
Definition PROD_CONS : Z := 1.
Definition PHILOSOPHERS : Z := 4.

Section dummy.
Context {E : Type} `{Sys E} (lit code glob : string → Z) (local : Z) (fuel : nat).

(** ** [stdio.c] *)

Definition putchar (c : Z) : M E unit := putchar_local local c.
Definition getchar : M E Z := getchar_local local fuel.
Definition print (s : Z) : M E unit := UserStdio.print putchar fuel s.
Definition putNumber (n : Z) : M E unit := UserStdio.putNumber putchar n.
Definition printFF (format s n : Z) : M E unit := UserStdio.printFF putchar fuel format s n.
Definition scanFF (format s n : Z) : M E Z := UserStdio.scanFF putchar getchar fuel format s n.
Definition malloc (bytes : Z) : M E Z := UserStdio.malloc bytes.
Definition strcmp (str1 str2 : Z) : M E Z := UserStdio.strcmp fuel str1 str2.
Definition strcmpN (str1 str2 number : Z) : M E Z := UserStdio.strcmpN fuel str1 str2 number.

(** [digits] is not used. *)
Definition intToString (n buffer digits : Z) : M E unit :=
  store_char buffer (int8 (Z.rem (Z.quot n 10) 10 + 48)) ;;
  store_char (buffer + 1) (int8 (Z.rem n 10 + 48)) ;;
  store_char (buffer + 2) 0.

Definition printProcesses : M E unit := call 10 0 0.
Definition removeProcess (pid : Z) : M E unit := call 11 (uint64 pid) 0.
Definition lockMutex (mut : Z) : M E unit := call 20 (uint64 mut) 0.
Definition freeMutex (mut : Z) : M E unit := call 21 (uint64 mut) 0.
Definition getMutex (name : Z) : M E Z := r ← sys_call 19 name 0 0; mret (int32 r).
Definition createProcess (entry name args : Z) : M E Z := r ← sys_call 23 entry name args; mret (int32 r).
Definition wait (semaphore : Z) : M E unit := call 25 (uint64 semaphore) 0.
Definition signal (semaphore : Z) : M E unit := call 15 (uint64 semaphore) 0.
Definition semOpen (name : Z) : M E Z := r ← sys_call 16 name 0 0; mret (int32 r).
Definition semCreate (name start : Z) : M E Z := r ← sys_call 17 name (uint64 start) 0; mret (int32 r).
Definition semClose (index : Z) : M E unit := call 18 (uint64 index) 0.
Definition sleep (time : Z) : M E unit := call 24 (uint64 time) 0.

(** ** [control] *)

(** The element [k] of an array of [int]. *)
Definition elem (a : string) (k : Z) : Z := glob a + 4 * k.

Definition killAllProcesses_loop (pids : string) : nat → Z → M E unit :=
  fix loop (n : nat) (i : Z) := match n with
  | O => mret tt
  | S n' => pid ← load_int (elem pids i); removeProcess pid ;; loop n' (i + 1)
  end.

Definition killAllProcesses : M E unit :=
  producers ← load_int (glob "producers");
  killAllProcesses_loop "producerPid" (Z.to_nat producers) 0 ;;
  consumers ← load_int (glob "consumers");
  killAllProcesses_loop "consumerPid" (Z.to_nat consumers) 0.

(** The cases of the keys [c] and [p] are one text with the names of either kind, and
    those of [z] and [x]. *)
Definition add_process (count ids pids entry name : string) (max : Z) : M E unit :=
  n ← load_int (glob count);
  if n + 1 <=? max then
    store_int (elem ids n) n ;;
    store_int (glob count) (n + 1) ;;
    n ← load_int (glob count);
    pid ← createProcess (code entry) (lit name) (elem ids (n - 1));
    store_int (elem pids (n - 1)) pid
  else mret tt.

Definition add_consumer : M E unit :=
  add_process "consumers" "consumerID" "consumerPid" "consumer" "CONSUMER" MAX_CONSUMER.
Definition add_producer : M E unit :=
  add_process "producers" "producerID" "producerPid" "producer" "PRODUCER" MAX_PRODUCER.

Definition remove_last (count pids : string) : M E unit :=
  n ← load_int (glob count);
  if 0 <=? n - 1 then
    pid ← load_int (elem pids (n - 1));
    removeProcess pid ;;
    store_int (glob count) (n - 1)
  else mret tt.

Fixpoint control_loop (keys : nat) : M E unit :=
  match keys with
  | O => fault
  | S keys' =>
      c ← getchar;
      if c =? 113 then killAllProcesses ;; print (lit "PASOOO")
      else
        (if c =? 99 then add_consumer
         else if c =? 112 then add_producer
         else if c =? 122 then remove_last "producers" "producerPid"
         else if c =? 120 then remove_last "consumers" "consumerPid"
         else mret tt) ;;
        control_loop keys'
  end.

Definition control (keys : nat) : M E unit := control_loop keys.

Definition prodCons (keys : nat) : M E Z :=
  itemMutex ← semCreate (lit "itemMutex") 1;
  store_int (glob "itemMutex") itemMutex ;;
  fullCount ← semCreate (lit "fullCount") 0;
  store_int (glob "fullCount") fullCount ;;
  emptyCount ← semCreate (lit "emptyCount") 50;
  store_int (glob "emptyCount") emptyCount ;;
  store_int (elem "consumerID" 0) 0 ;;
  store_int (elem "producerID" 0) 0 ;;
  producers ← load_int (glob "producers");
  pid ← createProcess (code "producer") (lit "PRODUCER") (elem "producerID" (producers - 1));
  store_int (elem "producerPid" (producers - 1)) pid ;;
  consumers ← load_int (glob "consumers");
  pid ← createProcess (code "consumer") (lit "CONSUMER") (elem "consumerID" (consumers - 1));
  store_int (elem "consumerPid" (consumers - 1)) pid ;;
  control keys ;;
  mret 0.

(** ** Numbers as text *)

Fixpoint strlen_loop (fuel : nat) (c len : Z) : M E Z :=
  x ← load_char (c + len);
  if x =? 0 then mret len else match fuel with O => fault | S fuel' => strlen_loop fuel' c (len + 1) end.

Definition strlen (c : Z) : M E Z := strlen_loop fuel c 0.

Definition isdigit (c : Z) : Z := let ch := c - 48 in if (ch <=? 9) && (0 <=? ch) then 1 else 0.

(** [n] chars are left of [length]. *)
Fixpoint isNotInteger_loop (n : nat) (c i integer : Z) : M E Z :=
  match n with
  | O => mret integer
  | S n' =>
      current ← load_char (c + i);
      if isdigit current =? 0 then mret (-1)
      else isNotInteger_loop n' c (i + 1) (int32 (integer * 10 + (current - 48)))
  end.

Definition isNotInteger (c : Z) : M E Z :=
  length ← strlen c;
  isNotInteger_loop (Z.to_nat length) c 0 0.

Definition validateParameters (cant toValidate input : Z) : M E Z :=
  if 2 <? cant then print (lit "Cantidad de parametros invalido") ;; putchar 10 ;; mret (-1)
  else
    (if cant =? 1 then store_int input DEFAULTP
     else c ← load_ptr (toValidate + 8); v ← isNotInteger c; store_int input v) ;;
    v ← load_int input;
    if v =? -1 then print (lit "Error de parametros") ;; putchar 10 ;; mret (-1)
    else
      v ← load_int input;
      if 100 <=? v then
        print (lit "La cantidad de filosofos no puede ser mayor o igual a 100") ;; putchar 10 ;; mret (-1)
      else mret 0.

(** ** [naiveConsole.c] *)

Definition video : Z := 0xB8000.

Definition ncPrintChar (character : Z) : M E unit :=
  p ← load_ptr (glob "currentVideo");
  store_char p character ;;
  store_ptr (glob "currentVideo") (p + 2).

Fixpoint ncNewline_loop (fuel : nat) : M E unit :=
  match fuel with
  | O => fault
  | S fuel' =>
      putchar 32 ;;
      p ← load_ptr (glob "currentVideo");
      if negb (uint64 (p - video) mod (80 * 2) =? 0) then ncNewline_loop fuel' else mret tt
  end.
Definition ncNewline : M E unit := ncNewline_loop fuel.

Fixpoint ncClear_loop (n : nat) (i : Z) : M E unit :=
  match n with O => mret tt | S n' => store_char (video + i * 2) 32 ;; ncClear_loop n' (i + 1) end.
Definition ncClear : M E unit := ncClear_loop (25 * 80) 0 ;; store_ptr (glob "currentVideo") video.

(** Each call of [uintToBase] fills the buffer from its start. *)
Fixpoint ncPrint (string : list Z) : M E unit :=
  match string with
  | [] => fault
  | c :: string' => if c =? 0 then mret tt else putchar c ;; ncPrint string'
  end.

Definition ncPrintBase (value base : Z) : M E unit :=
  match uintToBase value (replicate 64 0) base with Some (_, buffer) => ncPrint buffer | None => fault end.

Definition ncPrintDec (value : Z) : M E unit := ncPrintBase value 10.
Definition ncPrintHex (value : Z) : M E unit := ncPrintBase value 16.
Definition ncPrintBin (value : Z) : M E unit := ncPrintBase value 2.

(** ** [philosophers] *)

(** The body of the loop of [startSemaphores]: true if the semaphore was created. *)
Definition startSemaphore (semaphores i : Z) : M E bool :=
  if i <? 10 then
    buffer ← malloc 3;
    intToString i buffer 1 ;;
    p ← load_ptr (semaphores + 8 * i);
    r ← semCreate buffer 0;
    store_int p r ;;
    if r =? ERROR then print (lit "AQUI2") ;; ncPrintDec (uint64 i) ;; mret false else mret true
  else
    buffer ← malloc 3;
    intToString i buffer 2 ;;
    p ← load_ptr (semaphores + 8 * i);
    r ← semCreate buffer 0;
    store_int p r ;;
    if r =? ERROR then print (lit "AQUI3") ;; mret false else mret true.

(** [n] iterations are left. *)
Fixpoint startSemaphores_loop (n : nat) (semaphores i : Z) : M E Z :=
  match n with
  | O => mret 0
  | S n' => b ← startSemaphore semaphores i; if b : bool then startSemaphores_loop n' semaphores (i + 1) else mret (-1)
  end.

Definition startSemaphores (mutex semaphores cant : Z) : M E Z :=
  r ← getMutex (lit "mutexp");
  store_int mutex r ;;
  if r =? ERROR then print (lit "AQUI") ;; mret (-1)
  else startSemaphores_loop (Z.to_nat cant) semaphores 0.

(** [threadArgument] has [cant] at 0, [sems] at 8, [mutex] at 16 and [value] at 24. *)
Fixpoint createThreads_loop (n : nat) (args total semaphores mutex i : Z) : M E unit :=
  match n with
  | O => mret tt
  | S n' =>
      arg ← malloc 32;
      store_ptr (args + 8 * i) arg ;;
      store_ptr (arg + 8) semaphores ;;
      store_ptr (arg + 16) mutex ;;
      store_int arg total ;;
      store_int (arg + 24) i ;;
      _ ← createProcess (code "philospher") (lit "PHILO") arg;
      print (lit "Philosopher ") ;;
      putNumber (i + 1) ;;
      print (lit " is thinking") ;;
      putchar 10 ;;
      createThreads_loop n' args total semaphores mutex (i + 1)
  end.

Definition createThreads (args total semaphores mutex : Z) : M E unit :=
  createThreads_loop (Z.to_nat total) args total semaphores mutex 0.

Fixpoint initializeArray_loop (n : nat) (array i : Z) : M E unit :=
  match n with
  | O => mret tt
  | S n' => p ← malloc 8; store_ptr (array + 8 * i) p ;; initializeArray_loop n' array (i + 1)
  end.

Definition initializeArray (array dim : Z) : M E unit := initializeArray_loop (Z.to_nat dim) array 0.

(** The local variables: [mutex], [semaphores], [st], and [args] of [createThreads]. *)
Definition dPhilosphers (mutex semaphores st args number : Z) : M E Z :=
  store_ptr (glob "state") st ;;
  initializeArray semaphores number ;;
  r ← startSemaphores mutex semaphores number;
  if r =? -1 then print (lit "FALLO") ;; mret (-1)
  else createThreads args number semaphores mutex ;; spin fuel ;; mret 0.

Definition philosophers (mutex semaphores st args : Z) : M E unit :=
  r ← dPhilosphers mutex semaphores st args DEFAULTP;
  if r =? -1 then mret tt else spin fuel.

(** What [arg->sems + value] points to. *)
Definition sem_of (arg : Z) : M E Z :=
  sems ← load_ptr (arg + 8);
  value ← load_int (arg + 24);
  load_int (sems + 4 * value).

Definition main (keys : nat) (mutex semaphores st args program : Z) : M E Z :=
  (if program =? PROD_CONS then _ ← prodCons keys; mret tt
   else if program =? PHILOSOPHERS then philosophers mutex semaphores st args
   else mret tt) ;;
  mret 0.
End dummy.
