(* ===== verification/DummyThms.v ===== *)
(** * Properties of [control] and [prodCons]

    Whatever is typed and whatever the kernel answers, the processes that were created are removed, each
    once, when [control] ends. *)

From S2P Require Import Prelude KMonad CString User UserStdio UserStdioThms Dummy.

Implicit Types s : Env.

(** ** Processes created and removed *)

(** The pids that the kernel gave for the calls of [l], made after those of [pre]. *)
Fixpoint created `{K : Kernel} (pre l : list event) : list Z :=
  match l with
  | [] => []
  | Call n a b c :: l' =>
      (if n =? 23 then [int32 (kernel_answer pre n a b c)] else []) ++ created (pre ++ [Call n a b c]) l'
  | Out c :: l' => created (pre ++ [Out c]) l'
  end.

(** The pids of the calls that remove a process. *)
Fixpoint killed (l : list event) : list Z :=
  match l with
  | [] => []
  | Call n a _ _ :: l' => (if n =? 11 then [a] else []) ++ killed l'
  | Out _ :: l' => killed l'
  end.

Lemma created_app `{K : Kernel} pre l1 l2 : created pre (l1 ++ l2) = created pre l1 ++ created (pre ++ l1) l2.
Proof.
  revert pre. induction l1 as [|[c|n a b c] l1 IH]; intros pre; cbn; [by rewrite app_nil_r|by rewrite IH, <-app_assoc|].
  by rewrite IH, <-!app_assoc.
Qed.

Lemma killed_app l1 l2 : killed (l1 ++ l2) = killed l1 ++ killed l2.
Proof. induction l1 as [|[c|n a b c] l1 IH]; cbn; [done|done|]. by rewrite IH, app_assoc. Qed.

Lemma created_outs `{K : Kernel} pre l : created pre (Out <$> l) = [].
Proof. revert pre. induction l as [|c l IH]; intros pre; cbn; [done|]. apply IH. Qed.

Lemma killed_outs l : killed (Out <$> l) = [].
Proof. by induction l. Qed.

(** ** Cells of memory *)

Definition int_at (m : mem) (a : Z) : Z := int32 (load32 m a).

Lemma int_store m a v : int_at (store32 m a v) a = int32 v.
Proof.
  unfold int_at. rewrite load32_store32. unfold wrap_s, wrap_u. by rewrite Z.add_mod_idemp_l.
Qed.

Section dummy.
Context `{K : Kernel} (lit code glob : string → Z) (local : Z) (fuel : nat) (Hfuel : (100 ≤ fuel)%nat).

Abbreviation elem := (Dummy.elem glob).

(** The globals, with their sizes. *)
Definition cells : list (string * Z) :=
  [("consumerID", 44); ("producerID", 44); ("consumerPid", 44); ("producerPid", 44); ("producers", 4); ("consumers", 4);
   ("itemMutex", 4); ("emptyCount", 4); ("fullCount", 4)].

(** They are apart from each other, above the literals ([top]) and below the heap and the stack ([lim]). *)
Record layout (top lim : Z) : Prop := {
  la_in x n : (x, n) ∈ cells → top ≤ glob x ∧ glob x + n ≤ lim;
  la_apart x n y k : (x, n) ∈ cells → (y, k) ∈ cells → x ≠ y → glob x + n ≤ glob y ∨ glob y + k ≤ glob x;
}.

Lemma int_frame top lim x nx y ny i j m v :
  layout top lim → (x, nx) ∈ cells → (y, ny) ∈ cells → x ≠ y → 0 ≤ i → 4 * i + 4 ≤ nx → 0 ≤ j → 4 * j + 4 ≤ ny →
  int_at (store32 m (elem x i) v) (elem y j) = int_at m (elem y j).
Proof.
  intros Hla Hx Hy Hne Hi Hi2 Hj Hj2. unfold int_at. f_equal. apply load32_frame.
  destruct (la_apart _ _ Hla x nx y ny Hx Hy Hne); unfold Dummy.elem; lia.
Qed.

Lemma int_frame_same x i j m v : i ≠ j → int_at (store32 m (elem x i) v) (elem x j) = int_at m (elem x j).
Proof. intros Hne. unfold int_at. f_equal. apply load32_frame. unfold Dummy.elem. lia. Qed.

Lemma elem_0 x : glob x = elem x 0.
Proof. unfold Dummy.elem. lia. Qed.

Lemma load_int_bind {A} p (f : Z → M Env A) s : (load_int p ≫= f) s = f (int_at (e_mem s) p) s.
Proof. done. Qed.

(** The array [pids] holds the [count] values [l]. *)
Record holds (count pids : string) (l : list Z) (m : mem) : Prop := {
  ho_count : int_at m (elem count 0) = Z.of_nat (length l);
  ho_len : (length l ≤ 10)%nat;
  ho_pid k p : l !! k = Some p → int_at m (elem pids (Z.of_nat k)) = p;
}.

(** Memory below [top], and all cells but those named, as before. *)
Record keeps (top : Z) (names : list string) (m m' : mem) : Prop := {
  ke_below : same_below top m m';
  ke_cell y ny j : (y, ny) ∈ cells → y ∉ names → 0 ≤ j → 4 * j + 4 ≤ ny → int_at m' (elem y j) = int_at m (elem y j);
}.

Lemma keeps_refl top names m : keeps top names m m.
Proof. by split. Qed.

Lemma keeps_trans top names m1 m2 m3 : keeps top names m1 m2 → keeps top names m2 m3 → keeps top names m1 m3.
Proof.
  intros [B1 C1] [B2 C2]. split; [by eapply same_below_trans|]. intros y ny j Hy Hn Hj Hj2.
  by rewrite (C2 y ny j Hy Hn Hj Hj2), (C1 y ny j).
Qed.

Lemma keeps_weaken top names names' m m' : (∀ y, y ∈ names → y ∈ names') → keeps top names m m' → keeps top names' m m'.
Proof. intros Hsub [B C]. split; [done|]. intros y ny j Hy Hn. apply (C y ny j Hy). auto. Qed.

Lemma keeps_store top lim x nx i v names m :
  layout top lim → (x, nx) ∈ cells → x ∈ names → 0 ≤ i → 4 * i + 4 ≤ nx → keeps top names m (store32 m (elem x i) v).
Proof.
  intros Hla Hx Hn Hi Hi2. split.
  - intros a Ha. rewrite store32_load. destruct (la_in _ _ Hla x nx Hx). unfold Dummy.elem. c_tests; reflexivity.
  - intros y ny j Hy Hny Hj Hj2. apply (int_frame top lim x nx y ny); try done. by intros ->.
Qed.

Lemma holds_keeps top names count pids nc np l m m' :
  keeps top names m m' → (count, nc) ∈ cells → (pids, np) ∈ cells → count ∉ names → pids ∉ names → 4 ≤ nc → 40 ≤ np →
  holds count pids l m → holds count pids l m'.
Proof.
  intros [_ Hk] Hc Hp Hnc Hnp H4 H40 [A B C]. split; [by rewrite (Hk count nc)|done|].
  intros k p Hkp. pose proof (lookup_lt_Some _ _ _ Hkp). rewrite (Hk pids np); [by apply C|done|done|lia|lia].
Qed.

(** ** What keys do *)

(** From [s] to [s'] the program did [l], below [lim] it changed cells only. *)
Record moves (top : Z) (names : list string) (l : list event) s s' : Prop := {
  mo_trace : e_trace s' = e_trace s ++ l;
  mo_in : e_in s' = e_in s;
  mo_brk : e_brk s' = e_brk s;
  mo_stack : e_stack s' = e_stack s;
  mo_mem : keeps top names (e_mem s) (e_mem s');
}.

Lemma moves_refl top names s : moves top names [] s s.
Proof. split; try done. by rewrite app_nil_r. Qed.

Lemma moves_trans top names l1 l2 s1 s2 s3 : moves top names l1 s1 s2 → moves top names l2 s2 s3 → moves top names (l1 ++ l2) s1 s3.
Proof.
  intros [T1 I1 B1 S1 M1] [T2 I2 B2 S2 M2]. split; [by rewrite T2, T1, app_assoc|congruence|congruence|congruence|by eapply keeps_trans].
Qed.

Lemma store_int_moves top lim x nx i v names s :
  layout top lim → (x, nx) ∈ cells → x ∈ names → 0 ≤ i → 4 * i + 4 ≤ nx →
  ∃ s', store_int (elem x i) v s = Done tt s' ∧ moves top names [] s s' ∧ e_mem s' = store32 (e_mem s) (elem x i) v.
Proof.
  intros Hla Hx Hn Hi Hi2. eexists. split; [done|]. split; [|done]. split; cbn; try done; [by rewrite app_nil_r|].
  by eapply keeps_store.
Qed.

Lemma createProcess_moves top names entry name args s :
  let l := [Call 23 entry name args] in
  ∃ s', createProcess entry name args s = Done (int32 (kernel_answer (e_trace s) 23 entry name args)) s' ∧
    moves top names l s s' ∧ e_mem s' = e_mem s.
Proof. eexists. split; [done|]. split; [|done]. by split. Qed.

Lemma removeProcess_moves top names pid s :
  ∃ s', removeProcess pid s = Done tt s' ∧ moves top names [Call 11 (uint64 pid) 0 0] s s' ∧ e_mem s' = e_mem s.
Proof. eexists. split; [done|]. split; [|done]. by split. Qed.

Lemma int32_int32 v : int32 (int32 v) = int32 v.
Proof. apply wrap_s_id; [lia|]. apply (wrap_s_range 32). lia. Qed.

Lemma int32_small v : 0 ≤ v ≤ 100 → int32 v = v.
Proof. intros Hv. apply wrap_s_id; lia. Qed.

(** What is created is known, what is removed was known. *)
Lemma add_process_spec top lim count ids pids entry name l s :
  layout top lim → (count, 4) ∈ cells → (ids, 44) ∈ cells → (pids, 44) ∈ cells → count ≠ ids → count ≠ pids →
  holds count pids l (e_mem s) →
  ∃ s' evs, add_process lit code glob count ids pids entry name 10 s = Done tt s' ∧ moves top [count; ids; pids] evs s s' ∧
    killed evs = [] ∧ holds count pids (l ++ created (e_trace s) evs) (e_mem s').
Proof.
  intros Hla Hc Hi Hp N1 N2 [A B C]. unfold add_process. rewrite (elem_0 count), load_int_bind, A.
  destruct (Z.leb_spec (Z.of_nat (length l) + 1) 10) as [Hle|Hgt].
  2:{ exists s, []. split; [done|]. split; [apply moves_refl|]. split; [done|]. cbn. rewrite app_nil_r. by split. }
  set (n := Z.of_nat (length l)) in *.
  destruct (store_int_moves top lim ids 44 n n [count; ids; pids] s Hla Hi ltac:(rewrite !elem_of_cons; tauto) ltac:(lia) ltac:(lia)) as (s1 & E1 & D1 & M1).
  rewrite (bind_done _ _ _ _ _ E1).
  destruct (store_int_moves top lim count 4 0 (n + 1) [count; ids; pids] s1 Hla Hc ltac:(rewrite !elem_of_cons; tauto) ltac:(lia) ltac:(lia)) as (s2 & E2 & D2 & M2).
  rewrite (bind_done _ _ _ _ _ E2), load_int_bind, M2, int_store, int32_small by lia.
  replace (n + 1 - 1) with n by lia.
  destruct (createProcess_moves top [count; ids; pids] (code entry) (lit name) (elem ids n) s2) as (s3 & E3 & D3 & M3).
  rewrite (bind_done _ _ _ _ _ E3).
  set (pid := int32 (kernel_answer (e_trace s2) 23 (code entry) (lit name) (elem ids n))) in *.
  destruct (store_int_moves top lim pids 44 n pid [count; ids; pids] s3 Hla Hp ltac:(rewrite !elem_of_cons; tauto) ltac:(lia) ltac:(lia)) as (s4 & E4 & D4 & M4).
  rewrite E4. exists s4, [Call 23 (code entry) (lit name) (elem ids n)]. split; [done|].
  split; [exact (moves_trans _ _ _ _ _ _ _ D1 (moves_trans _ _ _ _ _ _ _ D2 (moves_trans _ _ _ _ _ _ _ D3 D4)))|].
  split; [done|]. assert (T2 : e_trace s2 = e_trace s) by (by rewrite (mo_trace _ _ _ _ _ D2), (mo_trace _ _ _ _ _ D1), !app_nil_r).
  cbn. rewrite <-T2. fold pid. rewrite M4, M3, M2, M1. split.
  - rewrite (int_frame top lim pids 44 count 4) by (done || lia). rewrite int_store, length_app, int32_small by lia. simpl. lia.
  - rewrite length_app. simpl. lia.
  - intros k p [Hk|[Hk Hk']]%lookup_app_Some.
    + pose proof (lookup_lt_Some _ _ _ Hk). rewrite int_frame_same by lia.
      rewrite (int_frame top lim count 4 pids 44) by (done || lia). destruct (decide (ids = pids)) as [->|N3].
      * rewrite int_frame_same by lia. by apply C.
      * rewrite (int_frame top lim ids 44 pids 44) by (done || lia). by apply C.
    + destruct (k - length l)%nat eqn:Ek; [|done]. injection Hk' as <-. assert (k = length l) as -> by lia.
      rewrite int_store. apply int32_int32.
Qed.

Lemma remove_last_spec top lim count pids l s :
  layout top lim → (count, 4) ∈ cells → (pids, 44) ∈ cells → count ≠ pids → holds count pids l (e_mem s) →
  ∃ s' evs l', remove_last glob count pids s = Done tt s' ∧ moves top [count; pids] evs s s' ∧
    created (e_trace s) evs = [] ∧ (killed evs ++ (uint64 <$> l') ≡ₚ (uint64 <$> l)) ∧ holds count pids l' (e_mem s').
Proof.
  intros Hla Hc Hp N [A B C]. unfold remove_last. rewrite (elem_0 count), load_int_bind, A.
  destruct l as [|x l _] using rev_ind.
  { cbn. exists s, [], []. split; [done|]. split; [apply moves_refl|]. split; [done|]. split; [done|]. by split. }
  rewrite length_app in *. cbn [length] in *. destruct (Z.leb_spec 0 (Z.of_nat (length l + 1) - 1)); [|lia].
  rewrite load_int_bind. replace (Z.of_nat (length l + 1) - 1) with (Z.of_nat (length l)) by lia.
  rewrite (C (length l) x) by (by rewrite lookup_app_r, Nat.sub_diag by lia).
  destruct (removeProcess_moves top [count; pids] x s) as (s1 & E1 & D1 & M1). rewrite (bind_done _ _ _ _ _ E1).
  destruct (store_int_moves top lim count 4 0 (Z.of_nat (length l)) [count; pids] s1 Hla Hc ltac:(rewrite !elem_of_cons; tauto) ltac:(lia) ltac:(lia)) as (s2 & E2 & D2 & M2).
  rewrite E2. exists s2, [Call 11 (uint64 x) 0 0], l. split; [done|]. split; [exact (moves_trans _ _ _ _ _ _ _ D1 D2)|].
  split; [done|]. split; [rewrite fmap_app; cbn; by rewrite Permutation_app_comm|].
  rewrite M2, M1. split; [rewrite int_store; apply int32_small; lia|lia|].
  intros k p Hk. pose proof (lookup_lt_Some _ _ _ Hk). rewrite (int_frame top lim count 4 pids 44) by (done || lia).
  apply C. by apply lookup_app_l_Some.
Qed.

Lemma kill_loop_spec top names pids n i l s :
  (∀ k p, l !! k = Some p → int_at (e_mem s) (elem pids (i + Z.of_nat k)) = p) → length l = n →
  ∃ s' evs, killAllProcesses_loop glob pids n i s = Done tt s' ∧ moves top names evs s s' ∧ e_mem s' = e_mem s ∧
    created (e_trace s) evs = [] ∧ killed evs = uint64 <$> l.
Proof.
  revert i l s. induction n as [|n IH]; intros i l s Hl Hlen; cbn [killAllProcesses_loop].
  - destruct l; [|done]. exists s, []. split; [done|]. split; [apply moves_refl|done].
  - destruct l as [|x l]; [done|]. injection Hlen as Hlen. rewrite load_int_bind.
    pose proof (Hl 0%nat x eq_refl) as Hx. rewrite Z.add_0_r in Hx. rewrite Hx.
    destruct (removeProcess_moves top names x s) as (s1 & E1 & D1 & M1). rewrite (bind_done _ _ _ _ _ E1).
    destruct (IH (i + 1) l s1) as (s2 & evs & E2 & D2 & M2 & K2 & K3); [|done|].
    { intros k p Hk. rewrite M1, <-(Hl (S k) p Hk). f_equal. f_equal. lia. }
    exists s2, ([Call 11 (uint64 x) 0 0] ++ evs). split; [done|]. split; [exact (moves_trans _ _ _ _ _ _ _ D1 D2)|].
    split; [congruence|]. split; [|by rewrite killed_app, K3].
    rewrite created_app. cbn. by rewrite <-(mo_trace _ _ _ _ _ D1).
Qed.

(** ** The loop of [control] *)

Definition crew : list string := ["consumerID"; "producerID"; "consumerPid"; "producerPid"; "producers"; "consumers"].

Record ctl_ok (top lim : Z) (ps cs : list Z) s : Prop := {
  ct_ready : ready local lim s;
  ct_layout : layout top lim;
  ct_ps : holds "producers" "producerPid" ps (e_mem s);
  ct_cs : holds "consumers" "consumerPid" cs (e_mem s);
  ct_text : 0 ≤ top ≤ lim ∧ str_below top (e_mem s) (lit "PASOOO") (chars "PASOOO");
}.

(** All pids are accounted for: those known before or made in [evs] are known now or
    removed in [evs]. *)
Definition balanced (pre evs : list event) (before after : list Z) : Prop :=
  killed evs ++ (uint64 <$> after) ≡ₚ (uint64 <$> before ++ created pre evs).

Lemma balanced_trans pre l1 l2 a b c :
  balanced pre l1 a b → balanced (pre ++ l1) l2 b c → balanced pre (l1 ++ l2) a c.
Proof.
  unfold balanced. intros B1 B2. rewrite killed_app, created_app, <-app_assoc, B2, fmap_app, (app_assoc (killed l1)), B1.
  by rewrite !fmap_app, <-!app_assoc.
Qed.

Lemma moves_crew top names evs s s' :
  moves top names evs s s' → forallb (λ y, bool_decide (y ∈ crew)) names = true → moves top crew evs s s'.
Proof.
  intros [T I B S Mm] Hsub. split; try done. eapply keeps_weaken; [|exact Mm]. intros y Hy.
  rewrite forallb_forall in Hsub. apply list_elem_of_In, Hsub, bool_decide_eq_true in Hy. done.
Qed.

Lemma moves_ctl top lim names evs ps cs ps' cs' s s' :
  moves top names evs s s' → ctl_ok top lim ps cs s →
  holds "producers" "producerPid" ps' (e_mem s') → holds "consumers" "consumerPid" cs' (e_mem s') → ctl_ok top lim ps' cs' s'.
Proof.
  intros [T I B S Mm] [[[R1 R2] Rs] Hla _ _ [Ht Htx]] Hp Hc. split; try done.
  - split; [split; [by rewrite B|by rewrite S]|by rewrite S].
  - split; [done|]. eapply str_same; [|done]. apply Mm.
Qed.

Lemma does_keeps top lim i l names s s' : layout top lim → top ≤ lim → does lim i l s s' → keeps top names (e_mem s) (e_mem s').
Proof.
  intros Hla Htl D. split; [eapply same_below_weaken; [exact Htl|apply D]|]. intros y ny j Hy _ Hj Hj2.
  unfold int_at. f_equal. destruct (la_in _ _ Hla y ny Hy). unfold load32.
  rewrite !(do_mem _ _ _ _ _ D) by (unfold Dummy.elem; lia). done.
Qed.

Ltac cell := vm_compute; repeat (first [left | right]).

Lemma does_ctl top lim i l ps cs s s' : does lim i l s s' → ctl_ok top lim ps cs s → ctl_ok top lim ps cs s'.
Proof.
  intros D [Hr Hla Hp Hc [Ht Htx]]. pose proof (does_keeps top lim i l [] s s' Hla ltac:(lia) D) as Hk.
  split; [by eapply ready_does|done| | |].
  - refine (holds_keeps _ _ "producers" "producerPid" 4 44 ps _ _ Hk _ _ _ _ _ _ _); first [done|lia|by apply not_elem_of_nil|solve [cell]].
  - refine (holds_keeps _ _ "consumers" "consumerPid" 4 44 cs _ _ Hk _ _ _ _ _ _ _); first [done|lia|by apply not_elem_of_nil|solve [cell]].
  - split; [done|]. eapply str_same; [|done]. apply Hk.
Qed.

(** A key other than [q]. *)
Definition key_action (c : Z) : M Env unit :=
  if c =? 99 then add_consumer lit code glob
  else if c =? 112 then add_producer lit code glob
  else if c =? 122 then remove_last glob "producers" "producerPid"
  else if c =? 120 then remove_last glob "consumers" "consumerPid"
  else mret tt.

Lemma key_spec top lim ps cs c s :
  ctl_ok top lim ps cs s →
  ∃ s' evs ps' cs', key_action c s = Done tt s' ∧ moves top crew evs s s' ∧ ctl_ok top lim ps' cs' s' ∧
    balanced (e_trace s) evs (ps ++ cs) (ps' ++ cs').
Proof.
  intros Hok. pose proof Hok as [Hr Hla Hp Hc Ht]. unfold key_action, add_consumer, add_producer.
  destruct (c =? 99); [|destruct (c =? 112); [|destruct (c =? 122); [|destruct (c =? 120)]]].
  - destruct (add_process_spec top lim "consumers" "consumerID" "consumerPid" "consumer" "CONSUMER" cs s) as (s' & evs & E1 & D1 & K1 & H1);
      [done|cell|cell|cell|done|done|done|]. pose proof (moves_crew _ _ _ _ _ D1 eq_refl) as D1'.
    pose proof (holds_keeps _ _ "producers" "producerPid" 4 44 ps _ _ (mo_mem _ _ _ _ _ D1) ltac:(cell) ltac:(cell) ltac:(set_solver) ltac:(set_solver) ltac:(lia) ltac:(lia) Hp) as Hp'.
    exists s', evs, ps, (cs ++ created (e_trace s) evs). split; [done|]. split; [done|]. split; [by eapply moves_ctl|].
    unfold balanced. by rewrite K1, app_assoc.
  - destruct (add_process_spec top lim "producers" "producerID" "producerPid" "producer" "PRODUCER" ps s) as (s' & evs & E1 & D1 & K1 & H1);
      [done|cell|cell|cell|done|done|done|]. pose proof (moves_crew _ _ _ _ _ D1 eq_refl) as D1'.
    pose proof (holds_keeps _ _ "consumers" "consumerPid" 4 44 cs _ _ (mo_mem _ _ _ _ _ D1) ltac:(cell) ltac:(cell) ltac:(set_solver) ltac:(set_solver) ltac:(lia) ltac:(lia) Hc) as Hc'.
    exists s', evs, (ps ++ created (e_trace s) evs), cs. split; [done|]. split; [done|]. split; [by eapply moves_ctl|].
    unfold balanced. rewrite K1. cbn. by rewrite <-!app_assoc, (Permutation_app_comm cs).
  - destruct (remove_last_spec top lim "producers" "producerPid" ps s) as (s' & evs & ps' & E1 & D1 & C1 & K1 & H1);
      [done|cell|cell|done|done|]. pose proof (moves_crew _ _ _ _ _ D1 eq_refl) as D1'.
    pose proof (holds_keeps _ _ "consumers" "consumerPid" 4 44 cs _ _ (mo_mem _ _ _ _ _ D1) ltac:(cell) ltac:(cell) ltac:(set_solver) ltac:(set_solver) ltac:(lia) ltac:(lia) Hc) as Hc'.
    exists s', evs, ps', cs. split; [done|]. split; [done|]. split; [by eapply moves_ctl|].
    unfold balanced. by rewrite C1, app_nil_r, !fmap_app, app_assoc, K1.
  - destruct (remove_last_spec top lim "consumers" "consumerPid" cs s) as (s' & evs & cs' & E1 & D1 & C1 & K1 & H1);
      [done|cell|cell|done|done|]. pose proof (moves_crew _ _ _ _ _ D1 eq_refl) as D1'.
    pose proof (holds_keeps _ _ "producers" "producerPid" 4 44 ps _ _ (mo_mem _ _ _ _ _ D1) ltac:(cell) ltac:(cell) ltac:(set_solver) ltac:(set_solver) ltac:(lia) ltac:(lia) Hp) as Hp'.
    exists s', evs, ps, cs'. split; [done|]. split; [done|]. split; [by eapply moves_ctl|].
    unfold balanced. rewrite C1, app_nil_r, !fmap_app, <-K1.
    by rewrite (app_assoc (killed evs)), (Permutation_app_comm (killed evs)), <-app_assoc.
  - exists s, [], ps, cs. split; [done|]. split; [apply moves_refl|]. split; [done|]. unfold balanced. cbn. by rewrite app_nil_r.
Qed.

Lemma killAll_spec top lim ps cs s :
  ctl_ok top lim ps cs s →
  ∃ s' evs, killAllProcesses glob s = Done tt s' ∧ moves top crew evs s s' ∧ ctl_ok top lim ps cs s' ∧
    balanced (e_trace s) evs (ps ++ cs) [].
Proof.
  intros Hok. pose proof Hok as [Hr Hla Hp Hc Ht]. unfold killAllProcesses.
  rewrite (elem_0 "producers"), load_int_bind, (ho_count _ _ _ _ Hp), Nat2Z.id.
  destruct (kill_loop_spec top crew "producerPid" (length ps) 0 ps s (ho_pid _ _ _ _ Hp) eq_refl) as (s1 & e1 & E1 & D1 & M1 & C1 & K1).
  rewrite (bind_done _ _ _ _ _ E1), (elem_0 "consumers"), load_int_bind, M1, (ho_count _ _ _ _ Hc), Nat2Z.id.
  rewrite <-M1 in Hp, Hc.
  destruct (kill_loop_spec top crew "consumerPid" (length cs) 0 cs s1 (ho_pid _ _ _ _ Hc) eq_refl) as (s2 & e2 & E2 & D2 & M2 & C2 & K2).
  exists s2, (e1 ++ e2). split; [done|]. pose proof (moves_trans _ _ _ _ _ _ _ D1 D2) as D. split; [done|].
  split; [eapply moves_ctl; [exact D|exact Hok|by rewrite M2|by rewrite M2]|].
  unfold balanced. rewrite killed_app, K1, K2, created_app, C1, <-(mo_trace _ _ _ _ _ D1), C2. cbn. by rewrite !app_nil_r, fmap_app.
Qed.

(** What may be typed before [q]. *)
Definition key (c : Z) : Prop := is_char c ∧ c ≠ 0 ∧ c ≠ 113.

Lemma getchar_spec lim c l s :
  ready local lim s → is_char c → c ≠ 0 → e_in s = c :: l →
  ∃ s', Dummy.getchar local fuel s = Done c s' ∧ does lim [c] [] s s' ∧ e_in s' = l ∧ e_trace s' = e_trace s.
Proof.
  intros [Hr Hs] Hc H0 Hin. destruct fuel as [|f] eqn:Ef; [lia|].
  destruct (getchar_local_reads local f lim c l s Hc H0 Hr Hs Hin) as (s' & E & D). exists s'. split; [done|]. split; [done|].
  pose proof (do_in _ _ _ _ _ D) as I. rewrite Hin in I. split; [by injection I|].
  by rewrite (do_trace _ _ _ _ _ D), app_nil_r.
Qed.

Lemma control_spec top lim keys rest ps cs s :
  ctl_ok top lim ps cs s → Forall key keys → e_in s = keys ++ [113] ++ rest →
  ∃ s' evs, control lit code glob local fuel (S (length keys)) s = Done tt s' ∧ e_trace s' = e_trace s ++ evs ∧ e_in s' = rest ∧
    balanced (e_trace s) evs (ps ++ cs) [].
Proof.
  unfold control. revert ps cs s. induction keys as [|c keys IH]; intros ps cs s Hok Hkeys Hin; cbn [length control_loop].
  - destruct (getchar_spec lim 113 rest s (ct_ready _ _ _ _ _ Hok) ltac:(done) ltac:(done) Hin) as (s1 & E1 & D1 & I1 & T1).
    rewrite (bind_done _ _ _ _ _ E1). cbn [Z.eqb Pos.eqb].
    destruct (killAll_spec top lim ps cs s1) as (s2 & evs & E2 & D2 & Hok2 & B2); [by eapply does_ctl|].
    rewrite (bind_done _ _ _ _ _ E2). pose proof (ct_text _ _ _ _ _ Hok2) as [Htl Htx].
    destruct (print_spec local (putchar_local local) (putchar_local_writes local) fuel lim (lit "PASOOO") (chars "PASOOO") s2)
      as (s3 & E3 & D3); [apply Hok2|eapply str_below_weaken; [|exact Htx]; lia|simpl; lia|].
    exists s3, (evs ++ (Out <$> chars "PASOOO")). split; [done|]. pose proof (do_in _ _ _ _ _ D3) as I3. simpl in I3.
    split; [by rewrite (do_trace _ _ _ _ _ D3), (mo_trace _ _ _ _ _ D2), T1, app_assoc|].
    split; [by rewrite <-I3, (mo_in _ _ _ _ _ D2)|]. rewrite T1 in B2. eapply balanced_trans; [exact B2|].
    unfold balanced. by rewrite killed_outs, created_outs.
  - apply list.Forall_cons in Hkeys as [(Hc & H0 & Hq) Hkeys].
    destruct (getchar_spec lim c (keys ++ [113] ++ rest) s (ct_ready _ _ _ _ _ Hok) Hc H0 Hin) as (s1 & E1 & D1 & I1 & T1).
    rewrite (bind_done _ _ _ _ _ E1), (proj2 (Z.eqb_neq c 113)) by done.
    destruct (key_spec top lim ps cs c s1) as (s2 & evs & ps' & cs' & E2 & D2 & Hok2 & B2); [by eapply does_ctl|].
    unfold key_action in E2. rewrite (bind_done _ _ _ _ _ E2).
    destruct (IH ps' cs' s2 Hok2 Hkeys) as (s3 & evs' & E3 & T3 & I3 & B3); [by rewrite (mo_in _ _ _ _ _ D2)|].
    exists s3, (evs ++ evs'). split; [exact E3|]. rewrite (mo_trace _ _ _ _ _ D2), T1 in T3, B3. rewrite T1 in B2.
    split; [by rewrite T3, app_assoc|]. split; [done|]. by eapply balanced_trans.
Qed.

(** The program as it is loaded: one producer and one consumer to come. *)
Record start_ok (top lim : Z) s : Prop := {
  st_ready : ready local lim s;
  st_layout : layout top lim;
  st_producers : int_at (e_mem s) (glob "producers") = 1;
  st_consumers : int_at (e_mem s) (glob "consumers") = 1;
  st_text : 0 ≤ top ≤ lim ∧ str_below top (e_mem s) (lit "PASOOO") (chars "PASOOO");
}.

Definition others : list string :=
  ["itemMutex"; "fullCount"; "emptyCount"; "consumerID"; "producerID"; "producerPid"; "consumerPid"].

(** A semaphore is created and its number stored. *)
Lemma sem_spec top lim name var start s :
  layout top lim → (var, 4) ∈ cells → var ∈ others →
  ∃ s', (∀ A (k : unit → M Env A),
      (semCreate (lit name) start ≫= λ r, store_int (glob var) r ≫= k) s = k tt s') ∧
    moves top others [Call 17 (lit name) (uint64 start) 0] s s'.
Proof.
  intros Hla Hv Ho. set (r := int32 (kernel_answer (e_trace s) 17 (lit name) (uint64 start) 0)).
  set (s1 := env_event (Call 17 (lit name) (uint64 start) 0) s).
  destruct (store_int_moves top lim var 4 0 r others s1 Hla Hv Ho ltac:(lia) ltac:(lia)) as (s2 & E2 & D2 & M2).
  exists s2. split; [intros A k; rewrite (elem_0 var); exact (bind_done _ _ _ _ _ E2)|].
  apply (moves_trans top others [Call 17 (lit name) (uint64 start) 0] [] s s1 s2); [by split|exact D2].
Qed.

(** The first producer and consumer. *)
Lemma prodCons_start top lim keys s :
  start_ok top lim s →
  ∃ s' evs p c, prodCons lit code glob local fuel keys s = (control lit code glob local fuel keys ≫= λ _, mret 0) s' ∧
    e_trace s' = e_trace s ++ evs ∧ e_in s' = e_in s ∧ ctl_ok top lim [p] [c] s' ∧ balanced (e_trace s) evs [] [p; c].
Proof.
  intros [Hr Hla Hp Hc Ht]. unfold prodCons.
  destruct (sem_spec top lim "itemMutex" "itemMutex" 1 s Hla ltac:(cell) ltac:(cell)) as (s1 & E1 & D1). rewrite E1. cbn beta.
  destruct (sem_spec top lim "fullCount" "fullCount" 0 s1 Hla ltac:(cell) ltac:(cell)) as (s2 & E2 & D2). rewrite E2. cbn beta.
  destruct (sem_spec top lim "emptyCount" "emptyCount" 50 s2 Hla ltac:(cell) ltac:(cell)) as (s3 & E3 & D3). rewrite E3. cbn beta.
  destruct (store_int_moves top lim "consumerID" 44 0 0 others s3 Hla ltac:(cell) ltac:(cell) ltac:(lia) ltac:(lia)) as (s4 & E4 & D4 & _).
  rewrite (bind_done _ _ _ _ _ E4).
  destruct (store_int_moves top lim "producerID" 44 0 0 others s4 Hla ltac:(cell) ltac:(cell) ltac:(lia) ltac:(lia)) as (s5 & E5 & D5 & _).
  rewrite (bind_done _ _ _ _ _ E5).
  pose proof (moves_trans _ _ _ _ _ _ _ D1 (moves_trans _ _ _ _ _ _ _ D2 (moves_trans _ _ _ _ _ _ _ D3 (moves_trans _ _ _ _ _ _ _ D4 D5)))) as D15.
  assert (Hcell : ∀ y, y = "producers" ∨ y = "consumers" → (y, 4) ∈ cells ∧ y ∉ others).
  { intros y [->| ->]; (split; [cell|]); apply (bool_decide_unpack _); vm_compute; done. }
  assert (Hone : ∀ y s', y = "producers" ∨ y = "consumers" → keeps top others (e_mem s) (e_mem s') → int_at (e_mem s') (elem y 0) = 1).
  { intros y s' Hy Hk. destruct (Hcell y Hy). rewrite (ke_cell _ _ _ _ Hk y 4 0), <-elem_0 by (done || lia).
    by destruct Hy as [->| ->]. }
  rewrite (elem_0 "producers"), load_int_bind, (Hone "producers" s5) by (auto; apply D15). change (1 - 1) with 0.
  destruct (createProcess_moves top others (code "producer") (lit "PRODUCER") (elem "producerID" 0) s5) as (s6 & E6 & D6 & M6).
  rewrite (bind_done _ _ _ _ _ E6). set (p := int32 (kernel_answer _ 23 (code "producer") (lit "PRODUCER") (elem "producerID" 0))) in *.
  destruct (store_int_moves top lim "producerPid" 44 0 p others s6 Hla ltac:(cell) ltac:(cell) ltac:(lia) ltac:(lia)) as (s7 & E7 & D7 & M7).
  rewrite (bind_done _ _ _ _ _ E7). pose proof (moves_trans _ _ _ _ _ _ _ D15 (moves_trans _ _ _ _ _ _ _ D6 D7)) as D17.
  rewrite (elem_0 "consumers"), load_int_bind, (Hone "consumers" s7) by (auto; apply D17). change (1 - 1) with 0.
  destruct (createProcess_moves top others (code "consumer") (lit "CONSUMER") (elem "consumerID" 0) s7) as (s8 & E8 & D8 & M8).
  rewrite (bind_done _ _ _ _ _ E8). set (c := int32 (kernel_answer _ 23 (code "consumer") (lit "CONSUMER") (elem "consumerID" 0))) in *.
  destruct (store_int_moves top lim "consumerPid" 44 0 c others s8 Hla ltac:(cell) ltac:(cell) ltac:(lia) ltac:(lia)) as (s9 & E9 & D9 & M9).
  rewrite (bind_done _ _ _ _ _ E9). pose proof (moves_trans _ _ _ _ _ _ _ D17 (moves_trans _ _ _ _ _ _ _ D8 D9)) as D19.
  eexists s9, _, p, c. split; [reflexivity|]. split; [apply D19|]. split; [apply D19|]. split.
  - destruct Hr as [[R1 R2] Rs]. pose proof (mo_brk _ _ _ _ _ D19). pose proof (mo_stack _ _ _ _ _ D19).
    split; [split; [split; [lia|congruence]|congruence]|done| | |].
    + split; [by rewrite (Hone "producers" s9) by (auto; apply D19)|simpl; lia|]. intros [|k] v Hk; [|done]. injection Hk as <-.
      rewrite M9, (int_frame top lim "consumerPid" 44 "producerPid" 44), M8, M7, int_store by (done || lia || cell). apply int32_int32.
    + split; [by rewrite (Hone "consumers" s9) by (auto; apply D19)|simpl; lia|]. intros [|k] v Hk; [|done]. injection Hk as <-.
      rewrite M9, int_store. apply int32_int32.
    + split; [apply Ht|]. eapply str_same; [apply D19|apply Ht].
  - unfold balanced. cbn [killed app Z.eqb Pos.eqb created]. 
    assert (T5 : e_trace s5 = e_trace s ++ [Call 17 (lit "itemMutex") (uint64 1) 0; Call 17 (lit "fullCount") (uint64 0) 0; Call 17 (lit "emptyCount") (uint64 50) 0]) by apply D15.
    assert (T7 : e_trace s7 = e_trace s5 ++ [Call 23 (code "producer") (lit "PRODUCER") (elem "producerID" 0)]).
    { rewrite (mo_trace _ _ _ _ _ D7), (mo_trace _ _ _ _ _ D6), app_nil_r. done. }
    unfold p, c. rewrite T7, T5, <-!app_assoc. done.
Qed.
End dummy.

(** ** The theorem *)

(** [prodCons] leaves no process behind: it creates one producer and one consumer, and whatever
    is typed before [q], and whatever the kernel answers, it returns after the [q]; each process that
    it created (the pids that the kernel gave it) has been removed exactly once, and it
    removed no other. *)
Theorem prodCons_cleans_up `{K : Kernel} lit code glob local fuel top lim keys rest s :
  (100 ≤ fuel)%nat → start_ok lit glob local top lim s → Forall key keys → e_in s = keys ++ [113] ++ rest →
  ∃ s' evs, prodCons lit code glob local fuel (S (length keys)) s = Done 0 s' ∧
    e_trace s' = e_trace s ++ evs ∧ e_in s' = rest ∧ (killed evs ≡ₚ uint64 <$> created (e_trace s) evs).
Proof.
  intros Hf Hs Hk Hin.
  destruct (prodCons_start lit code glob local fuel Hf top lim (S (length keys)) s Hs) as (s1 & e1 & p & c & -> & T1 & I1 & Hok & B1).
  rewrite <-I1 in Hin.
  destruct (control_spec lit code glob local fuel Hf top lim keys rest [p] [c] s1 Hok Hk Hin) as (s2 & e2 & E2 & T2 & I2 & B2).
  rewrite (bind_done _ _ _ _ _ E2). exists s2, (e1 ++ e2). split; [done|]. split; [by rewrite T2, T1, app_assoc|].
  split; [done|]. rewrite T1 in B2. pose proof (balanced_trans _ _ _ _ _ _ B1 B2) as B. unfold balanced in B.
  cbn in B. by rewrite app_nil_r in B.
Qed.

(** Globals from 4096 on, [PASOOO] at 16; the kernel numbers the processes. *)
Definition demo_glob (x : string) : Z :=
  match list_find (λ c : string * Z, c.1 = x) cells with Some (k, _) => 4096 + 64 * Z.of_nat k | None => 0 end.
Definition demo_mem : mem :=
  store32 (store32 (λ a, default 0 ((replicate 16 0 ++ chars "PASOOO") !! Z.to_nat a)) (demo_glob "producers") 1) (demo_glob "consumers") 1.
#[local] Instance demo_kernel : Kernel := λ pre n _ _ _, if n =? 23 then 5 + Z.of_nat (length pre) else 0.
Definition demo_keys : list Z := chars "ppzcx".
Definition demo_env : Env := mkEnv demo_mem (demo_keys ++ [113] ++ chars "ls") [] 8192 65536.

Lemma demo_layout : layout demo_glob 64 8192.
Proof.
  assert (H1 : Forall (λ c : string * Z, 64 ≤ demo_glob c.1 ∧ demo_glob c.1 + c.2 ≤ 8192) cells)
    by (apply (bool_decide_unpack _); vm_compute; done).
  assert (H2 : Forall (λ c : string * Z, Forall (λ d : string * Z,
      c.1 ≠ d.1 → demo_glob c.1 + c.2 ≤ demo_glob d.1 ∨ demo_glob d.1 + d.2 ≤ demo_glob c.1) cells) cells)
    by (apply (bool_decide_unpack _); vm_compute; done).
  rewrite !list.Forall_forall in H1, H2. split.
  - intros x n Hx. by apply (H1 (x, n)).
  - intros x n y k Hx Hy. specialize (H2 (x, n) Hx). rewrite list.Forall_forall in H2. by apply (H2 (y, k)).
Qed.

Lemma prodCons_cleans_up_witness :
  ∃ s' evs, prodCons (λ _, 16) (λ _, 0) demo_glob 65536 100 6 demo_env = Done 0 s' ∧
    e_trace s' = [] ++ evs ∧ e_in s' = chars "ls" ∧ (killed evs ≡ₚ uint64 <$> created [] evs).
Proof.
  apply (prodCons_cleans_up (λ _, 16) (λ _, 0) demo_glob 65536 100 64 8192 demo_keys (chars "ls") demo_env); [lia| |by repeat constructor|done].
  split; [by split; [split; cbn; lia|]|exact demo_layout|done|done|split; [lia|vm_compute; repeat split; congruence]].
Defined.
