(* ===== verification/Philosophers.v ===== *)
(** * The philosophers ([Userland/dummy/dummy.c])

    The processes of [philosophers] share the array [state] and a mutex; each waits on a
    semaphore for its turn.  As in [ProdCons] a step runs one statement of one of them.  The mutex is
    what [MutexThms] shows of the kernel's: at most one process has it.  [sems] are
    the semaphores of the kernel by number, [sem_of] the number that [*(arg->sems + value)] is for a
    philosopher. *)

From S2P Require Import Prelude KMonad CString Stdio User UserStdio UserStdioThms Dummy.

Definition THINKING : Z := 0.
Definition HUNGRY : Z := 1.
Definition EATING : Z := 2.

(** Which call of [testP] it is: of [take_fork], or the first or second of [put_fork]. *)
Inductive test_of := TakeFork | PutLeft | PutRight.

(** Where a philosopher is in [philospher]. *)
Inductive philosopher_at :=
| Sleep_take               (* sleep(1) *)
| Lock_take                (* lockMutex( *(arg->mutex)) of take_fork *)
| Set_hungry               (* state[arg->value] = HUNGRY, and the text *)
| Test_hungry (t : test_of)   (* state[number] == HUNGRY *)
| Test_left (t : test_of)     (* state[(number + 4) % total] != EATING *)
| Test_right (t : test_of)    (* state[(number + 1) % total] != EATING *)
| Set_eating (t : test_of)    (* state[number] = EATING *)
| Sleep_test (t : test_of)    (* sleep(10), and the text *)
| Signal (t : test_of)        (* signal( *sem) *)
| Free_take                (* freeMutex( *(arg->mutex)) of take_fork *)
| Sleep_taken              (* sleep(50) *)
| Wait                     (* wait( *(arg->sems + arg->value)) *)
| Sleep_put                (* sleep(1) *)
| Lock_put                 (* lockMutex of put_fork *)
| Set_thinking             (* state[arg->value] = THINKING, and the text *)
| Free_put.                (* freeMutex of put_fork *)

Record table := mkTable { states : list Z; mutex : Z; sems : gmap Z Z }.

Section philosophers.
Context (cant : Z) (sem_of : Z → Z).

(** The number that a call of [testP] is about. *)
Definition number_of (t : test_of) (value : Z) : Z :=
  match t with TakeFork => value | PutLeft => Z.rem (value + 4) cant | PutRight => Z.rem (value + 1) cant end.

(** The statement after a call of [testP]. *)
Definition after_test (t : test_of) : philosopher_at :=
  match t with TakeFork => Free_take | PutLeft => Test_hungry PutRight | PutRight => Free_put end.

Definition set_states (l : list Z) (tb : table) : table := mkTable l (mutex tb) (sems tb).
Definition set_mutex (v : Z) (tb : table) : table := mkTable (states tb) v (sems tb).

(** A number that is no semaphore does nothing. *)
Definition signal (s : Z) (tb : table) : table :=
  match sems tb !! s with Some v => mkTable (states tb) (mutex tb) (<[s := v + 1]> (sems tb)) | None => tb end.
Definition wait (s : Z) (tb : table) : option table :=
  match sems tb !! s with
  | Some v => if 0 <? v then Some (mkTable (states tb) (mutex tb) (<[s := v - 1]> (sems tb))) else None
  | None => Some tb
  end.
Definition lockMutex (tb : table) : option table := if 0 <? mutex tb then Some (set_mutex 0 tb) else None.
Definition freeMutex (tb : table) : table := set_mutex 1 tb.

(** One statement of the philosopher [value]; [None] if it cannot run now. *)
Definition philospher (value : Z) (p : philosopher_at) (tb : table) : option (philosopher_at * table) :=
  match p with
  | Sleep_take => Some (Lock_take, tb)
  | Lock_take => tb ← lockMutex tb; Some (Set_hungry, tb)
  | Set_hungry => l ← aset (states tb) value HUNGRY; Some (Test_hungry TakeFork, set_states l tb)
  | Test_hungry t =>
      x ← aget (states tb) (number_of t value);
      Some (if x =? HUNGRY then Test_left t else after_test t, tb)
  | Test_left t =>
      x ← aget (states tb) (Z.rem (number_of t value + 4) cant);
      Some (if x =? EATING then after_test t else Test_right t, tb)
  | Test_right t =>
      x ← aget (states tb) (Z.rem (number_of t value + 1) cant);
      Some (if x =? EATING then after_test t else Set_eating t, tb)
  | Set_eating t => l ← aset (states tb) (number_of t value) EATING; Some (Sleep_test t, set_states l tb)
  | Sleep_test t => Some (Signal t, tb)
  | Signal t => Some (after_test t, signal (sem_of (number_of t value)) tb)
  | Free_take => Some (Sleep_taken, freeMutex tb)
  | Sleep_taken => Some (Wait, tb)
  | Wait => tb ← wait (sem_of value) tb; Some (Sleep_put, tb)
  | Sleep_put => Some (Lock_put, tb)
  | Lock_put => tb ← lockMutex tb; Some (Set_thinking, tb)
  | Set_thinking => l ← aset (states tb) value THINKING; Some (Test_hungry PutLeft, set_states l tb)
  | Free_put => Some (Sleep_take, freeMutex tb)
  end.

(** The philosopher [k] of the list has [arg->value = k]. *)
Record dinner := mkDinner { at_table : list philosopher_at; the_table : table }.

Definition run (k : nat) (d : dinner) : option dinner :=
  p ← at_table d !! k;
  '(p, tb) ← philospher (Z.of_nat k) p (the_table d);
  Some (mkDinner (<[k := p]> (at_table d)) tb).

(** [dPhilosphers]: the array [st] has no initial values. *)
Definition start (st : list Z) (sems : gmap Z Z) : dinner :=
  mkDinner (replicate (Z.to_nat cant) Sleep_take) (mkTable st 1 sems).

Inductive served (st : list Z) (sm : gmap Z Z) : dinner → Prop :=
| served_start : served st sm (start st sm)
| served_run k d d' : served st sm d → run k d = Some d' → served st sm d'.

Definition run_all (ks : list nat) (d : dinner) : option dinner := foldl (λ o k, o ≫= run k) (Some d) ks.

Lemma run_all_served st sm ks d d' : served st sm d → run_all ks d = Some d' → served st sm d'.
Proof.
  unfold run_all. revert d. induction ks as [|k ks IH]; intros d Hr; cbn; [by intros [= <-]|].
  destruct (run k d) as [d1|] eqn:E.
  - apply IH. by eapply served_run.
  - intros Hf. exfalso. clear -Hf. induction ks; cbn in Hf; [done|]. by apply IHks.
Qed.
End philosophers.

(** ** What holds at the table of five *)

(** With the mutex. *)
Definition has_mutex (p : philosopher_at) : nat :=
  match p with
  | Set_hungry | Test_hungry _ | Test_left _ | Test_right _ | Set_eating _ | Sleep_test _ | Signal _ | Free_take | Set_thinking | Free_put => 1
  | _ => 0
  end.

Definition eats (l : list Z) (i : Z) : Prop := aget l i = Some EATING.

(** No two neighbours eat. *)
Definition peaceful (l : list Z) : Prop := ∀ i, 0 ≤ i < 5 → eats l i → ¬ eats l ((i + 1) mod 5).

(** What a philosopher in [testP] has seen. *)
Definition saw (l : list Z) (value : Z) (p : philosopher_at) : Prop :=
  match p with
  | Test_right t => ¬ eats l ((number_of 5 t value + 4) mod 5)
  | Set_eating t => ¬ eats l ((number_of 5 t value + 4) mod 5) ∧ ¬ eats l ((number_of 5 t value + 1) mod 5)
  | _ => True
  end.

Record table_ok (d : dinner) : Prop := {
  tk_five : length (at_table d) = 5%nat;
  tk_len : length (states (the_table d)) = 5%nat;
  tk_mutex : 0 ≤ mutex (the_table d) ∧ mutex (the_table d) + total has_mutex (at_table d) = 1;
  tk_peace : peaceful (states (the_table d));
  tk_saw k p : at_table d !! k = Some p → saw (states (the_table d)) (Z.of_nat k) p;
}.

Lemma number_range t value : 0 ≤ value < 5 → 0 ≤ number_of 5 t value < 5.
Proof.
  intros Hv. destruct t; cbn [number_of]; [done|rewrite Z.rem_mod_nonneg by lia..]; apply Z.mod_pos_bound; lia.
Qed.

Lemma eats_put l i v j : length l = 5%nat → 0 ≤ i < 5 → eats (aput l i v) j → (j = i ∧ v = EATING) ∨ eats l j.
Proof.
  unfold eats. intros Hl Hi Hj. destruct (decide (j = i)) as [->|Hne].
  - rewrite aget_aput_eq in Hj by lia. injection Hj as ->. by left.
  - rewrite aget_aput_ne in Hj by lia. by right.
Qed.

(** Who stops eating disturbs nobody. *)
Lemma peaceful_other l i v : length l = 5%nat → 0 ≤ i < 5 → v ≠ EATING → peaceful l → peaceful (aput l i v).
Proof.
  intros Hl Hi Hv Hp j Hj E1 E2. apply eats_put in E1 as [[_ ?]|E1], E2 as [[_ ?]|E2]; try done. by apply (Hp j).
Qed.

Lemma peaceful_eating l i :
  length l = 5%nat → 0 ≤ i < 5 → ¬ eats l ((i + 4) mod 5) → ¬ eats l ((i + 1) mod 5) → peaceful l → peaceful (aput l i EATING).
Proof.
  intros Hl Hi H4 H1 Hp j Hj E1 E2. apply eats_put in E1 as [[-> _]|E1], E2 as [[E2 _]|E2]; try done.
  - clear -Hi E2. Z.to_euclidean_division_equations. lia.
  - apply H4. replace ((i + 4) mod 5) with j; [done|]. clear -Hj Hi E2. Z.to_euclidean_division_equations. lia.
  - by apply (Hp j).
Qed.

Lemma outside_saw l v p : has_mutex p = 0%nat → saw l v p.
Proof. by destruct p. Qed.

(** A statement of [k]: what it must keep. *)
Lemma table_step k p p' d tb' :
  table_ok d → at_table d !! k = Some p →
  states tb' = states (the_table d) ∨ has_mutex p = 1%nat →
  length (states tb') = 5%nat → 0 ≤ mutex tb' →
  mutex tb' + Z.of_nat (has_mutex p') = mutex (the_table d) + Z.of_nat (has_mutex p) →
  peaceful (states tb') → saw (states tb') (Z.of_nat k) p' →
  table_ok (mkDinner (<[k := p']> (at_table d)) tb').
Proof.
  intros [H5 Hl Hm Hp Hs] Hk Hst Hl' H0 Hm' Hp' Hs'. split; cbn; [by rewrite length_insert|done| |done|].
  - rewrite (sum_insert_total has_mutex _ _ _ _ Hk). lia.
  - intros j q Hj. destruct (decide (j = k)) as [->|Hne].
    + rewrite list_lookup_insert_eq in Hj by (by eapply lookup_lt_Some). by injection Hj as <-.
    + rewrite list_lookup_insert_ne in Hj by done. destruct Hst as [->|H1]; [by apply Hs|].
      apply outside_saw. pose proof (sum_two has_mutex _ j k p q Hk Hj Hne). lia.
Qed.

(** With the mutex it is taken. *)
Lemma holder_mutex k p d : table_ok d → at_table d !! k = Some p → has_mutex p = 1%nat → mutex (the_table d) = 0.
Proof. intros [H5 Hl Hm Hp Hs] Hk H1. pose proof (sum_ge has_mutex _ _ _ Hk). lia. Qed.

Lemma rem_5 v : 0 ≤ v → Z.rem v 5 = v mod 5 ∧ 0 ≤ v mod 5 < 5.
Proof. intros Hv. split; [apply Z.rem_mod_nonneg; lia|apply Z.mod_pos_bound; lia]. Qed.

Lemma after_test_mutex t : has_mutex (after_test t) = 1%nat ∧ ∀ l v, saw l v (after_test t).
Proof. by destruct t. Qed.

Lemma lockMutex_spec tb tb' : lockMutex tb = Some tb' → 0 < mutex tb ∧ tb' = set_mutex 0 tb.
Proof. unfold lockMutex. case_match eqn:E; [|done]. apply Z.ltb_lt in E. intros [= <-]. done. Qed.

(** [signal] and [wait] only change semaphores. *)
Lemma signal_spec s tb : states (signal s tb) = states tb ∧ mutex (signal s tb) = mutex tb.
Proof. unfold signal. by case_match. Qed.

Lemma wait_spec s tb tb' : wait s tb = Some tb' → states tb' = states tb ∧ mutex tb' = mutex tb.
Proof. unfold wait. repeat case_match; intros [= <-]; done. Qed.

Lemma philospher_ok sem_of k p p' d tb' :
  table_ok d → at_table d !! k = Some p → philospher 5 sem_of (Z.of_nat k) p (the_table d) = Some (p', tb') →
  table_ok (mkDinner (<[k := p']> (at_table d)) tb').
Proof.
  intros Hok Hk Hp. pose proof Hok as [H5 Hl Hm Hpc Hs]. pose proof (lookup_lt_Some _ _ _ Hk) as Hlt.
  assert (Hv : 0 ≤ Z.of_nat k < 5) by lia. pose proof (Hs k p Hk) as Hsaw.
  assert (Hn : ∀ t, 0 ≤ number_of 5 t (Z.of_nat k) < 5) by (intros t; by apply number_range).
  assert (Hquiet : states tb' = states (the_table d) → 0 ≤ mutex tb' →
    mutex tb' + Z.of_nat (has_mutex p') = mutex (the_table d) + Z.of_nat (has_mutex p) →
    saw (states (the_table d)) (Z.of_nat k) p' → table_ok (mkDinner (<[k := p']> (at_table d)) tb')).
  { intros Es E0 Em Ew. apply (table_step k p p' d tb' Hok Hk); rewrite ?Es; auto. }
  assert (Hput : ∀ i v, has_mutex p = 1%nat → has_mutex p' = 1%nat → 0 ≤ i < 5 → tb' = set_states (aput (states (the_table d)) i v) (the_table d) →
    peaceful (aput (states (the_table d)) i v) → (∀ l v, saw l v p') → table_ok (mkDinner (<[k := p']> (at_table d)) tb')).
  { intros i v M1 M2 Hi -> Hpe Hsw. apply (table_step k p p' d _ Hok Hk); cbn; auto; try lia. by rewrite length_aput. }
  destruct p; cbn in Hp.
  - injection Hp as <- <-. apply Hquiet; done || lia.
  - destruct (lockMutex (the_table d)) as [tb|] eqn:E; [|done]. injection Hp as <- <-. apply lockMutex_spec in E as [E ->].
    apply Hquiet; cbn in *; done || lia.
  - rewrite aset_some in Hp by lia. injection Hp as <- <-. eapply (Hput (Z.of_nat k) HUNGRY); try done. by apply peaceful_other.
  - destruct (aget (states (the_table d)) (number_of 5 t (Z.of_nat k))) as [x|]; [|done]. injection Hp as <- <-.
    destruct (after_test_mutex t) as [A1 A2]. apply Hquiet; [done|lia| |]; destruct (x =? HUNGRY); cbn; auto; lia.
  - destruct (rem_5 (number_of 5 t (Z.of_nat k) + 4) ltac:(specialize (Hn t); lia)) as [E4 _]. rewrite E4 in Hp.
    destruct (aget (states (the_table d)) _) as [x|] eqn:Ex; [|done]. injection Hp as <- <-.
    destruct (after_test_mutex t) as [A1 A2]. apply Hquiet; [done|lia| |]; destruct (Z.eqb_spec x EATING) as [->|Hx]; cbn; auto; try lia.
    unfold eats. rewrite Ex. congruence.
  - destruct (rem_5 (number_of 5 t (Z.of_nat k) + 1) ltac:(specialize (Hn t); lia)) as [E1 _]. rewrite E1 in Hp.
    destruct (aget (states (the_table d)) _) as [x|] eqn:Ex; [|done]. injection Hp as <- <-.
    destruct (after_test_mutex t) as [A1 A2]. apply Hquiet; [done|lia| |]; destruct (Z.eqb_spec x EATING) as [->|Hx]; cbn; auto; try lia.
    cbn in Hsaw. split; [done|]. unfold eats. rewrite Ex. congruence.
  - rewrite aset_some in Hp by (specialize (Hn t); lia). injection Hp as <- <-. destruct Hsaw as [S4 S1].
    eapply (Hput (number_of 5 t (Z.of_nat k)) EATING); try done. by apply peaceful_eating.
  - injection Hp as <- <-. apply Hquiet; done || (cbn; lia).
  - injection Hp as <- <-. destruct (signal_spec (sem_of (number_of 5 t (Z.of_nat k))) (the_table d)) as [S1 S2].
    destruct (after_test_mutex t) as [A1 A2]. apply Hquiet; [done|lia|rewrite A1, S2; cbn; lia|auto].
  - injection Hp as <- <-. pose proof (holder_mutex _ _ _ Hok Hk eq_refl) as H0. apply Hquiet; cbn; done || lia.
  - injection Hp as <- <-. apply Hquiet; done || lia.
  - destruct (wait (sem_of (Z.of_nat k)) (the_table d)) as [tb|] eqn:E; [|done]. injection Hp as <- <-. apply wait_spec in E as [E1 E2].
    apply Hquiet; rewrite ?E2; cbn; done || lia.
  - injection Hp as <- <-. apply Hquiet; done || lia.
  - destruct (lockMutex (the_table d)) as [tb|] eqn:E; [|done]. injection Hp as <- <-. apply lockMutex_spec in E as [E ->].
    apply Hquiet; cbn in *; done || lia.
  - rewrite aset_some in Hp by lia. injection Hp as <- <-. eapply (Hput (Z.of_nat k) THINKING); try done. by apply peaceful_other.
  - injection Hp as <- <-. pose proof (holder_mutex _ _ _ Hok Hk eq_refl) as H0. apply Hquiet; cbn; done || lia.
Qed.

Lemma run_ok sem_of k d d' : table_ok d → run 5 sem_of k d = Some d' → table_ok d'.
Proof.
  intros Hok. unfold run. destruct (at_table d !! k) as [p|] eqn:Hk; [|done]. cbn.
  destruct (philospher 5 sem_of (Z.of_nat k) p (the_table d)) as [[p' tb']|] eqn:Hp; [|done]. cbn. intros [= <-].
  by eapply philospher_ok.
Qed.

Lemma start_ok st sm : length st = 5%nat → Forall (λ x, x ≠ EATING) st → table_ok (start 5 st sm).
Proof.
  intros Hl Hst. split; [done|done|done| |].
  - intros i Hi He. unfold eats in He. cbn in He. rewrite aget_nat in He by lia.
    pose proof (Forall_lookup_1 _ _ _ _ Hst He) as Hn. done.
  - intros k p Hk. apply lookup_replicate in Hk as [-> _]. done.
Qed.

Lemma served_ok sem_of st sm d : length st = 5%nat → Forall (λ x, x ≠ EATING) st → served 5 sem_of st sm d → table_ok d.
Proof. intros Hl Hst Hd. induction Hd; [by apply start_ok|by eapply run_ok]. Qed.

(** With the mutex nobody is stuck: all indices are in the array. *)
Lemma holder_runs sem_of k p d :
  table_ok d → at_table d !! k = Some p → has_mutex p = 1%nat → is_Some (run 5 sem_of k d).
Proof.
  intros [H5 Hl Hm Hpc Hs] Hk H1. pose proof (lookup_lt_Some _ _ _ Hk). unfold run. rewrite Hk. cbn.
  assert (Hn : ∀ t, 0 ≤ number_of 5 t (Z.of_nat k) < 5) by (intros t; apply number_range; lia).
  destruct p; cbn in H1 |- *; try done; try (rewrite aset_some by (specialize (Hn t); lia); done); try (rewrite aset_some by lia; done).
  - destruct (aget_some (states (the_table d)) (number_of 5 t (Z.of_nat k))) as [x ->]; [specialize (Hn t); lia|done].
  - destruct (rem_5 (number_of 5 t (Z.of_nat k) + 4) ltac:(specialize (Hn t); lia)) as [-> Hr].
    destruct (aget_some (states (the_table d)) ((number_of 5 t (Z.of_nat k) + 4) mod 5)) as [x ->]; [lia|done].
  - destruct (rem_5 (number_of 5 t (Z.of_nat k) + 1) ltac:(specialize (Hn t); lia)) as [-> Hr].
    destruct (aget_some (states (the_table d)) ((number_of 5 t (Z.of_nat k) + 1) mod 5)) as [x ->]; [lia|done].
Qed.

(** ** Where the semaphores are *)

(** [arg->sems] is an array of pointers read as an array of [int]: philosopher [2 k] waits on the
    low half of the pointer to the [k]th number, philosopher [2 k + 1] on its high half. *)
Lemma sems_are_pointers `{K : Kernel} arg sems k p s :
  load64 (e_mem s) (arg + 8) = sems → load64 (e_mem s) (sems + 8 * k) = p → 0 ≤ p < 2 ^ 31 →
  (int32 (load32 (e_mem s) (arg + 24)) = 2 * k → sem_of arg s = Done p s) ∧
  (int32 (load32 (e_mem s) (arg + 24)) = 2 * k + 1 → sem_of arg s = Done 0 s).
Proof.
  intros Hs Hp Hr. unfold load64 in Hp.
  assert (Hb : ∀ a, 0 ≤ load32 (e_mem s) a < 2 ^ 32).
  { intros a. unfold load32. pose proof (load8_range (e_mem s) a). pose proof (load8_range (e_mem s) (a + 1)).
    pose proof (load8_range (e_mem s) (a + 2)). pose proof (load8_range (e_mem s) (a + 3)). lia. }
  pose proof (Hb (sems + 8 * k)). pose proof (Hb (sems + 8 * k + 4)).
  unfold sem_of. rewrite !load_ptr_bind, Hs. rewrite (bind_done _ _ s (int32 (load32 (e_mem s) (arg + 24))) s) by done.
  split; intros ->; unfold load_int, asks; cbn [umem Env_sys]; f_equal.
  - replace (sems + 4 * (2 * k)) with (sems + 8 * k) by lia.
    rewrite wrap_s_id; [lia|lia|]. lia.
  - replace (sems + 4 * (2 * k + 1)) with (sems + 8 * k + 4) by lia.
    assert (load32 (e_mem s) (sems + 8 * k + 4) = 0) as -> by lia. done.
Qed.

(** So two neighbours can both be past [wait], one of them without its forks: the numbers
    of 0 and 4 are no semaphores. *)
Lemma neighbours_past_wait :
  let numbers v := if v mod 2 =? 0 then 4194304 else 0 in
  ∃ d, run_all 5 numbers (replicate 11 0 ++ replicate 8 4)%nat (start 5 (replicate 5 0) {[0 := 0]}) = Some d ∧
    at_table d !! 0%nat = Some Wait ∧ at_table d !! 4%nat = Some Wait ∧ states (the_table d) = [2; 0; 0; 0; 1] ∧
    ∃ d', run_all 5 numbers [0; 4]%nat d = Some d' ∧ at_table d' !! 0%nat = Some Sleep_put ∧ at_table d' !! 4%nat = Some Sleep_put.
Proof.
  eexists. split; [vm_compute; reflexivity|]. split; [done|]. split; [done|]. split; [done|].
  eexists. split; [vm_compute; reflexivity|]. done.
Qed.

(** With another number of philosophers the left neighbour is not the one that is looked
    at: of four, 0 and 1 both eat. *)
Lemma four_philosophers :
  ∃ d, run_all 4 (λ v, v) (replicate 10 0 ++ replicate 7 1)%nat (start 4 (replicate 4 0) {[0 := 0; 1 := 0; 2 := 0; 3 := 0]}) = Some d ∧
    states (the_table d) = [2; 2; 0; 0].
Proof. eexists. split; [vm_compute; reflexivity|]. done. Qed.

(** ** The theorem *)

(** C20: Under every interleaving of the statements of the five philosophers, whatever
    numbers their semaphores have, no two neighbours are marked as eating (in [testP] the
    three tests and the assignment act as one), if no entry of the uninitialised array
    marks one at the start; at most one philosopher has the mutex, and it can always go on. *)
Theorem philosophers_neighbours sem_of st sm d :
  length st = 5%nat → Forall (λ x, x ≠ EATING) st → served 5 sem_of st sm d →
  (∀ i, 0 ≤ i < 5 → aget (states (the_table d)) i = Some EATING → aget (states (the_table d)) ((i + 1) mod 5) ≠ Some EATING) ∧
  (sum_list_with has_mutex (at_table d) ≤ 1)%nat ∧
  ∀ k p, at_table d !! k = Some p → has_mutex p = 1%nat → is_Some (run 5 sem_of k d).
Proof.
  intros Hl Hst Hd. pose proof (served_ok _ _ _ _ Hl Hst Hd) as Hok. split; [apply Hok|].
  split; [destruct Hok; lia|]. intros k p. by apply holder_runs.
Qed.

(** Philosopher 0 eats, philosopher 2 is about to. *)
Definition demo_dinner : dinner :=
  default (start 5 [] ∅) (run_all 5 (λ v, v) (replicate 11 0 ++ replicate 6 2)%nat (start 5 (replicate 5 0) {[0 := 0; 1 := 0; 2 := 0; 3 := 0; 4 := 0]})).

Lemma philosophers_neighbours_witness :
  (∀ i, 0 ≤ i < 5 → aget (states (the_table demo_dinner)) i = Some EATING → aget (states (the_table demo_dinner)) ((i + 1) mod 5) ≠ Some EATING) ∧
  (sum_list_with has_mutex (at_table demo_dinner) ≤ 1)%nat ∧
  ∀ k p, at_table demo_dinner !! k = Some p → has_mutex p = 1%nat → is_Some (run 5 (λ v, v) k demo_dinner).
Proof.
  apply (philosophers_neighbours (λ v, v) (replicate 5 0) {[0 := 0; 1 := 0; 2 := 0; 3 := 0; 4 := 0]}); [done|by repeat constructor|].
  apply (run_all_served _ _ _ _ (replicate 11 0 ++ replicate 6 2)%nat _ _ (served_start _ _ _ _)). vm_compute. reflexivity.
Defined.
