(* ===== verification/UserMachine.v ===== *)
(** * Programs of the user on the machine

    The machine as an environment of programs: a call of [asm/stdioASM.asm] is
    [int 80h], which runs the handler of system calls.  Interrupts come at any time; the
    memory of a program is its own, so what matters of them is what they did before its
    next call, and each call begins with a yield.  [must] says what holds of a program
    whatever the interrupts do.  [meanwhile] is what they do: the keyboard's handler runs
    for any key, the timer's handler shows the time, and anything else may happen that
    leaves the memory of the program, the text on the screen and the pending input alone.
    What of it comes on the screen and what is to be read are derived from the handlers.
    With it: what a program prints is on the screen, and what is typed is what it reads. *)

From S2P Require Import Prelude Buddy KMonad CString Structs World Scheduler SchedulerSpec Mutex.
From S2P Require Import Semaphores Pipes Malloc Sleep Video Terminal Ports Keyboard Mouse Machine.
From S2P Require Import System VideoThms TerminalThms KeyboardThms SystemThms User UserStdio.

(** ** The screen as a sheet of paper *)

(** The rows, and the place of the next char. *)
Record sheet := mkSheet { rows : list (list Z); col : Z; line : Z }.

Definition sheet_of (v : Video) : sheet := mkSheet (video v) (cur_i v) (cur_j v).

(** The next line of a window from column [i0] and line [j0] on. *)
Definition feed (i0 j0 : Z) (p : sheet) : sheet :=
  if line p =? HEIGHT - 1 then mkSheet (scrolled j0 (rows p)) i0 (HEIGHT - 1) else mkSheet (rows p) i0 (line p + 1).

(** A char is struck; 10 feeds the next line. *)
Definition strike (i0 j0 : Z) (p : sheet) (c : Z) : sheet :=
  if c =? 10 then feed i0 j0 p
  else
    let p := mkSheet (default (rows p) (vset (rows p) (line p) (col p) c)) (col p) (line p) in
    if col p =? WIDTH - 1 then feed i0 j0 p else mkSheet (rows p) (col p + 1) (line p).

Definition step_back (i0 : Z) (p : sheet) : sheet :=
  if col p =? i0 then p else mkSheet (rows p) (col p - 1) (line p).

(** A char; the echo of backspace, which strikes a space over the char before in the line; the
    clock's line, the third, written anew. *)
Inductive ink := Glyph (c : Z) | Erase | Stamp (row : list Z).

Definition typewrite (i0 j0 : Z) (p : sheet) (k : ink) : sheet :=
  match k with
  | Glyph c => strike i0 j0 p c
  | Erase => step_back i0 (strike i0 j0 (step_back i0 p) SPACE)
  | Stamp r => mkSheet (<[2%nat := r]> (rows p)) (col p) (line p)
  end.

(** The screen goes on as such a sheet. *)
Record typed_on (v : Video) (l : list ink) (v' : Video) : Prop := {
  ty_ok : video_ok v';
  ty_sheet : sheet_of v' = foldl (typewrite (iStartModule v) (jStartModule v)) (sheet_of v) l;
  ty_i : iStartModule v' = iStartModule v;
  ty_j : jStartModule v' = jStartModule v;
}.

Lemma typed_on_app v1 v2 v3 l1 l2 : typed_on v1 l1 v2 → typed_on v2 l2 v3 → typed_on v1 (l1 ++ l2) v3.
Proof.
  intros [O1 S1 I1 J1] [O2 S2 I2 J2]. split; [done| |congruence|congruence].
  by rewrite foldl_app, <-S1, S2, I1, J1.
Qed.

Lemma typed_on_nil v : video_ok v → typed_on v [] v.
Proof. by split. Qed.

(** The cursor after a char. *)
Lemma forwardCursor_feed v :
  video_ok v → shown v →
  ∃ v', forwardCursor v = Some v' ∧ video_ok v' ∧ shown v' ∧
    iStartModule v' = iStartModule v ∧ jStartModule v' = jStartModule v ∧
    sheet_of v' = if cur_i v =? WIDTH - 1 then feed (iStartModule v) (jStartModule v) (sheet_of v)
                  else mkSheet (video v) (cur_i v + 1) (cur_j v).
Proof.
  intros Hok Hsh. pose proof Hok as [Hv Ha Hm Hs Hi Hi' Hj Hj']. unfold forwardCursor, feed, sheet_of. cbn [line rows].
  destruct (Z.eqb_spec (cur_i v) (WIDTH - 1)) as [E1|E1]; [destruct (Z.eqb_spec (cur_j v) (HEIGHT - 1)) as [E2|E2]|].
  - destruct (video_ok_scroll v Hok) as [-> Hok2]. cbn [mbind option_bind].
    destruct (video_ok_update _ Hok2) as (t & -> & Hok3 & Hsh3). by eexists.
  - eexists. split; [done|]. split; [apply video_ok_cursor; [done|lia|lia]|]. by split_and!.
  - rewrite int32_id by (unfold INT_MIN, INT_MAX, WIDTH in *; lia).
    eexists. split; [done|]. split; [apply video_ok_cursor; [done|lia|lia]|]. by split_and!.
Qed.

Lemma putChar_types c v :
  video_ok v → c ≠ 10 → ∃ v', putChar c v = Some v' ∧ typed_on v [Glyph c] v' ∧ shown v'.
Proof.
  intros Hok Hc. pose proof Hok as [Hv Ha Hm Hs Hi Hi' Hj Hj'].
  assert (Hin : inside (cur_j v) (cur_i v)) by (unfold inside; lia).
  unfold putChar, printChar. rewrite validPosition_inside by done. cbn [negb].
  destruct (vset_spec (video v) (cur_j v) (cur_i v) c Hv Hin) as (w & Hw & Hsw & _). rewrite Hw. cbn [mbind option_bind].
  assert (Hok2 : video_ok (set_video w v)) by (destruct Hok; by split).
  destruct (video_ok_update _ Hok2) as (t & -> & Hok3 & Hsh). cbn [mbind option_bind].
  destruct (forwardCursor_feed _ Hok3 Hsh) as (v' & -> & Hok4 & Hsh4 & HI & HJ & HS).
  exists v'. split; [done|]. split; [|done]. split; [done| |done|done]. rewrite HS. cbn [foldl].
  unfold typewrite, strike, sheet_of. cbn [rows col line]. by rewrite (proj2 (Z.eqb_neq c 10)), Hw by done.
Qed.

Lemma lineJump_types v : video_ok v → ∃ v', lineJump (Z.to_nat WIDTH) v = Some v' ∧ typed_on v [Glyph 10] v'.
Proof.
  intros Hok. pose proof Hok as [Hv Ha Hm Hs Hi Hi' Hj Hj']. unfold lineJump.
  destruct (Z.eqb_spec (cur_j v) (HEIGHT - 1)) as [E|E].
  - destruct (video_ok_scroll v Hok) as [-> Hok2]. eexists. split; [done|]. split; [done| |done|done].
    cbn. unfold feed, sheet_of. cbn [line]. by rewrite E.
  - rewrite (lineJump_loop_spec (Z.to_nat (WIDTH - cur_i v))) by (done || lia).
    eexists. split; [done|]. split; [apply video_ok_cursor; [done|lia|lia]| |done|done].
    cbn. unfold feed, sheet_of. cbn [line]. by rewrite (proj2 (Z.eqb_neq _ _) E).
Qed.

Lemma backInLine_sheet v : sheet_of (backInLine v) = step_back (iStartModule v) (sheet_of v).
Proof. unfold backInLine, step_back, sheet_of. cbn [col rows line]. by destruct (cur_i v =? iStartModule v). Qed.

Lemma backInLine_start v : iStartModule (backInLine v) = iStartModule v ∧ jStartModule (backInLine v) = jStartModule v.
Proof. unfold backInLine. by case_match. Qed.

Lemma erase_types v :
  video_ok v → ∃ v', putChar SPACE (backInLine v) = Some v' ∧ typed_on v [Erase] (backInLine v').
Proof.
  intros Hok. destruct (backInLine_start v) as [E1 E2].
  destruct (putChar_types SPACE (backInLine v) (backInLine_ok _ Hok)) as (v' & E & [Hok' Hs Hi Hj] & _); [done|].
  destruct (backInLine_start v') as [E3 E4]. exists v'. split; [done|]. split; [by apply backInLine_ok| |congruence|congruence].
  rewrite backInLine_sheet, Hs, backInLine_sheet, Hi, E1, E2. done.
Qed.

(** *** The clock *)

(** [v'] is [v] with another third line. *)
Definition stamped (v v' : Video) : Prop :=
  (∃ r, sheet_of v' = typewrite 0 0 (sheet_of v) (Stamp r)) ∧ iStartModule v' = iStartModule v ∧ jStartModule v' = jStartModule v.

Lemma stamped_same v : video_ok v → stamped v v.
Proof.
  intros Hok. split; [|done]. destruct (lookup_lt_is_Some_2 (video v) 2%nat) as [r Hr].
  { rewrite (proj1 (vo_video _ Hok)). unfold HEIGHT. lia. }
  exists r. cbn [typewrite sheet_of rows col line]. by rewrite list_insert_id.
Qed.

Lemma printMsg_loop_stamps fuel m i msg v v' :
  printMsg_loop fuel m i msg v = Some v' → video_ok v → 2 * WIDTH ≤ i → i + Z.of_nat fuel ≤ 3 * WIDTH →
  video_ok v' ∧ stamped v v'.
Proof.
  revert i msg v. induction fuel as [|fuel IH]; intros i msg v E Hok H1 H2; cbn [printMsg_loop] in E;
    (destruct (char_at m msg =? 0); [injection E as <-; split; [done|by apply stamped_same]|]);
    (destruct (validPosition _ _) eqn:Ev; cbn [negb] in E; [|injection E as <-; split; [done|by apply stamped_same]]); [done|].
  apply validPosition_spec in Ev. assert (Hf : Z.quot i WIDTH = 2).
  { unfold WIDTH in *. rewrite Z.quot_div_nonneg by lia. Z.to_euclidean_division_equations. lia. }
  destruct (printChar_spec _ _ (char_at m msg) 0x20 v Hok Ev) as (w & t & Ep & Hok2 & _ & _).
  rewrite Ep in E. cbn [mbind option_bind] in E. destruct (IH _ _ _ E Hok2) as (Hok' & (r & Hr) & HI & HJ); [lia|lia|].
  split; [done|]. split; [|by split]. exists r. rewrite Hr. unfold typewrite, sheet_of. cbn [set_screen set_video video cur_i cur_j rows col line].
  f_equal. unfold printChar in Ep. apply validPosition_spec in Ev. rewrite Ev in Ep. cbn [negb] in Ep.
  apply bind_Some in Ep as (w' & Hw & Eu). assert (w' = w) as ->.
  { destruct (video_ok_update (set_video w' v)) as (t' & Eu' & _); [|rewrite Eu in Eu'; by injection Eu'].
    apply validPosition_spec in Ev. destruct (vset_spec (video v) _ _ (char_at m msg) (vo_video _ Hok) Ev) as (w2 & Hw2 & Hsw & _).
    rewrite Hw in Hw2. injection Hw2 as <-. destruct Hok; by split. }
  unfold vset in Hw. apply bind_Some in Hw as (row & _ & Hw). apply bind_Some in Hw as (row' & _ & Hw).
  rewrite Hf in Hw. unfold aset in Hw. case_match; [|done]. injection Hw as <-. unfold aput. by rewrite list_insert_insert_eq.
Qed.

(** ** Whatever the interrupts do *)

(** [R x s s'] says what interrupts may do that make [x].  The [quiet] of them that make nothing
    but what is [idle] are bounded: past them [must] asks for nothing. *)
Section must.
Context {E S : Type} (idle : list E → bool) (R : list E → S → S → Prop).

Fixpoint must {A} (P : nat → list E → A → S → Prop) (quiet : nat) (x : list E) (r : res S A) : Prop :=
  match r with
  | Fault => False
  | Done a s => P quiet x a s
  | Yield s k => ∀ y s', R y s s' →
      if idle y
      then match quiet with O => True | Datatypes.S quiet' => must P quiet' (x ++ y) (k s') end
      else must P quiet (x ++ y) (k s')
  end.

Lemma must_mono {A} (P Q : nat → list E → A → S → Prop) quiet x r :
  (∀ q y a s, P q y a s → Q q y a s) → must P quiet x r → must Q quiet x r.
Proof.
  intros HPQ. revert quiet x. induction r as [|a s|s k IH]; intros quiet x Hr; cbn [must] in *; [done|by apply HPQ|].
  intros y s' Hy. specialize (Hr y s' Hy). destruct (idle y); [destruct quiet; [done|]|]; by apply IH.
Qed.

Lemma must_bind {A B} (P : nat → list E → B → S → Prop) (m : M S A) (f : A → M S B) quiet x s :
  must (λ q y a s', must P q y (f a s')) quiet x (m s) → must P quiet x ((m ≫= f) s).
Proof.
  unfold mbind, M_bind. generalize (m s). intros r. revert quiet x.
  induction r as [|a s1|s1 k IH]; intros quiet x Hr; cbn [must res_bind] in *; [done|done|].
  intros y s' Hy. specialize (Hr y s' Hy). destruct (idle y); [destruct quiet; [done|]|]; by apply IH.
Qed.

Lemma must_yield {A} (P : nat → list E → A → S → Prop) quiet x s (f : unit → M S A) :
  (∀ y s' quiet', R y s s' → (idle y = true → quiet = Datatypes.S quiet') → must P quiet' (x ++ y) (f tt s')) →
  must P quiet x ((_yield ≫= f) s).
Proof.
  intros Hk y s' Hy. destruct (idle y) eqn:Ei; [|apply (Hk y s' quiet Hy); congruence].
  destruct quiet as [|quiet]; [done|]. by apply (Hk y s' quiet Hy).
Qed.
End must.

(** [z] is [l] with [x] in between. *)
Inductive interleaving {A} : list A → list A → list A → Prop :=
| il_nil : interleaving [] [] []
| il_left a l x z : interleaving l x z → interleaving (a :: l) x (a :: z)
| il_right a l x z : interleaving l x z → interleaving l (a :: x) (a :: z).

Lemma interleaving_right {A} (l x1 x2 z : list A) : interleaving l x2 z → interleaving l (x1 ++ x2) (x1 ++ z).
Proof. intros Hz. induction x1; [done|by constructor]. Qed.

(** ** The machine as an environment *)

Section machine.
Context {D : Type} `{Ports D} (callProcess : Z) (lit : string → Z) (junk : Z) (bound : nat).
Implicit Types s : Machine D.

Abbreviation int80 := (syscallHandler callProcess lit junk bound).

#[local] Instance Machine_sys : Sys (Machine D) := {|
  sys_call n a b c := _ ← _yield; int80 n a b c;
  writeC msg size := _ ← _yield; _ ← int80 4 0 msg size; mret tt;
  readC buffer size := _ ← _yield; int80 3 0 buffer size;
  umem := kernel_mem;
  set_umem := set_kernel_mem;
|}.

Abbreviation tv s := (t_video (md_term s)).

(** What comes from outside: a char is typed, the clock's line is written. *)
Inductive event := Typed (c : Z) | Clock (row : list Z).

Definition char_of (e : event) : option Z := match e with Typed c => Some c | Clock _ => None end.

(** The chars typed. *)
Definition chars (x : list event) : list Z := omap char_of x.

Definition no_chars (x : list event) : bool := bool_decide (chars x = []).

Lemma chars_app x y : chars (x ++ y) = chars x ++ chars y.
Proof. apply omap_app. Qed.

(** What of it comes on the screen: a char if the echo is on; newline and backspace always do. *)
Definition shown_by (echo : Z) (e : event) : list ink :=
  match e with
  | Typed c => if c =? 8 then [Erase] else if (c =? 10) || negb (echo =? 0) then [Glyph c] else []
  | Clock r => [Stamp r]
  end.

Definition echoed (echo : Z) (x : list event) : list ink := x ≫= shown_by echo.

Lemma echoed_app echo x y : echoed echo (x ++ y) = echoed echo x ++ echoed echo y.
Proof. apply list.bind_app. Qed.

(** A char that a key types. *)
Definition inked (c : Z) : Prop := 8 ≤ c ≤ 126.

(** The machine runs programs; [q] was typed and not yet read. *)
Record up (q : list Z) s : Prop := {
  up_table : md_sysCalls s = table_full;
  up_video : video_ok (tv s);
  up_term : term_holds (md_term s) q;
  up_chars : Forall inked q;
}.

Context (own : Z → Prop) (outside : Z → Z).

(** *** What happens between two calls of a program whose memory is [own] *)

(** What the key with scan code [k] types, from the handler's table. *)
Definition keyed (kb : Keyboard) (k : Z) : list Z :=
  let c := int8 k in
  if (c =? CAPS_LOCK) || (c =? LEFT_SHIFT_MAKE) || (c =? RIGHT_SHIFT_MAKE) ||
     (c =? LEFT_SHIFT_BREAK) || (c =? RIGHT_SHIFT_BREAK) then []
  else if (Z.land c 0x80 =? 0) && negb (kbd_get outside c 1 =? NOCHAR)
  then [kbd_get outside c (column (shift kb) (caps kb))] else [].

(** Shift and F1 restart the shell. *)
Definition restarts (kb : Keyboard) (k : Z) : bool := (shift kb =? ON) && (int8 k =? 0x3b).

Definition scan_code s : Z := fst (inputb 0x60 (md_device s)).
Definition key_chars s : list Z := keyed (md_kbd s) (scan_code s).

(** [isBufferFull] does not see that the ring is full when the oldest char is the first of the
    buffer; a char typed then loses all that are pending. *)
Definition ring_safe t : bool :=
  negb ((bufferConsume t =? bufferStart t) && (bufferPosition t =? bufferStart t + bufferSize t - 1)).

(** Nothing that the program or the user sees. *)
Record unseen s s' : Prop := {
  un_table : md_sysCalls s' = md_sysCalls s;
  un_mem a : own a → load8 (kernel_mem s') a = load8 (kernel_mem s) a;
  un_echo : isEcho (md_term s') = isEcho (md_term s);
  un_video : video_ok (tv s) → typed_on (tv s) [] (tv s');
  un_ring q : term_holds (md_term s) q → term_holds (md_term s') q;
}.

(** A key, that is not Shift-F1 and types a char of ASCII if it types one; when the buffer is full
    the char is dropped.  A tick of the timer.  Other interrupts and other programs that do
    nothing that is seen.  Several of these. *)
Inductive meanwhile : list event → Machine D → Machine D → Prop :=
  | mw_key s s' : restarts (md_kbd s) (scan_code s) = false → Forall inked (key_chars s) →
      (key_chars s ≠ [] → ring_safe (md_term s) = true) →
      keyboard_interrupt callProcess lit bound outside s = Done tt s' →
      meanwhile (if fst (isBufferFull (md_term s)) then [] else Typed <$> key_chars s) s s'
  | mw_tick s s' : timer_tick bound s = Done tt s' →
      meanwhile [Clock (default [] (video (tv s') !! 2%nat))] s s'
  | mw_unseen s s' : unseen s s' → meanwhile [] s s'
  | mw_then x y s1 s2 s3 : meanwhile x s1 s2 → meanwhile y s2 s3 → meanwhile (x ++ y) s1 s3.

(** What a program sees of it. *)
Record effect (q : list Z) (x : list event) s s' : Prop := {
  ef_table : md_sysCalls s' = md_sysCalls s;
  ef_mem a : own a → load8 (kernel_mem s') a = load8 (kernel_mem s) a;
  ef_echo : isEcho (md_term s') = isEcho (md_term s);
  ef_video : typed_on (tv s) (echoed (isEcho (md_term s)) x) (tv s');
  ef_term : term_holds (md_term s') (q ++ chars x);
  ef_chars : Forall inked (chars x);
}.

Lemma up_effect q x s s' : up q s → effect q x s s' → up (q ++ chars x) s'.
Proof.
  intros [Ht Hv Hq Hc] [Mt Mm Me Mv Mq Mc].
  split; [by rewrite Mt|by apply Mv|by apply Mq|by apply Forall_app].
Qed.

Lemma effect_then q x y s1 s2 s3 : effect q x s1 s2 → effect (q ++ chars x) y s2 s3 → effect q (x ++ y) s1 s3.
Proof.
  intros [T1 M1 E1 V1 Q1 C1] [T2 M2 E2 V2 Q2 C2]. split.
  - by rewrite T2.
  - intros a Ha. by rewrite M2, M1.
  - by rewrite E2.
  - rewrite echoed_app. eapply typed_on_app; [exact V1|]. by rewrite <-E1.
  - by rewrite chars_app, app_assoc.
  - rewrite chars_app. by apply Forall_app.
Qed.

Lemma echo_types c t :
  video_ok (t_video t) → aget (Buffer t) (bufferPosition t) = Some c →
  ∃ t', echo_char c t = Some t' ∧ typed_on (t_video t) (echoed (isEcho t) [Typed c]) (t_video t').
Proof.
  intros Hok Hb. unfold echo_char, with_video. cbn [echoed mbind list_bind shown_by app]. rewrite app_nil_r.
  destruct (Z.eqb_spec c 8) as [->|H8].
  { destruct (erase_types _ Hok) as (v & E & Hv). exists (t_set_video (backInLine v) t). cbn [Z.eqb Pos.eqb t_video t_set_video]. change 32 with SPACE. by rewrite E. }
  destruct (Z.eqb_spec c 10) as [->|H10].
  - destruct (lineJump_types _ Hok) as (v & -> & Hv). eexists. by split.
  - destruct (Z.eqb_spec (isEcho t) 0) as [E|E]; cbn [negb orb].
    + exists t. split; [done|]. by apply typed_on_nil.
    + rewrite Hb. cbn [mbind option_bind]. destruct (putChar_types c _ Hok H10) as (v & -> & Hv & _). by eexists.
Qed.

(** The terminal appends the char to what is pending and echoes it, or drops it. *)
Lemma putTerminalBuffer_types c t q :
  term_holds t q → video_ok (t_video t) → ring_safe t = true →
  let x := if fst (isBufferFull t) then [] else [Typed c] in
  ∃ t', putTerminalBuffer c t = Some t' ∧ term_holds t' (q ++ chars x) ∧ isEcho t' = isEcho t ∧
    typed_on (t_video t) (echoed (isEcho t) x) (t_video t').
Proof.
  intros Ht Hok Hsafe x. destruct (putTerminalBuffer_spec c t q Ht Hok) as (t' & Hp & _ & _ & He & Hq & Hfull').
  exists t'. split; [done|]. pose proof (position_range _ _ Ht) as Hpos. pose proof Ht as [Hs Hz Hb Hc Hl Hpp _].
  unfold x, isBufferFull. cbn [fst]. rewrite Hs, Hz.
  destruct (decide (len q + 1 = Terminal.BUFFERSIZE)) as [Hfull|Hroom].
  - assert (Hc0 : bufferConsume t ≠ 0).
    { intros E. unfold ring_safe in Hsafe. rewrite Hs, Hz, E, Hpp, E in Hsafe. apply negb_true_iff, andb_false_iff in Hsafe.
      rewrite !Z.eqb_neq in Hsafe. term_arith. }
    rewrite (proj2 (Z.eqb_eq (bufferConsume t) _)) by term_arith. cbn [orb chars omap list_omap echoed mbind list_bind].
    rewrite (proj2 (Z.ltb_ge _ _)), (proj2 (Z.eqb_neq _ _) Hc0) in Hq by lia. rewrite app_nil_r. split; [done|]. split; [done|].
    rewrite Hfull' by done. by apply typed_on_nil.
  - assert ((bufferConsume t =? bufferPosition t + 1) ||
        ((bufferConsume t =? 0 + Terminal.BUFFERSIZE) && (bufferPosition t =? 0)) = false) as Hnf.
    { apply orb_false_iff. rewrite andb_false_iff, !Z.eqb_neq. split; [|left; lia]. rewrite Hpp. intros E. term_arith. }
    rewrite Hnf. rewrite (proj2 (Z.ltb_lt _ _)) in Hq by lia. split; [done|]. split; [done|].
    unfold putTerminalBuffer, isBufferFull in Hp. rewrite Hs, Hz, Hnf in Hp.
    cbn [Buffer cli set_if bufferPosition] in Hp. rewrite aset_some in Hp by (rewrite Hb; unfold Terminal.BUFFERSIZE in *; lia).
    cbn [mbind option_bind] in Hp.
    destruct (echo_types c (set_buffer (aput (Buffer t) (bufferPosition t) c) (cli (cli t)))) as (t1 & E & Hty);
      [done|simpl; apply aget_aput_eq; rewrite Hb; unfold Terminal.BUFFERSIZE in *; lia|].
    rewrite E in Hp. cbn [mbind option_bind] in Hp. injection Hp as <-. simpl. by case_match.
Qed.

(** The interrupt of a key puts the char of the key in the terminal, if it has one. *)
Lemma key_handled s k d :
  inputb 0x60 (md_device s) = (k, d) → restarts (md_kbd s) k = false →
  match keyed (md_kbd s) k with
  | c :: _ => keyboard_interrupt callProcess lit bound outside s =
      match putTerminalBuffer c (md_term s) with
      | Some t => Done tt (md_set_drivers t (md_kbd s) (md_mouse s) d s) | None => Fault end
  | [] => ∃ kb, keyboard_interrupt callProcess lit bound outside s = Done tt (md_set_drivers (md_term s) kb (md_mouse s) d s)
  end.
Proof.
  intros Hin Hre. unfold restarts in Hre. unfold keyboard_interrupt, keyboardHandlerC, read_port, keyed.
  erewrite call_field_bind by (cbn [fget Machine_device]; by rewrite Hin). rewrite asks_bind.
  cbn [fget fset Machine_kbd Machine_device md_set_drivers md_kbd].
  destruct (md_kbd s) as [sh ca] eqn:Hkb. cbn [shift caps] in *. cbv zeta.
  destruct (int8 k =? CAPS_LOCK) eqn:E1; [by eexists|]. cbn [orb].
  destruct ((int8 k =? LEFT_SHIFT_MAKE) || (int8 k =? RIGHT_SHIFT_MAKE)) eqn:E2; [by eexists|]. cbn [orb].
  destruct ((int8 k =? LEFT_SHIFT_BREAK) || (int8 k =? RIGHT_SHIFT_BREAK)) eqn:E3; [by eexists|].
  cbn [orb]. rewrite Hre. cbn [when].
  erewrite bind_done by reflexivity. rewrite asks_bind. cbn [fget Machine_kbd md_kbd].
  destruct ((Z.land (int8 k) 0x80 =? 0) && negb (kbd_get outside (int8 k) 1 =? NOCHAR)); [|by eexists].
  unfold column, type_char, on_field, modifyO. cbn [fget fset Machine_term md_term].
  cbn [md_set_drivers md_term md_kbd md_mouse md_device].
  destruct ((ca =? ON) && (sh =? ON)); [|destruct (ca =? ON); [|destruct (sh =? ON)]]; by destruct (putTerminalBuffer _ _).
Qed.

Lemma key_effect q s s' :
  up q s → restarts (md_kbd s) (scan_code s) = false → Forall inked (key_chars s) →
  (key_chars s ≠ [] → ring_safe (md_term s) = true) →
  keyboard_interrupt callProcess lit bound outside s = Done tt s' →
  effect q (if fst (isBufferFull (md_term s)) then [] else Typed <$> key_chars s) s s'.
Proof.
  intros Hup Hre Hink Hsafe E. pose proof Hup as [Ht Hv Hq Hc].
  pose proof (key_handled s (scan_code s) (snd (inputb 0x60 (md_device s)))) as Hk. fold (key_chars s) in Hk.
  assert (Hone : key_chars s = [] ∨ ∃ c, key_chars s = [c]).
  { unfold key_chars, keyed. repeat case_match; first [by left|right; by eexists]. }
  destruct Hone as [E0|(c & E0)]; rewrite E0 in *.
  - destruct Hk as (kb & Hk); [by apply surjective_pairing|done|]. rewrite Hk in E. injection E as <-.
    assert ((if fst (isBufferFull (md_term s)) then [] else Typed <$> []) = []) as -> by by case_match.
    split; [done|done|done|by apply typed_on_nil|cbn; by rewrite app_nil_r|constructor].
  - rewrite Hk in E by (done || by apply surjective_pairing).
    destruct (putTerminalBuffer_types c (md_term s) q Hq Hv (Hsafe ltac:(done))) as (t' & Hp & Hq' & He & Hty).
    rewrite Hp in E. injection E as <-. split; [done|done|exact He|exact Hty|exact Hq'|].
    case_match; [constructor|]. cbn [fmap list_fmap]. apply list.Forall_cons in Hink as [Hink _].
    by apply list.Forall_singleton.
Qed.

(** Waking a process leaves the memory alone. *)
Lemma changeProcessState_mem n slot pid st (k k' : Kern) :
  changeProcessState_loop n slot pid st k = Some k' → k_mem k' = k_mem k.
Proof.
  revert slot. induction n as [|n IH]; intros slot; cbn [changeProcessState_loop]; [by intros [= <-]|].
  rewrite !bind_Some. intros (p & _ & E). apply bind_Some in E as (pr & _ & E). destruct (p_pid pr =? pid).
  - unfold upd_process in E. apply bind_Some in E as (pr' & _ & E). by injection E as <-.
  - apply bind_Some in E as (nx & _ & E). by apply IH in E.
Qed.

Lemma tick_loop_mem n (l l' : SleepState Kern) :
  tick_loop n l = Some l' → k_mem (sl_world l') = k_mem (sl_world l).
Proof.
  revert l. induction n as [|n IH]; intros l; cbn [tick_loop]; (case_match; [|by intros [= <-]]); [done|].
  intros E. apply bind_Some in E as (c & _ & E). apply bind_Some in E as (cs & _ & E). apply bind_Some in E as (c2 & _ & E).
  apply bind_Some in E as (a & _ & E). apply bind_Some in E as (l1 & E1 & E). apply IH in E. rewrite E. cbn [sl_set_auxj sl_world].
  case_match; [|by injection E1 as <-]. apply bind_Some in E1 as (l2 & E1 & E2). injection E2 as <-. cbn [sl_set_auxj sl_world].
  unfold doneSleeping in E1. apply bind_Some in E1 as (pid & _ & E1). apply bind_Some in E1 as (l3 & E1 & E2).
  unfold sl_changeState in E1. apply bind_Some in E1 as (w & Hw & E1). injection E1 as <-. apply changeProcessState_mem in Hw.
  etransitivity; [|exact Hw]. unfold deleteSleep in E2. cbn [sl_set_world sleepListeners] in E2. case_match; [by injection E2 as <-|].
  repeat (apply bind_Some in E2 as (? & _ & E2)). by injection E2 as <-.
Qed.

Lemma tick_effect q s s' :
  up q s → timer_tick bound s = Done tt s' → effect q [Clock (default [] (video (tv s') !! 2%nat))] s s'.
Proof.
  intros Hup E. pose proof Hup as [Ht Hv Hq Hc].
  set (time := fst (getTime 0 (λ _, 0) (fget s : D))). set (s1 := fset (snd (getTime 0 (λ _, 0) (fget s : D))) s).
  assert (Hs : show_time s = match printMsg 9 time 2 0 0 0x20 (tv s) with Some v => Done tt (fset v s1) | None => Fault end).
  { unfold show_time. erewrite call_field_bind by (rewrite (surjective_pairing (getTime _ _ _)); reflexivity).
    fold time s1. unfold on_field, modifyO. change (fget s1) with (tv s). by destruct (printMsg _ _ _ _ _ _ _). }
  unfold timer_tick, mbind, M_bind in E. rewrite Hs in E. clear Hs. clearbody time.
  destruct (printMsg 9 time 2 0 0 0x20 (tv s)) as [v|] eqn:Ep; cbn [res_bind] in E; [|done].
  unfold on_field, modifyO in E. destruct (timerTickHandlerC (λ w, w) bound (fget (fset v s1))) as [l|] eqn:El; [|done].
  injection E as <-. apply tick_loop_mem in El.
  unfold printMsg in Ep. change (validPosition 2 0) with true in Ep. cbn [negb] in Ep.
  destruct (printMsg_loop_stamps _ _ _ _ _ _ Ep) as (Hok & (r & Hr) & HI & HJ);
    [exact Hv|unfold WIDTH; lia|unfold WIDTH; lia|].
  split; [done| |done| | |constructor].
  - intros a _. change (load8 (k_mem (sl_world l)) a = load8 (kernel_mem s) a). by rewrite El.
  - change (typed_on (tv s) [Stamp (default [] (video v !! 2%nat))] v). split; [done| |done|done].
    rewrite Hr. cbn [foldl typewrite]. f_equal.
    assert (Hrow : video v !! 2%nat = Some r); [|by rewrite Hrow].
    change (video v) with (rows (sheet_of v)). rewrite Hr. cbn [typewrite rows]. apply list_lookup_insert_eq.
    change (2 < length (video (tv s)))%nat. rewrite (proj1 (vo_video _ Hv)). unfold HEIGHT. lia.
  - cbn. rewrite app_nil_r. change (term_holds (t_set_video v (md_term s)) q). by destruct Hq; split.
Qed.

Lemma meanwhile_effect q x s s' : up q s → meanwhile x s s' → effect q x s s'.
Proof.
  intros Hup Hm. revert q Hup. induction Hm as [s s' Hre Hink Hsafe E|s s' E|s s' [Ut Um Ue Uv Ur]|x y s1 s2 s3 H1 IH1 H2 IH2]; intros q Hup.
  - by apply key_effect.
  - by apply tick_effect.
  - destruct Hup as [Ht Hv Hq Hc]. split; [done|done|done|by apply Uv|cbn; rewrite app_nil_r; by apply Ur|constructor].
  - eapply effect_then; [by apply IH1|]. apply IH2. eapply up_effect; [exact Hup|by apply IH1].
Qed.

Lemma up_mem q m s : up q s → up q (set_kernel_mem m s).
Proof. intros [Ht Hv Hq Hc]. by split. Qed.

Lemma up_typed q l v s : up q s → typed_on (tv s) l v → up q (fset v s).
Proof. intros [Ht Hv [] Hc] [Hok _ _ _]. by split. Qed.

(** *** The two calls *)

Lemma int80_entry n f a b c s :
  md_sysCalls s = table_full → (n, f) ∈ system_calls → int80 n a b c s = sysCall callProcess lit junk bound f a b c s.
Proof.
  intros Ht Hf. pose proof (table_get_in n f Hf) as Hg. pose proof (aget_inv _ _ _ Hg) as Hr.
  change (Z.of_nat (length table_full)) with 35 in Hr. unfold syscallHandler, SYSTEM_CALL_COUNT. c_tests.
  by rewrite asks_bind, Ht, Hg.
Qed.

Lemma int80_write msg q s :
  up q s → ∃ v, int80 4 0 msg 1 s = Done 0 (fset v s) ∧ typed_on (tv s) [Glyph (char_at (kernel_mem s) msg)] v ∧ (char_at (kernel_mem s) msg ≠ 10 → shown v).
Proof.
  intros Hup. rewrite (int80_entry 4 fn_writeC) by (apply Hup || by left). set (c := char_at (kernel_mem s) msg).
  assert (∃ v, (if c =? 10 then lineJump (Z.to_nat WIDTH) (tv s) else putChar c (tv s)) = Some v ∧ typed_on (tv s) [Glyph c] v ∧ (c ≠ 10 → shown v))
    as (v & E & Hv & Hs).
  { destruct (Z.eqb_spec c 10) as [->|Hc].
    - destruct (lineJump_types (tv s) (up_video _ _ Hup)) as (v & E & Hv). by exists v.
    - destruct (putChar_types c (tv s) (up_video _ _ Hup) Hc) as (v & E & Hv & Hs). by exists v. }
  exists v. split; [|done]. cbn [sysCall]. unfold sys_call_writeC. change (uint32 0 =? 0) with true. cbn iota.
  rewrite asks_bind. erewrite on_field_bind; [done|]. change (Z.to_nat (uint32 1)) with 1%nat. change (int32 1) with 1.
  cbn [writeC_loop Z.eqb]. fold c. change (fget s) with (tv s). by rewrite E.
Qed.

Lemma get_loop_echo (n : nat) buffer k m t r m' t' : get_loop n buffer k m t = Some (r, m', t') → isEcho t' = isEcho t.
Proof.
  revert buffer k m t. induction n as [|n IH]; intros buffer k m t; cbn [get_loop]; [by intros [= <- <- <-]|].
  unfold isBufferEmpty. destruct (bufferConsume t =? bufferPosition t); [by intros [= <- <- <-]|].
  rewrite bind_Some. intros (c & _ & Hg). apply IH in Hg. rewrite Hg. by case_match.
Qed.

(** One char is read if one is pending. *)
Lemma int80_read buffer q s :
  up q s →
  ∃ n s', int80 3 0 buffer 1 s = Done n s' ∧ up (tail q) s' ∧ tv s' = tv s ∧ isEcho (md_term s') = isEcho (md_term s) ∧
    load8 (kernel_mem s') buffer = match q with c :: _ => c | [] => load8 (kernel_mem s) buffer end ∧
    (∀ a, a ≠ buffer → load8 (kernel_mem s') a = load8 (kernel_mem s) a).
Proof.
  intros [Ht Hv Hq Hc]. rewrite (int80_entry 3 fn_readC) by (done || right; left; done).
  destruct (get_loop_spec 1 buffer 0 (kernel_mem s) (cli (md_term s)) q) as (m & t & Hg & Hq' & _ & Hvid & Hin & Hout); [by destruct Hq; split|].
  pose proof (get_loop_echo _ _ _ _ _ _ _ _ Hg) as He.
  exists (uint64 (0 + Z.min 1 (len q))), (set_kernel_mem m (fset t s)).
  split. { cbn [sysCall]. unfold sys_call_readC. change (uint32 0 =? 0) with true. cbn iota. unfold calls, getTerminalBuffer.
    change (Z.to_nat (uint32 (int32 1))) with 1%nat. change (fget s) with (md_term s). by rewrite Hg. }
  split. { split; [done| | |].
    - change (tv (set_kernel_mem m (fset t s))) with (t_video t). by rewrite Hvid.
    - by destruct q.
    - destruct Hc; [constructor|done]. }
  split; [exact Hvid|]. split; [exact He|]. change (kernel_mem (set_kernel_mem m (fset t s))) with m. split.
  - destruct q as [|c q].
    + apply Hout. cbn [length]. lia.
    + pose proof (Hin 0%nat c eq_refl) as E. change (Z.of_nat 0) with 0 in E. rewrite Z.add_0_r in E. rewrite E.
      apply list.Forall_cons in Hc as [Hc _]. apply wrap_u_id. unfold inked in Hc. lia.
  - intros a Ha. apply Hout. destruct q; cbn [length]; lia.
Qed.

(** *** Programs *)

(** What a program that printed [l] leaves: in between, [x] happened. *)
Record printed (l : list Z) (x : list event) (q : list Z) s s' : Prop := {
  pr_screen : ∃ z, interleaving (Glyph <$> l) (echoed (isEcho (md_term s)) x) z ∧ typed_on (tv s) z (tv s');
  pr_up : up (q ++ chars x) s';
}.

Lemma load_own s s' a : load8 (kernel_mem s') a = load8 (kernel_mem s) a → char_at (kernel_mem s') a = char_at (kernel_mem s) a.
Proof. apply load8_char. Qed.

(** The string [l] at [p], apart from [msg]. *)
Definition text_at (msg p : Z) (l : list Z) s : Prop :=
  cstr (kernel_mem s) p l ∧ ∀ a, p ≤ a ≤ p + len l → own a ∧ a ≠ msg.

Lemma text_same msg p l s s' :
  (∀ a, own a → a ≠ msg → load8 (kernel_mem s') a = load8 (kernel_mem s) a) → text_at msg p l s → text_at msg p l s'.
Proof.
  intros Hm [Hl Ho]. split; [|done]. apply (cstr_load (kernel_mem s)); [|exact Hl]. intros a Ha. apply Hm; apply Ho; lia.
Qed.

Lemma print_must fuel msg p l q s quiet x0 :
  up q s → own msg → text_at msg p l s → (length l ≤ fuel)%nat →
  must no_chars meanwhile (λ _ x _ s', ∃ x1, x = x0 ++ x1 ∧ printed l x1 q s s') quiet x0 (print (putchar_local msg) fuel p s).
Proof.
  revert p l q s quiet x0. induction fuel as [|fuel IH]; intros p l q s quiet x0 Hup Hmsg [Hl Ho] Hf; cbn [print];
    unfold load_char; rewrite asks_bind; cbn [umem Machine_sys].
  all: assert (Hend : must no_chars meanwhile (λ _ x _ s', ∃ x1, x = x0 ++ x1 ∧ printed [] x1 q s s') quiet x0 (Done tt s))
    by (exists []; rewrite app_nil_r; split; [done|]; split; [exists []; split; [constructor|apply typed_on_nil, Hup]|cbn; by rewrite app_nil_r]).
  all: destruct l as [|c l]; cbn [cstr length] in *; [by rewrite Hl|try lia].
  destruct Hl as (Hc & Hv & Hl). rewrite Hv, (proj2 (Z.eqb_neq c 0)) by done.
  apply must_bind. unfold putchar_local, store_char. rewrite modify_bind. cbn [writeC Machine_sys umem set_umem].
  set (s1 := set_kernel_mem (store8 (kernel_mem s) msg c) s). apply must_yield. intros y s2 quiet2 Hy _.
  assert (Hup1 : up q s1) by (by apply up_mem). apply (meanwhile_effect _ _ _ _ Hup1) in Hy. pose proof (up_effect _ _ _ _ Hup1 Hy) as Hup2.
  destruct (int80_write msg _ _ Hup2) as (v & E & Hty & _). rewrite (bind_done _ _ _ _ _ E).
  unfold mret, M_ret. cbn [must].
  assert (Hcm : char_at (kernel_mem s2) msg = c).
  { rewrite (load_own s1 s2) by (by apply (ef_mem _ _ _ _ Hy)). unfold s1. change (kernel_mem (set_kernel_mem ?m s)) with m.
    rewrite store8_char, Z.eqb_refl, <-Hv. unfold char_at. apply wrap_s_id; [lia|]. apply (wrap_s_range 8). lia. }
  rewrite Hcm in Hty. set (s3 := fset v s2).
  assert (Hup3 : up (q ++ chars y) s3) by (by eapply up_typed).
  eapply must_mono; [|apply (IH (p + 1) l (q ++ chars y) s3); [done|done| |lia]].
  - intros _ z [] s4 (x1 & -> & (z1 & Hil & Hz1) & Hup4). exists (y ++ x1). split; [by rewrite app_assoc|].
    split; [|by rewrite chars_app, app_assoc]. exists (echoed (isEcho (md_term s)) y ++ [Glyph c] ++ z1).
    change (isEcho (md_term s3)) with (isEcho (md_term s2)) in Hil. rewrite (ef_echo _ _ _ _ Hy) in Hil.
    split; [rewrite echoed_app; apply interleaving_right; by constructor|].
    eapply typed_on_app; [exact (ef_video _ _ _ _ Hy)|]. by eapply typed_on_app.
  - apply (text_same msg _ _ s).
    + intros a Ha Hne. change (kernel_mem s3) with (kernel_mem s2). rewrite (ef_mem _ _ _ _ Hy a Ha).
      unfold s1. change (kernel_mem (set_kernel_mem ?m s)) with m. rewrite store8_load. by rewrite (proj2 (Z.eqb_neq a msg)).
    + split; [done|]. intros a Ha. apply Ho. lia.
Qed.

(** What [getchar] leaves: of [q], pending, and [x], typed meanwhile, it took the first. *)
Record got (buffer : Z) (x : list event) (q : list Z) (c : Z) s s' : Prop := {
  gt_char : head (q ++ chars x) = Some c;
  gt_up : up (tail (q ++ chars x)) s';
  gt_screen : typed_on (tv s) (echoed (isEcho (md_term s)) x) (tv s');
  gt_echo : isEcho (md_term s') = isEcho (md_term s);
  gt_mem a : own a → a ≠ buffer → load8 (kernel_mem s') a = load8 (kernel_mem s) a;
}.

(** Before each test of the loop: nothing is there yet. *)
Record waits (buffer : Z) (x : list event) (q : list Z) s s' : Prop := {
  wt_zero : load8 (kernel_mem s') buffer = 0;
  wt_up : up (q ++ chars x) s';
  wt_screen : typed_on (tv s) (echoed (isEcho (md_term s)) x) (tv s');
  wt_echo : isEcho (md_term s') = isEcho (md_term s);
  wt_mem a : own a → a ≠ buffer → load8 (kernel_mem s') a = load8 (kernel_mem s) a;
}.

Lemma waits_meanwhile buffer x y q s s1 s2 :
  own buffer → waits buffer x q s s1 → meanwhile y s1 s2 → waits buffer (x ++ y) q s s2.
Proof.
  intros Ho [Wz Wu Ws We Wm] Hy. apply (meanwhile_effect _ _ _ _ Wu) in Hy. split.
  - by rewrite (ef_mem _ _ _ _ Hy).
  - rewrite chars_app, app_assoc. by eapply up_effect.
  - rewrite echoed_app. eapply typed_on_app; [exact Ws|]. rewrite <-We. apply Hy.
  - by rewrite (ef_echo _ _ _ _ Hy).
  - intros a Ha Hne. by rewrite (ef_mem _ _ _ _ Hy a Ha), Wm.
Qed.

Lemma char_of_byte m a c : 0 ≤ c < 128 → load8 m a = c → char_at m a = c.
Proof.
  intros Hc Hl. assert (E : load8 m a = load8 (λ _, c) 0) by (rewrite Hl; unfold load8; symmetry; apply wrap_u_id; lia).
  rewrite (load8_char _ _ _ _ E). unfold char_at. apply wrap_s_id; lia.
Qed.

Lemma read_loop_must fuel buffer x0 x q s s1 quiet :
  own buffer → waits buffer x q s s1 → (quiet < fuel)%nat →
  must no_chars meanwhile (λ _ z _ s', ∃ y c, z = x0 ++ y ∧ got buffer y q c s s' ∧ char_at (kernel_mem s') buffer = c) quiet (x0 ++ x) (read_loop fuel buffer s1).
Proof.
  intros Ho. revert x s1 quiet. induction fuel as [|fuel IH]; intros x s1 quiet Hw Hf; [lia|].
  assert (Htest : ∀ n s2, read_loop n buffer s2 = (if char_at (kernel_mem s2) buffer =? 0
    then match n with O => Fault | S n' => (_ ← readC buffer 1; read_loop n' buffer) s2 end else Done tt s2)).
  { intros n s2. destruct n; cbn [read_loop]; unfold load_char; rewrite asks_bind; cbn [umem Machine_sys]; by case_match. }
  rewrite Htest, (char_of_byte _ _ 0) by (lia || apply Hw). cbn [Z.eqb]. apply must_bind. cbn [readC Machine_sys].
  apply must_yield. intros y s2 quiet2 Hy Hq. rewrite <-app_assoc.
  pose proof (waits_meanwhile _ _ _ _ _ _ _ Ho Hw Hy) as Hw2.
  destruct (int80_read buffer _ _ (wt_up _ _ _ _ _ Hw2)) as (n & s3 & -> & Hup3 & Hv3 & He3 & Hb3 & Hm3). cbn [must].
  assert (Hrest : typed_on (tv s) (echoed (isEcho (md_term s)) (x ++ y)) (tv s3) ∧ isEcho (md_term s3) = isEcho (md_term s) ∧
    ∀ a, own a → a ≠ buffer → load8 (kernel_mem s3) a = load8 (kernel_mem s) a).
  { split_and!; [rewrite Hv3; apply Hw2|rewrite He3; apply Hw2|]. intros a Ha Hne. rewrite Hm3 by done. by apply Hw2. }
  destruct Hrest as (R1 & R2 & R3). destruct (q ++ chars (x ++ y)) as [|c l] eqn:El.
  - apply app_eq_nil in El as [-> El]. assert (no_chars y = true) as Hy0.
    { apply bool_decide_eq_true. rewrite chars_app in El. by apply app_eq_nil in El as [_ ?]. }
    specialize (Hq Hy0). apply (IH (x ++ y)); [|lia]. split; [by rewrite Hb3; apply Hw2|cbn [app]; by rewrite El|done|done|done].
  - pose proof (up_chars _ _ (wt_up _ _ _ _ _ Hw2)) as Hc. rewrite El in Hc. apply list.Forall_cons in Hc as [Hc _].
    unfold inked in Hc. assert (Hcc : char_at (kernel_mem s3) buffer = c) by (apply char_of_byte; [lia|done]).
    rewrite Htest, Hcc, (proj2 (Z.eqb_neq c 0)) by lia. exists (x ++ y), c. split; [done|]. split; [|done].
    split; [by rewrite El|by rewrite El|done|done|done].
Qed.

Lemma getchar_must fuel buffer x0 q s quiet :
  own buffer → up q s → (quiet < fuel)%nat →
  must no_chars meanwhile (λ _ z c s', ∃ y, z = x0 ++ y ∧ got buffer y q c s s') quiet x0 (getchar_local buffer fuel s).
Proof.
  intros Ho Hup Hf. unfold getchar_local, store_char. rewrite modify_bind. cbn [umem set_umem Machine_sys].
  apply must_bind. set (s1 := set_kernel_mem (store8 (kernel_mem s) buffer 0) s).
  assert (Hw : waits buffer [] q s s1); [|pose proof (read_loop_must fuel buffer x0 [] q s s1 quiet Ho Hw Hf) as Hm;
    rewrite app_nil_r in Hm; eapply must_mono; [|exact Hm]].
  2: { intros q2 z [] s2 (y & c & -> & Hg & Hc). exists y. split; [done|]. cbn [umem Machine_sys]. by rewrite Hc. }
  split; [change (kernel_mem s1) with (store8 (kernel_mem s) buffer 0); rewrite store8_load, Z.eqb_refl; done
      |rewrite app_nil_r; by apply up_mem| |done|].
  - apply typed_on_nil, Hup.
  - intros a Ha Hne. change (kernel_mem s1) with (store8 (kernel_mem s) buffer 0). rewrite store8_load. by rewrite (proj2 (Z.eqb_neq a buffer)).
Qed.

(** Nothing may happen, too, and a key may be pressed. *)
Lemma meanwhile_nothing s : meanwhile [] s s.
Proof. apply mw_unseen. split; [done|done|done|apply typed_on_nil|done]. Qed.

Lemma key_meanwhile q s c :
  up q s → restarts (md_kbd s) (scan_code s) = false → key_chars s = [c] → inked c → ring_safe (md_term s) = true →
  ∃ s', keyboard_interrupt callProcess lit bound outside s = Done tt s' ∧
    meanwhile (if fst (isBufferFull (md_term s)) then [] else [Typed c]) s s'.
Proof.
  intros Hup Hre E Hc Hsafe.
  pose proof (key_handled s (scan_code s) (snd (inputb 0x60 (md_device s)))) as Hk. fold (key_chars s) in Hk. rewrite E in Hk.
  destruct (putTerminalBuffer_types c (md_term s) q) as (t & Hp & _); [apply Hup|apply Hup|done|].
  rewrite Hp in Hk. specialize (Hk (surjective_pairing _) Hre). eexists. split; [exact Hk|].
  change [Typed c] with (Typed <$> [c]). rewrite <-E. apply mw_key; [done| |done|exact Hk]. rewrite E. by apply list.Forall_singleton.
Qed.

(** ** The theorems *)

(** C21: What a program prints is on the screen.  A string in the memory of a program, printed char by
    char through system calls, never faults, and whatever happens meanwhile (keys, backspace
    included, run through the keyboard's handler; ticks of the timer through its handler;
    see [meanwhile] for the keys left out: Shift-F1, keys that type no ASCII char, and the
    key that overflows a ring whose oldest char is the buffer's first) the screen is then the sheet it
    was with the text typed on it in order, in between the echo of those keys and the new
    lines of the clock, in their order; what was typed waits in the terminal. *)
Theorem print_on_screen fuel quiet msg p l q s :
  up q s → own msg → text_at msg p l s → (length l ≤ fuel)%nat →
  must no_chars meanwhile (λ _ x _ s', printed l x q s s') quiet [] (print (putchar_local msg) fuel p s).
Proof.
  intros Hup Hmsg Ht Hf. eapply must_mono; [|by apply print_must].
  by intros _ x _ s' (x1 & -> & Hp).
Qed.

(** C22: What is typed is what a program reads.  [getchar] waits through interrupts that type nothing, as many as it
    has fuel for, never faults, and gives the oldest char that was pending or that a key
    typed; the others stay in order, each was echoed on the screen once, and no byte of the program but the buffer
    changed. *)
Theorem getchar_reads_typed fuel quiet buffer q s :
  own buffer → up q s → (quiet < fuel)%nat →
  must no_chars meanwhile (λ _ x c s', got buffer x q c s s') quiet [] (getchar_local buffer fuel s).
Proof.
  intros Ho Hup Hf. eapply must_mono; [|by apply getchar_must].
  by intros _ x c s' (y & -> & Hg).
Qed.

End machine.

(** *** Instances *)

(** The machine with its table of calls and its terminal, a text at 100, and the scan code of the key a. *)
Definition demo_up : Machine (list Z) :=
  let s := machine_bss (array_mem (replicate 100 0 ++ [104; 105; 10; 0])) demo_text [0x1E] in
  md_set_drivers (terminalInitializeC (md_term s)) (md_kbd s) (md_mouse s) (md_device s) (md_set_tables (md_idt s) table_full 0 s).

#[local] Instance demo_sys : Sys (Machine (list Z)) := Machine_sys 5 demo_lit 0 100.

Definition demo_own (a : Z) : Prop := 100 ≤ a < 200.

Lemma demo_up_ok : up [] demo_up.
Proof.
  split; [done|by apply video_bss_ok|by apply initial_holds|constructor].
Qed.

(** The key a in this machine. *)
Lemma demo_key m :
  ∃ s', keyboard_interrupt 5 demo_lit 100 (λ _, 0) (set_kernel_mem m demo_up) = Done tt s' ∧
    meanwhile 5 demo_lit 100 demo_own (λ _, 0) [Typed 97] (set_kernel_mem m demo_up) s'.
Proof.
  exact (key_meanwhile 5 demo_lit 100 demo_own (λ _, 0) [] (set_kernel_mem m demo_up) 97 (up_mem _ m _ demo_up_ok)
    eq_refl eq_refl ltac:(unfold inked; lia) eq_refl).
Qed.

(** The program is about to print "hi" and a newline at its first char, and the key is pressed. *)
Lemma print_on_screen_witness :
  ∃ s1 k s2, print (putchar_local 150) 9 100 demo_up = Yield s1 k ∧
    keyboard_interrupt 5 demo_lit 100 (λ _, 0) s1 = Done tt s2 ∧
    must no_chars (meanwhile 5 demo_lit 100 demo_own (λ _, 0)) (λ _ x _ s', printed [104; 105; 10] x [] demo_up s') 9 [Typed 97] (k s2).
Proof.
  assert (Ht : text_at demo_own 150 100 [104; 105; 10] demo_up).
  { split; [vm_compute; by split_and!|]. intros a Ha. unfold demo_own. simpl in Ha. lia. }
  pose proof (print_on_screen 5 demo_lit 0 100 demo_own (λ _, 0) 9 9 150 100 [104; 105; 10] [] demo_up demo_up_ok
    ltac:(unfold demo_own; lia) Ht ltac:(simpl; lia)) as Hm.
  destruct (demo_key (store8 (kernel_mem demo_up) 150 104)) as (s2 & E2 & Hmw).
  eexists _, _, s2. split; [reflexivity|]. split; [exact E2|]. exact (Hm [Typed 97] s2 Hmw).
Defined.

(** The program waits, the key is pressed, and the program has the char. *)
Lemma getchar_reads_typed_witness :
  ∃ s1 k s2, getchar_local 150 1 demo_up = Yield s1 k ∧ keyboard_interrupt 5 demo_lit 100 (λ _, 0) s1 = Done tt s2 ∧
    must no_chars (meanwhile 5 demo_lit 100 demo_own (λ _, 0)) (λ _ x c s', got demo_own 150 x [] c demo_up s') 0 [Typed 97] (k s2).
Proof.
  pose proof (getchar_reads_typed 5 demo_lit 0 100 demo_own (λ _, 0) 1 0 150 [] demo_up ltac:(unfold demo_own; lia) demo_up_ok ltac:(lia)) as Hm.
  destruct (demo_key (store8 (kernel_mem demo_up) 150 0)) as (s2 & E2 & Hmw).
  eexists _, _, s2. split; [reflexivity|]. split; [exact E2|]. exact (Hm [Typed 97] s2 Hmw).
Defined.
