(* ===== verification/Bmfs.v ===== *)
(** * The file system tool ([Bootloader/BMFS/bmfs.c])

    The tool keeps a disk image: in block 0 a tag and a directory of 64 records of 64
    bytes, then blocks of 2 MiB.  The state is the files of the host (the image is
    one of them), the two buffers of the tool, and what it prints.  A path or an argument is a list of
    bytes without a terminator; [None] is a null pointer.  [Host] is what the host decides: which files cannot
    be opened for writing, which writes fail, whether [malloc] fails.  [qsort] is that of
    the C library. *)

From Stdlib Require Import Ascii.
From S2P Require Import Prelude KMonad CString.

(** ** Data *)

(** The [char]s of a literal. *)
Fixpoint text (s : string) : list Z :=
  match s with EmptyString => [] | String c s' => Z.of_nat (Ascii.nat_of_ascii c) :: text s' end.

Definition minimumDiskSize : Z := 6 * 1024 * 1024.
Definition fs_tag : string := "BMFS".
Definition BLOCK : Z := 2097152.

Record BMFSEntry := mkEntry {
  FileName : list Z;
  StartingBlock : Z;
  ReservedBlocks : Z;
  FileSize : Z;
  Unused : Z;
}.

(** [n] bytes of a memory; the memory with bytes stored. *)
Definition bytes_at (m : mem) (a n : Z) : list Z := (λ k, load8 m (a + k)) <$> seqZ 0 n.
Definition put_bytes (m : mem) (a : Z) (l : list Z) : mem :=
  λ x, match aget l (x - a) with Some b => uint8 b | None => m x end.

(** The struct at an address, as [memcpy] into one reads it. *)
Definition load_entry (m : mem) (a : Z) : BMFSEntry :=
  mkEntry (bytes_at m a 32) (load64 m (a + 32)) (load64 m (a + 40)) (load64 m (a + 48)) (load64 m (a + 56)).

(** The first char of the name; [strcmp] of a string and such an array, which reads past an array
    without a terminator. *)
Definition mark (e : BMFSEntry) : Z := default 0 (head (FileName e)).
Fixpoint same_string (fold : Z → Z) (s a : list Z) : option bool :=
  match a, s with
  | [], _ => None
  | b :: _, [] => Some (b =? 0)
  | b :: a', c :: s' => if fold b =? fold c then same_string fold s' a' else Some false
  end.
Definition same_name : list Z → list Z → option bool := same_string (λ c, c).

(** The string in an array of chars. *)
Fixpoint c_string (a : list Z) : option (list Z) :=
  match a with [] => None | b :: a' => if b =? 0 then Some [] else l ← c_string a'; Some (b :: l) end.

(** [<ctype.h>], [strcasecmp], [atoi]. *)
Definition isdigit (c : Z) : bool := (48 <=? c) && (c <=? 57).
Definition isspace (c : Z) : bool := (c =? 32) || ((9 <=? c) && (c <=? 13)).
Definition tolower (c : Z) : Z := if (65 <=? c) && (c <=? 90) then c + 32 else c.
Definition toupper (c : Z) : Z := if (97 <=? c) && (c <=? 122) then c - 32 else c.
Definition strcasecmp (s t : list Z) : bool := bool_decide (tolower <$> s = tolower <$> t).

Fixpoint digits (acc : Z) (s : list Z) : Z :=
  match s with c :: s' => if isdigit c then digits (acc * 10 + (c - 48)) s' else acc | [] => acc end.
Fixpoint skip_space (s : list Z) : list Z :=
  match s with c :: s' => if isspace c then skip_space s' else s | [] => [] end.
Definition atoi (s : list Z) : Z :=
  let clip z := int32 (Z.max (- 2 ^ 63) (Z.min (2 ^ 63 - 1) z)) in
  match skip_space s with
  | c :: s' => if c =? 45 then clip (- digits 0 s') else if c =? 43 then clip (digits 0 s') else clip (digits 0 (c :: s'))
  | [] => 0
  end.

(** ** The host *)

Record FILE := mkFile { f_bytes : mem; f_len : Z }.
Record stream := mkStream { s_path : list Z; s_pos : Z; s_error : bool }.

(** What [printf] was given: the format and its arguments. *)
Inductive arg := Str (s : list Z) | Num (n : Z) | Percent (part whole : Z).

Record Tool := mkTool {
  files : gmap (list Z) FILE;
  stdin : list Z;
  printed : list (string * list arg);
  writes : Z;
  Directory : mem;
  DiskInfo : mem;
  disksize : Z;
  diskname : list Z;
  disk : option stream;
}.
Implicit Types t : Tool.

Definition set_files v t := mkTool v (stdin t) (printed t) (writes t) (Directory t) (DiskInfo t) (disksize t) (diskname t) (disk t).
Definition set_stdin v t := mkTool (files t) v (printed t) (writes t) (Directory t) (DiskInfo t) (disksize t) (diskname t) (disk t).
Definition set_printed v t := mkTool (files t) (stdin t) v (writes t) (Directory t) (DiskInfo t) (disksize t) (diskname t) (disk t).
Definition set_writes v t := mkTool (files t) (stdin t) (printed t) v (Directory t) (DiskInfo t) (disksize t) (diskname t) (disk t).
Definition set_Directory v t := mkTool (files t) (stdin t) (printed t) (writes t) v (DiskInfo t) (disksize t) (diskname t) (disk t).
Definition set_DiskInfo v t := mkTool (files t) (stdin t) (printed t) (writes t) (Directory t) v (disksize t) (diskname t) (disk t).
Definition set_disksize v t := mkTool (files t) (stdin t) (printed t) (writes t) (Directory t) (DiskInfo t) v (diskname t) (disk t).
Definition set_diskname v t := mkTool (files t) (stdin t) (printed t) (writes t) (Directory t) (DiskInfo t) (disksize t) v (disk t).
Definition set_disk v t := mkTool (files t) (stdin t) (printed t) (writes t) (Directory t) (DiskInfo t) (disksize t) (diskname t) v.

Class Host := { read_only : list Z → bool; write_fails : Z → bool; no_memory : bool }.

Section tool.
Context `{Host} (qsort : (BMFSEntry → BMFSEntry → Z) → list BMFSEntry → list BMFSEntry) (fuel : nat).

Definition printf (format : string) (args : list arg) : M Tool unit :=
  modify (λ t, set_printed (printed t ++ [(format, args)]) t).

(** *** Streams *)

Definition fopen_rb (path : list Z) : M Tool (option stream) :=
  asks (λ t, match files t !! path with Some _ => Some (mkStream path 0 false) | None => None end).

Definition fopen_rwb (path : list Z) : M Tool (option stream) :=
  asks (λ t, match files t !! path with
             | Some _ => if read_only path then None else Some (mkStream path 0 false)
             | None => None
             end).

(** The file is there and empty. *)
Definition fopen_wb (path : list Z) : M Tool (option stream) :=
  if read_only path then mret None
  else modify (λ t, set_files (<[path := mkFile (λ _, 0) 0]> (files t)) t) ;; mret (Some (mkStream path 0 false)).

Definition fseek (pos : Z) (s : stream) : stream := mkStream (s_path s) pos (s_error s).

Definition flength (s : stream) : M Tool Z := asksO (λ t, f_len <$> files t !! s_path s).

(** At most [n] bytes. *)
Definition fread (n : Z) (s : stream) : M Tool (list Z * stream) :=
  asksO (λ t, f ← files t !! s_path s;
    let k := Z.max 0 (Z.min n (f_len f - s_pos s)) in
    Some (bytes_at (f_bytes f) (s_pos s) k, fseek (s_pos s + k) s)).

(** A write that fails leaves the file as it was. *)
Definition fwrite (l : list Z) (s : stream) : M Tool (bool * stream) :=
  n ← asks writes;
  modify (set_writes (n + 1)) ;;
  if write_fails n then mret (false, mkStream (s_path s) (s_pos s) true)
  else
    modifyO (λ t, f ← files t !! s_path s;
      Some (set_files (<[s_path s := mkFile (put_bytes (f_bytes f) (s_pos s) l)
        (Z.max (f_len f) (s_pos s + Z.of_nat (length l)))]> (files t)) t)) ;;
    mret (true, fseek (s_pos s + Z.of_nat (length l)) s).

(** [getc] is -1 at the end of the file. *)
Definition getc (s : stream) : M Tool (Z * stream) :=
  '(l, s) ← fread 1 s; mret (default (-1) (head l), s).
Definition putc (c : Z) (s : stream) : M Tool stream := '(_, s) ← fwrite [uint8 c] s; mret s.

(** [for (..; tint < n; tint++) putc(getc(from), to);] *)
Fixpoint copy_chars (n : nat) (from to : stream) : M Tool (stream * stream) :=
  match n with
  | O => mret (from, to)
  | S n' => '(c, from) ← getc from; to ← putc c to; copy_chars n' from to
  end.

Definition get_disk : M Tool stream := asksO disk.
Definition put_disk (s : stream) : M Tool unit := modify (set_disk (Some s)).

(** [fseek(disk, 4096, SEEK_SET); fwrite(Directory, 4096, 1, disk);] *)
Definition write_directory : M Tool unit :=
  d ← asks Directory;
  s ← get_disk;
  '(_, s) ← fwrite (bytes_at d 0 4096) (fseek 4096 s);
  put_disk s.

(** ** Commands *)

Fixpoint findfile_loop (n : nat) (tint : Z) (filename : option (list Z)) (d : mem) : option (option (BMFSEntry * Z)) :=
  match n with
  | O => Some None
  | S n' =>
      let entry := load_entry d (tint * 64) in
      if mark entry =? 0 then Some None
      else if mark entry =? 1 then findfile_loop n' (tint + 1) filename d
      else
        name ← filename;
        found ← same_name name (FileName entry);
        if (found : bool) then Some (Some (entry, tint)) else findfile_loop n' (tint + 1) filename d
  end.

(** The record of the file and its number. *)
Definition findfile (filename : option (list Z)) : M Tool (option (BMFSEntry * Z)) :=
  asksO (λ t, findfile_loop 64 0 filename (Directory t)).

Fixpoint list_loop (n : nat) (tint : Z) : M Tool unit :=
  match n with
  | O => mret tt
  | S n' =>
      entry ← asks (λ t, load_entry (Directory t) (tint * 64));
      if mark entry =? 0 then mret tt
      else if mark entry =? 1 then list_loop n' (tint + 1)
      else
        name ← asksO (λ _, c_string (FileName entry));
        printf "%-32s %20lld %20lld\n" [Str name; Num (FileSize entry); Num (uint64 (ReservedBlocks entry * 2))] ;;
        list_loop n' (tint + 1)
  end.

Definition list_files : M Tool unit :=
  name ← asks diskname;
  size ← asks disksize;
  printf "%s\nDisk Size: %d MiB\n" [Str name; Num size] ;;
  printf "Name                            |            Size (B)|      Reserved (MiB)\n" [] ;;
  printf "==========================================================================\n" [] ;;
  list_loop 64 0.

Definition format : M Tool unit :=
  modify (λ t, set_DiskInfo (put_bytes (DiskInfo t) 0 (replicate 512 0)) t) ;;
  modify (λ t, set_Directory (put_bytes (Directory t) 0 (replicate 4096 0)) t) ;;
  modify (λ t, set_DiskInfo (put_bytes (DiskInfo t) 0 (text fs_tag)) t) ;;
  i ← asks DiskInfo;
  s ← get_disk;
  '(_, s) ← fwrite (bytes_at i 0 512) (fseek 1024 s);
  put_disk s ;;
  write_directory ;;
  printf "Format complete.\n" [].

(** *** [create] *)

Definition StartingBlockCmp (ea eb : BMFSEntry) : Z :=
  if mark ea =? 1 then 1
  else if mark eb =? 1 then -1
  else int32 (StartingBlock ea - StartingBlock eb).

(** The count of the records: [num_used_entries] and [first_free_entry]. *)
Fixpoint count_entries (n : nat) (tint first_free_entry : Z) (d : mem) : Z * Z :=
  match n with
  | O => (0, first_free_entry)
  | S n' =>
      let m := mark (load_entry d (tint * 64)) in
      if m =? 0 then (tint, if first_free_entry =? -1 then tint else first_free_entry)
      else if m =? 1 then count_entries n' (tint + 1) (if first_free_entry =? -1 then tint else first_free_entry) d
      else count_entries n' (tint + 1) first_free_entry d
  end.

(** The walk over the sorted copy: [new_file_start], 0 if there is none. *)
Fixpoint find_area (l : list BMFSEntry) (prev_file_end blocks_requested num_blocks : Z) : Z :=
  match l with
  | [] => if blocks_requested <=? uint64 (uint64 (num_blocks - 1) - prev_file_end) then prev_file_end else 0
  | e :: l' =>
      let this_file_start := if mark e =? 1 then uint64 (num_blocks - 1) else StartingBlock e in
      if blocks_requested <=? uint64 (this_file_start - prev_file_end) then prev_file_end
      else find_area l' (uint64 (StartingBlock e + ReservedBlocks e)) blocks_requested num_blocks
  end.

(** The new record: the fields, then the name over them; a name past the directory is undefined. *)
Definition add_record (slot start blocks : Z) (name : list Z) (d : mem) : option mem :=
  let d := store64 d (slot * 64 + 32) start in
  let d := store64 d (slot * 64 + 40) blocks in
  let d := store64 d (slot * 64 + 48) 0 in
  if slot * 64 + Z.of_nat (length name) <? 4096 then Some (put_bytes d (slot * 64) (name ++ [0])) else None.

Definition create (filename : list Z) (maxsize : Z) : M Tool unit :=
  let maxsize := if maxsize mod 2 =? 0 then maxsize else uint64 (maxsize + 1) in
  found ← findfile (Some filename);
  match found with
  | Some _ => printf "Error: File already exists.\n" []
  | None =>
      let blocks_requested := maxsize / 2 in
      num_blocks ← asks (λ t, disksize t / 2);
      printf "Creating new file...\n" [] ;;
      dir_copy ← asks Directory;
      let '(num_used_entries, first_free_entry) := count_entries 64 0 (-1) dir_copy in
      if first_free_entry =? -1 then printf "Cannot create file: no free directory entries.\n" []
      else
        let sorted := qsort StartingBlockCmp ((λ k, load_entry dir_copy (k * 64)) <$> seqZ 0 num_used_entries) in
        let new_file_start := find_area sorted 1 blocks_requested num_blocks in
        if new_file_start =? 0 then printf "Cannot create file of size %lld MiB.\n" [Num maxsize]
        else
          modifyO (λ t, d ← add_record first_free_entry new_file_start blocks_requested filename (Directory t); Some (set_Directory d t)) ;;
          when ((first_free_entry =? num_used_entries) && (num_used_entries + 1 <? 64))
            (modify (λ t, set_Directory (put_bytes (Directory t) ((num_used_entries + 1) * 64) [0]) t)) ;;
          write_directory ;;
          printf "Complete\n" []
  end.

(** *** [read], [write], [delete] *)

(** The loops count with an [int]. *)
Definition copy_counted (n : Z) (from to : stream) : M Tool (stream * stream) :=
  if n <=? INT_MAX then copy_chars (Z.to_nat n) from to else fault.

Definition read (filename : option (list Z)) : M Tool unit :=
  found ← findfile filename;
  match found with
  | None => printf "Error: File not found in BMFS.\n" []
  | Some (tempentry, slot) =>
      name ← asksO (λ _, filename);
      printf "Reading '%s' from BMFS to local file... " [Str name] ;;
      path ← asksO (λ _, c_string (FileName tempentry));
      o ← fopen_wb path;
      match o with
      | None => printf "Error: Could not open local file '%s'\n" [Str path]
      | Some tfile =>
          s ← get_disk;
          '(s, _) ← copy_counted (FileSize tempentry) (fseek (uint64 (StartingBlock tempentry * BLOCK)) s) tfile;
          put_disk s ;;
          printf "Complete\n" []
      end
  end.

Definition write (filename : option (list Z)) : M Tool unit :=
  found ← findfile filename;
  match found with
  | None => printf "Error: File not found in BMFS. A file entry must first be created.\n" []
  | Some (tempentry, slot) =>
      name ← asksO (λ _, filename);
      printf "Writing local file '%s' to BMFS... " [Str name] ;;
      o ← fopen_rb name;
      match o with
      | None =>
          path ← asksO (λ _, c_string (FileName tempentry));
          printf "Error: Could not open local file '%s'\n" [Str path]
      | Some tfile =>
          tempfilesize ← flength tfile;
          if uint64 (ReservedBlocks tempentry * BLOCK) <? tempfilesize then printf "Not enough reserved space in BMFS.\n" []
          else
            s ← get_disk;
            '(_, s) ← copy_counted tempfilesize tfile (fseek (uint64 (StartingBlock tempentry * BLOCK)) s);
            put_disk s ;;
            modify (λ t, set_Directory (store64 (Directory t) (slot * 64 + 48) tempfilesize) t) ;;
            write_directory ;;
            printf "Complete\n" []
      end
  end.

Definition delete (filename : option (list Z)) : M Tool unit :=
  found ← findfile filename;
  match found with
  | None => printf "Error: File not found in BMFS.\n" []
  | Some (_, slot) =>
      name ← asksO (λ _, filename);
      printf "Deleting file '%s' from BMFS... " [Str name] ;;
      modify (λ t, set_Directory (put_bytes (Directory t) (slot * 64) [1]) t) ;;
      write_directory ;;
      printf "Complete\n" []
  end.

(** *** [initialize] *)

(** The size string: [diskSize], [diskSizeFactor] and [ret]. *)
Fixpoint parse_size (size : list Z) (i : Z) (s : list Z) (diskSize diskSizeFactor : Z) : M Tool (Z * Z * Z) :=
  match s with
  | [] => mret (diskSize, diskSizeFactor, 0)
  | c :: s' =>
      if isdigit c then
        let n := c - 48 in
        if diskSize <? uint64 (diskSize * 10) then parse_size size (i + 1) s' (uint64 (uint64 (diskSize * 10) + n)) diskSizeFactor
        else if diskSize =? 0 then parse_size size (i + 1) s' (diskSize + n) diskSizeFactor
        else printf "Error: Disk size is too large\n" [] ;; mret (diskSize, diskSizeFactor, 1)
      else if i =? 0 then printf "Error: A numeric disk size must be specified\n" [] ;; mret (diskSize, diskSizeFactor, 1)
      else
        let u := toupper c in
        let unit := if u =? 75 then 1 else if u =? 77 then 2 else if u =? 71 then 3 else if u =? 84 then 4 else if u =? 80 then 5 else 0 in
        if (unit =? 0) || negb (bool_decide (s' = []))
        then printf "Error: Invalid disk size string: '%s'\n" [Str size] ;; mret (diskSize, diskSizeFactor, 1)
        else mret (diskSize, unit, 0)
  end.

(** [while (diskSizeFactor--)]. *)
Fixpoint scale (n : nat) (diskSize ret : Z) : M Tool (Z * Z) :=
  match n with
  | O => mret (diskSize, ret)
  | S n' =>
      if diskSize <? uint64 (diskSize * 1024) then scale n' (uint64 (diskSize * 1024)) ret
      else printf "Error: Disk size is too large\n" [] ;; scale n' diskSize 1
  end.

Definition disk_size (size : list Z) : M Tool (Z * Z) :=
  '(diskSize, factor, ret) ← parse_size size 0 size 0 0;
  '(diskSize, ret) ← (if (ret =? 0) && (0 <? diskSize) && (0 <? factor) then scale (Z.to_nat factor) diskSize ret
                      else mret (diskSize, ret));
  if (ret =? 0) && (diskSize <? minimumDiskSize)
  then printf "Error: Disk size must be at least %llu bytes (%lluMiB)\n" [Num minimumDiskSize; Num (minimumDiskSize / (1024 * 1024))] ;;
       mret (diskSize, 1)
  else mret (diskSize, ret).

(** An optional file of the caller. *)
Definition open_file (ret : Z) (path : option (list Z)) (message : string) (args : list Z → list arg) : M Tool (Z * option stream) :=
  match path with
  | None => mret (ret, None)
  | Some p =>
      if ret =? 0 then
        o ← fopen_rb p;
        match o with
        | None => printf message (args p) ;; mret (1, None)
        | Some f => mret (0, Some f)
        end
      else mret (ret, None)
  end.

Definition bufferSize : Z := 50 * 1024.

(** [fwrite] to the disk, with the message of its failure. *)
Definition write_disk (l : list Z) (ret : Z) : M Tool Z :=
  s ← get_disk;
  '(ok, s) ← fwrite l s;
  put_disk s ;;
  if (ok : bool) then mret ret
  else name ← asks diskname; printf "Error: Failed to write disk '%s'\n" [Str name] ;; mret 1.

(** [while (writeSize < diskSize)]: [ret] and [writeSize]. *)
Fixpoint fill_zeros (n : nat) (writeSize diskSize : Z) : M Tool (Z * Z) :=
  if writeSize <? diskSize then
    match n with
    | O => fault
    | S n' =>
        printf "Formatting disk: %llu of %llu bytes (%.0f%%)...\r" [Num writeSize; Num diskSize; Percent writeSize diskSize] ;;
        let chunkSize := Z.min bufferSize (diskSize - writeSize) in
        ret ← write_disk (replicate (Z.to_nat chunkSize) 0) 0;
        if ret =? 0 then fill_zeros n' (writeSize + chunkSize) diskSize else mret (ret, writeSize)
    end
  else mret (0, writeSize).

Definition write_mbr (mbr : option (list Z)) (mbrFile : stream) : M Tool Z :=
  printf "Writing master boot record.\n" [] ;;
  s ← get_disk;
  put_disk (fseek 0 s) ;;
  '(l, _) ← fread 512 mbrFile;
  if Z.of_nat (length l) =? 512 then write_disk l 0
  else printf "Error: Failed to read file '%s'\n" [Str (default [] mbr)] ;; mret 1.

(** [for (;;)] over the chunks of a file. *)
Fixpoint copy_file (n : nat) (path : list Z) (from : stream) (ret : Z) : M Tool Z :=
  match n with
  | O => fault
  | S n' =>
      '(l, from) ← fread bufferSize from;
      match l with
      | [] =>
          s ← get_disk;
          if s_error s then printf "Error: Failed to read file '%s'\n" [Str path] ;; mret 1 else mret ret
      | _ => ret ← write_disk l ret; copy_file n' path from ret
      end
  end.

Definition when_ok (ret : Z) (m : M Tool Z) : M Tool Z := if ret =? 0 then m else mret ret.

Definition boot_type (kernel : option (list Z)) : string :=
  match kernel with None => "system" | Some _ => "boot loader" end.

(** What is written once the files are open. *)
Definition write_image (diskSize : Z) (mbr boot kernel : option (list Z)) (mbrFile bootFile kernelFile : option stream) : M Tool Z :=
  '(ret, writeSize) ← fill_zeros fuel 0 diskSize;
  when (ret =? 0) (printf "Formatting disk: %llu of %llu bytes (100%%)%9s\n" [Num writeSize; Num diskSize; Str []]) ;;
  ret ← when_ok ret (s ← get_disk; put_disk (mkStream (s_path s) 0 false) ;; format ;; mret 0);
  ret ← (match mbrFile with Some f => when_ok ret (write_mbr mbr f) | None => mret ret end);
  ret ← (match bootFile with
         | Some f => when_ok ret (
             printf "Writing %s file.\n" [Str (text (boot_type kernel))] ;;
             s ← get_disk;
             put_disk (fseek 8192 s) ;;
             copy_file fuel (default [] boot) f 0)
         | None => mret ret
         end);
  match kernelFile with
  | Some f => when_ok ret (printf "Writing kernel.\n" [] ;; copy_file fuel (default [] kernel) f 0)
  | None => mret ret
  end.

Definition initialize (diskname size : list Z) (mbr boot kernel : option (list Z)) : M Tool Z :=
  '(diskSize, ret) ← disk_size size;
  '(ret, mbrFile) ← open_file ret mbr "Error: Unable to open MBR file '%s'\n" (λ p, [Str p]);
  '(ret, bootFile) ← open_file ret boot "Error: Unable to open %s file '%s'\n" (λ p, [Str (text (boot_type kernel)); Str p]);
  '(ret, kernelFile) ← open_file ret kernel "Error: Unable to open kernel file '%s'\n" (λ p, [Str p]);
  ret ← when_ok ret (if no_memory then printf "Error: Failed to allocate buffer\n" [] ;; mret 1 else mret 0);
  ret ← when_ok ret (
    o ← fopen_wb diskname;
    match o with
    | None => printf "Error: Unable to open disk '%s'\n" [Str diskname] ;; mret 1
    | Some s => put_disk s ;; write_image diskSize mbr boot kernel mbrFile bootFile kernelFile
    end);
  modify (set_disk None) ;;
  when (ret =? 0) (printf "Disk initialization complete.\n" []) ;;
  mret ret.

(** ** [main] *)

Definition usage (argv0 : list Z) : M Tool unit :=
  printf "BareMetal File System Utility v1.0 (2013 04 10)\n" [] ;;
  printf "Written by Ian Seyler @ Return Infinity (ian.seyler@returninfinity.com)\n\n" [] ;;
  printf "Usage: %s disk function file\n" [Str argv0] ;;
  printf "Disk: the name of the disk file\n" [] ;;
  printf "Function: list, read, write, create, delete, format, initialize\n" [] ;;
  printf "File: (if applicable)\n" [].

(** [fread] into a buffer of the tool: what the file does not have stays. *)
Definition mount : M Tool unit :=
  s ← get_disk;
  size ← flength s;
  modify (set_disksize (uint32 (size / 1048576))) ;;
  '(l, s) ← fread 512 (fseek 1024 s);
  modify (λ t, set_DiskInfo (put_bytes (DiskInfo t) 0 l) t) ;;
  '(l, s) ← fread 4096 (fseek 4096 s);
  modify (λ t, set_Directory (put_bytes (Directory t) 0 l) t) ;;
  put_disk (mkStream (s_path s) 0 false).

(** [fgets(tempstring, 32, stdin)]. *)
Fixpoint gets (n : nat) (s : list Z) : list Z * list Z :=
  match n, s with
  | S n', c :: s' => if c =? 10 then ([c], s') else let '(l, r) := gets n' s' in (c :: l, r)
  | _, _ => ([], s)
  end.

Definition is_command (command : list Z) (name : string) : bool := strcasecmp (text name) command.

Definition do_create (argv : list (list Z)) : M Tool unit :=
  match argv !! 3%nat with
  | None => printf "Error: File name not specified.\n" []
  | Some filename =>
      match argv !! 4%nat with
      | Some a =>
          let filesize := atoi a in
          if 1 <=? filesize then create filename filesize else printf "Error: Invalid file size.\n" []
      | None =>
          printf "Maximum file size in MiB: " [] ;;
          '(l, r) ← asks (λ t, gets 31 (stdin t));
          modify (set_stdin r) ;;
          let filesize := uint32 (atoi l) in
          if 1 <=? filesize then create filename filesize else printf "Error: Invalid file size.\n" []
      end
  end.

Definition do_format (argv : list (list Z)) : M Tool unit :=
  match argv !! 3%nat with
  | Some a => if strcasecmp a (text "/FORCE") then format else printf "Format aborted!\n" []
  | None => printf "Format aborted!\n" []
  end.

Definition run_command (argv : list (list Z)) (command : list Z) : M Tool unit :=
  let filename := argv !! 3%nat in
  if is_command command "list" then list_files
  else if is_command command "format" then do_format argv
  else if is_command command "create" then do_create argv
  else if is_command command "read" then read filename
  else if is_command command "write" then write filename
  else if is_command command "delete" then delete filename
  else printf "Unknown command\n" [].

(** The exit status. *)
Definition main (argv : list (list Z)) : M Tool Z :=
  match argv with
  | argv0 :: name :: command :: _ =>
      modify (set_diskname name) ;;
      if is_command command "initialize" then
        match argv !! 3%nat with
        | Some size => initialize name size (argv !! 4%nat) (argv !! 5%nat) (argv !! 6%nat)
        | None =>
            printf "Usage: %s disk %s " [Str argv0; Str command] ;;
            printf "size [mbr_file] " [] ;;
            printf "[bootloader_file] [kernel_file]\n" [] ;;
            mret 1
        end
      else
        o ← fopen_rwb name;
        modify (set_disk o) ;;
        match o with
        | None => printf "Error: Unable to open disk '%s'\n" [Str name] ;; mret 0
        | Some _ =>
            mount ;;
            tag ← asksO (λ t, same_string tolower (text fs_tag) (bytes_at (DiskInfo t) 0 512));
            (if (tag : bool) then run_command argv command
             else if is_command command "format" then format
             else printf "Error: Not a valid BMFS drive (Disk is not BMFS formatted).\n" []) ;;
            modify (set_disk None) ;;
            mret 0
        end
  | _ => usage (default [] (head argv)) ;; mret 0
  end.
End tool.
