(* ===== verification/BmfsDirectory.v ===== *)
(** * The directory of the file system tool

    The records of the directory and the areas of the disk: the walk of [create] over sorted
    records finds the lowest free area; a name is found if a record has it; a new record keeps the
    directory well formed.  [qsort] is what the C standard says of it; an insertion sort is one. *)

From Stdlib Require Import Sorted.
From S2P Require Import Prelude KMonad CString Bmfs.

Abbreviation len l := (Z.of_nat (length l)).

(** ** Bytes *)

Lemma length_bytes m a n : 0 ≤ n → len (bytes_at m a n) = n.
Proof. intros Hn. unfold bytes_at. rewrite length_fmap, length_seqZ. lia. Qed.

Lemma aget_bytes m a n k : 0 ≤ k < n → aget (bytes_at m a n) k = Some (load8 m (a + k)).
Proof.
  intros Hk. unfold bytes_at. rewrite aget_nat, list_lookup_fmap, lookup_seqZ_lt by lia. simpl. do 3 f_equal. lia.
Qed.

Lemma bytes_same m m' a a' n :
  (∀ k, 0 ≤ k < n → load8 m (a + k) = load8 m' (a' + k)) → bytes_at m a n = bytes_at m' a' n.
Proof.
  intros Hs. destruct (decide (0 ≤ n)) as [Hn|Hn].
  - apply arr_ext; [apply Nat2Z.inj; by rewrite !length_bytes|]. intros k Hk. rewrite length_bytes in Hk by done.
    rewrite !aget_bytes by done. by rewrite Hs.
  - unfold bytes_at. by rewrite seqZ_nil by lia.
Qed.

Lemma put_bytes_out m a l x : x < a ∨ a + len l ≤ x → load8 (put_bytes m a l) x = load8 m x.
Proof.
  intros Hx. unfold put_bytes, load8. destruct (aget l (x - a)) as [b|] eqn:E; [|done]. apply aget_inv in E. lia.
Qed.

Lemma put_bytes_in m a l k b : aget l k = Some b → load8 (put_bytes m a l) (a + k) = uint8 b.
Proof.
  intros Hb. unfold put_bytes, load8. replace (a + k - a) with k by lia. rewrite Hb.
  apply wrap_u_id. apply wrap_u_range. lia.
Qed.

Lemma put_bytes_load m a l x :
  load8 (put_bytes m a l) x = match aget l (x - a) with Some b => uint8 b | None => load8 m x end.
Proof.
  destruct (aget l (x - a)) as [b|] eqn:E.
  - rewrite <-(put_bytes_in m a l (x - a) b E). f_equal. lia.
  - apply put_bytes_out. destruct (decide (x < a ∨ a + len l ≤ x)) as [|Hn]; [done|].
    destruct (aget_some l (x - a)) as [b Hb]; [lia|]. by rewrite Hb in E.
Qed.

(** Bytes put are read. *)
Definition is_byte (b : Z) : Prop := 0 ≤ b < 256.

Lemma bytes_put m a l : Forall is_byte l → bytes_at (put_bytes m a l) a (len l) = l.
Proof.
  intros Hl. apply arr_ext; [apply Nat2Z.inj, length_bytes; lia|]. intros k Hk. rewrite length_bytes in Hk by lia.
  rewrite aget_bytes by lia. destruct (aget_some l k) as [b Hb]; [lia|]. rewrite Hb, (put_bytes_in _ _ _ _ b) by done.
  f_equal. apply wrap_u_id. rewrite list.Forall_forall in Hl. apply Hl. unfold aget in Hb. case_match; [|done].
  by eapply list_elem_of_lookup_2.
Qed.

Lemma bytes_byte m a n : Forall is_byte (bytes_at m a n).
Proof.
  unfold bytes_at. apply Forall_fmap, Forall_true. intros k. unfold is_byte. apply (wrap_u_range 8). lia.
Qed.

(** A record depends on its 64 bytes. *)
Lemma entry_same m m' a : (∀ x, a ≤ x < a + 64 → load8 m' x = load8 m x) → load_entry m' a = load_entry m a.
Proof.
  intros Hs. unfold load_entry. rewrite !(load64_ext m m') by (intros x Hx; apply Hs; lia). f_equal.
  apply bytes_same. intros k Hk. apply Hs. lia.
Qed.

(** A string and its terminator at the start of an array. *)
Lemma c_string_app name rest : Forall (λ c, c ≠ 0) name → c_string (name ++ 0 :: rest) = Some name.
Proof. induction 1 as [|c l Hc Hl IH]; [done|]. cbn. by rewrite (proj2 (Z.eqb_neq c 0)), IH. Qed.

Lemma same_name_spec name a s :
  Forall (λ c, c ≠ 0) name → c_string a = Some s → same_name name a = Some (bool_decide (name = s)).
Proof.
  unfold same_name. intros Hn. revert a s. induction Hn as [|c l Hc Hl IH]; intros a s Ha; destruct a as [|b a]; try done; cbn in *.
  - destruct (Z.eqb_spec b 0) as [->|Hb].
    + by injection Ha as <-.
    + apply bind_Some in Ha as (l & _ & [= <-]). by rewrite bool_decide_eq_false_2.
  - destruct (Z.eqb_spec b 0) as [->|Hb].
    + injection Ha as <-. rewrite (proj2 (Z.eqb_neq 0 c)) by done. by rewrite bool_decide_eq_false_2.
    + apply bind_Some in Ha as (l0 & Ha & [= <-]). destruct (Z.eqb_spec b c) as [->|Hne].
      * rewrite (IH _ _ Ha). f_equal. apply bool_decide_ext. split; [by intros ->|by intros [= ->]].
      * rewrite bool_decide_eq_false_2; [done|]. by intros [= ? ?].
Qed.

(** ** Sorting *)

(** What holds of every two elements of a list. *)
Definition pairwise {A} (R : A → A → Prop) (l : list A) : Prop :=
  ∀ i j a b, l !! i = Some a → l !! j = Some b → i ≠ j → R a b.

Lemma pairwise_perm {A} (R : A → A → Prop) l l' : l ≡ₚ l' → pairwise R l → pairwise R l'.
Proof.
  intros Hp Hl i j a b Hi Hj Hne. symmetry in Hp. apply Permutation_inj in Hp as [_ (f & Hf & Hlf)].
  rewrite Hlf in Hi, Hj. apply (Hl _ _ _ _ Hi Hj). intros E. by apply Hne, Hf.
Qed.

Lemma pairwise_cons {A} (R : A → A → Prop) x l :
  (∀ a, a ∈ l → R x a ∧ R a x) → pairwise R l → pairwise R (x :: l).
Proof.
  intros Hx Hl [|i] [|j] a b; simpl; intros Hi Hj Hne; simplify_eq; try done.
  - by apply Hx; eapply list_elem_of_lookup_2.
  - by apply Hx; eapply list_elem_of_lookup_2.
  - apply (Hl i j); [done..|]. congruence.
Qed.

Lemma pairwise_tail {A} (R : A → A → Prop) x l : pairwise R (x :: l) → pairwise R l.
Proof. intros Hl i j a b Hi Hj Hne. apply (Hl (S i) (S j)); [done..|]. congruence. Qed.

Lemma pairwise_head {A} (R : A → A → Prop) x l a : pairwise R (x :: l) → a ∈ l → R x a ∧ R a x.
Proof.
  intros Hl [i Hi]%list_elem_of_lookup. split; [by apply (Hl 0%nat (S i))|by apply (Hl (S i) 0%nat)].
Qed.

(** A comparison that orders the elements of a list: what the C library asks of one. *)
Record consistent {A} (cmp : A → A → Z) (l : list A) : Prop := {
  co_sign : pairwise (λ a b, Z.sgn (cmp a b) = - Z.sgn (cmp b a)) l;
  co_trans i j k a b c : l !! i = Some a → l !! j = Some b → l !! k = Some c → i ≠ j → j ≠ k → i ≠ k →
    cmp a b ≤ 0 → cmp b c ≤ 0 → cmp a c ≤ 0;
}.

(** What the C library promises of [qsort]. *)
Definition sorts {A} (qsort : (A → A → Z) → list A → list A) : Prop :=
  ∀ cmp l, consistent cmp l → qsort cmp l ≡ₚ l ∧ StronglySorted (λ a b, cmp a b ≤ 0) (qsort cmp l).

(** An insertion sort keeps the promise. *)
Module Insertion.
Section insertion.
Context {A : Type} (cmp : A → A → Z).

Fixpoint insert (x : A) (l : list A) : list A :=
  match l with [] => [x] | y :: l' => if cmp x y <=? 0 then x :: l else y :: insert x l' end.
Definition sort (l : list A) : list A := foldr insert [] l.

Lemma insert_perm x l : insert x l ≡ₚ x :: l.
Proof.
  induction l as [|y l IH]; [done|]. simpl. destruct (cmp x y <=? 0); [done|]. rewrite IH. by constructor.
Qed.

Lemma sort_perm l : sort l ≡ₚ l.
Proof. induction l as [|x l IH]; [done|]. simpl. by rewrite insert_perm, IH. Qed.

Lemma consistent_perm l l' : l ≡ₚ l' → consistent cmp l → consistent cmp l'.
Proof.
  intros Hp [Hs Ht]. split; [by eapply pairwise_perm|].
  intros i j k a b c Hi Hj Hk H1 H2 H3. symmetry in Hp. apply Permutation_inj in Hp as [_ (f & Hf & Hlf)].
  rewrite Hlf in Hi, Hj, Hk. apply (Ht _ _ _ _ _ _ Hi Hj Hk); intros E; apply Hf in E; done.
Qed.

Lemma consistent_drop x y l : consistent cmp (x :: y :: l) → consistent cmp (x :: l).
Proof.
  intros [Hs Ht].
  set (f := λ i : nat, match i with O => O | S i => S (S i) end).
  assert (Hf : ∀ i, (x :: l) !! i = (x :: y :: l) !! f i) by (by intros [|i]).
  assert (Hi : ∀ i j, i ≠ j → f i ≠ f j) by (intros [|i] [|j]; simpl; lia).
  split.
  - intros i j a b Ha Hb Hne. rewrite Hf in Ha, Hb. apply (Hs _ _ _ _ Ha Hb). by apply Hi.
  - intros i j k a b c Ha Hb Hc H1 H2 H3. rewrite Hf in Ha, Hb, Hc. by apply (Ht _ _ _ _ _ _ Ha Hb Hc); apply Hi.
Qed.

Lemma insert_sorted x l :
  consistent cmp (x :: l) → StronglySorted (λ a b, cmp a b ≤ 0) l → StronglySorted (λ a b, cmp a b ≤ 0) (insert x l).
Proof.
  induction l as [|y l IH]; intros Hc Hl; simpl; [by repeat constructor|].
  inversion_clear Hl as [|? ? Hl' Hy]. destruct (Z.leb_spec (cmp x y) 0) as [Hxy|Hxy].
  - constructor; [by constructor|]. constructor; [done|]. rewrite list.Forall_forall in Hy |- *.
    intros z Hz. pose proof (Hy z Hz) as Hyz. apply list_elem_of_lookup in Hz as [k Hk].
    by apply (co_trans _ _ Hc 0 1 (S (S k)) x y z).
  - constructor; [apply IH; [by eapply consistent_drop|done]|]. rewrite list.Forall_forall in Hy |- *.
    intros z Hz. rewrite insert_perm, elem_of_cons in Hz. destruct Hz as [->|Hz]; [|by apply Hy].
    pose proof (co_sign _ _ Hc 0%nat 1%nat x y eq_refl eq_refl ltac:(done)) as E. cbv beta in E. lia.
Qed.

Lemma sort_sorted l : consistent cmp l → StronglySorted (λ a b, cmp a b ≤ 0) (sort l).
Proof.
  induction l as [|x l IH]; intros Hc; simpl; [constructor|]. apply insert_sorted.
  - eapply consistent_perm; [|exact Hc]. by rewrite sort_perm.
  - apply IH. destruct Hc as [Hs Ht]. split; [by eapply pairwise_tail|].
    intros i j k a b c Ha Hb Hd H1 H2 H3. apply (Ht (S i) (S j) (S k)); done || congruence.
Qed.
End insertion.

Lemma sort_sorts {A} : sorts (@sort A).
Proof. intros cmp l Hc. split; [apply sort_perm|by apply sort_sorted]. Qed.
End Insertion.

(** ** Free areas *)

Abbreviation record_at d k := (load_entry d (k * 64)).
Definition live (e : BMFSEntry) : Prop := mark e ≠ 1.
Abbreviation ending e := (StartingBlock e + ReservedBlocks e).

(** A record of a file on a disk of [nb] blocks: all but the first and last are for data. *)
Record entry_ok (nb : Z) (e : BMFSEntry) : Prop := {
  eo_name : is_Some (c_string (FileName e));
  eo_start : 1 ≤ StartingBlock e;
  eo_blocks : 1 ≤ ReservedBlocks e;
  eo_end : ending e ≤ nb - 1;
}.

Definition apart (a b : BMFSEntry) : Prop := live a → live b → ending a ≤ StartingBlock b ∨ ending b ≤ StartingBlock a.

(** The [b] blocks from [s] on are for data, and no file of [l] has one of them. *)
Definition free_area (nb : Z) (l : list BMFSEntry) (b s : Z) : Prop :=
  1 ≤ s ∧ s + b ≤ nb - 1 ∧ ∀ e, e ∈ l → live e → s + b ≤ StartingBlock e ∨ ending e ≤ s.

(** Sorted: a deleted record is the last, a file ends before the next one starts. *)
Definition before (a b : BMFSEntry) : Prop := live a ∧ (live b → ending a ≤ StartingBlock b).

Lemma sorted_before nb l :
  0 ≤ nb < 2 ^ 31 → (∀ e, e ∈ l → live e → entry_ok nb e) → pairwise apart l →
  StronglySorted (λ a b, StartingBlockCmp a b ≤ 0) l → StronglySorted before l.
Proof.
  intros Hnb Hok Hap Hs. induction Hs as [|a l Hs IH Ha]; [constructor|].
  constructor; [apply IH; [intros e He; apply Hok; by right|by eapply pairwise_tail]|].
  rewrite list.Forall_forall in Ha |- *. intros b Hb. specialize (Ha b Hb). unfold StartingBlockCmp in Ha.
  destruct (Z.eqb_spec (mark a) 1) as [|Hla]; [lia|]. split; [done|]. intros Hlb.
  rewrite (proj2 (Z.eqb_neq _ _) Hlb) in Ha.
  destruct (Hok a) as [_ A1 A2 A3]; [by left|done|]. destruct (Hok b) as [_ B1 B2 B3]; [by right|done|].
  rewrite int32_id in Ha by (unfold INT_MIN, INT_MAX; lia).
  destruct (proj1 (pairwise_head _ _ _ _ Hap Hb) Hla Hlb); lia.
Qed.

Lemma u64_id z : 0 ≤ z < 2 ^ 64 → uint64 z = z.
Proof. apply wrap_u_id. Qed.

(** The walk finds the lowest free area from [prev] on; without one, and without a deleted
    record, it finds none. *)
Lemma find_area_spec nb b l prev :
  0 ≤ nb < 2 ^ 31 → 1 ≤ b → 1 ≤ prev ≤ nb - 1 →
  (∀ e, e ∈ l → live e → entry_ok nb e ∧ prev ≤ StartingBlock e) → StronglySorted before l →
  ((∃ s, prev ≤ s ∧ free_area nb l b s) →
    prev ≤ find_area l prev b nb ∧ free_area nb l b (find_area l prev b nb) ∧
    ∀ s, prev ≤ s → free_area nb l b s → find_area l prev b nb ≤ s) ∧
  (¬ (∃ s, prev ≤ s ∧ free_area nb l b s) → (∀ e, e ∈ l → live e) → find_area l prev b nb = 0).
Proof.
  intros Hnb Hb. revert prev. induction l as [|e l IH]; intros prev Hp Hok Hs; cbn [find_area].
  - rewrite (u64_id (nb - 1)), u64_id by lia. destruct (Z.leb_spec b (nb - 1 - prev)) as [Hle|Hgt].
    + split; [|intros Hn; exfalso; apply Hn; exists prev; split; [lia|]; split; [lia|]; split; [lia|]; by intros e ?%elem_of_nil].
      intros _. split; [lia|]. split; [|by intros s ?]. split; [lia|]. split; [lia|]. by intros e ?%elem_of_nil.
    + split; [|done]. intros (s & Hps & _ & Hsb & _). lia.
  - inversion_clear Hs as [|? ? Hs' He]. rewrite list.Forall_forall in He.
    destruct (decide (mark e = 1)) as [Hd|Hl].
    + assert (l = []) as ->. { destruct l as [|x l]; [done|]. destruct (He x) as [H1 _]; [by left|]. by elim H1. }
      rewrite (proj2 (Z.eqb_eq _ _) Hd), (u64_id (nb - 1)), u64_id by lia.
      assert (Hno : ∀ x, x ∈ [e] → live x → False) by (intros x ->%list_elem_of_singleton Hlx; by elim Hlx).
      destruct (Z.leb_spec b (nb - 1 - prev)) as [Hle|Hgt].
      * split; [|intros _ Hall; by elim (Hall e ltac:(by left))]. intros _.
        split; [lia|]. split; [|by intros s ?]. split; [lia|]. split; [lia|]. intros x Hx Hlx. by elim (Hno x Hx Hlx).
      * split; [intros (s & Hps & _ & Hsb & _); lia|]. intros _ Hall. by elim (Hall e ltac:(by left)).
    + destruct (Hok e) as [[_ E1 E2 E3] Hpe]; [by left|done|].
      rewrite (proj2 (Z.eqb_neq _ _) Hl), u64_id by lia.
      assert (Hnext : ∀ x, x ∈ l → live x → entry_ok nb x ∧ ending e ≤ StartingBlock x).
      { intros x Hx Hlx. split; [apply Hok; [by right|done]|]. by apply He. }
      destruct (Z.leb_spec b (StartingBlock e - prev)) as [Hle|Hgt].
      * assert (Hfree : free_area nb (e :: l) b prev).
        { split; [lia|]. split; [lia|]. intros x [->|Hx]%elem_of_cons Hlx; [lia|]. destruct (Hnext x Hx Hlx). lia. }
        split; [|by intros Hn; elim Hn; exists prev]. intros _. split; [lia|]. split; [done|]. by intros s ?.
      * rewrite (u64_id (ending e)) by lia. destruct (IH (ending e)) as [Hyes Hno]; [lia|done|done|].
        assert (Hiff : ∀ s, prev ≤ s → free_area nb (e :: l) b s ↔ ending e ≤ s ∧ free_area nb l b s).
        { intros s Hps. split.
          - intros (F1 & F2 & F3). split; [destruct (F3 e); [by left|done|lia|lia]|]. split; [done|]. split; [done|].
            intros x Hx. apply F3. by right.
          - intros (Hes & F1 & F2 & F3). split; [done|]. split; [done|]. intros x [->|Hx]%elem_of_cons Hlx; [by right|by apply F3]. }
        split.
        -- intros (s & Hps & Hf). apply Hiff in Hf as [Hes Hf]; [|done].
           destruct Hyes as (Y1 & Y2 & Y3); [by exists s|]. split; [lia|]. split; [apply Hiff; [lia|done]|].
           intros s' Hps' [Hes' Hf']%Hiff; [|done]. by apply Y3.
        -- intros Hn Hall. apply Hno; [|intros x Hx; apply Hall; by right].
           intros (s & Hes & Hf). apply Hn. exists s. split; [lia|]. apply Hiff; [lia|done].
Qed.

(** ** The directory *)

(** The directory [d] of a disk of [nb] blocks has [n] records, some of them deleted; the files are
    apart and have different names. *)
Record directory (nb : Z) (d : mem) (n : Z) : Prop := {
  di_n : 0 ≤ n ≤ 64;
  di_used k : 0 ≤ k < n → mark (record_at d k) ≠ 0;
  di_end : n < 64 → mark (record_at d n) = 0;
  di_ok k : 0 ≤ k < n → live (record_at d k) → entry_ok nb (record_at d k);
  di_apart j k : 0 ≤ j < n → 0 ≤ k < n → j ≠ k → apart (record_at d j) (record_at d k);
  di_names j k : 0 ≤ j < n → 0 ≤ k < n → live (record_at d j) → live (record_at d k) →
    c_string (FileName (record_at d j)) = c_string (FileName (record_at d k)) → j = k;
}.

(** The file [name] is the record [k]; there is no such file. *)
Definition file_at (d : mem) (n : Z) (name : list Z) (k : Z) : Prop :=
  0 ≤ k < n ∧ live (record_at d k) ∧ c_string (FileName (record_at d k)) = Some name.
Definition no_file (d : mem) (n : Z) (name : list Z) : Prop := ∀ k, ¬ file_at d n name k.

Definition records (d : mem) (n : Z) : list BMFSEntry := (λ k, record_at d k) <$> seqZ 0 n.

Lemma elem_of_records d n e : e ∈ records d n ↔ ∃ k, 0 ≤ k < n ∧ e = record_at d k.
Proof.
  unfold records. rewrite list_elem_of_fmap. split; intros (k & A1 & A2); exists k.
  - apply elem_of_seqZ in A2. split; [lia|done].
  - split; [done|]. apply elem_of_seqZ. lia.
Qed.

Lemma records_lookup d n i e : records d n !! i = Some e → 0 ≤ Z.of_nat i < n ∧ e = record_at d (Z.of_nat i).
Proof.
  unfold records. rewrite list_lookup_fmap. intros (k & Hk & ->)%fmap_Some.
  apply lookup_seqZ in Hk as [-> Hk]. rewrite Z.add_0_l. split; [lia|done].
Qed.

Definition c_name (name : list Z) : Prop := Forall (λ c, c ≠ 0) name.

Lemma find_missing nb d n name : directory nb d n → c_name name → no_file d n name → findfile_loop 64 0 (Some name) d = Some None.
Proof.
  intros [Hn Hu He Hok _ _] Hc Hno.
  assert (Hgen : ∀ (m : nat) i, Z.of_nat m = 64 - i → 0 ≤ i ≤ n → findfile_loop m i (Some name) d = Some None);
    [|apply Hgen; lia].
  induction m as [|m IH]; intros i Hm Hi; [done|]. cbn [findfile_loop].
  destruct (decide (i = n)) as [->|Hne]; [by rewrite He by lia|].
  rewrite (proj2 (Z.eqb_neq _ 0)) by (apply Hu; lia). destruct (Z.eqb_spec (mark (record_at d i)) 1); [apply IH; lia|].
  destruct (Hok i ltac:(lia) ltac:(done)) as [[s Hs] _ _ _]. cbn [mbind option_bind].
  rewrite (same_name_spec name _ s Hc Hs). cbn [mbind option_bind]. case_bool_decide as Hd; [|apply IH; lia].
  subst s. elim (Hno i). split; [lia|done].
Qed.

Lemma find_file nb d n name k :
  directory nb d n → c_name name → file_at d n name k → findfile_loop 64 0 (Some name) d = Some (Some (record_at d k, k)).
Proof.
  intros [Hn Hu He Hok _ Hnames] Hc (Hk & Hlk & Hname).
  assert (Hgen : ∀ (m : nat) i, Z.of_nat m = 64 - i → 0 ≤ i ≤ k → findfile_loop m i (Some name) d = Some (Some (record_at d k, k)));
    [|apply Hgen; lia].
  induction m as [|m IH]; intros i Hm Hi; [lia|]. cbn [findfile_loop].
  rewrite (proj2 (Z.eqb_neq _ 0)) by (apply Hu; lia).
  destruct (Z.eqb_spec (mark (record_at d i)) 1) as [Hd|Hl].
  { apply IH; [lia|]. destruct (decide (i = k)) as [->|]; [by elim Hlk|lia]. }
  destruct (Hok i ltac:(lia) ltac:(done)) as [[s Hs] _ _ _]. cbn [mbind option_bind].
  rewrite (same_name_spec name _ s Hc Hs). cbn [mbind option_bind]. case_bool_decide as Hd.
  - subst s. assert (i = k) as -> by (apply Hnames; [lia|lia|done|done|congruence]). done.
  - apply IH; [lia|]. destruct (decide (i = k)) as [->|]; [congruence|lia].
Qed.

(** The place of a new record: the first deleted one, or the end. *)
Lemma count_spec nb d n :
  directory nb d n → n < 64 →
  ∃ slot, count_entries 64 0 (-1) d = (n, slot) ∧ 0 ≤ slot ≤ n ∧
    (slot = n ∨ mark (record_at d slot) = 1) ∧ ∀ k, 0 ≤ k < slot → live (record_at d k).
Proof.
  intros [Hn Hu He _ _ _] Hlt.
  assert (Hgen : ∀ (m : nat) i f, Z.of_nat m = 64 - i → 0 ≤ i ≤ n →
    (f = -1 ∧ (∀ k, 0 ≤ k < i → live (record_at d k))) ∨
    (0 ≤ f < n ∧ mark (record_at d f) = 1 ∧ ∀ k, 0 ≤ k < f → live (record_at d k)) →
    ∃ slot, count_entries m i f d = (n, slot) ∧ 0 ≤ slot ≤ n ∧
    (slot = n ∨ mark (record_at d slot) = 1) ∧ ∀ k, 0 ≤ k < slot → live (record_at d k)).
  - induction m as [|m IH]; intros i f Hm Hi Hf; [lia|]. cbn [count_entries].
    destruct (decide (i = n)) as [->|Hne].
    + rewrite He by lia. cbn [Z.eqb]. destruct Hf as [[-> Hf]|(Hf & Hd & Hlf)].
      * exists n. cbn. split; [done|]. split; [lia|]. split; [by left|done].
      * rewrite (proj2 (Z.eqb_neq f (-1))) by lia. exists f. split; [done|]. split; [lia|]. split; [by right|done].
    + rewrite (proj2 (Z.eqb_neq _ 0)) by (apply Hu; lia).
      destruct (Z.eqb_spec (mark (record_at d i)) 1) as [Hd|Hl]; apply IH; try lia.
      * destruct Hf as [[-> Hf]|(Hf & Hdf & Hlf)]; right; [cbn; split; [lia|done]|].
        by rewrite (proj2 (Z.eqb_neq f (-1))) by lia.
      * destruct Hf as [[-> Hf]|Hf]; [left|by right]. split; [done|]. intros k Hk.
        destruct (decide (k = i)) as [->|]; [done|apply Hf; lia].
  - apply Hgen; [lia|lia|left]. split; [done|lia].
Qed.

(** With at most one deleted record the comparison is consistent. *)
Lemma records_consistent nb d n :
  directory nb d n → 0 ≤ nb < 2 ^ 31 →
  (∀ j k, 0 ≤ j < n → 0 ≤ k < n → ¬ live (record_at d j) → ¬ live (record_at d k) → j = k) →
  consistent StartingBlockCmp (records d n).
Proof.
  intros Hd Hnb Hone.
  assert (Hstart : ∀ k, 0 ≤ k < n → live (record_at d k) → 0 ≤ StartingBlock (record_at d k) < 2 ^ 31).
  { intros k Hk Hl. destruct (di_ok _ _ _ Hd k Hk Hl). lia. }
  assert (Hcmp : ∀ j k, 0 ≤ j < n → 0 ≤ k < n → live (record_at d j) → live (record_at d k) →
    StartingBlockCmp (record_at d j) (record_at d k) = StartingBlock (record_at d j) - StartingBlock (record_at d k)).
  { intros j k Hj Hk Hlj Hlk. unfold StartingBlockCmp. rewrite !(proj2 (Z.eqb_neq _ 1)) by done.
    pose proof (Hstart j Hj Hlj). pose proof (Hstart k Hk Hlk). apply int32_id. unfold INT_MIN, INT_MAX. lia. }
  assert (Hdead : ∀ k, 0 ≤ k < n → mark (record_at d k) = 1 → ∀ j, 0 ≤ j < n → j ≠ k →
    live (record_at d j) ∧ StartingBlockCmp (record_at d k) (record_at d j) = 1 ∧ StartingBlockCmp (record_at d j) (record_at d k) = -1).
  { intros k Hk Hm j Hj Hne. assert (Hlj : live (record_at d j)).
    { intros Hmj. apply Hne, Hone; [done|done|by intros Hl; apply Hl|by intros Hl; apply Hl]. }
    split; [done|]. unfold StartingBlockCmp. by rewrite (proj2 (Z.eqb_eq _ _) Hm), (proj2 (Z.eqb_neq _ _) Hlj). }
  split.
  - intros i j a b [Hi ->]%records_lookup [Hj ->]%records_lookup Hne. cbv beta.
    destruct (decide (mark (record_at d (Z.of_nat i)) = 1)) as [Hm|Hli].
    + by destruct (Hdead _ Hi Hm (Z.of_nat j) Hj ltac:(lia)) as (_ & -> & ->).
    + destruct (decide (mark (record_at d (Z.of_nat j)) = 1)) as [Hm|Hlj].
      * by destruct (Hdead _ Hj Hm (Z.of_nat i) Hi ltac:(lia)) as (_ & -> & ->).
      * rewrite !Hcmp by done. lia.
  - intros i j k a b c [Hi ->]%records_lookup [Hj ->]%records_lookup [Hk ->]%records_lookup H1 H2 H3 Hab Hbc.
    destruct (decide (mark (record_at d (Z.of_nat i)) = 1)) as [Hm|Hli].
    { destruct (Hdead _ Hi Hm (Z.of_nat j) Hj ltac:(lia)) as (_ & E & _). lia. }
    destruct (decide (mark (record_at d (Z.of_nat j)) = 1)) as [Hm|Hlj].
    { destruct (Hdead _ Hj Hm (Z.of_nat k) Hk ltac:(lia)) as (_ & E & _). lia. }
    destruct (decide (mark (record_at d (Z.of_nat k)) = 1)) as [Hm|Hlk].
    { destruct (Hdead _ Hk Hm (Z.of_nat i) Hi ltac:(lia)) as (_ & _ & E). lia. }
    rewrite Hcmp in Hab, Hbc |- * by done. lia.
Qed.

(** *** A new record *)

(** What the tool takes as the name of a file. *)
Record file_name (name : list Z) : Prop := {
  fn_bytes : Forall (λ c, 0 < c < 256) name;
  fn_length : 1 ≤ len name ≤ 31;
  fn_mark : head name ≠ Some 1;
}.

Lemma file_name_c name : file_name name → c_name name.
Proof. intros [Hb _ _]. eapply Forall_impl; [|exact Hb]. simpl. lia. Qed.

Lemma bytes_app m a n1 n2 : 0 ≤ n1 → 0 ≤ n2 → bytes_at m a (n1 + n2) = bytes_at m a n1 ++ bytes_at m (a + n1) n2.
Proof.
  intros H1 H2. unfold bytes_at. rewrite seqZ_app, fmap_app by done. f_equal.
  rewrite Z.add_0_l, <-(Z.add_0_r n1) at 1. rewrite <-fmap_add_seqZ, <-list_fmap_compose.
  apply list_fmap_ext. intros i x _. simpl. f_equal. lia.
Qed.

Lemma load64_out m m' a lo hi :
  (∀ x, x < lo ∨ hi ≤ x → load8 m' x = load8 m x) → a + 8 ≤ lo ∨ hi ≤ a → load64 m' a = load64 m a.
Proof. intros Hs Ha. apply load64_ext. intros x Hx. apply Hs. lia. Qed.

Lemma add_record_spec slot start blocks name d :
  0 ≤ slot < 64 → 0 ≤ start < 2 ^ 64 → 0 ≤ blocks < 2 ^ 64 → file_name name →
  ∃ d', add_record slot start blocks name d = Some d' ∧
    (∀ x, x < slot * 64 ∨ slot * 64 + 64 ≤ x → load8 d' x = load8 d x) ∧
    c_string (FileName (record_at d' slot)) = Some name ∧ Some (mark (record_at d' slot)) = head name ∧
    StartingBlock (record_at d' slot) = start ∧ ReservedBlocks (record_at d' slot) = blocks ∧ FileSize (record_at d' slot) = 0.
Proof.
  intros Hslot Hst Hbl [Hb Hlen Hmark]. unfold add_record. rewrite (proj2 (Z.ltb_lt _ _)) by lia.
  set (a := slot * 64) in *. set (l := name ++ [0]).
  assert (Hl : len l = len name + 1) by (unfold l; rewrite length_app; simpl; lia).
  set (d3 := store64 (store64 (store64 d (a + 32) start) (a + 40) blocks) (a + 48) 0).
  exists (put_bytes d3 a l). split; [done|].
  assert (Hout : ∀ x, x < a ∨ a + 32 ≤ x → load8 (put_bytes d3 a l) x = load8 d3 x) by (intros x Hx; apply put_bytes_out; lia).
  split. { intros x Hx. rewrite Hout by lia. unfold d3. by rewrite !store64_load by lia. }
  assert (Hname : FileName (load_entry (put_bytes d3 a l) a) = name ++ 0 :: bytes_at (put_bytes d3 a l) (a + len l) (31 - len name)).
  { unfold load_entry. cbn [FileName]. replace 32 with (len l + (31 - len name)) by lia. rewrite bytes_app by lia.
    rewrite bytes_put; [unfold l; by rewrite <-app_assoc|]. apply Forall_app. split.
    - eapply Forall_impl; [|exact Hb]. unfold is_byte. simpl. lia.
    - constructor; [unfold is_byte; lia|constructor]. }
  split. { rewrite Hname. apply c_string_app. eapply Forall_impl; [|exact Hb]. simpl. lia. }
  split. { unfold mark. rewrite Hname. destruct name; [simpl in Hlen; lia|done]. }
  unfold load_entry. cbn [StartingBlock ReservedBlocks FileSize].
  rewrite !(load64_out d3 (put_bytes d3 a l) _ a (a + 32)) by (done || lia). unfold d3. split; [|split].
  - rewrite (load64_out _ (store64 _ (a + 48) 0) _ (a + 48) (a + 56)), (load64_out _ (store64 _ (a + 40) blocks) _ (a + 40) (a + 48))
      by (lia || (intros x Hx; apply store64_load; lia)). by apply load64_store64.
  - rewrite (load64_out _ (store64 _ (a + 48) 0) _ (a + 48) (a + 56)) by (lia || (intros x Hx; apply store64_load; lia)).
    by apply load64_store64.
  - by apply load64_store64.
Qed.

(** The directory with a file more, where there was room. *)
Lemma directory_add nb d n d' slot name a b :
  directory nb d n → n < 64 → 0 ≤ slot ≤ n → slot = n ∨ mark (record_at d slot) = 1 →
  file_name name → no_file d n name → 1 ≤ b → free_area nb (records d n) b a →
  (∀ k, 0 ≤ k < n → k ≠ slot → record_at d' k = record_at d k) →
  (slot < n → mark (record_at d' n) = 0) → (slot = n → n + 1 < 64 → mark (record_at d' (n + 1)) = 0) →
  c_string (FileName (record_at d' slot)) = Some name → Some (mark (record_at d' slot)) = head name →
  StartingBlock (record_at d' slot) = a → ReservedBlocks (record_at d' slot) = b →
  directory nb d' (if decide (slot = n) then n + 1 else n) ∧ file_at d' (if decide (slot = n) then n + 1 else n) name slot.
Proof.
  intros [Hn Hu He Hok Hap Hnames] Hlt Hslot Hfree Hname Hno Hb (F1 & F2 & F3) Hsame Hend Hend2 Hcs Hm Ha Hbl.
  set (n' := if decide (slot = n) then n + 1 else n).
  assert (Hn' : slot < n' ∧ n ≤ n' ≤ 64 ∧ ∀ k, 0 ≤ k < n' → k ≠ slot → 0 ≤ k < n) by (unfold n'; case_decide; split_and!; intros; lia).
  assert (Hmark : mark (record_at d' slot) ≠ 0 ∧ live (record_at d' slot)).
  { destruct Hname as [Hc Hl H1]. destruct name as [|c name]; [simpl in Hl; lia|]. injection Hm as Hm.
    apply list.Forall_cons in Hc as [Hc _]. unfold live. rewrite Hm. simpl in H1. split; [lia|congruence]. }
  assert (Hnew : ∀ k, 0 ≤ k < n → k ≠ slot → live (record_at d k) →
    a + b ≤ StartingBlock (record_at d k) ∨ ending (record_at d k) ≤ a).
  { intros k Hk Hne Hl. apply F3; [apply elem_of_records; by exists k|done]. }
  split; [|split; [lia|split; [apply Hmark|done]]]. split.
  - lia.
  - intros k Hk. destruct (decide (k = slot)) as [->|Hne]; [apply Hmark|]. rewrite Hsame by (done || by apply Hn'). by apply Hu, Hn'.
  - intros Hlt'. unfold n' in *. case_decide as Hd; [by apply Hend2|]. apply Hend. lia.
  - intros k Hk Hl. destruct (decide (k = slot)) as [->|Hne].
    + split; [by eexists|lia|lia|rewrite Ha, Hbl; lia].
    + rewrite Hsame in Hl |- * by (done || by apply Hn'). by apply Hok; [apply Hn'|].
  - intros j k Hj Hk Hne Hlj Hlk.
    destruct (decide (j = slot)) as [->|Hj']; [|destruct (decide (k = slot)) as [->|Hk']].
    + rewrite (Hsame k) in Hlk |- * by (by apply Hn' || done). rewrite Ha, Hbl.
      destruct (Hnew k) as [H1|H1]; [by apply Hn'|done|done|by left|by right].
    + rewrite (Hsame j) in Hlj |- * by (by apply Hn' || done). rewrite Ha, Hbl.
      destruct (Hnew j) as [H1|H1]; [by apply Hn'|done|done|by right|by left].
    + rewrite (Hsame j), (Hsame k) in * by (by apply Hn' || done). apply Hap; [by apply Hn'|by apply Hn'|done|done|done].
  - intros j k Hj Hk Hlj Hlk Heq.
    destruct (decide (j = slot)) as [->|Hj'], (decide (k = slot)) as [->|Hk']; [done| | |].
    + rewrite (Hsame k) in Hlk, Heq by (by apply Hn' || done). elim (Hno k). split; [by apply Hn'|]. by rewrite <-Heq.
    + rewrite (Hsame j) in Hlj, Heq by (by apply Hn' || done). elim (Hno j). split; [by apply Hn'|]. by rewrite Heq.
    + rewrite (Hsame j), (Hsame k) in * by (by apply Hn' || done). by apply Hnames; [apply Hn'|apply Hn'|..].
Qed.
