(* ===== verification/BmfsCommands.v ===== *)
(** * The commands of the file system tool

    Each command on a disk in memory: what [create], [write], [read] and [initialize] leave of the directory, the
    files of the host and the image, and that [main] accepts an image. *)

From Stdlib Require Import Sorted.
From S2P Require Import Prelude KMonad CString Bmfs BmfsDirectory.

(** Two memories with the same directory. *)
Abbreviation same_records d d' := (∀ x, 0 ≤ x < 4096 → load8 d' x = load8 d x).

(** ** The host *)

Section host.
Context `{Host} (Hw : ∀ i, write_fails i = false).

(** A write that works. *)
Definition wrote (l : list Z) (s : stream) (f : FILE) : FILE :=
  mkFile (put_bytes (f_bytes f) (s_pos s) l) (Z.max (f_len f) (s_pos s + len l)).

Lemma fwrite_ok l s t f :
  files t !! s_path s = Some f →
  fwrite l s t = Done (true, fseek (s_pos s + len l) s)
    (set_files (<[s_path s := wrote l s f]> (files t)) (set_writes (writes t + 1) t)).
Proof.
  intros Hf. unfold fwrite. rewrite asks_bind, modify_bind, Hw. erewrite modifyO_bind; [reflexivity|].
  cbn [files set_writes]. by rewrite Hf.
Qed.

(** The directory on the disk. *)
Definition dir_written (d : mem) (f : FILE) : FILE := wrote (bytes_at d 0 4096) (mkStream [] 4096 false) f.

Lemma dir_written_spec d f :
  bytes_at (f_bytes (dir_written d f)) 4096 4096 = bytes_at d 0 4096 ∧
  ∀ x, x < 4096 ∨ 8192 ≤ x → load8 (f_bytes (dir_written d f)) x = load8 (f_bytes f) x.
Proof.
  assert (Hl : len (bytes_at d 0 4096) = 4096) by (by apply length_bytes). split; unfold dir_written, wrote; cbn [f_bytes s_pos].
  - rewrite <-Hl at 2. apply bytes_put, bytes_byte.
  - intros x Hx. apply put_bytes_out. lia.
Qed.

(** What a command did that left the directory [d] and the file [f] of the disk. *)
Record left_disk (d : mem) (f : FILE) t t' : Prop := {
  lf_directory : Directory t' = d;
  lf_size : disksize t' = disksize t;
  lf_name : diskname t' = diskname t;
  lf_disk : ∃ s s', disk t = Some s ∧ disk t' = Some s' ∧ s_path s' = s_path s ∧ files t' = <[s_path s := f]> (files t);
}.

Lemma write_directory_ok t s f :
  disk t = Some s → files t !! s_path s = Some f →
  ∃ t', write_directory t = Done tt t' ∧ left_disk (Directory t) (dir_written (Directory t) f) t t'.
Proof.
  intros Hs Hf. unfold write_directory. rewrite asks_bind. unfold get_disk. rewrite (asksO_bind _ _ _ s Hs).
  rewrite (bind_done _ _ _ _ _ (fwrite_ok _ (fseek 4096 s) t f Hf)). eexists. split; [reflexivity|].
  split; [done|done|done|]. exists s. eexists. split; [done|]. split; [reflexivity|]. split; [done|]. done.
Qed.

Lemma write_directory_disk t s f t' :
  disk t = Some s → files t !! s_path s = Some f → write_directory t = Done tt t' → ∃ p, disk t' = Some (fseek p s).
Proof.
  intros Hs Hf E. unfold write_directory in E. rewrite asks_bind in E. unfold get_disk in E. rewrite (asksO_bind _ _ _ s Hs) in E.
  rewrite (bind_done _ _ _ _ _ (fwrite_ok _ (fseek 4096 s) t f Hf)) in E. injection E as <-. by eexists.
Qed.

Lemma printf_bind {A} fmt args (k : unit → M Tool A) t : (printf fmt args ≫= k) t = k tt (set_printed (printed t ++ [(fmt, args)]) t).
Proof. done. Qed.

(** A disk and its file, a directory. *)
Record mounted (nb : Z) (n : Z) (s : stream) (f : FILE) t : Prop := {
  mo_disk : disk t = Some s;
  mo_file : files t !! s_path s = Some f;
  mo_size : disksize t / 2 = nb;
  mo_range : 2 ≤ nb < 2 ^ 31;
  mo_directory : directory nb (Directory t) n;
}.

(** *** [create] *)

Section create.
Context (qsort : (BMFSEntry → BMFSEntry → Z) → list BMFSEntry → list BMFSEntry) (Hsort : sorts qsort).

(** At most one record is a deleted one. *)
Definition one_deleted (d : mem) (n : Z) : Prop :=
  ∀ j k, 0 ≤ j < n → 0 ≤ k < n → ¬ live (record_at d j) → ¬ live (record_at d k) → j = k.

#[local] Instance free_area_dec nb l b : Decision (∃ s, free_area nb l b s).
Proof.
  refine (cast_if (decide (Exists (λ s, s + b ≤ nb - 1 ∧ Forall (λ e, live e → s + b ≤ StartingBlock e ∨ ending e ≤ s) l) (seqZ 1 (nb - b))))).
  - apply list.Exists_exists in e as (s & Hs%elem_of_seqZ & H1 & H2). exists s. split; [lia|]. split; [done|].
    rewrite list.Forall_forall in H2. done.
  - intros (s & F1 & F2 & F3). apply n, list.Exists_exists. exists s. split; [apply elem_of_seqZ; lia|]. split; [done|].
    by rewrite list.Forall_forall.
Defined.

(** The area that [create] looks for. *)
Lemma area_spec nb d n b :
  directory nb d n → 2 ≤ nb < 2 ^ 31 → one_deleted d n → 1 ≤ b →
  let a := find_area (qsort StartingBlockCmp (records d n)) 1 b nb in
  ((∃ s, free_area nb (records d n) b s) → free_area nb (records d n) b a ∧ ∀ s, free_area nb (records d n) b s → a ≤ s) ∧
  (¬ (∃ s, free_area nb (records d n) b s) → (∀ k, 0 ≤ k < n → live (record_at d k)) → a = 0).
Proof.
  intros Hd Hnb Hone Hb a. destruct (Hsort _ _ (records_consistent nb d n Hd ltac:(lia) Hone)) as [Hp Hs].
  assert (Hel : ∀ e, e ∈ qsort StartingBlockCmp (records d n) ↔ ∃ k, 0 ≤ k < n ∧ e = record_at d k).
  { intros e. rewrite Hp. apply elem_of_records. }
  assert (Hok : ∀ e, e ∈ qsort StartingBlockCmp (records d n) → live e → entry_ok nb e).
  { intros e (k & Hk & ->)%Hel Hl. by apply (di_ok _ _ _ Hd). }
  destruct (find_area_spec nb b (qsort StartingBlockCmp (records d n)) 1) as [Hyes Hno]; [lia|done|lia| | |].
  - intros e He Hl. destruct (Hok e He Hl). split; [by apply Hok|lia].
  - apply (sorted_before nb); [lia|done| |done]. symmetry in Hp. eapply pairwise_perm; [exact Hp|].
    intros i j x y [Hi ->]%records_lookup [Hj ->]%records_lookup Hne. apply (di_apart _ _ _ Hd); [done|done|lia].
  - assert (Hiff : ∀ s, free_area nb (qsort StartingBlockCmp (records d n)) b s ↔ free_area nb (records d n) b s).
    { intros s. split; intros (F1 & F2 & F3); (split; [done|]; split; [done|]; intros e He; apply F3); by rewrite Hp in *|| by rewrite <-Hp. }
    split.
    + intros [s Hf]. destruct Hyes as (_ & Y2 & Y3); [exists s; split; [apply Hf|by apply Hiff]|].
      split; [by apply Hiff|]. intros s' Hf'. apply Y3; [apply Hf'|by apply Hiff].
    + intros Hn Hall. apply Hno.
      * intros (s & _ & Hf). apply Hn. exists s. by apply Hiff.
      * intros e (k & Hk & ->)%Hel. by apply Hall.
Qed.

(** The blocks of a size in MiB. *)
Definition blocks_of (maxsize : Z) : Z := (maxsize + 1) / 2.

Lemma blocks_rounded maxsize :
  1 ≤ maxsize < 2 ^ 32 → (if maxsize mod 2 =? 0 then maxsize else uint64 (maxsize + 1)) / 2 = blocks_of maxsize ∧ 1 ≤ blocks_of maxsize.
Proof.
  intros Hm. unfold blocks_of. destruct (Z.eqb_spec (maxsize mod 2) 0) as [E|E]; [|rewrite u64_id by lia]; Z.to_euclidean_division_equations; lia.
Qed.

(** What [create] leaves when it made the file. *)
Record created (nb n : Z) (name : list Z) (b : Z) (d : mem) (a slot n' : Z) (d' : mem) : Prop := {
  cr_lowest : free_area nb (records d n) b a ∧ ∀ s, free_area nb (records d n) b s → a ≤ s;
  cr_directory : directory nb d' n';
  cr_file : file_at d' n' name slot;
  cr_start : StartingBlock (record_at d' slot) = a;
  cr_blocks : ReservedBlocks (record_at d' slot) = b;
  cr_size : FileSize (record_at d' slot) = 0;
  cr_others k : 0 ≤ k < n → k ≠ slot → record_at d' k = record_at d k;
  cr_count : n ≤ n' ≤ n + 1;
}.

(** The two stores of [create] into the directory. *)
Lemma created_ok nb n name b d a slot :
  directory nb d n → n < 64 → 2 ≤ nb < 2 ^ 31 → 1 ≤ b → file_name name → no_file d n name →
  0 ≤ slot ≤ n → slot = n ∨ mark (record_at d slot) = 1 →
  (free_area nb (records d n) b a ∧ ∀ s, free_area nb (records d n) b s → a ≤ s) →
  ∃ d1, add_record slot a b name d = Some d1 ∧
    created nb n name b d a slot (if decide (slot = n) then n + 1 else n)
      (if (slot =? n) && (n + 1 <? 64) then put_bytes d1 ((n + 1) * 64) [0] else d1).
Proof.
  intros Hd Hn Hnb Hb Hname Hno Hslot Hfree Ha. pose proof Ha as [(A1 & A2 & A3) A4].
  destruct (add_record_spec slot a b name d) as (d1 & -> & Hout & Hcs & Hm & Hst & Hbl & Hsz); [lia|lia|lia|done|].
  exists d1. split; [done|].
  set (d2 := if (slot =? n) && (n + 1 <? 64) then put_bytes d1 ((n + 1) * 64) [0] else d1).
  assert (Hd2 : ∀ x, x < (n + 1) * 64 → load8 d2 x = load8 d1 x).
  { intros x Hx. unfold d2. case_match; [|done]. apply put_bytes_out. by left. }
  assert (Hrec : record_at d2 slot = record_at d1 slot) by (apply entry_same; intros x Hx; apply Hd2; lia).
  assert (Hsame : ∀ k, 0 ≤ k ≤ n → k ≠ slot → record_at d2 k = record_at d k).
  { intros k Hk Hne. apply entry_same. intros x Hx. rewrite Hd2 by lia. apply Hout. lia. }
  destruct (directory_add nb d n d2 slot name a b) as [Hdir Hfile]; try done.
  - intros k Hk Hne. apply Hsame; [lia|done].
  - intros Hlt. rewrite Hsame by lia. by apply (di_end _ _ _ Hd).
  - intros -> Hlt. unfold d2. rewrite Z.eqb_refl, (proj2 (Z.ltb_lt _ _)) by lia. cbn [andb].
    unfold mark, load_entry. cbn [FileName]. change 32 with (1 + 31). rewrite bytes_app by lia.
    change (bytes_at ?m ?p 1) with [load8 m (p + 0)]. cbn [app head default].
    by rewrite (put_bytes_in _ _ _ 0 0).
  - by rewrite Hrec.
  - by rewrite Hrec.
  - by rewrite Hrec.
  - by rewrite Hrec.
  - split; try done; [by rewrite Hrec..| |].
    + intros k Hk. apply Hsame. lia.
    + case_decide; lia.
Qed.

Lemma create_spec nb n s f name maxsize t :
  mounted nb n s f t → n < 64 → one_deleted (Directory t) n → file_name name → no_file (Directory t) n name →
  1 ≤ maxsize < 2 ^ 32 →
  let b := blocks_of maxsize in let d := Directory t in
  (∃ a, free_area nb (records d n) b a) ∨ (∀ k, 0 ≤ k < n → live (record_at d k)) →
  ∃ t', create qsort name maxsize t = Done tt t' ∧
    ((∃ a slot n' d', created nb n name b d a slot n' d' ∧ left_disk d' (dir_written d' f) t t') ∨
     (¬ (∃ a, free_area nb (records d n) b a) ∧ Directory t' = d ∧ files t' = files t)).
Proof.
  intros [Hs Hf Hsz Hnb Hd] Hn Hone Hname Hno Hmax b d Hcase.
  destruct (blocks_rounded maxsize Hmax) as [Hbr Hb]. fold b in Hbr, Hb.
  destruct (area_spec nb d n b Hd Hnb Hone Hb) as [Hyes Hnone].
  destruct (count_spec nb d n Hd Hn) as (slot & Hcount & Hslot & Hfree & _).
  unfold create, findfile. erewrite (asksO_bind _ _ t None) by (by apply (find_missing nb _ n); [|apply file_name_c|]).
  rewrite Hbr, asks_bind, Hsz, printf_bind, asks_bind. cbn [Directory set_printed]. fold d. rewrite Hcount.
  rewrite (proj2 (Z.eqb_neq slot (-1))) by lia. change ((λ k, record_at d k) <$> seqZ 0 n) with (records d n).
  set (a := find_area (qsort StartingBlockCmp (records d n)) 1 b nb) in *.
  destruct (decide (∃ a, free_area nb (records d n) b a)) as [Hex|Hnex].
  - pose proof (Hyes Hex) as Ha. rewrite (proj2 (Z.eqb_neq a 0)) by (destruct Ha as [(? & _) _]; lia).
    destruct (created_ok nb n name b d a slot Hd Hn Hnb Hb Hname Hno Hslot Hfree Ha) as (d1 & Hadd & Hcr).
    erewrite modifyO_bind by (cbn [Directory set_printed]; fold d; by rewrite Hadd).
    set (d2 := if (slot =? n) && (n + 1 <? 64) then put_bytes d1 ((n + 1) * 64) [0] else d1) in *.
    match goal with |- context [set_Directory d1 ?u] => set (t1 := u) end.
    assert (Hwhen : when ((slot =? n) && (n + 1 <? 64)) (modify (λ t, set_Directory (put_bytes (Directory t) ((n + 1) * 64) [0]) t))
      (set_Directory d1 t1) = Done tt (set_Directory d2 t1)) by (unfold d2; by destruct ((slot =? n) && (n + 1 <? 64))).
    rewrite (bind_done _ _ _ _ _ Hwhen).
    destruct (write_directory_ok (set_Directory d2 t1) s f Hs Hf) as (t2 & Ht2 & [L1 L2 L3 (s1 & s2 & L4 & L5 & L6 & L7)]).
    rewrite (bind_done _ _ _ _ _ Ht2). eexists. split; [reflexivity|]. left. eexists a, slot, _, d2. split; [exact Hcr|].
    split; [exact L1|exact L2|exact L3|]. exists s1, s2. by split_and!.
  - destruct Hcase as [Hex|Hall]; [done|]. rewrite (Hnone Hnex Hall). cbn [Z.eqb].
    eexists. split; [reflexivity|]. right. by split.
Qed.
End create.

(** *** [write] and [read] *)

(** [g'] is [g] with [n] bytes of [f] from [p] on at [q]. *)
Record copied_bytes (f : FILE) (p n : Z) (g : FILE) (q : Z) (g' : FILE) : Prop := {
  cb_load x : load8 (f_bytes g') x = if (q <=? x) && (x <? q + n) then load8 (f_bytes f) (p + (x - q)) else load8 (f_bytes g) x;
  cb_length : f_len g' = if n =? 0 then f_len g else Z.max (f_len g) (q + n);
}.

(** Only the file at [path] and the count of writes changed. *)
Record only_file (path : list Z) (g : FILE) t t' : Prop := {
  of_files : files t' = <[path := g]> (files t);
  of_directory : Directory t' = Directory t;
  of_disk : disk t' = disk t;
  of_size : disksize t' = disksize t;
  of_name : diskname t' = diskname t;
}.

Lemma getc_ok s t f :
  files t !! s_path s = Some f → 0 ≤ s_pos s → s_pos s + 1 ≤ f_len f →
  getc s t = Done (load8 (f_bytes f) (s_pos s), fseek (s_pos s + 1) s) t.
Proof.
  intros Hf H0 H1. unfold getc, fread.
  rewrite (bind_done _ _ t (bytes_at (f_bytes f) (s_pos s) 1, fseek (s_pos s + 1) s) t).
  - change (bytes_at ?m ?p 1) with [load8 m (p + 0)]. by rewrite Z.add_0_r.
  - unfold asksO. rewrite Hf. cbn [mbind option_bind]. replace (Z.max 0 (Z.min 1 (f_len f - s_pos s))) with 1 by lia. done.
Qed.

Lemma copy_chars_ok (n : nat) from to t f g :
  files t !! s_path from = Some f → files t !! s_path to = Some g → s_path from ≠ s_path to →
  0 ≤ s_pos from → s_pos from + Z.of_nat n ≤ f_len f → 0 ≤ s_pos to →
  ∃ g' t', copy_chars n from to t = Done (fseek (s_pos from + Z.of_nat n) from, fseek (s_pos to + Z.of_nat n) to) t' ∧
    only_file (s_path to) g' t t' ∧ copied_bytes f (s_pos from) (Z.of_nat n) g (s_pos to) g'.
Proof.
  revert from to t g. induction n as [|n IH]; intros from to t g Hf Hg Hne H0 H1 H2; cbn [copy_chars].
  - exists g, t. change (Z.of_nat 0) with 0. rewrite !Z.add_0_r. split; [by destruct from, to|]. split; [split; try done; symmetry; by apply insert_id|].
    split; [|done]. intros x. destruct (Z.leb_spec (s_pos to) x), (Z.ltb_spec x (s_pos to + 0)); cbn [andb]; done || lia.
  - rewrite (bind_done _ _ _ _ _ (getc_ok from t f Hf H0 ltac:(lia))). unfold putc.
    set (c := load8 (f_bytes f) (s_pos from)).
    erewrite bind_done; [|erewrite bind_done; [|by apply (fwrite_ok [uint8 c] to t g)]; reflexivity].
    set (g1 := wrote [uint8 c] to g). set (t1 := set_files _ _).
    destruct (IH (fseek (s_pos from + 1) from) (fseek (s_pos to + 1) to) t1 g1) as (g' & t' & E & [F1 F2 F3 F4 F5] & [B1 B2]);
      [unfold t1; cbn; by rewrite lookup_insert_ne|unfold t1; cbn; by rewrite lookup_insert_eq|done|cbn; lia..|].
    cbn [s_pos s_path fseek] in *. exists g', t'. split; [|split].
    + change (len [uint8 c]) with 1. rewrite E. do 2 f_equal; unfold fseek; cbn; f_equal; lia.
    + split; [|done|done|done|done]. rewrite F1. unfold t1. cbn [files set_files]. by rewrite insert_insert_eq.
    + split.
      * intros x. rewrite B1. unfold g1, wrote. cbn [f_bytes]. destruct (decide (x = s_pos to)) as [->|Hx].
        -- c_tests. rewrite put_bytes_load, !Z.sub_diag, Z.add_0_r. change (aget [uint8 c] 0) with (Some (uint8 c)). cbn iota.
           unfold c, load8. by rewrite !(wrap_u_id 8) by (apply wrap_u_range; lia).
        -- rewrite put_bytes_out by (simpl; lia).
           destruct (Z.leb_spec (s_pos to + 1) x), (Z.leb_spec (s_pos to) x); cbn [andb]; try lia; try done.
           replace (s_pos to + 1 + Z.of_nat n) with (s_pos to + Z.of_nat (S n)) by lia. destruct (x <? s_pos to + Z.of_nat (S n)); [f_equal; lia|done].
      * rewrite B2. unfold g1, wrote. cbn [f_len length]. destruct (Z.eqb_spec (Z.of_nat n) 0), (Z.eqb_spec (Z.of_nat (S n)) 0); lia.
Qed.

Lemma file_bounds nb d n name k :
  directory nb d n → nb < 2 ^ 31 → file_at d n name k →
  entry_ok nb (record_at d k) ∧ uint64 (StartingBlock (record_at d k) * BLOCK) = StartingBlock (record_at d k) * BLOCK ∧
  uint64 (ReservedBlocks (record_at d k) * BLOCK) = ReservedBlocks (record_at d k) * BLOCK.
Proof.
  intros Hd Hnb (Hk & Hl & _). pose proof (di_ok _ _ _ Hd k Hk Hl) as He. split; [done|].
  destruct He. unfold BLOCK. split; apply u64_id; lia.
Qed.

(** A new size in the record [k]. *)
Lemma directory_resize nb d n k v :
  directory nb d n → 0 ≤ k < n → 0 ≤ v < 2 ^ 64 →
  let d' := store64 d (k * 64 + 48) v in
  directory nb d' n ∧ FileSize (record_at d' k) = v ∧ FileName (record_at d' k) = FileName (record_at d k) ∧
  StartingBlock (record_at d' k) = StartingBlock (record_at d k) ∧ ReservedBlocks (record_at d' k) = ReservedBlocks (record_at d k) ∧
  ∀ j, j ≠ k → record_at d' j = record_at d j.
Proof.
  intros [Hn Hu He Hok Hap Hnames] Hk Hv d'.
  assert (Hout : ∀ x, x < k * 64 + 48 ∨ k * 64 + 56 ≤ x → load8 d' x = load8 d x) by (intros x Hx; apply store64_load; lia).
  assert (Hne : ∀ j, j ≠ k → record_at d' j = record_at d j) by (intros j Hj; apply entry_same; intros x Hx; apply Hout; lia).
  assert (HF : FileName (record_at d' k) = FileName (record_at d k)) by (apply bytes_same; intros i Hi; apply Hout; lia).
  assert (HS : StartingBlock (record_at d' k) = StartingBlock (record_at d k)) by (apply (load64_out _ _ _ _ _ Hout); lia).
  assert (HR : ReservedBlocks (record_at d' k) = ReservedBlocks (record_at d k)) by (apply (load64_out _ _ _ _ _ Hout); lia).
  assert (Hall : ∀ j, FileName (record_at d' j) = FileName (record_at d j) ∧ StartingBlock (record_at d' j) = StartingBlock (record_at d j) ∧
    ReservedBlocks (record_at d' j) = ReservedBlocks (record_at d j)).
  { intros j. destruct (decide (j = k)) as [->|Hj]; [done|by rewrite Hne]. }
  assert (Hm : ∀ j, mark (record_at d' j) = mark (record_at d j)) by (intros j; unfold mark; by destruct (Hall j) as (-> & _)).
  split; [|split; [by apply load64_store64|done]]. unfold live, apart in *. split.
  - done.
  - intros j. rewrite Hm. apply Hu.
  - rewrite Hm. done.
  - intros j. unfold live. rewrite Hm. intros Hj Hl. destruct (Hok j Hj Hl). destruct (Hall j) as (A1 & A2 & A3). split; rewrite ?A1, ?A2, ?A3; done.
  - intros i j Hi Hj Hij. unfold apart, live. rewrite !Hm. destruct (Hall i) as (_ & -> & ->), (Hall j) as (_ & -> & ->). by apply Hap.
  - intros i j. unfold live. rewrite !Hm. destruct (Hall i) as (-> & _ & _), (Hall j) as (-> & _ & _). apply Hnames.
Qed.

Lemma find_ok nb n s f name k t :
  mounted nb n s f t → c_name name → file_at (Directory t) n name k →
  findfile (Some name) t = Done (Some (record_at (Directory t) k, k)) t.
Proof. intros [_ _ _ _ Hd] Hc Hfile. unfold findfile, asksO. by rewrite (find_file nb _ n name k Hd Hc Hfile). Qed.

Lemma write_ok nb n s f name k g t :
  mounted nb n s f t → c_name name → file_at (Directory t) n name k →
  files t !! name = Some g → name ≠ s_path s → 0 ≤ f_len g ≤ INT_MAX →
  f_len g ≤ ReservedBlocks (record_at (Directory t) k) * BLOCK →
  let d' := store64 (Directory t) (k * 64 + 48) (f_len g) in
  ∃ t' f1, write (Some name) t = Done tt t' ∧ left_disk d' (dir_written d' f1) t t' ∧
    copied_bytes g 0 (f_len g) f (StartingBlock (record_at (Directory t) k) * BLOCK) f1.
Proof.
  intros Hm Hc Hfile Hg Hne HL Hroom d'. pose proof Hm as [Hs Hf Hsz Hnb Hd].
  destruct (file_bounds nb _ n name k Hd ltac:(lia) Hfile) as ([_ E1 E2 E3] & HB1 & HB2).
  unfold write. rewrite (bind_done _ _ _ _ _ (find_ok _ _ _ _ _ _ _ Hm Hc Hfile)).
  rewrite (asksO_bind _ _ t name) by done. rewrite printf_bind.
  set (t1 := set_printed (printed t ++ [("Writing local file '%s' to BMFS... ", [Str name])]) t).
  unfold fopen_rb. rewrite asks_bind. change (files t1) with (files t). rewrite Hg.
  unfold flength. erewrite asksO_bind by (change (files t1) with (files t); cbn [s_path]; by rewrite Hg).
  rewrite HB2, (proj2 (Z.ltb_ge _ _)) by done. unfold get_disk. rewrite (asksO_bind _ _ t1 s) by done.
  rewrite HB1. unfold copy_counted. rewrite (proj2 (Z.leb_le _ _)) by lia.
  destruct (copy_chars_ok (Z.to_nat (f_len g)) (mkStream name 0 false) (fseek (StartingBlock (record_at (Directory t) k) * BLOCK) s) t1 g f)
    as (f1 & t2 & E & [F1 F2 F3 F4 F5] & Hcp); try done; cbn [s_pos fseek]; [lia|unfold BLOCK; lia|].
  rewrite (bind_done _ _ _ _ _ E). cbn [s_pos s_path fseek] in *. rewrite Z2Nat.id in * by lia.
  unfold put_disk. rewrite !modify_bind.
  match goal with |- context [(write_directory ≫= _) ?u] => set (t3 := u) end.
  destruct (write_directory_ok t3 (fseek (StartingBlock (record_at (Directory t) k) * BLOCK + f_len g) s) f1) as (t4 & E4 & [L1 L2 L3 (s1 & s2 & L4 & L5 & L6 & L7)]).
  { done. }
  { unfold t3. cbn. rewrite F1. by rewrite lookup_insert_eq. }
  assert (Hd3 : Directory t3 = d') by (unfold t3, d'; cbn; by rewrite F2).
  rewrite Hd3 in L1, L7. rewrite (bind_done _ _ _ _ _ E4). eexists _, f1. split; [reflexivity|]. split; [|done].
  split; [exact L1| | |].
  - cbn. rewrite L2. unfold t3. cbn. by rewrite F4.
  - cbn. rewrite L3. unfold t3. cbn. by rewrite F5.
  - exists s, s2. split; [done|]. split; [done|].
    assert (Hp : s_path s1 = s_path s) by (unfold t3 in L4; cbn in L4; by injection L4 as <-). split; [congruence|].
    cbn. rewrite L7, Hp. unfold t3. cbn. rewrite F1. unfold t1. cbn. by rewrite insert_insert_eq.
Qed.

Lemma read_ok nb n s f name k t :
  mounted nb n s f t → c_name name → file_at (Directory t) n name k →
  read_only name = false → name ≠ s_path s → 0 ≤ FileSize (record_at (Directory t) k) ≤ INT_MAX →
  StartingBlock (record_at (Directory t) k) * BLOCK + FileSize (record_at (Directory t) k) ≤ f_len f →
  ∃ t' g', read (Some name) t = Done tt t' ∧ files t' = <[name := g']> (files t) ∧ Directory t' = Directory t ∧
    f_len g' = FileSize (record_at (Directory t) k) ∧
    ∀ x, 0 ≤ x < FileSize (record_at (Directory t) k) →
      load8 (f_bytes g') x = load8 (f_bytes f) (StartingBlock (record_at (Directory t) k) * BLOCK + x).
Proof.
  intros Hm Hc Hfile Hro Hne HL Hend. pose proof Hm as [Hs Hf Hsz Hnb Hd].
  destruct (file_bounds nb _ n name k Hd ltac:(lia) Hfile) as ([_ E1 E2 E3] & HB1 & _). pose proof Hfile as (_ & _ & Hpath).
  unfold read. rewrite (bind_done _ _ _ _ _ (find_ok _ _ _ _ _ _ _ Hm Hc Hfile)).
  rewrite (asksO_bind _ _ t name) by done. rewrite printf_bind.
  set (t1 := set_printed (printed t ++ [("Reading '%s' from BMFS to local file... ", [Str name])]) t).
  rewrite (asksO_bind _ _ t1 name) by done. unfold fopen_wb. rewrite Hro.
  set (t2 := set_files (<[name := mkFile (λ _, 0) 0]> (files t1)) t1).
  rewrite (bind_done _ _ t1 (Some (mkStream name 0 false)) t2) by done.
  unfold get_disk. rewrite (asksO_bind _ _ t2 s) by done.
  rewrite HB1. unfold copy_counted. rewrite (proj2 (Z.leb_le _ _)) by lia.
  set (v := FileSize (record_at (Directory t) k)) in *.
  destruct (copy_chars_ok (Z.to_nat v) (fseek (StartingBlock (record_at (Directory t) k) * BLOCK) s) (mkStream name 0 false) t2 f (mkFile (λ _, 0) 0))
    as (g' & t3 & E & [F1 F2 F3 F4 F5] & [B1 B2]); cbn [s_pos s_path fseek] in *.
  { unfold t2, t1. cbn. by rewrite lookup_insert_ne. }
  { unfold t2. cbn. by rewrite lookup_insert_eq. }
  { done. }
  { unfold BLOCK. lia. }
  { lia. }
  { done. }
  rewrite (bind_done _ _ _ _ _ E). rewrite Z2Nat.id in * by lia. eexists _, g'. split; [reflexivity|].
  split; [cbn; rewrite F1; unfold t2, t1; cbn; by rewrite insert_insert_eq|].
  split; [cbn; by rewrite F2|]. split; [rewrite B2; cbn [f_len]; destruct (Z.eqb_spec v 0); lia|].
  intros x Hx. rewrite B1. c_tests. f_equal. lia.
Qed.

(** What the other files hold stays. *)
Lemma areas_apart nb d n j k x y :
  directory nb d n → 0 ≤ j < n → 0 ≤ k < n → j ≠ k → live (record_at d j) → live (record_at d k) →
  StartingBlock (record_at d j) * BLOCK ≤ x < ending (record_at d j) * BLOCK →
  StartingBlock (record_at d k) * BLOCK ≤ y < ending (record_at d k) * BLOCK → x ≠ y.
Proof.
  intros Hd Hj Hk Hne Hlj Hlk Hx Hy ->. unfold BLOCK in *. destruct (di_apart _ _ _ Hd j k Hj Hk Hne Hlj Hlk); nia.
Qed.

(** *** [initialize] and the check of [main] *)

(** A file of [v] bytes, all 0 but for the tag if it is there. *)
Definition blank (f : FILE) (v : Z) : Prop := f_len f = v ∧ ∀ x, load8 (f_bytes f) x = 0.
Definition tagged (f : FILE) (v : Z) : Prop :=
  f_len f = v ∧ ∀ x, load8 (f_bytes f) x = default 0 (aget (text fs_tag) (x - 1024)).

Lemma put_zeros m a n x : (∀ y, load8 m y = 0) → load8 (put_bytes m a (replicate n 0)) x = 0.
Proof.
  intros Hm. rewrite put_bytes_load. destruct (aget (replicate n 0) (x - a)) as [b|] eqn:E; [|done].
  pose proof (aget_inv _ _ _ E) as Hr. rewrite length_replicate in Hr. rewrite aget_replicate in E by lia. by injection E as <-.
Qed.

Lemma write_disk_ok l t s f :
  disk t = Some s → files t !! s_path s = Some f →
  ∃ t', write_disk l 0 t = Done 0 t' ∧ disk t' = Some (fseek (s_pos s + len l) s) ∧
    files t' = <[s_path s := wrote l s f]> (files t) ∧ diskname t' = diskname t ∧
    Directory t' = Directory t ∧ DiskInfo t' = DiskInfo t.
Proof.
  intros Hs Hf. unfold write_disk, get_disk. rewrite (asksO_bind _ _ _ s Hs).
  rewrite (bind_done _ _ _ _ _ (fwrite_ok l s t f Hf)). eexists. split; [reflexivity|]. by split_and!.
Qed.

Lemma fill_zeros_ok (n : nat) w v t s f :
  disk t = Some s → files t !! s_path s = Some f → s_pos s = w → blank f w → 0 ≤ w ≤ v → v - w ≤ bufferSize * Z.of_nat n →
  ∃ t' f', fill_zeros n w v t = Done (0, v) t' ∧ disk t' = Some (fseek v s) ∧
    files t' = <[s_path s := f']> (files t) ∧ blank f' v ∧ Directory t' = Directory t ∧ DiskInfo t' = DiskInfo t.
Proof.
  revert w t s f. induction n as [|n IH]; intros w t s f Hs Hf Hpos [Hl Hz] Hwv Hn; cbn [fill_zeros];
    destruct (Z.ltb_spec w v) as [Hlt|Hge]; [lia| | |].
  1,3: (assert (w = v) as -> by lia; exists t, f; split; [done|]; split; [rewrite Hs, <-Hpos; by destruct s|];
    split; [symmetry; by apply insert_id|]; by split_and!).
  rewrite printf_bind. set (t1 := set_printed _ t). set (k := Z.min bufferSize (v - w)).
  assert (Hk : 0 < k ≤ bufferSize ∧ k ≤ v - w) by (unfold k, bufferSize in *; lia).
  assert (Hlen : len (replicate (Z.to_nat k) 0) = k) by (rewrite length_replicate; lia).
  destruct (write_disk_ok (replicate (Z.to_nat k) 0) t1 s f Hs Hf) as (t2 & E & D1 & D2 & _ & D3 & D4). rewrite Hlen in D1.
  rewrite (bind_done _ _ _ _ _ E). cbn [Z.eqb].
  destruct (IH (w + k) t2 (fseek (s_pos s + k) s) (wrote (replicate (Z.to_nat k) 0) s f)) as (t3 & f' & E3 & A1 & A2 & A3 & A4 & A5).
  - done.
  - rewrite D2. apply lookup_insert_eq.
  - cbn. lia.
  - unfold blank, wrote. cbn [f_len f_bytes]. rewrite Hlen. split; [lia|]. intros x. by apply put_zeros.
  - lia.
  - unfold k, bufferSize in *. lia.
  - exists t3, f'. split; [exact E3|]. split; [by rewrite A1|]. split; [|split; [done|by rewrite A4, A5, D3, D4]].
    rewrite A2, D2. cbn [s_path fseek]. apply insert_insert_eq.
Qed.

(** [format] on a blank disk leaves the tag and nothing else. *)
Lemma format_ok t s f v :
  disk t = Some s → files t !! s_path s = Some f → blank f v → 8192 ≤ v →
  ∃ t' f', format t = Done tt t' ∧ files t' = <[s_path s := f']> (files t) ∧ tagged f' v ∧
    ∃ p, disk t' = Some (fseek p s).
Proof.
  intros Hs Hf [Hl Hz] Hv. unfold format. rewrite !modify_bind. rewrite asks_bind.
  match goal with |- context [(get_disk ≫= _) ?u] => set (t1 := u) end.
  set (i := bytes_at (DiskInfo t1) 0 512).
  assert (Hi : i = text fs_tag ++ replicate 508 0).
  { unfold i. apply arr_ext; [apply Nat2Z.inj; by rewrite length_bytes|]. intros k Hk. rewrite length_bytes in Hk by done.
    rewrite aget_bytes by lia. unfold t1. cbn [DiskInfo set_DiskInfo set_Directory]. rewrite put_bytes_load, Z.add_0_l, Z.sub_0_r.
    rewrite put_bytes_load, Z.sub_0_r, aget_replicate by lia.
    rewrite !aget_nat by lia. destruct (decide (k < 4)) as [Hk4|Hk4].
    - rewrite lookup_app_l by (change (length (text fs_tag)) with 4%nat; lia).
      assert (Hc : k = 0 ∨ k = 1 ∨ k = 2 ∨ k = 3) by lia. by destruct Hc as [->|[->|[->| ->]]].
    - rewrite lookup_app_r by (change (length (text fs_tag)) with 4%nat; lia).
      rewrite (lookup_ge_None_2 (text fs_tag)) by (change (length (text fs_tag)) with 4%nat; lia).
      rewrite lookup_replicate_2; [done|]. change (length (text fs_tag)) with 4%nat. lia. }
  unfold get_disk. rewrite (asksO_bind _ _ t1 s) by done.
  rewrite (bind_done _ _ _ _ _ (fwrite_ok i (fseek 1024 s) t1 f Hf)). cbn [s_path s_pos fseek].
  unfold put_disk. rewrite modify_bind.
  match goal with |- context [(write_directory ≫= _) ?u] => set (t2 := u) end.
  set (f1 := wrote i (fseek 1024 s) f).
  destruct (write_directory_ok t2 (fseek (1024 + len i) s) f1) as (t3 & E3 & [L1 L2 L3 (s1 & s2 & L4 & L5 & L6 & L7)]).
  { done. }
  { unfold t2. cbn [files set_disk set_files s_path fseek]. apply lookup_insert_eq. }
  rewrite (bind_done _ _ _ _ _ E3). eexists _, (dir_written (Directory t2) f1). split; [reflexivity|].
  assert (Hp : s_path s1 = s_path s) by (unfold t2 in L4; cbn [disk set_disk] in L4; by injection L4 as <-).
  split; [|split].
  - cbn [files set_printed]. rewrite L7, Hp. unfold t2. cbn [files set_disk set_files]. by rewrite insert_insert_eq.
  - assert (Hlen : len i = 512) by (rewrite Hi, length_app, length_replicate; done).
    assert (Hd : ∀ k, 0 ≤ k < 4096 → load8 (Directory t2) k = 0).
    { intros k Hk. unfold t2, t1. cbn [Directory set_disk set_files set_writes set_DiskInfo set_Directory].
      rewrite put_bytes_load, Z.sub_0_r, aget_replicate by lia. done. }
    assert (Hdl : len (bytes_at (Directory t2) 0 4096) = 4096) by (by apply length_bytes).
    split; [unfold dir_written, wrote, f1, wrote; cbn [f_len s_pos fseek]; rewrite Hlen, Hdl; lia|].
    intros x. unfold dir_written, wrote, f1, wrote. cbn [f_bytes s_pos fseek]. rewrite put_bytes_load.
    assert (Htag : ∀ y, y < 1024 ∨ 1028 ≤ y → aget (text fs_tag) (y - 1024) = None).
    { intros y Hy. destruct (aget (text fs_tag) (y - 1024)) as [b|] eqn:E; [|done]. apply aget_inv in E.
      change (len (text fs_tag)) with 4 in E. lia. }
    destruct (decide (4096 ≤ x < 8192)) as [Hx|Hx].
    + rewrite aget_bytes by lia. rewrite Hd by lia. by rewrite Htag by lia.
    + assert (aget (bytes_at (Directory t2) 0 4096) (x - 4096) = None) as ->.
      { destruct (aget (bytes_at (Directory t2) 0 4096) (x - 4096)) eqn:E; [|done]. apply aget_inv in E. lia. }
      rewrite put_bytes_load, Hi. destruct (decide (1024 ≤ x < 1028)) as [Hx4|Hx4].
      * assert (Hc : x = 1024 ∨ x = 1025 ∨ x = 1026 ∨ x = 1027) by lia. by destruct Hc as [->|[->|[->| ->]]].
      * rewrite Htag by lia. destruct (aget (text fs_tag ++ replicate 508 0) (x - 1024)) as [b|] eqn:E; [|apply Hz].
        pose proof (aget_inv _ _ _ E) as Hr. rewrite aget_nat, lookup_app_r in E by (change (length (text fs_tag)) with 4%nat; lia).
        apply lookup_replicate_1 in E as [-> _]. done.
  - destruct (write_directory_disk t2 (fseek (1024 + len i) (fseek 1024 s)) f1 t3) as [p Hp3]; [done| |done|].
    { unfold t2. cbn [files set_disk set_files s_path fseek]. apply lookup_insert_eq. }
    by exists p.
Qed.

Lemma fread_ok n s t f :
  files t !! s_path s = Some f → 0 ≤ n → s_pos s + n ≤ f_len f →
  fread n s t = Done (bytes_at (f_bytes f) (s_pos s) n, fseek (s_pos s + n) s) t.
Proof.
  intros Hf Hn Hl. unfold fread, asksO. rewrite Hf. cbn [mbind option_bind].
  by replace (Z.max 0 (Z.min n (f_len f - s_pos s))) with n by lia.
Qed.

(** The directory depends on the bytes of its records. *)
Lemma record_same d d' k : same_records d d' → 0 ≤ k < 64 → record_at d' k = record_at d k.
Proof. intros Hs Hk. apply entry_same. intros x Hx. apply Hs. lia. Qed.

Lemma directory_same nb d d' n : same_records d d' → directory nb d n → directory nb d' n.
Proof.
  intros Hs [Hn Hu He Hok Hap Hnames].
  assert (Hr : ∀ k, 0 ≤ k < 64 → record_at d' k = record_at d k) by (intros k Hk; by apply record_same).
  split; [done|..].
  - intros k Hk. rewrite Hr by lia. by apply Hu.
  - intros Hlt. rewrite Hr by lia. by apply He.
  - intros k Hk. rewrite Hr by lia. by apply Hok.
  - intros j k Hj Hk. rewrite !Hr by lia. by apply Hap.
  - intros j k Hj Hk. rewrite !Hr by lia. by apply Hnames.
Qed.

Lemma file_at_same d d' n name k : same_records d d' → n ≤ 64 → file_at d n name k → file_at d' n name k.
Proof. intros Hs Hn (Hk & Hl & Hname). unfold file_at. by rewrite !(record_same d d') by (done || lia). Qed.

Lemma no_file_same d d' n name : same_records d d' → n ≤ 64 → no_file d n name → no_file d' n name.
Proof. intros Hs Hn Hno k Hf. apply (Hno k). apply (file_at_same d' d); [|done|done]. intros x Hx. by rewrite Hs. Qed.

Lemma records_same d d' n : same_records d d' → n ≤ 64 → records d' n = records d n.
Proof.
  intros Hs Hn. unfold records. apply list_fmap_ext. intros i k Hi. apply lookup_seqZ in Hi as [-> Hi].
  apply record_same; [done|lia].
Qed.

(** The image of a disk: the tag, a directory of [n] records. *)
Definition blocks (f : FILE) : Z := f_len f / 1048576 / 2.
Definition directory_of (f : FILE) : mem := λ x, f_bytes f (4096 + x).
Record image (n : Z) (f : FILE) : Prop := {
  im_size : minimumDiskSize ≤ f_len f < 2 ^ 52;
  im_tag : same_string tolower (text fs_tag) (bytes_at (f_bytes f) 1024 512) = Some true;
  im_directory : directory (blocks f) (directory_of f) n;
}.

Lemma blocks_range n f : image n f → 2 ≤ blocks f < 2 ^ 31.
Proof. intros [Hs _ _]. unfold blocks, minimumDiskSize in *. Z.to_euclidean_division_equations. lia. Qed.

(** The check of [main] accepts the image and reads its directory. *)
Lemma mount_ok t s f n :
  disk t = Some s → files t !! s_path s = Some f → image n f →
  ∃ t' s', mount t = Done tt t' ∧ files t' = files t ∧ s_path s' = s_path s ∧
    (diskname t' = diskname t ∧ printed t' = printed t) ∧ disksize t' = f_len f / 1048576 ∧ same_records (directory_of f) (Directory t') ∧
    same_string tolower (text fs_tag) (bytes_at (DiskInfo t') 0 512) = Some true ∧ mounted (blocks f) n s' f t'.
Proof.
  intros Hs Hf Him. pose proof Him as [Hv Htag Hd]. unfold minimumDiskSize in Hv. unfold mount, get_disk. rewrite (asksO_bind _ _ t s Hs).
  unfold flength. rewrite (asksO_bind _ _ t (f_len f)) by (by rewrite Hf).
  rewrite modify_bind. set (t1 := set_disksize _ t).
  rewrite (bind_done _ _ _ _ _ (fread_ok 512 (fseek 1024 s) t1 f Hf ltac:(lia) ltac:(cbn [s_pos fseek]; lia))).
  cbn [s_pos fseek]. rewrite modify_bind.
  set (t2 := set_DiskInfo _ t1).
  rewrite (bind_done _ _ _ _ _ (fread_ok 4096 (fseek 4096 (fseek (1024 + 512) (fseek 1024 s))) t2 f Hf ltac:(lia) ltac:(cbn [s_pos fseek]; lia))).
  cbn [s_pos s_path s_error fseek]. rewrite modify_bind.
  set (t3 := set_Directory _ t2).
  assert (Hsz : disksize t3 = f_len f / 1048576).
  { change (disksize t3) with (uint32 (f_len f / 1048576)). apply wrap_u_id. Z.to_euclidean_division_equations. lia. }
  assert (Hsame : same_records (directory_of f) (Directory t3)).
  { intros k Hk. change (Directory t3) with (put_bytes (Directory t) 0 (bytes_at (f_bytes f) 4096 4096)).
    rewrite put_bytes_load, Z.sub_0_r, aget_bytes by lia. apply (wrap_u_id 8), wrap_u_range. lia. }
  exists (set_disk (Some (mkStream (s_path s) 0 false)) t3), (mkStream (s_path s) 0 false).
  split; [reflexivity|]. split; [done|]. split; [done|]. split; [by split|]. split; [exact Hsz|]. split; [exact Hsame|]. split.
  - change (DiskInfo (set_disk (Some (mkStream (s_path s) 0 false)) t3)) with (put_bytes (DiskInfo t) 0 (bytes_at (f_bytes f) 1024 512)).
    rewrite <-Htag. f_equal. rewrite <-(length_bytes (f_bytes f) 1024 512) at 2 by lia. apply bytes_put, bytes_byte.
  - split; [done|exact Hf|exact (f_equal (λ z, z / 2) Hsz)|by apply (blocks_range n)|by apply (directory_same _ (directory_of f))].
Qed.

Lemma tagged_image f v : tagged f v → minimumDiskSize ≤ v < 2 ^ 52 → image 0 f.
Proof.
  intros [Hl Hb] Hv. split; [by rewrite Hl| |].
  - replace (bytes_at (f_bytes f) 1024 512) with (bytes_at (λ x, default 0 (aget (text fs_tag) (x - 1024))) 1024 512); [by vm_compute|].
    apply bytes_same. intros k Hk. rewrite Hb. unfold load8. apply wrap_u_id.
    destruct (aget (text fs_tag) (1024 + k - 1024)) as [b|] eqn:E; [|done].
    assert (Hin : b ∈ text fs_tag) by (unfold aget in E; case_match; [by eapply list_elem_of_lookup_2|done]).
    assert (Hall : Forall is_byte (text fs_tag)) by (repeat constructor; done).
    rewrite list.Forall_forall in Hall. by apply Hall.
  - assert (Hmark : mark (record_at (directory_of f) 0) = 0).
    { unfold mark, load_entry. cbn [FileName]. change 32 with (1 + 31). rewrite bytes_app by lia.
      change (bytes_at ?m ?p 1) with [load8 m (p + 0)]. cbn [app head default].
      change (load8 (directory_of f) (0 * 64 + 0)) with (load8 (f_bytes f) 4096). by rewrite Hb. }
    split; lia.
Qed.

(** The image of a disk without a boot program. *)
Lemma initialize_spec fuel path size v t t0 :
  no_memory = false → read_only path = false → disk_size size t = Done (v, 0) t0 → 8192 ≤ v ≤ bufferSize * Z.of_nat fuel →
  ∃ t' f, initialize fuel path size None None None t = Done 0 t' ∧ files t' = <[path := f]> (files t0) ∧ tagged f v.
Proof.
  intros Hmem Hro Hsize Hv. unfold initialize. rewrite (bind_done _ _ _ _ _ Hsize).
  unfold open_file. rewrite !(bind_done (mret (0, None)) _ t0 (0, None) t0) by done. unfold when_ok. cbn [Z.eqb].
  rewrite Hmem. rewrite (bind_done _ _ t0 0 t0) by done. cbn [Z.eqb].
  assert (Himage : ∃ t' f, (o ← fopen_wb path; match o with
    | None => printf "Error: Unable to open disk '%s'\n" [Str path] ;; mret 1
    | Some s => put_disk s ;; write_image fuel v None None None None None None end) t0 = Done 0 t' ∧ files t' = <[path := f]> (files t0) ∧ tagged f v).
  { unfold fopen_wb. rewrite Hro. set (t1 := set_files (<[path := mkFile (λ _, 0) 0]> (files t0)) t0).
    rewrite (bind_done _ _ t0 (Some (mkStream path 0 false)) t1) by done. cbn iota beta. unfold put_disk. rewrite modify_bind.
    set (t2 := set_disk _ t1). unfold write_image.
    destruct (fill_zeros_ok fuel 0 v t2 (mkStream path 0 false) (mkFile (λ _, 0) 0)) as (t3 & f3 & E3 & A1 & A2 & A3 & _); try done; [|lia|lia|].
    { unfold t2, t1. cbn [files set_disk set_files s_path]. apply lookup_insert_eq. }
    rewrite (bind_done _ _ _ _ _ E3). cbn [Z.eqb when]. rewrite printf_bind. set (t4 := set_printed _ t3).
    unfold when_ok, get_disk. cbn [Z.eqb].
    destruct (format_ok (set_disk (Some (mkStream path 0 false)) t4) (mkStream path 0 false) f3 v) as (t5 & f5 & E5 & B1 & B2 & _); try done; [|lia|].
    { cbn [files set_disk s_path]. unfold t4. cbn [files set_printed]. rewrite A2. cbn [s_path]. apply lookup_insert_eq. }
    exists t5, f5. split; [|split; [|done]].
    - erewrite bind_done; [reflexivity|]. rewrite (asksO_bind _ _ t4 _ A1). cbn [s_path fseek]. unfold put_disk. rewrite modify_bind.
      by rewrite (bind_done _ _ _ _ _ E5).
    - rewrite B1. cbn [s_path]. cbn [files set_disk]. unfold t4. cbn [files set_printed]. rewrite A2. cbn [s_path].
      unfold t2, t1. cbn [files set_disk set_files]. by rewrite !insert_insert_eq. }
  destruct Himage as (t' & f & E & HF & HT). rewrite (bind_done _ _ _ _ _ E).
  exists (set_printed (printed t' ++ [("Disk initialization complete.\n", [])]) (set_disk None t')), f. split; [reflexivity|]. done.
Qed.
End host.
