(* ===== verification/BmfsThms.v ===== *)
(** * Properties of the file system tool

    [main] on an image: [create] gives a new file the lowest blocks that are free of files, refuses only when
    there are none, and keeps files apart; what is written to a file is read back, and no other file changes;
    [delete] frees the blocks; an image that [initialize] made is one that the tool opens.  Deleted records break some
    of this: the last section shows how. *)

From S2P Require Import Prelude KMonad CString Bmfs BmfsDirectory BmfsCommands.

(** *** The size of a disk *)

(** A number in decimal; the letters of its unit. *)
Definition value (acc : Z) (ds : list Z) : Z := foldl (λ a d, a * 10 + d) acc ds.
Definition suffix (factor : nat) : list Z :=
  text (match factor with 0 => EmptyString | 1 => "K" | 2 => "M" | 3 => "G" | 4 => "T" | _ => "P" end)%nat.
Definition is_digit (d : Z) : Prop := 0 ≤ d < 10.

Lemma value_grows acc ds : 0 ≤ acc → Forall is_digit ds → acc ≤ value acc ds.
Proof.
  intros Ha Hd. revert acc Ha. induction Hd as [|d ds Hd Hds IH]; intros acc Ha; [unfold value; simpl; lia|].
  change (value acc (d :: ds)) with (value (acc * 10 + d) ds). unfold is_digit in Hd.
  transitivity (acc * 10 + d); [lia|]. apply IH. lia.
Qed.

Lemma parse_digits size i ds acc rest t :
  0 ≤ acc → Forall is_digit ds → value acc ds < 2 ^ 64 →
  parse_size size i (((λ d, 48 + d) <$> ds) ++ rest) acc 0 t = parse_size size (i + len ds) rest (value acc ds) 0 t.
Proof.
  intros Ha Hds. revert i acc Ha. induction Hds as [|d ds Hd Hds IH]; intros i acc Ha Hv.
  - cbn [fmap list_fmap app length]. by rewrite Z.add_0_r.
  - change (value acc (d :: ds)) with (value (acc * 10 + d) ds) in *. unfold is_digit in Hd.
    pose proof (value_grows (acc * 10 + d) ds ltac:(lia) Hds) as Hg.
    cbn [fmap list_fmap app parse_size]. replace (isdigit (48 + d)) with true by (unfold isdigit; symmetry; apply andb_true_intro; split; lia).
    replace (48 + d - 48) with d by lia. rewrite u64_id by lia. rewrite u64_id by lia.
    replace (i + len (d :: ds)) with (i + 1 + len ds) by (simpl; lia).
    destruct (Z.ltb_spec acc (acc * 10)) as [Hlt|Hge]; [apply IH; lia|].
    assert (acc = 0) as -> by lia. cbn [Z.eqb]. by apply (IH (i + 1) (0 * 10 + d)); lia.
Qed.

Lemma parse_suffix size i factor u acc t :
  0 < i → (factor ≤ 5)%nat → toupper <$> u = suffix factor → parse_size size i u acc 0 t = Done (acc, Z.of_nat factor, 0) t.
Proof.
  intros Hi Hf Hu. destruct u as [|c [|c' u]].
  - do 6 (destruct factor as [|factor]; [done|]). lia.
  - assert (Hc : ∀ x, toupper c = x → (x =? 0) = false → (57 <? x) = true → isdigit c = false).
    { intros x <- _ Hx. unfold isdigit, toupper in *. destruct ((97 <=? c) && (c <=? 122)) eqn:E.
      - apply andb_true_iff in E as [E _]. apply andb_false_iff. right. lia.
      - apply andb_false_iff. right. lia. }
    do 6 (destruct factor as [|factor]; [cbn in Hu; try done; injection Hu as Hu;
      cbn [parse_size]; rewrite (Hc _ Hu) by done; rewrite (proj2 (Z.eqb_neq i 0)) by lia; cbv zeta; by rewrite Hu|]). lia.
  - do 6 (destruct factor as [|factor]; [by cbn in Hu|]). lia.
Qed.

Lemma scale_ok (n : nat) v ret t : 0 < v → v * 1024 ^ Z.of_nat n < 2 ^ 64 → scale n v ret t = Done (v * 1024 ^ Z.of_nat n, ret) t.
Proof.
  revert v. induction n as [|n IH]; intros v Hv Hn; cbn [scale]; [by rewrite Z.mul_1_r|].
  rewrite Nat2Z.inj_succ, Z.pow_succ_r in Hn |- * by lia.
  assert (1 ≤ 1024 ^ Z.of_nat n) by (apply (Z.pow_le_mono_r 1024 0); lia).
  rewrite u64_id by nia. rewrite (proj2 (Z.ltb_lt _ _)) by lia. rewrite IH by nia. do 2 f_equal. lia.
Qed.

(** The string of a size that fits 64 bits gives that size. *)
Lemma disk_size_spec ds factor u t :
  ds ≠ [] → Forall is_digit ds → (factor ≤ 5)%nat → toupper <$> u = suffix factor →
  let v := value 0 ds * 1024 ^ Z.of_nat factor in
  minimumDiskSize ≤ v < 2 ^ 64 →
  disk_size (((λ d, 48 + d) <$> ds) ++ u) t = Done (v, 0) t.
Proof.
  intros Hne Hds Hf Hu v Hv. assert (1 ≤ 1024 ^ Z.of_nat factor) by (apply (Z.pow_le_mono_r 1024 0); lia).
  assert (Hpos : 0 < value 0 ds < 2 ^ 64) by (unfold v, minimumDiskSize in Hv; nia).
  unfold disk_size. set (size := _ ++ u).
  rewrite (bind_done _ _ t (value 0 ds, Z.of_nat factor, 0) t).
  2: { unfold size at 2. rewrite parse_digits by (done || lia). apply parse_suffix; [|done|done]. destruct ds; [done|]. cbn [length]. lia. }
  cbn [Z.eqb andb]. rewrite (proj2 (Z.ltb_lt 0 (value 0 ds))) by lia. cbn [andb].
  rewrite (bind_done _ _ t (v, 0) t).
  2: { destruct (Z.ltb_spec 0 (Z.of_nat factor)) as [Hlt|Hge]; [rewrite Nat2Z.id; by apply scale_ok; [lia|apply Hv]|].
    assert (factor = O) as -> by lia. unfold v. by rewrite Z.mul_1_r. }
  cbn [Z.eqb andb]. by rewrite (proj2 (Z.ltb_ge v minimumDiskSize)) by lia.
Qed.

(** ** What the commands do *)

Lemma list_end (n : nat) i t : mark (record_at (Directory t) i) = 0 → list_loop n i t = Done tt t.
Proof. intros Hm. destruct n as [|n]; [done|]. cbn [list_loop]. rewrite asks_bind, Hm. done. Qed.

(** The directory that [list] shows is empty. *)
Lemma list_empty `{Host} nb s f t :
  mounted nb 0 s f t →
  ∃ t', list_files t = Done tt t' ∧ files t' = files t ∧
    printed t' = printed t ++ [("%s\nDisk Size: %d MiB\n", [Str (diskname t); Num (disksize t)]);
      ("Name                            |            Size (B)|      Reserved (MiB)\n", []);
      ("==========================================================================\n", [])].
Proof.
  intros [_ _ _ _ Hd]. unfold list_files. rewrite !asks_bind, !printf_bind. rewrite list_end by (apply (di_end _ _ _ Hd); lia).
  eexists. split; [reflexivity|]. split; [reflexivity|].
  cbn [printed diskname disksize set_printed]. by rewrite <-!app_assoc.
Qed.

(** [main] with a command on a disk. *)
Lemma main_mounted `{Host} qsort fuel argv0 name command rest n f t :
  is_command command "initialize" = false → read_only name = false → files t !! name = Some f → image n f →
  ∃ s t1, s_path s = name ∧ mounted (blocks f) n s f t1 ∧ files t1 = files t ∧ same_records (directory_of f) (Directory t1) ∧
    (diskname t1 = name ∧ printed t1 = printed t ∧ disksize t1 = f_len f / 1048576) ∧
    ∀ t2, run_command qsort (argv0 :: name :: command :: rest) command t1 = Done tt t2 →
      main qsort fuel (argv0 :: name :: command :: rest) t = Done 0 (set_disk None t2).
Proof.
  intros Hc Hro Hf Him. set (s := mkStream name 0 false). set (t0 := set_disk (Some s) (set_diskname name t)).
  assert (Hf0 : files t0 !! s_path s = Some f) by exact Hf.
  destruct (mount_ok t0 s f n eq_refl Hf0 Him) as (t1 & s' & E & Hfiles & Hp & [Hname Hprinted] & Hsz & Hsame & Htag' & Hm).
  exists s', t1. split; [exact Hp|]. split; [exact Hm|]. split; [exact Hfiles|]. split; [exact Hsame|]. split; [by split_and!|].
  intros t2 Hrun. unfold main. rewrite modify_bind, Hc. unfold fopen_rwb. rewrite asks_bind.
  change (files (set_diskname name t)) with (files t). rewrite Hf, Hro, modify_bind. fold s. fold t0. cbn iota beta.
  rewrite (bind_done _ _ _ _ _ E). rewrite (asksO_bind _ _ t1 true Htag'). cbn iota beta.
  by rewrite (bind_done _ _ _ _ _ Hrun).
Qed.

(** *** The disk after a command *)

Lemma dir_written_same d f : same_records d (directory_of (dir_written d f)).
Proof.
  intros k Hk. destruct (dir_written_spec d f) as [Hb _].
  assert (E : aget (bytes_at (f_bytes (dir_written d f)) 4096 4096) k = aget (bytes_at d 0 4096) k) by (by rewrite Hb).
  rewrite !aget_bytes in E by lia. by injection E.
Qed.

(** Two disks with the same tag and directory. *)
Lemma image_same n f g :
  image n f → f_len g = f_len f → (∀ x, 1024 ≤ x < 8192 → load8 (f_bytes g) x = load8 (f_bytes f) x) → image n g.
Proof.
  intros [Hs Ht Hd] Hl Hb. split; [by rewrite Hl| |].
  - rewrite <-Ht. f_equal. apply bytes_same. intros k Hk. apply Hb. lia.
  - unfold blocks. rewrite Hl. apply (directory_same _ (directory_of f)); [|done]. intros x Hx.
    change (load8 (f_bytes g) (4096 + x) = load8 (f_bytes f) (4096 + x)). apply Hb. lia.
Qed.

Lemma dir_written_image n n' d f :
  image n f → directory (blocks f) d n' →
  image n' (dir_written d f) ∧ f_len (dir_written d f) = f_len f.
Proof.
  intros [Hs Ht _] Hd. destruct (dir_written_spec d f) as [_ Hout].
  assert (Hl : f_len (dir_written d f) = f_len f).
  { unfold dir_written, wrote. cbn [f_len s_pos]. rewrite length_bytes by done. unfold minimumDiskSize in Hs. lia. }
  split; [|done]. split; [by rewrite Hl| |].
  - rewrite (bytes_same _ (f_bytes f) 1024 1024 512); [done|]. intros k Hk. apply Hout. lia.
  - unfold blocks. rewrite Hl. apply (directory_same _ d); [apply dir_written_same|done].
Qed.

(** Only the directory of the disk is another. *)
Definition same_data (f f' : FILE) : Prop :=
  f_len f' = f_len f ∧ ∀ x, x < 4096 ∨ 8192 ≤ x → load8 (f_bytes f') x = load8 (f_bytes f) x.


(** *** The directory without a file *)

Lemma directory_delete nb d n name k :
  directory nb d n → file_at d n name k →
  let d' := put_bytes d (k * 64) [1] in
  directory nb d' n ∧ no_file d' n name ∧ mark (record_at d' k) = 1 ∧ (∀ j, j ≠ k → record_at d' j = record_at d j) ∧
  free_area nb (records d' n) (ReservedBlocks (record_at d k)) (StartingBlock (record_at d k)).
Proof.
  intros Hd (Hk & Hl & Hname) d'. pose proof Hd as [Hn Hu He Hok Hap Hnames].
  assert (Hne : ∀ j, j ≠ k → record_at d' j = record_at d j) by (intros j Hj; apply entry_same; intros x Hx; apply put_bytes_out; simpl; lia).
  assert (Hm : mark (record_at d' k) = 1).
  { unfold mark, load_entry. cbn [FileName]. change 32 with (1 + 31). rewrite bytes_app by lia.
    change (bytes_at ?m ?p 1) with [load8 m (p + 0)]. cbn [app head default]. unfold d'. by rewrite (put_bytes_in _ _ _ 0 1). }
  assert (Hlive : ∀ j, live (record_at d' j) → j ≠ k) by (intros j Hlj ->; by apply Hlj).
  split; [|split; [|split; [done|split; [done|]]]].
  - split; [done|..].
    + intros j Hj. destruct (decide (j = k)) as [->|Hjk]; [by rewrite Hm|]. rewrite Hne by done. by apply Hu.
    + intros Hlt. rewrite Hne by lia. by apply He.
    + intros j Hj Hlj. rewrite Hne in Hlj |- * by (by apply Hlive). by apply Hok.
    + intros i j Hi Hj Hij Hli Hlj. pose proof (Hlive i Hli) as Hik. pose proof (Hlive j Hlj) as Hjk.
      rewrite (Hne i) in Hli |- * by done. rewrite (Hne j) in Hlj |- * by done. by apply Hap.
    + intros i j Hi Hj Hli Hlj. pose proof (Hlive i Hli) as Hik. pose proof (Hlive j Hlj) as Hjk.
      rewrite (Hne i) in Hli |- * by done. rewrite (Hne j) in Hlj |- * by done. by apply Hnames.
  - intros j (Hj & Hlj & Hnj). assert (Hjk := Hlive j Hlj). rewrite Hne in Hlj, Hnj by done.
    apply Hjk, Hnames; [done|done|done|done|congruence].
  - destruct (Hok k Hk Hl) as [_ E1 E2 E3]. split; [done|]. split; [done|]. intros e (j & Hj & ->)%elem_of_records Hlj.
    assert (Hjk := Hlive j Hlj). rewrite Hne in Hlj |- * by done. by apply (Hap k j).
Qed.

(** *** The commands *)

Section commands.
Context `{Host} (Hw : ∀ i, write_fails i = false).
Context (qsort : (BMFSEntry → BMFSEntry → Z) → list BMFSEntry → list BMFSEntry) (fuel : nat) (argv0 : list Z).

Lemma delete_ok nb n s f name k t :
  mounted nb n s f t → c_name name → file_at (Directory t) n name k →
  let d' := put_bytes (Directory t) (k * 64) [1] in
  ∃ t', delete (Some name) t = Done tt t' ∧ left_disk d' (dir_written d' f) t t'.
Proof.
  intros Hm Hc Hfile d'. pose proof Hm as [Hs Hf Hsz Hnb Hd].
  unfold delete. rewrite (bind_done _ _ _ _ _ (find_ok _ _ _ _ _ _ _ Hm Hc Hfile)).
  rewrite (asksO_bind _ _ t name) by done. rewrite printf_bind, modify_bind.
  match goal with |- context [(write_directory ≫= _) ?u] => set (t1 := u) end.
  destruct (write_directory_ok Hw t1 s f Hs Hf) as (t2 & E & [L1 L2 L3 (s1 & s2 & L4 & L5 & L6 & L7)]).
  rewrite (bind_done _ _ _ _ _ E). eexists. split; [reflexivity|].
  split; [exact L1|exact L2|exact L3|]. exists s1, s2. by split_and!.
Qed.





Lemma blocks_bytes f : 0 ≤ f_len f → blocks f * BLOCK ≤ f_len f.
Proof. intros Hl. unfold blocks, BLOCK. Z.to_euclidean_division_equations. lia. Qed.

(** The disk [f'] is [f] with [g] in the file of the record [k]. *)
Record holds (n k : Z) (g f f' : FILE) : Prop := {
  ho_content x : 0 ≤ x < f_len g →
    load8 (f_bytes f') (StartingBlock (record_at (directory_of f) k) * BLOCK + x) = load8 (f_bytes g) x;
  ho_size : FileSize (record_at (directory_of f') k) = f_len g;
  ho_area : StartingBlock (record_at (directory_of f') k) = StartingBlock (record_at (directory_of f) k) ∧
    ReservedBlocks (record_at (directory_of f') k) = ReservedBlocks (record_at (directory_of f) k);
  ho_others j : 0 ≤ j < n → j ≠ k → record_at (directory_of f') j = record_at (directory_of f) j;
  ho_data j x : 0 ≤ j < n → j ≠ k → live (record_at (directory_of f) j) →
    StartingBlock (record_at (directory_of f) j) * BLOCK ≤ x < ending (record_at (directory_of f) j) * BLOCK →
    load8 (f_bytes f') x = load8 (f_bytes f) x;
}.

(** The disk after [write]. *)
Lemma written_ok n name k g f f1 d d' :
  image n f → file_at (directory_of f) n name k → 0 ≤ f_len g ≤ INT_MAX →
  f_len g ≤ ReservedBlocks (record_at (directory_of f) k) * BLOCK →
  same_records (directory_of f) d → d' = store64 d (k * 64 + 48) (f_len g) →
  copied_bytes g 0 (f_len g) f (StartingBlock (record_at (directory_of f) k) * BLOCK) f1 →
  image n (dir_written d' f1) ∧ file_at (directory_of (dir_written d' f1)) n name k ∧
  f_len (dir_written d' f1) = f_len f ∧ holds n k g f (dir_written d' f1).
Proof.
  intros Him Hfile Hg Hroom Hsame -> [C1 C2]. pose proof Him as [Hs Ht Hd]. pose proof (di_n _ _ _ Hd) as Hn.
  pose proof Hfile as (Hk & Hl & Hname). pose proof (di_ok _ _ _ Hd k Hk Hl) as [_ E1 E2 E3].
  unfold minimumDiskSize in Hs. pose proof (blocks_bytes f ltac:(lia)) as Hbb.
  set (e := record_at (directory_of f) k) in *.
  assert (Harea : BLOCK ≤ StartingBlock e * BLOCK ∧ StartingBlock e * BLOCK + f_len g ≤ f_len f) by (unfold BLOCK in *; nia).
  assert (Hl1 : f_len f1 = f_len f) by (rewrite C2; case_match; lia).
  assert (Hlow : ∀ x, 1024 ≤ x < 8192 → load8 (f_bytes f1) x = load8 (f_bytes f) x).
  { intros x Hx. rewrite C1. by rewrite (proj2 (Z.leb_gt _ _)) by (unfold BLOCK in *; lia). }
  pose proof (image_same n f f1 Him Hl1 Hlow) as Him1.
  assert (Hb1 : blocks f1 = blocks f) by (unfold blocks; by rewrite Hl1).
  destruct (directory_resize (blocks f) d n k (f_len g)) as (D1 & D2 & D3 & D4 & D5 & D6); [by apply (directory_same _ (directory_of f))|done|unfold INT_MAX in Hg; lia|].
  set (d' := store64 d (k * 64 + 48) (f_len g)) in *.
  destruct (dir_written_image n n d' f1 Him1) as [Him2 Hl2]; [by rewrite Hb1|].
  assert (Hrec : ∀ j, 0 ≤ j < n → record_at (directory_of (dir_written d' f1)) j = record_at d' j).
  { intros j Hj. apply record_same; [apply dir_written_same|lia]. }
  assert (Hdk : record_at d k = e) by (apply record_same; [done|lia]).
  assert (Hbytes : ∀ x, 8192 ≤ x → load8 (f_bytes (dir_written d' f1)) x = load8 (f_bytes f1) x) by (intros x Hx; apply dir_written_spec; by right).
  split; [done|]. split; [|split; [lia|split]].
  - split; [done|]. rewrite Hrec by done. unfold live, mark. rewrite D3, Hdk. split; [exact Hl|exact Hname].
  - intros x Hx. fold e. rewrite Hbytes by (unfold BLOCK in *; lia). rewrite C1. c_tests. f_equal. lia.
  - by rewrite Hrec.
  - rewrite Hrec by done. by rewrite D4, D5, Hdk.
  - intros j Hj Hne. rewrite Hrec, D6 by done. apply record_same; [done|lia].
  - intros j x Hj Hne Hlj Hx. destruct (di_ok _ _ _ Hd j Hj Hlj) as [_ J1 J2 J3].
    rewrite Hbytes by (unfold BLOCK in *; lia). rewrite C1.
    destruct (Z.leb_spec (StartingBlock e * BLOCK) x), (Z.ltb_spec x (StartingBlock e * BLOCK + f_len g)); cbn [andb]; try done.
    elim (areas_apart (blocks f) (directory_of f) n j k x x); try done. fold e. rewrite Z.mul_add_distr_r. lia.
Qed.

Lemma main_write disk name n k f g t :
  read_only disk = false → files t !! disk = Some f → image n f → c_name name → file_at (directory_of f) n name k →
  files t !! name = Some g → name ≠ disk → 0 ≤ f_len g ≤ INT_MAX → f_len g ≤ ReservedBlocks (record_at (directory_of f) k) * BLOCK →
  ∃ t' f', main qsort fuel [argv0; disk; text "write"; name] t = Done 0 t' ∧ files t' = <[disk := f']> (files t) ∧
    image n f' ∧ file_at (directory_of f') n name k ∧ f_len f' = f_len f ∧ holds n k g f f'.
Proof.
  intros Hro Hf Him Hc Hfile Hg Hne HL Hroom. pose proof (di_n _ _ _ (im_directory _ _ Him)) as Hn.
  destruct (main_mounted qsort fuel argv0 disk (text "write") [name] n f t ltac:(by vm_compute) Hro Hf Him)
    as (s & t1 & Hp & Hm & Hfiles & Hsame & _ & Hmain).
  assert (Hrec : record_at (Directory t1) k = record_at (directory_of f) k) by (apply record_same; [done|destruct Hfile; lia]).
  destruct (write_ok Hw (blocks f) n s f name k g t1 Hm Hc) as (t2 & f1 & E & [L1 L2 L3 (s1 & s2 & L4 & L5 & L6 & L7)] & Hcp).
  - by apply (file_at_same (directory_of f)); [|lia|].
  - by rewrite Hfiles.
  - by rewrite Hp.
  - done.
  - by rewrite Hrec.
  - rewrite Hrec in Hcp.
    destruct (written_ok n name k g f f1 (Directory t1) _ Him Hfile HL Hroom Hsame eq_refl Hcp) as (A1 & A2 & A3 & A4).
    exists (set_disk None t2). eexists. split; [by apply Hmain|]. split; [|done].
    cbn [files set_disk]. rewrite L7, Hfiles. rewrite (mo_disk _ _ _ _ _ Hm) in L4. injection L4 as <-. by rewrite Hp.
Qed.

Lemma main_read disk name n k f t :
  read_only disk = false → files t !! disk = Some f → image n f → c_name name → file_at (directory_of f) n name k →
  read_only name = false → name ≠ disk → let e := record_at (directory_of f) k in
  0 ≤ FileSize e ≤ INT_MAX → FileSize e ≤ ReservedBlocks e * BLOCK →
  ∃ t' g', main qsort fuel [argv0; disk; text "read"; name] t = Done 0 t' ∧ files t' = <[name := g']> (files t) ∧
    f_len g' = FileSize e ∧ ∀ x, 0 ≤ x < FileSize e → load8 (f_bytes g') x = load8 (f_bytes f) (StartingBlock e * BLOCK + x).
Proof.
  intros Hro Hf Him Hc Hfile Hron Hne e HL Hroom. pose proof (im_directory _ _ Him) as Hd. pose proof (di_n _ _ _ Hd) as Hn.
  destruct (main_mounted qsort fuel argv0 disk (text "read") [name] n f t ltac:(by vm_compute) Hro Hf Him)
    as (s & t1 & Hp & Hm & Hfiles & Hsame & _ & Hmain).
  assert (Hrec : record_at (Directory t1) k = e) by (apply record_same; [done|destruct Hfile; lia]).
  pose proof Hfile as (Hk & Hl & _). destruct (di_ok _ _ _ Hd k Hk Hl) as [_ E1 E2 E3]. fold e in E1, E2, E3.
  pose proof (im_size _ _ Him) as Hs. unfold minimumDiskSize in Hs. pose proof (blocks_bytes f ltac:(lia)) as Hbb.
  destruct (read_ok Hw (blocks f) n s f name k t1 Hm Hc) as (t2 & g' & E & F1 & F2 & F3 & F4).
  - by apply (file_at_same (directory_of f)); [|lia|].
  - done.
  - by rewrite Hp.
  - by rewrite Hrec.
  - rewrite Hrec. unfold BLOCK in *. nia.
  - rewrite Hrec in F3, F4. exists (set_disk None t2), g'. split; [by apply Hmain|].
    cbn [files set_disk]. by rewrite F1, Hfiles.
Qed.

Lemma main_delete disk name n k f t :
  read_only disk = false → files t !! disk = Some f → image n f → c_name name → file_at (directory_of f) n name k →
  let e := record_at (directory_of f) k in
  ∃ t' f', main qsort fuel [argv0; disk; text "delete"; name] t = Done 0 t' ∧ files t' = <[disk := f']> (files t) ∧
    image n f' ∧ same_data f f' ∧ no_file (directory_of f') n name ∧
    (∀ j, 0 ≤ j < n → j ≠ k → record_at (directory_of f') j = record_at (directory_of f) j) ∧
    free_area (blocks f) (records (directory_of f') n) (ReservedBlocks e) (StartingBlock e).
Proof.
  intros Hro Hf Him Hc Hfile e. pose proof (im_directory _ _ Him) as Hd. pose proof (di_n _ _ _ Hd) as Hn.
  destruct (main_mounted qsort fuel argv0 disk (text "delete") [name] n f t ltac:(by vm_compute) Hro Hf Him)
    as (s & t1 & Hp & Hm & Hfiles & Hsame & _ & Hmain).
  assert (Hfile1 : file_at (Directory t1) n name k) by (by apply (file_at_same (directory_of f)); [|lia|]).
  assert (Hrec : record_at (Directory t1) k = e) by (apply record_same; [done|destruct Hfile; lia]).
  destruct (delete_ok (blocks f) n s f name k t1 Hm Hc Hfile1) as (t2 & E & [L1 L2 L3 (s1 & s2 & L4 & L5 & L6 & L7)]).
  destruct (directory_delete _ _ _ _ _ (mo_directory _ _ _ _ _ Hm) Hfile1) as (D1 & D2 & D3 & D4 & D5). rewrite Hrec in D5.
  set (d' := put_bytes (Directory t1) (k * 64) [1]) in *.
  destruct (dir_written_image n n d' f Him D1) as [Him' Hl']. pose proof (dir_written_same d' f) as Hs'.
  exists (set_disk None t2), (dir_written d' f). split; [by apply Hmain|]. split; [|split; [done|split; [|split; [|split]]]].
  - cbn [files set_disk]. rewrite L7, Hfiles. rewrite (mo_disk _ _ _ _ _ Hm) in L4. injection L4 as <-. by rewrite Hp.
  - split; [done|apply dir_written_spec].
  - by apply (no_file_same d'); [|lia|].
  - intros j Hj Hne. rewrite (record_same d') by (done || lia). rewrite D4 by done. apply record_same; [done|lia].
  - by rewrite (records_same d') by (done || lia).
Qed.
End commands.

(** ** The program *)

(** [initialize] with a size in decimal and a unit (6 MiB or more, below 4 PiB, no overflow)
    makes an image of that size whose directory is empty, and changes no other file of the host;
    the tool then opens the image, and [list] shows the size and no file. *)
Theorem initialize_formats `{Host} qsort (fuel : nat) argv0 disk ds factor u t :
  (∀ i, write_fails i = false) → no_memory = false → read_only disk = false →
  ds ≠ [] → Forall is_digit ds → (factor ≤ 5)%nat → toupper <$> u = suffix factor →
  let v := value 0 ds * 1024 ^ Z.of_nat factor in
  minimumDiskSize ≤ v < 2 ^ 52 → v ≤ bufferSize * Z.of_nat fuel →
  ∃ t1 f t2, main qsort fuel [argv0; disk; text "initialize"; ((λ d, 48 + d) <$> ds) ++ u] t = Done 0 t1 ∧
    files t1 = <[disk := f]> (files t) ∧ f_len f = v ∧ image 0 f ∧
    main qsort fuel [argv0; disk; text "list"] t1 = Done 0 t2 ∧ files t2 = files t1 ∧
    printed t2 = printed t1 ++ [("%s\nDisk Size: %d MiB\n", [Str disk; Num (v / 1048576)]);
      ("Name                            |            Size (B)|      Reserved (MiB)\n", []);
      ("==========================================================================\n", [])].
Proof.
  intros Hw Hmem Hro Hne Hds Hf Hu v Hv Hfuel. set (size := _ ++ u). pose proof Hv as Hv'. unfold minimumDiskSize in Hv'.
  destruct (initialize_spec Hw fuel disk size v (set_diskname disk t) (set_diskname disk t)) as (t1 & f & E & Hfiles & Htag); [done|done| |lia|].
  { apply disk_size_spec; try done. fold v. lia. }
  assert (Him : image 0 f) by (by apply (tagged_image f v)). assert (Hl : f_len f = v) by apply Htag.
  assert (Hf1 : files t1 !! disk = Some f) by (rewrite Hfiles; apply lookup_insert_eq).
  destruct (main_mounted qsort fuel argv0 disk (text "list") [] 0 f t1 ltac:(by vm_compute) Hro Hf1 Him)
    as (s & t2 & _ & Hm & Hf2 & _ & (N1 & N2 & N3) & Hmain).
  destruct (list_empty (blocks f) s f t2 Hm) as (t3 & E3 & Hf3 & Hp3).
  exists t1, f, (set_disk None t3). split; [|split; [done|split; [done|split; [done|split; [by apply Hmain|split]]]]].
  - unfold main. rewrite modify_bind. change (is_command (text "initialize") "initialize") with true. exact E.
  - cbn [files set_disk]. by rewrite Hf3, Hf2.
  - cbn [printed set_disk]. by rewrite Hp3, N1, N2, N3, Hl.
Qed.


(** C19: [write] of a local file that fits the blocks of its record puts its bytes there and its size in the
    directory, and changes no byte of another file; whatever happens to the other files of the host, a later [read]
    makes a local file of the same bytes. *)
Theorem write_read_roundtrip `{Host} qsort fuel argv0 disk name n k f g t :
  (∀ i, write_fails i = false) → read_only disk = false → read_only name = false → name ≠ disk →
  files t !! disk = Some f → image n f → c_name name → file_at (directory_of f) n name k →
  files t !! name = Some g → 0 ≤ f_len g ≤ INT_MAX → f_len g ≤ ReservedBlocks (record_at (directory_of f) k) * BLOCK →
  ∃ t1 f1, main qsort fuel [argv0; disk; text "write"; name] t = Done 0 t1 ∧
    files t1 = <[disk := f1]> (files t) ∧ image n f1 ∧ f_len f1 = f_len f ∧ holds n k g f f1 ∧
    ∀ t2, files t2 !! disk = Some f1 → ∃ t3 g', main qsort fuel [argv0; disk; text "read"; name] t2 = Done 0 t3 ∧
      files t3 = <[name := g']> (files t2) ∧ f_len g' = f_len g ∧
      ∀ x, 0 ≤ x < f_len g → load8 (f_bytes g') x = load8 (f_bytes g) x.
Proof.
  intros Hw Hro Hron Hne Hf Him Hc Hfile Hg HL Hroom.
  destruct (main_write Hw qsort fuel argv0 disk name n k f g t) as (t1 & f1 & E & Hfiles & Him1 & Hfile1 & Hl1 & Hh); try done.
  exists t1, f1. do 5 (split; [done|]). intros t2 Hf2. pose proof Hh as [H1 H2 [H3 H4] _ _].
  destruct (main_read Hw qsort fuel argv0 disk name n k f1 t2) as (t3 & g' & E3 & F1 & F2 & F3); try done.
  - by rewrite H2.
  - by rewrite H2, H4.
  - exists t3, g'. split; [done|]. split; [done|]. split; [by rewrite F2|]. intros x Hx. rewrite F3 by (by rewrite H2).
    rewrite H3. by apply H1.
Qed.

(** C40: [delete] marks the record of the file: the file is found no more, its blocks are free, and the other files keep
    their records and their bytes. *)
Theorem delete_frees `{Host} qsort fuel argv0 disk name n k f t :
  (∀ i, write_fails i = false) → read_only disk = false → files t !! disk = Some f → image n f → c_name name →
  file_at (directory_of f) n name k →
  let e := record_at (directory_of f) k in
  ∃ t' f', main qsort fuel [argv0; disk; text "delete"; name] t = Done 0 t' ∧ files t' = <[disk := f']> (files t) ∧
    image n f' ∧ same_data f f' ∧ no_file (directory_of f') n name ∧
    (∀ j, 0 ≤ j < n → j ≠ k → record_at (directory_of f') j = record_at (directory_of f) j) ∧
    free_area (blocks f) (records (directory_of f') n) (ReservedBlocks e) (StartingBlock e).
Proof. intros Hw Hro Hf Him Hc Hfile. by apply (main_delete Hw). Qed.

(** ** Small disks *)

Module Sample.
Definition host : Host := {| read_only := λ _, false; write_fails := λ _, false; no_memory := false |}.
Definition put_record (k start blocks : Z) (name : string) (d : mem) : mem := default d (add_record k start blocks (text name) d).
Definition zero : mem := λ _, 0.

(** A disk of 12 MiB with a directory. *)
Definition disk_of (d : mem) : FILE :=
  mkFile (put_bytes (λ x, if 4096 <=? x then d (x - 4096) else 0) 1024 (text fs_tag)) 12582912.
Definition tool (fs : gmap (list Z) FILE) : Tool := mkTool fs [] [] 0 zero zero 0 [] None.

(** With the file [A] in the block 1. *)
Definition disk_A : FILE := disk_of (put_record 0 1 1 "A" zero).
Definition local : FILE := mkFile (put_bytes zero 0 [1; 2; 3]) 3.
Definition tool_A : Tool := tool (<[text "disk" := disk_A]> {[text "A" := local]}).

Lemma record_A : record_at (directory_of disk_A) 0 = mkEntry (65 :: replicate 31 0) 1 1 0 0.
Proof. by vm_compute. Qed.

Lemma image_A : image 1 disk_A.
Proof.
  split; [done|by vm_compute|]. change (blocks disk_A) with 6.
  assert (H1 : ∀ k, 0 ≤ k < 1 → k = 0) by lia.
  split; [done|..].
  - intros k ->%H1. by rewrite record_A.
  - intros _. by vm_compute.
  - intros k ->%H1 _. rewrite record_A. split; [by eexists|done..].
  - intros j k ->%H1 ->%H1. done.
  - intros j k ->%H1 ->%H1. done.
Qed.

Lemma file_A : file_at (directory_of disk_A) 1 (text "A") 0.
Proof. split; [done|]. by rewrite record_A. Qed.


Lemma name_A : c_name (text "A").
Proof. by repeat constructor. Qed.



End Sample.

Lemma initialize_formats_witness :
  ∃ t1 f t2, @main Sample.host Insertion.sort 200%nat [text "bmfs"; text "disk"; text "initialize"; text "6M"] (Sample.tool ∅) = Done 0 t1 ∧
    files t1 = <[text "disk" := f]> (files (Sample.tool ∅)) ∧ f_len f = 6 * 1048576 ∧ image 0 f ∧
    @main Sample.host Insertion.sort 200%nat [text "bmfs"; text "disk"; text "list"] t1 = Done 0 t2 ∧ files t2 = files t1 ∧
    printed t2 = printed t1 ++ [("%s\nDisk Size: %d MiB\n", [Str (text "disk"); Num 6]);
      ("Name                            |            Size (B)|      Reserved (MiB)\n", []);
      ("==========================================================================\n", [])].
Proof.
  apply (@initialize_formats Sample.host Insertion.sort 200%nat (text "bmfs") (text "disk") [6] 2%nat (text "M") (Sample.tool ∅));
    [done|done|done|done|by repeat constructor|lia|done|done|done].
Defined.


Lemma write_read_roundtrip_witness :
  ∃ t1 f1, @main Sample.host Insertion.sort 0%nat [text "bmfs"; text "disk"; text "write"; text "A"] Sample.tool_A = Done 0 t1 ∧
    files t1 = <[text "disk" := f1]> (files Sample.tool_A) ∧ image 1 f1 ∧ f_len f1 = f_len Sample.disk_A ∧ holds 1 0 Sample.local Sample.disk_A f1 ∧
    ∀ t2, files t2 !! text "disk" = Some f1 → ∃ t3 g', @main Sample.host Insertion.sort 0%nat [text "bmfs"; text "disk"; text "read"; text "A"] t2 = Done 0 t3 ∧
      files t3 = <[text "A" := g']> (files t2) ∧ f_len g' = f_len Sample.local ∧
      ∀ x, 0 ≤ x < f_len Sample.local → load8 (f_bytes g') x = load8 (f_bytes Sample.local) x.
Proof.
  apply (@write_read_roundtrip Sample.host Insertion.sort 0%nat (text "bmfs") (text "disk") (text "A") 1 0 Sample.disk_A Sample.local Sample.tool_A);
    [done|done|done|done|done|exact Sample.image_A|exact Sample.name_A|exact Sample.file_A|done|done|].
  rewrite Sample.record_A. done.
Defined.

Lemma delete_frees_witness :
  ∃ t' f', @main Sample.host Insertion.sort 0%nat [text "bmfs"; text "disk"; text "delete"; text "A"] Sample.tool_A = Done 0 t' ∧
    files t' = <[text "disk" := f']> (files Sample.tool_A) ∧
    image 1 f' ∧ same_data Sample.disk_A f' ∧ no_file (directory_of f') 1 (text "A") ∧
    (∀ j, 0 ≤ j < 1 → j ≠ 0 → record_at (directory_of f') j = record_at (directory_of Sample.disk_A) j) ∧
    free_area 6 (records (directory_of f') 1) (ReservedBlocks (record_at (directory_of Sample.disk_A) 0)) (StartingBlock (record_at (directory_of Sample.disk_A) 0)).
Proof.
  apply (@delete_frees Sample.host Insertion.sort 0%nat (text "bmfs") (text "disk") (text "A") 1 0 Sample.disk_A Sample.tool_A);
    [done|done|done|exact Sample.image_A|exact Sample.name_A|exact Sample.file_A].
Defined.

(** ** What goes wrong *)

(** A run of [create] on a directory of a disk of 6 blocks. *)
Definition after_create (d : mem) (name : list Z) (maxsize : Z) : option Tool :=
  let t := mkTool {[text "disk" := Sample.disk_of d]} [] [] 0 d Sample.zero 12 (text "disk") (Some (mkStream (text "disk") 0 false)) in
  match @create Sample.host Insertion.sort name maxsize t with Done _ t' => Some t' | _ => None end.

(** A deleted record is sorted to the end, and the walk goes on from the end of its blocks: the new file [B] has the
    blocks 2 to 4, of which [A] has 2 and 3. *)
Definition after_delete : mem := put_bytes (Sample.put_record 1 2 2 "A" (Sample.put_record 0 1 1 "D" Sample.zero)) 0 [1].

Example create_overlaps :
  (λ t', let e := record_at (Directory t') 0 in let a := record_at (Directory t') 1 in
    (c_string (FileName e), StartingBlock e, ending e, c_string (FileName a), StartingBlock a, ending a)) <$> after_create after_delete (text "B") 6 =
  Some (Some (text "B"), 2, 5, Some (text "A"), 2, 4).
Proof. by vm_compute. Qed.

(** A full directory with a deleted record: no record is counted, so the new file gets the block 1, which another file has;
    when the deleted record is the first one, the name of the second record is set to 0, and all files are lost. *)
Definition full_directory (dead : Z) : mem :=
  λ x, let k := x / 64 in let i := x mod 64 in
    if i =? 0 then (if k =? dead then 1 else 65) else if i =? 1 then 65 + k else if i =? 32 then 1 + k else if i =? 40 then 1 else 0.

Example create_full_overlaps :
  (λ t', let e := record_at (Directory t') 5 in (StartingBlock e, ending e, StartingBlock (record_at (Directory t') 0))) <$>
    after_create (full_directory 5) (text "B") 2 = Some (1, 2, 1).
Proof. by vm_compute. Qed.

Example create_full_loses :
  (λ t', (mark (record_at (full_directory 0) 1), mark (record_at (Directory t') 1))) <$> after_create (full_directory 0) (text "B") 2 = Some (65, 0).
Proof. by vm_compute. Qed.

(** The name is stored last and is not cut: with 34 chars it is over [StartingBlock]. *)
Example create_long_name :
  (λ t', (StartingBlock (record_at (Directory t') 0), c_string (FileName (record_at (Directory t') 0)))) <$>
    after_create Sample.zero (replicate 34 66) 2 = Some (66 * 256 + 66, None).
Proof. by vm_compute. Qed.

(** The check of a size that is too large is of the product alone, and a wrapped product can be larger: 30000000000000000000 is taken for
    another size. *)
Example size_wraps :
  (λ r, fst r) <$> (match @disk_size (text "30000000000000000000") (Sample.tool ∅) with Done a t => Some (a, printed t) | _ => None end) =
  Some (11553255926290448384, 0).
Proof. by vm_compute. Qed.

(** A negative size typed at the prompt is a large unsigned number and gets to [create]; as an argument it is refused. *)
Definition after_prompt (argv : list (list Z)) (input : string) : list (string * list arg) :=
  match @do_create Sample.host Insertion.sort argv (set_disksize 12 (set_stdin (text input) (Sample.tool ∅))) with Done _ t => printed t | _ => [] end.

Example negative_size :
  after_prompt [text "bmfs"; text "disk"; text "create"; text "B"] "-1" =
    [("Maximum file size in MiB: ", []); ("Creating new file...\n", []); ("Cannot create file of size %lld MiB.\n", [Num 4294967296])] ∧
  after_prompt [text "bmfs"; text "disk"; text "create"; text "B"; text "-1"] "" = [("Error: Invalid file size.\n", [])].
Proof. by vm_compute. Qed.

(** [format] of a formatted disk wants an argument. *)
Example format_aborted t : @do_format Sample.host [text "bmfs"; text "disk"; text "format"] t = Done tt (set_printed (printed t ++ [("Format aborted!\n", [])]) t).
Proof. reflexivity. Qed.

(** Two deleted records are each after the other, which [qsort] does not allow. *)
Lemma deleted_inconsistent a b : ¬ live a → ¬ live b → StartingBlockCmp a b = 1 ∧ StartingBlockCmp b a = 1.
Proof.
  intros Ha Hb. assert (mark a = 1 ∧ mark b = 1) as [Ea Eb] by (unfold live in *; split; lia).
  unfold StartingBlockCmp. by rewrite Ea, Eb.
Qed.
