(* ===== verification/BmfsImage.v ===== *)
(** * The image that the file system tool builds for the machine

    [Image/Makefile] runs [bmfs image initialize 6291456 mbr pure64 packedKernel]: the files end byte for byte
    where the boot sector and Pure64 read them, and the image still has the tag and an empty directory. *)

From S2P Require Import Prelude KMonad CString Bmfs BmfsDirectory BmfsCommands BmfsThms.

(** ** Copies *)

Lemma copied_refl f p g q : copied_bytes f p 0 g q g.
Proof. split; [|done]. intros x. destruct (Z.leb_spec q x), (Z.ltb_spec x (q + 0)); cbn [andb]; done || lia. Qed.

Lemma copied_trans f p n g q g1 n' g2 :
  0 ≤ n → 0 ≤ n' → copied_bytes f p n g q g1 → copied_bytes f (p + n) n' g1 (q + n) g2 → copied_bytes f p (n + n') g q g2.
Proof.
  intros Hn Hn' [A1 A2] [B1 B2]. split.
  - intros x. rewrite B1, A1. destruct (Z.leb_spec q x), (Z.ltb_spec x (q + n)), (Z.leb_spec (q + n) x), (Z.ltb_spec x (q + n + n')),
      (Z.ltb_spec x (q + (n + n'))); cbn [andb]; try lia; try done. f_equal. lia.
  - rewrite B2, A2. destruct (Z.eqb_spec n 0), (Z.eqb_spec n' 0), (Z.eqb_spec (n + n') 0); lia.
Qed.

(** Bytes read and written. *)
Lemma wrote_copied f p n g s : 0 < n → copied_bytes f p n g (s_pos s) (wrote (bytes_at (f_bytes f) p n) s g).
Proof.
  intros Hn. unfold wrote. split; cbn [f_bytes f_len]; rewrite ?length_bytes by lia.
  - intros x. rewrite put_bytes_load. destruct (Z.leb_spec (s_pos s) x), (Z.ltb_spec x (s_pos s + n)); cbn [andb].
    + rewrite aget_bytes by lia. apply (wrap_u_id 8), wrap_u_range. lia.
    + destruct (aget _ (x - s_pos s)) eqn:E; [|done]. apply aget_inv in E. rewrite length_bytes in E by lia. lia.
    + destruct (aget _ (x - s_pos s)) eqn:E; [|done]. apply aget_inv in E. lia.
    + destruct (aget _ (x - s_pos s)) eqn:E; [|done]. apply aget_inv in E. lia.
  - by rewrite (proj2 (Z.eqb_neq n 0)) by lia.
Qed.

Section image.
Context `{Host} (Hw : ∀ i, write_fails i = false).

(** What writing the disk left. *)
Record to_disk (s : stream) (f : FILE) (p : Z) t t' : Prop := {
  td_disk : disk t' = Some (fseek p s);
  td_files : files t' = <[s_path s := f]> (files t);
}.

Lemma fread_any n s t f :
  files t !! s_path s = Some f → 0 ≤ s_pos s ≤ f_len f →
  let k := Z.max 0 (Z.min n (f_len f - s_pos s)) in
  fread n s t = Done (bytes_at (f_bytes f) (s_pos s) k, fseek (s_pos s + k) s) t.
Proof. intros Hf Hp. unfold fread, asksO. by rewrite Hf. Qed.

(** [copy_file] copies what is left of a file. *)
Lemma copy_file_ok (n : nat) path from t s f g :
  disk t = Some s → s_error s = false → files t !! s_path s = Some f → files t !! s_path from = Some g → s_path from ≠ s_path s →
  0 ≤ s_pos from ≤ f_len g → f_len g - s_pos from ≤ bufferSize * (Z.of_nat n - 1) →
  let r := f_len g - s_pos from in
  ∃ t' f', copy_file n path from 0 t = Done 0 t' ∧ to_disk s f' (s_pos s + r) t t' ∧ copied_bytes g (s_pos from) r f (s_pos s) f'.
Proof.
  revert from t s f. induction n as [|n IH]; intros from t s f Hs He Hf Hg Hne Hp Hn r; [unfold bufferSize in *; lia|].
  cbn [copy_file]. rewrite (bind_done _ _ _ _ _ (fread_any bufferSize from t g Hg Hp)).
  set (k := Z.max 0 (Z.min bufferSize (f_len g - s_pos from))). destruct (decide (r = 0)) as [Hr|Hr].
  - assert (k = 0) as -> by (unfold k, bufferSize, r in *; lia). change (bytes_at (f_bytes g) (s_pos from) 0) with (@nil Z). cbn iota beta.
    unfold get_disk. rewrite (asksO_bind _ _ t s Hs), He. exists t, f. rewrite Hr, Z.add_0_r. split; [done|]. split; [|apply copied_refl].
    split; [rewrite Hs; by destruct s|symmetry; by apply insert_id].
  - assert (Hk : 0 < k ≤ bufferSize ∧ k ≤ r) by (unfold k, bufferSize, r in *; lia).
    pose proof (length_bytes (f_bytes g) (s_pos from) k ltac:(lia)) as Hlen. pose proof (wrote_copied g (s_pos from) k f s ltac:(lia)) as Hcp.
    set (l := bytes_at (f_bytes g) (s_pos from) k) in *. clearbody l.
    destruct (write_disk_ok Hw l t s f Hs Hf) as (t1 & E & D1 & D2 & _). rewrite Hlen in D1.
    destruct (IH (fseek (s_pos from + k) from) t1 (fseek (s_pos s + k) s) (wrote l s f)) as (t2 & f2 & E2 & [F1 F2] & F3); try done.
    + rewrite D2. apply lookup_insert_eq.
    + rewrite D2. by rewrite lookup_insert_ne by (cbn; congruence).
    + cbn [s_pos fseek]. unfold r in *. lia.
    + cbn [s_pos fseek]. unfold k, bufferSize, r in *. lia.
    + cbn [s_pos s_path fseek] in *. exists t2, f2. split.
      { destruct l as [|c l'] eqn:El; [exfalso; revert Hlen; cbn [length]; lia|]. cbn iota beta. rewrite (bind_done _ _ _ _ _ E). exact E2. }
      split; [split|].
      * rewrite F1. unfold fseek. cbn. do 2 f_equal. unfold r. lia.
      * rewrite F2, D2. apply insert_insert_eq.
      * replace r with (k + (f_len g - (s_pos from + k))) by (unfold r; lia).
        apply (copied_trans _ _ _ _ _ (wrote l s f)); [lia|unfold r in *; lia|exact Hcp|exact F3].
Qed.

Lemma write_mbr_ok mbr from t s f g :
  disk t = Some s → files t !! s_path s = Some f → files t !! s_path from = Some g → s_pos from = 0 → 512 ≤ f_len g →
  ∃ t' f', write_mbr mbr from t = Done 0 t' ∧ to_disk s f' 512 t t' ∧ copied_bytes g 0 512 f 0 f'.
Proof.
  intros Hs Hf Hg Hp Hl. unfold write_mbr. rewrite printf_bind. unfold get_disk. rewrite (asksO_bind _ _ _ s) by done.
  unfold put_disk. rewrite modify_bind. set (t1 := set_disk (Some (fseek 0 s)) _).
  rewrite (bind_done _ _ _ _ _ (fread_ok 512 from t1 g Hg ltac:(lia) ltac:(lia))). cbn iota beta.
  set (l := bytes_at (f_bytes g) (s_pos from) 512). assert (Hlen : len l = 512) by (by apply length_bytes).
  rewrite (proj2 (Z.eqb_eq _ _) Hlen).
  destruct (write_disk_ok Hw l t1 (fseek 0 s) f) as (t2 & E & D1 & D2 & _); [done|done|]. rewrite Hlen in D1. cbn [s_pos s_path fseek] in D1, D2.
  exists t2, (wrote l (fseek 0 s) f). split; [exact E|]. split; [split; [exact D1|exact D2]|].
  pose proof (wrote_copied g (s_pos from) 512 f (fseek 0 s) ltac:(lia)) as Hcp. fold l in Hcp. by rewrite Hp in Hcp.
Qed.

Lemma open_file_ok p message args t g : files t !! p = Some g → open_file 0 (Some p) message args t = Done (0, Some (mkStream p 0 false)) t.
Proof. intros Hg. unfold open_file. cbn [Z.eqb]. unfold fopen_rb. rewrite asks_bind, Hg. done. Qed.

(** The disk [f] of [v] bytes that starts the machine: the boot sector, the tag, the boot loader and behind it the kernel. *)
Record bootable (v : Z) (mbr boot kernel : FILE) (f : FILE) : Prop := {
  bo_size : f_len f = v;
  bo_mbr x : 0 ≤ x < 512 → load8 (f_bytes f) x = load8 (f_bytes mbr) x;
  bo_boot x : 0 ≤ x < f_len boot → load8 (f_bytes f) (8192 + x) = load8 (f_bytes boot) x;
  bo_kernel x : 0 ≤ x < f_len kernel → load8 (f_bytes f) (8192 + f_len boot + x) = load8 (f_bytes kernel) x;
  bo_rest x : 512 ≤ x < 8192 ∨ 8192 + f_len boot + f_len kernel ≤ x → load8 (f_bytes f) x = default 0 (aget (text fs_tag) (x - 1024));
}.

Lemma bootable_image v mbr boot kernel f :
  bootable v mbr boot kernel f → minimumDiskSize ≤ v < 2 ^ 52 → image 0 f.
Proof.
  intros [B1 _ _ _ B5] Hv. set (f0 := mkFile (λ x, default 0 (aget (text fs_tag) (x - 1024))) v).
  assert (Hbyte : ∀ x, load8 (f_bytes f0) x = default 0 (aget (text fs_tag) (x - 1024))).
  { intros x. unfold load8. apply wrap_u_id. unfold f0. cbn [f_bytes].
    destruct (aget (text fs_tag) (x - 1024)) as [b|] eqn:E; [|done].
    assert (Hin : b ∈ text fs_tag) by (unfold aget in E; case_match; [by eapply list_elem_of_lookup_2|done]).
    assert (Hall : Forall is_byte (text fs_tag)) by (repeat constructor; done). rewrite list.Forall_forall in Hall. by apply Hall. }
  apply (image_same 0 f0); [apply (tagged_image f0 v); [split; [done|exact Hbyte]|done]|done|].
  intros x Hx. rewrite Hbyte. apply B5. lia.
Qed.

(** The three files on a tagged disk. *)
Lemma boot_files v mbr boot kernel f f1 f2 f3 :
  tagged f v → 512 ≤ f_len mbr → 0 ≤ f_len boot → 0 ≤ f_len kernel → 8192 + f_len boot + f_len kernel ≤ v →
  copied_bytes mbr 0 512 f 0 f1 → copied_bytes boot 0 (f_len boot) f1 8192 f2 → copied_bytes kernel 0 (f_len kernel) f2 (8192 + f_len boot) f3 →
  bootable v mbr boot kernel f3.
Proof.
  intros [Hl Hb] Hm Hbo Hk Hv [A1 A2] [B1 B2] [C1 C2]. split.
  - rewrite C2, B2, A2, Hl. cbn [Z.eqb]. destruct (Z.eqb_spec (f_len kernel) 0), (Z.eqb_spec (f_len boot) 0); lia.
  - intros x Hx. rewrite C1, B1, A1. c_tests. f_equal. lia.
  - intros x Hx. rewrite C1, B1. c_tests. f_equal. lia.
  - intros x Hx. rewrite C1. c_tests. f_equal. lia.
  - intros x Hx. rewrite C1, B1, A1, Hb.
    destruct (Z.leb_spec (8192 + f_len boot) x), (Z.ltb_spec x (8192 + f_len boot + f_len kernel)), (Z.leb_spec 8192 x),
      (Z.ltb_spec x (8192 + f_len boot)), (Z.leb_spec 0 x), (Z.ltb_spec x (0 + 512)); cbn [andb]; lia || done.
Qed.

Lemma write_image_ok fuel v mbr boot kernel g0 g1 g2 path t :
  disk t = Some (mkStream path 0 false) → files t !! path = Some (mkFile (λ _, 0) 0) →
  files t !! mbr = Some g0 → files t !! boot = Some g1 → files t !! kernel = Some g2 → mbr ≠ path → boot ≠ path → kernel ≠ path →
  512 ≤ f_len g0 → 0 ≤ f_len g1 → 0 ≤ f_len g2 → 8192 + f_len g1 + f_len g2 ≤ v → v ≤ bufferSize * (Z.of_nat fuel - 1) →
  ∃ t' f, write_image fuel v (Some mbr) (Some boot) (Some kernel) (Some (mkStream mbr 0 false)) (Some (mkStream boot 0 false))
      (Some (mkStream kernel 0 false)) t = Done 0 t' ∧ files t' = <[path := f]> (files t) ∧ bootable v g0 g1 g2 f.
Proof.
  intros Hs Hf Hm Hb Hk Nm Nb Nk L0 L1 L2 Hv Hfuel. set (s := mkStream path 0 false) in *. unfold write_image.
  destruct (fill_zeros_ok Hw fuel 0 v t s (mkFile (λ _, 0) 0)) as (t1 & f1 & E1 & A1 & A2 & A3 & _); [done|done|done|done|lia|unfold bufferSize in *; lia|].
  rewrite (bind_done _ _ _ _ _ E1). cbn [Z.eqb when]. rewrite printf_bind. set (t2 := set_printed _ t1).
  unfold when_ok. cbn [Z.eqb].
  assert (Hother : ∀ p x, p ≠ path → files t !! p = x → ∀ u f', files u = <[path := f']> (files t) → files u !! p = x).
  { intros p x Hp Hx u f' ->. by rewrite lookup_insert_ne. }
  destruct (format_ok Hw (set_disk (Some s) t2) s f1 v) as (t3 & f3 & E3 & B1 & B2 & p3 & B3); [done| |done|lia|].
  { change (files (set_disk (Some s) t2)) with (files t1). rewrite A2. apply lookup_insert_eq. }
  assert (C1 : files t3 = <[path := f3]> (files t)).
  { rewrite B1. change (files (set_disk (Some s) t2)) with (files t1). rewrite A2. apply insert_insert_eq. }
  rewrite (bind_done _ _ t2 0 t3).
  2: { unfold get_disk. rewrite (asksO_bind _ _ t2 _ A1). unfold put_disk. rewrite modify_bind. by rewrite (bind_done _ _ _ _ _ E3). }
  unfold when_ok. cbn [Z.eqb].
  destruct (write_mbr_ok (Some mbr) (mkStream mbr 0 false) t3 (fseek p3 s) f3 g0) as (t4 & f4 & E4 & [D1 D2] & D3); [done| | |done|done|].
  { rewrite C1. apply lookup_insert_eq. }
  { by apply (Hother _ _ Nm Hm _ _ C1). }
  assert (C2 : files t4 = <[path := f4]> (files t)) by (rewrite D2, C1; apply insert_insert_eq).
  rewrite (bind_done _ _ _ _ _ E4). unfold when_ok. cbn [Z.eqb].
  set (t5 := set_disk (Some (fseek 8192 s)) (set_printed (printed t4 ++ [("Writing %s file.\n", [Str (text (boot_type (Some kernel)))])]) t4)).
  destruct (copy_file_ok fuel boot (mkStream boot 0 false) t5 (fseek 8192 s) f4 g1) as (t6 & f6 & E6 & [F1 F2] & F3); [done|done| | |done|cbn [s_pos]; lia|cbn [s_pos]; lia|].
  { change (files t5) with (files t4). rewrite C2. apply lookup_insert_eq. }
  { change (files t5) with (files t4). by apply (Hother _ _ Nb Hb _ _ C2). }
  cbn [s_pos s_path fseek] in F1, F2, F3. rewrite Z.sub_0_r in F1, F3.
  assert (C3 : files t6 = <[path := f6]> (files t)) by (rewrite F2; change (files t5) with (files t4); rewrite C2; apply insert_insert_eq).
  rewrite (bind_done _ _ t4 0 t6).
  2: { rewrite printf_bind. unfold get_disk. rewrite (asksO_bind _ _ _ (fseek 512 (fseek p3 s))) by exact D1. unfold put_disk. rewrite modify_bind. exact E6. }
  unfold when_ok. cbn [Z.eqb]. rewrite printf_bind. set (t7 := set_printed _ t6).
  destruct (copy_file_ok fuel kernel (mkStream kernel 0 false) t7 (fseek (8192 + f_len g1) s) f6 g2) as (t8 & f8 & E8 & [G1 G2] & G3); [exact F1|done| | |done|cbn [s_pos]; lia|cbn [s_pos]; lia|].
  { change (files t7) with (files t6). rewrite C3. apply lookup_insert_eq. }
  { change (files t7) with (files t6). by apply (Hother _ _ Nk Hk _ _ C3). }
  cbn [s_pos s_path fseek] in G2, G3. rewrite Z.sub_0_r in G3.
  exists t8, f8. split; [exact E8|]. split; [rewrite G2; change (files t7) with (files t6); rewrite C3; apply insert_insert_eq|].
  by apply (boot_files v g0 g1 g2 f3 f4 f6 f8).
Qed.
End image.

(** [initialize] with three files through [main]. *)
Lemma initialize_files `{Host} qsort (fuel : nat) argv0 disk ds factor u mbr boot kernel g0 g1 g2 t :
  (∀ i, write_fails i = false) → no_memory = false → read_only disk = false →
  ds ≠ [] → Forall is_digit ds → (factor ≤ 5)%nat → toupper <$> u = suffix factor →
  let v := value 0 ds * 1024 ^ Z.of_nat factor in
  minimumDiskSize ≤ v < 2 ^ 52 → v ≤ bufferSize * (Z.of_nat fuel - 1) →
  files t !! mbr = Some g0 → files t !! boot = Some g1 → files t !! kernel = Some g2 → mbr ≠ disk → boot ≠ disk → kernel ≠ disk →
  512 ≤ f_len g0 → 0 ≤ f_len g1 → 0 ≤ f_len g2 → 8192 + f_len g1 + f_len g2 ≤ v →
  ∃ t1 f, main qsort fuel [argv0; disk; text "initialize"; ((λ d, 48 + d) <$> ds) ++ u; mbr; boot; kernel] t = Done 0 t1 ∧
    files t1 = <[disk := f]> (files t) ∧ bootable v g0 g1 g2 f ∧ image 0 f.
Proof.
  intros Hw Hmem Hro Hne Hds Hf Hu v Hv Hfuel Hm Hb Hk Nm Nb Nk L0 L1 L2 Hroom. set (size := _ ++ u).
  set (t0 := set_diskname disk t). pose proof Hv as Hv'. unfold minimumDiskSize in Hv'.
  assert (Hsize : disk_size size t0 = Done (v, 0) t0) by (apply disk_size_spec; try done; fold v; lia).
  set (t1 := set_files (<[disk := mkFile (λ _, 0) 0]> (files t0)) t0). set (t2 := set_disk (Some (mkStream disk 0 false)) t1).
  assert (Hfiles : ∀ p g, files t !! p = Some g → p ≠ disk → files t2 !! p = Some g).
  { intros p g Hp Hn. change (files t2) with (<[disk := mkFile (λ _, 0) 0]> (files t)). by rewrite lookup_insert_ne. }
  destruct (write_image_ok Hw fuel v mbr boot kernel g0 g1 g2 disk t2) as (t3 & f & E & HF & HB); try done; [apply lookup_insert_eq|by apply Hfiles..|].
  exists (set_printed (printed t3 ++ [("Disk initialization complete.\n", [])]) (set_disk None t3)), f.
  split; [|split; [|split; [done|by apply (bootable_image v g0 g1 g2)]]].
  - unfold main. rewrite modify_bind. change (is_command (text "initialize") "initialize") with true. cbn iota beta.
    cbn [lookup list_lookup]. unfold initialize. rewrite (bind_done _ _ _ _ _ Hsize).
    rewrite (bind_done _ _ _ _ _ (open_file_ok mbr _ _ t0 g0 Hm)), (bind_done _ _ _ _ _ (open_file_ok boot _ _ t0 g1 Hb)),
      (bind_done _ _ _ _ _ (open_file_ok kernel _ _ t0 g2 Hk)).
    unfold when_ok. cbn [Z.eqb]. rewrite Hmem. rewrite (bind_done _ _ t0 0 t0) by done.
    unfold when_ok. cbn [Z.eqb]. unfold fopen_wb. rewrite Hro. erewrite (bind_done _ _ t0 0 t3); [reflexivity|].
    rewrite (bind_done _ _ t0 (Some (mkStream disk 0 false)) t1) by done. cbn iota beta. unfold put_disk. rewrite modify_bind. exact E.
  - cbn [files set_printed set_disk]. rewrite HF. change (files t2) with (<[disk := mkFile (λ _, 0) 0]> (files t)). apply insert_insert_eq.
Qed.

(** C17: [initialize] with a boot sector, a boot loader and a kernel, as the image of gatOS is built: the three files are on the
    image where the machine looks for them, the rest is zero but for the tag, the tool accepts the image and finds no file on it. *)
Theorem initialize_bootable `{Host} qsort (fuel : nat) argv0 disk ds factor u mbr boot kernel g0 g1 g2 t :
  (∀ i, write_fails i = false) → no_memory = false → read_only disk = false →
  ds ≠ [] → Forall is_digit ds → (factor ≤ 5)%nat → toupper <$> u = suffix factor →
  let v := value 0 ds * 1024 ^ Z.of_nat factor in
  minimumDiskSize ≤ v < 2 ^ 52 → v ≤ bufferSize * (Z.of_nat fuel - 1) →
  files t !! mbr = Some g0 → files t !! boot = Some g1 → files t !! kernel = Some g2 → mbr ≠ disk → boot ≠ disk → kernel ≠ disk →
  512 ≤ f_len g0 → 0 ≤ f_len g1 → 0 ≤ f_len g2 → 8192 + f_len g1 + f_len g2 ≤ v →
  ∃ t1 f, main qsort fuel [argv0; disk; text "initialize"; ((λ d, 48 + d) <$> ds) ++ u; mbr; boot; kernel] t = Done 0 t1 ∧
    files t1 = <[disk := f]> (files t) ∧ bootable v g0 g1 g2 f ∧ image 0 f.
Proof. apply initialize_files. Qed.

Definition sample_files : gmap (list Z) FILE :=
  <[text "mbr" := mkFile (λ _, 7) 512]> (<[text "pure64.sys" := mkFile (λ _, 8) 6144]> {[text "packedKernel.bin" := mkFile (λ _, 9) 300000]}).

Lemma initialize_bootable_witness :
  ∃ t1 f, @main Sample.host Insertion.sort 200%nat [text "bmfs"; text "img"; text "initialize"; text "6291456"; text "mbr"; text "pure64.sys"; text "packedKernel.bin"]
      (Sample.tool sample_files) = Done 0 t1 ∧
    files t1 = <[text "img" := f]> sample_files ∧
    bootable 6291456 (mkFile (λ _, 7) 512) (mkFile (λ _, 8) 6144) (mkFile (λ _, 9) 300000) f ∧ image 0 f.
Proof.
  apply (@initialize_bootable Sample.host Insertion.sort 200%nat (text "bmfs") (text "img") [6; 2; 9; 1; 4; 5; 6] 0%nat [] (text "mbr") (text "pure64.sys")
    (text "packedKernel.bin") (mkFile (λ _, 7) 512) (mkFile (λ _, 8) 6144) (mkFile (λ _, 9) 300000) (Sample.tool sample_files));
    [done|done|done|done|by repeat constructor|lia|done|done|done|done|done|done|done|done|done|done|done|done|done].
Defined.

(** Nothing keeps what is behind the block 0: the kernel goes on in the block 1, which is free for a file. *)
Lemma kernel_in_data v mbr boot kernel f :
  bootable v mbr boot kernel f → minimumDiskSize ≤ v → 0 ≤ f_len boot ≤ BLOCK - 8192 → BLOCK < 8192 + f_len boot + f_len kernel →
  load8 (f_bytes f) BLOCK = load8 (f_bytes kernel) (BLOCK - 8192 - f_len boot) ∧ free_area (blocks f) (records (directory_of f) 0) 1 1.
Proof.
  intros HB Hv Hb Hk. split.
  - rewrite <-(bo_kernel _ _ _ _ _ HB) by lia. f_equal. lia.
  - split; [done|]. split; [unfold blocks; rewrite (bo_size _ _ _ _ _ HB); unfold minimumDiskSize in Hv; Z.to_euclidean_division_equations; lia|].
    intros e (k & Hk' & _)%elem_of_records. lia.
Qed.
