(* ===== verification/ImageChain.v ===== *)
(** * From the files of the build to the modules in memory

    [Image/Makefile] packs the kernel and the modules ([Toolchain/ModulePacker/main.c]) and writes the packed kernel behind
    Pure64 on the image ([Bootloader/BMFS/bmfs.c]); Pure64 loads it and jumps to it, and the kernel copies its modules out
    ([Kernel/moduleLoader.c]).  Pure64 is assembly and a parameter: what it promises is [loads_kernel]. *)

From S2P Require Import Prelude KMonad CString World Malloc Loader Bmfs BmfsDirectory BmfsCommands BmfsThms BmfsImage.

(** The boot sector loads 512 sectors from sector 16 on, the first 6144 bytes of which are [pure64.sys]; Pure64 moves what is behind
    them to 1 MiB ([pure64.asm], line 587; its header and its manual promise the first 26 KiB only).  [pure64 f]: the memory when the kernel starts from the disk [f]. *)
Definition loads_kernel (pure64 : Bmfs.FILE → mem) : Prop :=
  ∀ f x, 0 ≤ x < 262144 - 6144 → load8 (pure64 f) (0x100000 + x) = load8 (f_bytes f) (8192 + 6144 + x).

(** The file of a list of bytes. *)
Definition holds_list (g : Bmfs.FILE) (l : list Z) : Prop := f_len g = Z.of_nat (length l) ∧ at_mem (f_bytes g) 0 l.

Lemma kernel_in_memory pure64 v mbr boot kernel f image :
  loads_kernel pure64 → bootable v mbr boot kernel f → f_len boot = 6144 → holds_list kernel image →
  Z.of_nat (length image) ≤ 262144 - 6144 → at_mem (pure64 f) 0x100000 image.
Proof.
  intros Hload HB Hb [Hl Hat] Hlen k c Hk. pose proof (lookup_lt_Some _ _ _ Hk) as Hlt.
  rewrite Hload by lia. rewrite <-(Hat k c Hk). rewrite Z.add_0_l, <-(bo_kernel _ _ _ _ _ HB) by lia. f_equal. lia.
Qed.

(** C16: The build of gatOS, end to end: the packer succeeds; [bmfs initialize] with the packed kernel makes an
    image; and when the machine starts from that image, the loader of the kernel puts every module byte for byte at its address,
    if Pure64 does what it says, the packed kernel is at most 250 KiB and the addresses do not overlap. *)
Theorem image_loads_modules `{Host} qsort (fuel n : nat) pure64 a fs name names k contents targets out argv0 disk mbr boot kernel g0 g1 t :
  (∀ i, write_fails i = false) → no_memory = false → read_only disk = false → loads_kernel pure64 →
  take (Z.to_nat (a_count a)) (a_args a) = name :: names → a_output a ∉ name :: names →
  fs !! name = Some k → (length k < n)%nat →
  Forall2 (λ name l, fs !! name = Some l ∧ (length l < n)%nat ∧ Z.of_nat (length l) < 2 ^ 32) names contents →
  Z.of_nat (length contents) < 2 ^ 32 → (length contents ≤ length targets)%nat →
  apart_from (0x100000 + Z.of_nat (length k)) (Z.of_nat (length (payload contents))) targets contents →
  6291456 ≤ bufferSize * (Z.of_nat fuel - 1) →
  files t !! mbr = Some g0 → files t !! boot = Some g1 → mbr ≠ disk → boot ≠ disk → kernel ≠ disk → 512 ≤ f_len g0 → f_len g1 = 6144 →
  ∃ fs' image, pack n true a fs = Some (0, fs') ∧ fs' !! a_output a = Some image ∧
    (∀ g2, files t !! kernel = Some g2 → holds_list g2 image → Z.of_nat (length image) ≤ 262144 - 6144 →
      ∃ t1 f m' out', main qsort fuel [argv0; disk; text "initialize"; text "6291456"; mbr; boot; kernel] t = Done 0 t1 ∧
        files t1 !! disk = Some f ∧
        loadModules (0x100000 + Z.of_nat (length k)) targets (pure64 f, out) = Some (m', out') ∧
        ∀ (i : nat) addr l, targets !! i = Some addr → contents !! i = Some l → at_mem m' addr l).
Proof.
  intros Hw Hmem Hro Hload Htake Hout Hk Hn Hall Hcount Hlen Hap Hfuel Hm Hb Nm Nb Nk L0 L1.
  destruct (pack_then_load n a fs name names k contents (λ _, 0) 0x100000 targets out Htake Hout Hk Hn Hall Hcount Hlen Hap)
    as (fs' & image & Hp & Hi & _).
  exists fs', image. split; [exact Hp|]. split; [exact Hi|]. intros g2 Hg2 Hl2 Hmax. pose proof Hl2 as [Hlen2 _].
  destruct (initialize_files qsort fuel argv0 disk [6; 2; 9; 1; 4; 5; 6] 0%nat [] mbr boot kernel g0 g1 g2 t)
    as (t1 & f & E & HF & HB & _); try done; [by repeat constructor|lia|lia|lia|rewrite L1, Hlen2; change (value 0 _ * _) with 6291456; lia|].
  destruct (pack_then_load n a fs name names k contents (pure64 f) 0x100000 targets out Htake Hout Hk Hn Hall Hcount Hlen Hap)
    as (fs2 & image2 & Hp2 & Hi2 & Hmod).
  rewrite Hp in Hp2. injection Hp2 as <-. rewrite Hi in Hi2. injection Hi2 as <-.
  destruct Hmod as (m' & out' & Hl & Hat & _); [by apply (kernel_in_memory pure64 6291456 g0 g1 g2)|].
  exists t1, f, m', out'. split; [exact E|]. split; [rewrite HF; apply lookup_insert_eq|]. done.
Qed.

(** A kernel of two bytes and two modules. *)
Module Build.
Definition fs : gmap string (list Z) := list_to_map [("k"%string, [1; 2]); ("a"%string, [10; 20; 30]); ("b"%string, [])].
Definition args : arguments := mkArgs ["k"; "a"; "b"; "unused"]%string "img"%string 3.
Definition packed : list Z := [1; 2] ++ payload [[10; 20; 30]; []].
Definition kernel : Bmfs.FILE := Bmfs.mkFile (put_bytes Sample.zero 0 packed) (Z.of_nat (length packed)).
Definition tool : Tool := Sample.tool (<[text "mbr" := Bmfs.mkFile (λ _, 7) 512]>
  (<[text "pure64.sys" := Bmfs.mkFile (λ _, 8) 6144]> {[text "packedKernel.bin" := kernel]})).
Definition pure64 (f : Bmfs.FILE) : mem := λ x, f_bytes f (8192 + 6144 + (x - 0x100000)).

Lemma packed_image fs' image : pack 10 true args fs = Some (0, fs') → fs' !! "img"%string = Some image → image = packed.
Proof.
  intros Hp Hi. assert (E : ('(_, fs) ← pack 10 true args fs; fs !! "img"%string) = Some packed) by (by vm_compute).
  rewrite Hp in E. cbn [mbind option_bind] in E. rewrite Hi in E. by injection E.
Qed.

Lemma kernel_packed : holds_list kernel packed.
Proof.
  split; [done|]. intros k c Hk. pose proof (lookup_lt_Some _ _ _ Hk) as Hlt.
  assert (Hb : c = uint8 c) by (revert k c Hk Hlt; vm_compute; intros k c Hk _; repeat (destruct k as [|k]; [by injection Hk as <-|]); done).
  rewrite Hb. apply put_bytes_in. by rewrite aget_nat, Nat2Z.id by lia.
Qed.

Lemma pure64_loads : loads_kernel pure64.
Proof. intros f x Hx. unfold pure64, load8. do 2 f_equal. lia. Qed.

Lemma modules_apart : apart_from (0x100000 + Z.of_nat (length [1; 2])) (Z.of_nat (length (payload [[10; 20; 30]; []]))) moduleAddresses [[10; 20; 30]; []].
Proof.
  change (Z.of_nat (length (payload [[10; 20; 30]; []]))) with 15. unfold moduleAddresses. intros i t l Ht Hl.
  destruct i as [|[|i]]; simpl in Ht, Hl; [..|done]; injection Ht as <-; injection Hl as <-;
    (split; [unfold disjoint_areas; simpl; lia|]; intros [|[|j]] t' l' Hne Ht' Hl'; simpl in Ht', Hl';
     [..|done]; injection Ht' as <-; injection Hl' as <-; unfold disjoint_areas; simpl; lia).
Qed.
End Build.

Lemma image_loads_modules_witness :
  ∃ fs' image t1 f m' out', pack 10 true Build.args Build.fs = Some (0, fs') ∧ fs' !! "img"%string = Some image ∧
    files Build.tool !! text "packedKernel.bin" = Some Build.kernel ∧ holds_list Build.kernel image ∧
    @main Sample.host Insertion.sort 200%nat [text "bmfs"; text "image"; text "initialize"; text "6291456"; text "mbr"; text "pure64.sys"; text "packedKernel.bin"]
      Build.tool = Done 0 t1 ∧ files t1 !! text "image" = Some f ∧
    loadModules (0x100000 + 2) moduleAddresses (Build.pure64 f, []) = Some (m', out') ∧ at_mem m' 0x400000 [10; 20; 30].
Proof.
  destruct (@image_loads_modules Sample.host Insertion.sort 200%nat 10%nat Build.pure64 Build.args Build.fs "k"%string ["a"; "b"]%string
    [1; 2] [[10; 20; 30]; []] moduleAddresses [] (text "bmfs") (text "image") (text "mbr") (text "pure64.sys") (text "packedKernel.bin")
    (Bmfs.mkFile (λ _, 7) 512) (Bmfs.mkFile (λ _, 8) 6144) Build.tool) as (fs' & image & Hp & Hi & Hrest);
    [done|done|done|exact Build.pure64_loads|done|by apply (bool_decide_unpack _); vm_compute|done|simpl; lia|by repeat constructor|done|simpl; lia|exact Build.modules_apart|done|done|
     done|done|done|done|done|done|].
  pose proof (Build.packed_image fs' image Hp Hi) as ->.
  destruct (Hrest Build.kernel eq_refl Build.kernel_packed ltac:(done)) as (t1 & f & m' & out' & E & HF & Hl & Hat).
  exists fs', Build.packed, t1, f, m', out'. split; [exact Hp|]. split; [exact Hi|]. split; [done|]. split; [exact Build.kernel_packed|].
  split; [exact E|]. split; [exact HF|]. split; [exact Hl|]. by apply (Hat 0%nat).
Defined.
